(* ===== verification/_CoqProject ===== *)
-Q . S2P
Prelude.v
CudaSys.v
Errors.v
Runtime.v
CudaResult.v
Wrappers.v
ExecutorApi.v
Context.v
Dispatch.v
Resource.v
Handles.v
Buffer.v
Ready.v
BufferProps.v
ContextProps.v
Completion.v
Executor.v
ArgPack.v
HostCb.v
Lanes.v
Drain.v
Teardown.v
LockOrder.v
Loader.v
Marshal.v
Streams.v
Pools.v
Modules.v
Regions.v
Vmm.v
Graphs.v
Launch.v
LaunchProps.v
HandleProps.v
VmmProps.v
StreamProps.v
Constructors.v
RegionProps.v
PackProps.v
PackUpdates.v
Steps.v
Goroutines.v
Steady.v
SteadyDispatch.v
SteadyOps.v
SteadyLaunch.v
Interleaved.v
Accessors.v
RoundTrip.v
Session.v
Witnesses.v
HandleWitnesses.v
MemoryWitnesses.v
InterleavingWitnesses.v
InterleavedWitnesses.v
Boundaries.v
Examples.v
ExampleProps.v
ExampleRuns.v
PipelineRun.v
