(* ===== verification/Prelude.v ===== *)
(** * gocudrv: a verification library for the pure-Go CUDA driver bindings

    gocudrv calls the CUDA driver from Go without cgo.  It has four layers, and this library follows them from the bottom up.

    - [src/cudasys] holds the driver's entry points as fields of [Driver], and finds them in the shared library (with [src/internal/dynload] and [src/internal/platform]).
    - [src/cudaresult] gives every entry point a Go function that tests the field, makes the call and turns the result code into an [error].
    - [src/internal/executor], [src/internal/argpack] and [src/internal/hostcb] give [package cuda] a goroutine pinned to an OS thread, storage for kernel arguments, and a registry of closures the driver may call.
    - [src/cuda] is the client's interface: contexts, buffers, streams, modules, launches, graphs.  Every method locks the objects it uses, tests that they are open and of one context, and submits
      a job to an executor of the context.

    ** How the code is modelled

    [Runtime.v] has the state (heap flags and locks in [Env], executors, context fields, pooled operations, the package's driver, a trace of driver calls) and a monad over it, with the outcomes return, panic, block and
    fatal error; [defer], [recover], read-write locks and cancellation are operations of the monad.  A method is one Definition with the name of the Go method ([Buffer_CopyFromAt] for [Buffer.CopyFromAt]), with
    its guards in the order of the source.  A pointer is an [option]; an object is a record of its immutable fields with an identity [loc], under which the state holds its lock and its [closed] flag.
    Integers are [Z] with every conversion and product that can wrap written out ([uint64], [int64], [uint32]).

    The code of one goroutine is modelled as it is written; what other goroutines hold is in the initial lock table, so that theorems for every state speak of every moment another goroutine may have left.  Where
    the interleaving itself is the subject, the component has a step relation of its own: [Executor.v] ([submit], [Close], [run]), [Completion.v] (the result handshake), [Lanes.v] (wait lanes), [Drain.v]
    (abandoned waits against [Close]), [Teardown.v] (the same, abandoned commands and [Context.Close]), [Pools.v] (who owns a pooled operation), [LockOrder.v] (two-object locking), [HostCb.v] (critical sections of the registry).  They are [Machine]s; the rules [reachable_invariant] and [reachable_step] are in this file.

    Whole operations are interleaved by reading their definitions as programs.  [Steps.text m] is the sequence of atomic steps of [m] (a lock operation, a test or change of a [closed] flag, an access to another field, a
    driver call), with the structure the code has; [Goroutines.step] lets any goroutine take its next step on the shared state, a step that waits for a lock being none.  A job runs in the goroutine that submits it, marked
    with its executor's thread: that executors run jobs one at a time and in order is [Executor.v]'s.

    ** Files

    - [Prelude]: integers, machines, reachability, list lemmas, tactics.  [CudaSys]: fields, calls, out-parameters, descriptor structures, symbol tables, result names (driver.go, result.go).
      [Marshal]: the adapters between the fields and the C calling convention (syscall_bind.go, ipc_bind_windows.go).
    - [Errors]: error values, [errors.Is], [errors.Join], sentinels, [check] (cuda/errors.go, cudaresult/error.go).  [CudaResult]: the 108 wrappers; [Wrappers]: what they have in common.
    - [ExecutorApi], [Executor], [Completion]: internal/executor as its clients see it, and its two protocols.  [ArgPack], [HostCb]: internal/argpack, internal/hostcb.
    - [Loader]: dynload, platform, [cudasys.Load], [cuda.Init], device and version queries.
    - [Context], [Dispatch], [Lanes], [Drain], [Teardown], [Pools], [LockOrder]: context.go, dispatch.go, event_dispatch.go.
    - [Resource], [Handles], [Buffer]: what resources share, hostbuffer.go, hostregister.go, pinned.go, buffer.go, buffer_offset.go, view.go.
    - [Streams]: stream.go, event.go, hostfunc.go.  [Modules]: module.go, link.go, global.go, funcattr.go, occupancy.go.  [Launch]: launch.go, coop.go.
    - [Regions]: pitched.go, volume.go, texture.go, surface.go, pinned_async.go.  [Vmm]: vmm.go, mempool.go, managed.go.  [Graphs]: graph.go, ipc.go, peer.go.
    - [Accessors]: raw.go and the getters of the resources.
    - [Ready]: one operation on a context nobody else is using, step by step; the lemmas functional properties are made of.
    - [BufferProps], [ContextProps], [HandleProps], [LaunchProps], [VmmProps], [StreamProps], [RegionProps], [Constructors], [RoundTrip], [Session], [PackProps], [PackUpdates]: properties.
    - [Steps], [Goroutines]: programs of atomic steps, the machine that interleaves them, what a goroutine knows whatever the others do ([view]) and the weakest precondition it is kept by ([wp]).
      [Steady], [SteadyDispatch], [SteadyOps], [SteadyLaunch]: its rules, for the monad, for executors and contexts, for the operations of resources, for launches.  [Interleaved]: the operations in any number of goroutines.
    - [Witnesses], [HandleWitnesses], [MemoryWitnesses], [InterleavingWitnesses], [InterleavedWitnesses], [Boundaries]: the properties applied to concrete drivers, states and arguments.
    - [Examples]: the four programs of src/examples; [ExampleProps], [ExampleRuns], [PipelineRun]: their properties, and the runs of vector-add and
      event-pipeline from the first call to the last.

    ** What is shown

    Two logics carry the properties of all operations.  [tidy P E m] says that from any state with environment [E], whatever the driver answers, every driver call of [m] satisfies [P] in the environment it is made in
    (thread, locks held, objects open), and that a terminating [m] gives back every lock.  [yields m Q] says that whatever [m] returns satisfies [Q].  Both are compositional; the tactics [tidy_auto], [use_auto] and [build] apply them.

    - Safety: no driver call outside the memory of open, locked buffers ([buffer_ops_safe]); handles, launches and region copies likewise ([handle_ops_safe], [launch_safe], [region_ops_safe]).
    - Interleaving: [interleaved_ops_safe] has these operations, allocation, every [Close], [Device.Primary] and [Context.Close], called by any number of goroutines, in any order of their atomic steps, and what was promised of
      each still holds, with the locks of its own goroutine: no resource is released under an operation of another.  [operations_alone]: uninterrupted, these programs are the operations.
    - Types: constructors give well-formed resources of their context or an error ([constructors_sound]); these are the hypotheses of the safety properties.
    - Function: every branch of offset copies, allocation, views, closing, contexts, lanes, devices, packing; launch shapes that cover their elements.
    - Round trips: [write_read_back] and [pitched_read_back]; [pack_then_launch] packs arguments and launches them, [packed_updates_refine] updates them in between as a list of values; [adapters_deliver] reads the registers of a driver call back as its arguments; [session_copies] composes allocation, copies and closing.
    - Transactions: virtual memory is acquired all or nothing, and its teardown can be retried, against a ledger of what the driver holds; the driver is loaded, the primary context retained and host functions registered without leaks.
    - Programs: vector-add on any accepting driver makes its 26 calls and checks its 1024 sums ([vector_add_run]); event-pipeline makes its 74, and its streams and events
      order uploads, launches and downloads ([event_pipeline_run]); all examples keep the locks on any driver ([examples_settle]).
    - Protocols, in every interleaving: executor jobs run in order and once, [Close] drains; the result handshake recycles once; lanes and callbacks are consistent;
      a handle is not destroyed under an abandoned wait ([drain_safe]), nor a context released under an abandoned wait or command ([teardown_safe]), and waiting and closing end
      ([drain_terminates], [teardown_terminates]); a pooled operation has one owner ([pooled_ops_exclusive]);
      ordered locking cannot deadlock and the machines terminate.
    - Findings: two buffers locked in argument order deadlock ([CopyToDevice_deadlocks]); a peer copy into a closed context ([CopyToPeer_closed_destination]); [newBatch] of event-pipeline
      cannot report its errors ([newBatch_never_fails]); [Boundaries.v] has two smaller ones.

    ** Foreign parts

    The driver is the class [Foreign]: any function from thread, call and world to result code, out-parameters and world; most properties hold for every such function.  [Linker] is dlopen and dlsym, [HostMemory] the byte slices the
    linker's logs are written to, [Files] the file system.  Where a property needs more, it says what CUDA documents: [driver_grants] (a successful allocation is as large as asked for), [MemoryModel] (a successful copy copies).  Witnesses
    instantiate each of them with concrete functions.

    No definition uses fuel: recursion is structural (options, arguments, locks, executors of a context), waiting is an outcome or a step relation.  The number of polls after which a [context.Context] is cancelled is
    part of the state and arbitrary.

    ** Not modelled

    [SyscallN] and the assembly trampoline of purego; garbage collection and [runtime.KeepAlive] (no value of the model is ever collected); [time.Duration]
    formatting and what the examples print.  The kernel of the examples is the text of its PTX file: its effect is the driver's.  The memory behind a host slice is only its address and length, except in [RoundTrip.v].  The allocation
    and [Close] of virtual memory, [LaunchHostFunc], [cuda.Init] and device queries are not among the interleaved operations of [Interleaved.v], since what the first two change (ownership flags, the callback registry) is a value
    they return and not part of the shared state; [tidy] covers them from every initial state.  Field accesses are atomic: the Go memory model's races on plain fields do not arise
    while the locks are kept, which is what that file proves, and its machine does not ask which accesses race. *)

From Stdlib Require Export ZArith Lia.
From stdpp Require Export base tactics numbers list gmap relations strings pretty.

Declare Scope go_scope.
Delimit Scope go_scope with go.
Open Scope Z_scope.

(** ** Hint databases of the development *)

Create HintDb gocu discriminated.
Create Rewrite HintDb gocu_simp.

(** ** Machine integers

    A Go integer of width [w] is a [Z]; every place where the source may
    wrap writes the wrap-around out with one of these functions. *)

Definition wrap_unsigned (w z : Z) : Z := z mod 2 ^ w.

Definition wrap_signed (w z : Z) : Z := (z + 2 ^ (w - 1)) mod 2 ^ w - 2 ^ (w - 1).

Definition uint8 (z : Z) : Z := wrap_unsigned 8 z.
Definition uint16 (z : Z) : Z := wrap_unsigned 16 z.
Definition uint32 (z : Z) : Z := wrap_unsigned 32 z.
Definition uint64 (z : Z) : Z := wrap_unsigned 64 z.
Definition int32 (z : Z) : Z := wrap_signed 32 z.
Definition int64 (z : Z) : Z := wrap_signed 64 z.

Definition MaxUint32 : Z := 2 ^ 32 - 1.
Definition MaxUint64 : Z := 2 ^ 64 - 1.
Definition MinInt32 : Z := - 2 ^ 31.
Definition MaxInt32 : Z := 2 ^ 31 - 1.
Definition MaxInt : Z := 2 ^ 63 - 1.

(** [is_int z]: [z] is a value of Go's 64-bit [int]. *)
Definition is_int (z : Z) : Prop := - 2 ^ 63 <= z < 2 ^ 63.
Definition is_uint64 (z : Z) : Prop := 0 <= z < 2 ^ 64.
Definition is_uint32 (z : Z) : Prop := 0 <= z < 2 ^ 32.

(** ** State machines and reachability

    The concurrent components (the executor, the completion handshake, the
    wait lanes, the read-write locks) are step relations.  [invariant_rtc] is the one rule induction the components share. *)

Record Machine := {
  m_state : Type;
  m_init : m_state -> Prop;
  m_step : m_state -> m_state -> Prop
}.

Definition reachable (m : Machine) (s : m_state m) : Prop :=
  exists s0, m_init m s0 /\ rtc (m_step m) s0 s.

(** ** Tactics *)

(** Case analysis on every test of the goal, the discriminee kept as an equation. *)
Ltac split_tests :=
  repeat match goal with
  | |- context [if ?b then _ else _] => destruct b eqn:?
  | |- context [match ?o with Some _ => _ | None => _ end] => destruct o eqn:?
  end.

(** Reflects the boolean comparisons of the hypotheses into propositions. *)
Ltac reflect_bools :=
  repeat match goal with
  | H : (_ && _)%bool = true |- _ => apply andb_true_iff in H; destruct H
  | H : (_ || _)%bool = false |- _ => apply orb_false_iff in H; destruct H
  | H : negb _ = true |- _ => apply negb_true_iff in H
  | H : negb _ = false |- _ => apply negb_false_iff in H
  | H : (_ =? _)%Z = true |- _ => apply Z.eqb_eq in H
  | H : (_ =? _)%Z = false |- _ => apply Z.eqb_neq in H
  | H : (_ <? _)%Z = true |- _ => apply Z.ltb_lt in H
  | H : (_ <? _)%Z = false |- _ => apply Z.ltb_ge in H
  | H : (_ <=? _)%Z = true |- _ => apply Z.leb_le in H
  | H : (_ <=? _)%Z = false |- _ => apply Z.leb_gt in H
  | H : bool_decide _ = true |- _ => apply bool_decide_eq_true in H
  | H : bool_decide _ = false |- _ => apply bool_decide_eq_false in H
  end.

(** [lia] after putting the constants of the widths in normal form. *)
Ltac widths :=
  unfold uint8, uint16, uint32, uint64, int32, int64, wrap_unsigned, wrap_signed,
    MaxUint32, MaxUint64, MinInt32, MaxInt32, MaxInt, is_int, is_uint64, is_uint32 in *;
  change (2 ^ 8) with 256 in *;
  change (2 ^ 16) with 65536 in *;
  change (2 ^ 31) with 2147483648 in *;
  change (2 ^ 32) with 4294967296 in *;
  change (2 ^ (32 - 1)) with 2147483648 in *;
  change (2 ^ 63) with 9223372036854775808 in *;
  change (2 ^ (64 - 1)) with 9223372036854775808 in *;
  change (2 ^ 64) with 18446744073709551616 in *.

Ltac solve_width := widths; try lia; try (Z.div_mod_to_equations; lia).

(** ** Lemmas *)

Lemma uint64_id (z : Z) : is_uint64 z -> uint64 z = z.
Proof. intros H. widths. now apply Z.mod_small. Qed.

Lemma uint32_id (z : Z) : is_uint32 z -> uint32 z = z.
Proof. intros H. widths. now apply Z.mod_small. Qed.

Lemma uint64_of_int (z : Z) : 0 <= z -> is_int z -> uint64 z = z.
Proof. intros H0 H. apply uint64_id. solve_width. Qed.

Lemma int64_id (z : Z) : is_int z -> int64 z = z.
Proof. intros H. widths. rewrite Z.mod_small; lia. Qed.

Lemma int32_id (z : Z) : MinInt32 <= z <= MaxInt32 -> int32 z = z.
Proof. intros H. widths. rewrite Z.mod_small; lia. Qed.

Lemma uint64_range (z : Z) : is_uint64 (uint64 z).
Proof. widths. apply Z.mod_pos_bound. lia. Qed.

Lemma uint32_range (z : Z) : is_uint32 (uint32 z).
Proof. widths. apply Z.mod_pos_bound. lia. Qed.

#[export] Hint Resolve uint64_range uint32_range : gocu.
#[export] Hint Rewrite uint64_id uint32_id int64_id int32_id using (solve_width) : gocu_simp.

(** The rule induction for invariants of a step relation. *)
Lemma invariant_rtc {A : Type} (R : A -> A -> Prop) (I : A -> Prop) :
  (forall s s', I s -> R s s' -> I s') ->
  forall s s', rtc R s s' -> I s -> I s'.
Proof. intros Hstep s s' Hrtc. induction Hrtc; eauto. Qed.

Lemma reachable_invariant (m : Machine) (I : m_state m -> Prop) :
  (forall s, m_init m s -> I s) ->
  (forall s s', I s -> m_step m s s' -> I s') ->
  forall s, reachable m s -> I s.
Proof. intros Hi Hs s (s0 & Hs0 & Hrtc). eapply invariant_rtc; eauto. Qed.

Lemma reachable_step (m : Machine) (s s' : m_state m) :
  reachable m s -> m_step m s s' -> reachable m s'.
Proof.
  intros (s0 & Hs0 & Hrtc) Hs. exists s0. split; [done|].
  eapply rtc_r; eauto.
Qed.

Lemma reachable_rtc (m : Machine) (s s' : m_state m) :
  reachable m s -> rtc (m_step m) s s' -> reachable m s'.
Proof. intros H Hr. induction Hr; eauto using reachable_step. Qed.

(** A boolean test fails on a whole list, or succeeds somewhere. *)
Lemma Forall_false_or {A} (f : A -> bool) (l : list A) : Forall (fun a => f a = false) l \/ exists i a, l !! i = Some a /\ f a = true.
Proof.
  induction l as [|a l IH]; [left; constructor|]. destruct (f a) eqn:Ha; [right; now exists 0%nat, a|].
  destruct IH as [IH|(i & b & Hi & Hb)]; [left; now constructor|right; now exists (S i), b].
Qed.

(** The sum over a list one element of which is replaced. *)
Lemma sum_insert {A : Type} (f : A -> nat) (l : list A) i x y :
  l !! i = Some x -> (sum_list_with f (<[i := y]> l) + f x = sum_list_with f l + f y)%nat.
Proof.
  revert i. induction l as [|z l IH]; intros i Hi; [done|]. destruct i as [|i].
  - injection Hi as ->. change (f y + sum_list_with f l + f x = f x + sum_list_with f l + f y)%nat. lia.
  - specialize (IH i Hi). change (f z + sum_list_with f (<[i := y]> l) + f x = f z + sum_list_with f l + f y)%nat. lia.
Qed.

Lemma sum_lookup {A : Type} (f : A -> nat) (l : list A) i x : l !! i = Some x -> (f x <= sum_list_with f l)%nat.
Proof.
  revert i. induction l as [|z l IH]; intros i Hi; [done|]. cbn [sum_list_with]. destruct i as [|i].
  - injection Hi as ->. lia.
  - specialize (IH i Hi). lia.
Qed.

Lemma sum_zero {A : Type} (f : A -> nat) (l : list A) : sum_list_with f l = 0%nat -> Forall (fun x => f x = 0%nat) l.
Proof. induction l as [|x l IH]; cbn [sum_list_with]; intros H; constructor; [lia|apply IH; lia]. Qed.
