(* ===== verification/CudaSys.v ===== *)
(** * The raw driver ABI (package [cudasys])

    Result codes and their names ([result.go]), the descriptor structures
    passed to the driver ([memcpy2d.go], [memcpy3d.go], [texture.go],
    [surface.go], [vmm.go]), the [Driver] structure of nilable entry points
    ([driver.go]) and the two symbol tables of [syscall_bind.go].

    The CUDA driver itself is not under [src/]: a driver call is a value of
    [call] (one constructor per field of [Driver], carrying the arguments the
    Go code passes) and [out c] is the type of what the driver writes through
    the out-pointers of [c].  What a call does is the parameter [Sys] of
    [Machine]. *)

From S2P Require Import Prelude.

(** ** Result codes *)

Definition CUDA_SUCCESS : Z := 0.
Definition CUDA_ERROR_INVALID_VALUE : Z := 1.
Definition CUDA_ERROR_OUT_OF_MEMORY : Z := 2.
Definition CUDA_ERROR_NOT_INITIALIZED : Z := 3.
Definition CUDA_ERROR_DEINITIALIZED : Z := 4.
Definition CUDA_ERROR_PROFILER_DISABLED : Z := 5.
Definition CUDA_ERROR_STUB_LIBRARY : Z := 34.
Definition CUDA_ERROR_DEVICE_UNAVAILABLE : Z := 46.
Definition CUDA_ERROR_NO_DEVICE : Z := 100.
Definition CUDA_ERROR_INVALID_DEVICE : Z := 101.
Definition CUDA_ERROR_DEVICE_NOT_LICENSED : Z := 102.
Definition CUDA_ERROR_INVALID_IMAGE : Z := 200.
Definition CUDA_ERROR_INVALID_CONTEXT : Z := 201.
Definition CUDA_ERROR_MAP_FAILED : Z := 205.
Definition CUDA_ERROR_UNMAP_FAILED : Z := 206.
Definition CUDA_ERROR_ARRAY_IS_MAPPED : Z := 207.
Definition CUDA_ERROR_ALREADY_MAPPED : Z := 208.
Definition CUDA_ERROR_NO_BINARY_FOR_GPU : Z := 209.
Definition CUDA_ERROR_ALREADY_ACQUIRED : Z := 210.
Definition CUDA_ERROR_NOT_MAPPED : Z := 211.
Definition CUDA_ERROR_NOT_MAPPED_AS_ARRAY : Z := 212.
Definition CUDA_ERROR_NOT_MAPPED_AS_POINTER : Z := 213.
Definition CUDA_ERROR_ECC_UNCORRECTABLE : Z := 214.
Definition CUDA_ERROR_UNSUPPORTED_LIMIT : Z := 215.
Definition CUDA_ERROR_CONTEXT_ALREADY_IN_USE : Z := 216.
Definition CUDA_ERROR_PEER_ACCESS_UNSUPPORTED : Z := 217.
Definition CUDA_ERROR_INVALID_PTX : Z := 218.
Definition CUDA_ERROR_INVALID_GRAPHICS_CONTEXT : Z := 219.
Definition CUDA_ERROR_NVLINK_UNCORRECTABLE : Z := 220.
Definition CUDA_ERROR_JIT_COMPILER_NOT_FOUND : Z := 221.
Definition CUDA_ERROR_UNSUPPORTED_PTX_VERSION : Z := 222.
Definition CUDA_ERROR_INVALID_SOURCE : Z := 300.
Definition CUDA_ERROR_FILE_NOT_FOUND : Z := 301.
Definition CUDA_ERROR_SHARED_OBJECT_SYMBOL_NOT_FOUND : Z := 302.
Definition CUDA_ERROR_SHARED_OBJECT_INIT_FAILED : Z := 303.
Definition CUDA_ERROR_OPERATING_SYSTEM : Z := 304.
Definition CUDA_ERROR_INVALID_HANDLE : Z := 400.
Definition CUDA_ERROR_ILLEGAL_STATE : Z := 401.
Definition CUDA_ERROR_NOT_FOUND : Z := 500.
Definition CUDA_ERROR_NOT_READY : Z := 600.
Definition CUDA_ERROR_ILLEGAL_ADDRESS : Z := 700.
Definition CUDA_ERROR_LAUNCH_OUT_OF_RESOURCES : Z := 701.
Definition CUDA_ERROR_LAUNCH_TIMEOUT : Z := 702.
Definition CUDA_ERROR_LAUNCH_INCOMPATIBLE_TEXTURING : Z := 703.
Definition CUDA_ERROR_PEER_ACCESS_ALREADY_ENABLED : Z := 704.
Definition CUDA_ERROR_PEER_ACCESS_NOT_ENABLED : Z := 705.
Definition CUDA_ERROR_PRIMARY_CONTEXT_ACTIVE : Z := 708.
Definition CUDA_ERROR_CONTEXT_IS_DESTROYED : Z := 709.
Definition CUDA_ERROR_ASSERT : Z := 710.
Definition CUDA_ERROR_TOO_MANY_PEERS : Z := 711.
Definition CUDA_ERROR_HOST_MEMORY_ALREADY_REGISTERED : Z := 712.
Definition CUDA_ERROR_HOST_MEMORY_NOT_REGISTERED : Z := 713.
Definition CUDA_ERROR_HARDWARE_STACK_ERROR : Z := 714.
Definition CUDA_ERROR_ILLEGAL_INSTRUCTION : Z := 715.
Definition CUDA_ERROR_MISALIGNED_ADDRESS : Z := 716.
Definition CUDA_ERROR_INVALID_ADDRESS_SPACE : Z := 717.
Definition CUDA_ERROR_INVALID_PC : Z := 718.
Definition CUDA_ERROR_LAUNCH_FAILED : Z := 719.
Definition CUDA_ERROR_COOPERATIVE_LAUNCH_TOO_LARGE : Z := 720.
Definition CUDA_ERROR_NOT_PERMITTED : Z := 800.
Definition CUDA_ERROR_NOT_SUPPORTED : Z := 801.
Definition CUDA_ERROR_SYSTEM_NOT_READY : Z := 802.
Definition CUDA_ERROR_SYSTEM_DRIVER_MISMATCH : Z := 803.
Definition CUDA_ERROR_COMPAT_NOT_SUPPORTED_ON_DEVICE : Z := 804.
Definition CUDA_ERROR_STREAM_CAPTURE_UNSUPPORTED : Z := 900.
Definition CUDA_ERROR_STREAM_CAPTURE_INVALIDATED : Z := 901.
Definition CUDA_ERROR_STREAM_CAPTURE_MERGE : Z := 902.
Definition CUDA_ERROR_STREAM_CAPTURE_UNMATCHED : Z := 903.
Definition CUDA_ERROR_STREAM_CAPTURE_UNJOINED : Z := 904.
Definition CUDA_ERROR_STREAM_CAPTURE_ISOLATION : Z := 905.
Definition CUDA_ERROR_STREAM_CAPTURE_IMPLICIT : Z := 906.
Definition CUDA_ERROR_CAPTURED_EVENT : Z := 907.
Definition CUDA_ERROR_STREAM_CAPTURE_WRONG_THREAD : Z := 908.
Definition CUDA_ERROR_TIMEOUT : Z := 909.
Definition CUDA_ERROR_GRAPH_EXEC_UPDATE_FAILURE : Z := 910.
Definition CUDA_ERROR_EXTERNAL_DEVICE : Z := 911.
Definition CUDA_ERROR_UNKNOWN : Z := 999.

(** The table behind [CUresult.Name]. *)
Definition cuResultNames : list (Z * string) := [
  (CUDA_SUCCESS, "CUDA_SUCCESS"%string);
  (CUDA_ERROR_INVALID_VALUE, "CUDA_ERROR_INVALID_VALUE"%string);
  (CUDA_ERROR_OUT_OF_MEMORY, "CUDA_ERROR_OUT_OF_MEMORY"%string);
  (CUDA_ERROR_NOT_INITIALIZED, "CUDA_ERROR_NOT_INITIALIZED"%string);
  (CUDA_ERROR_DEINITIALIZED, "CUDA_ERROR_DEINITIALIZED"%string);
  (CUDA_ERROR_PROFILER_DISABLED, "CUDA_ERROR_PROFILER_DISABLED"%string);
  (CUDA_ERROR_STUB_LIBRARY, "CUDA_ERROR_STUB_LIBRARY"%string);
  (CUDA_ERROR_DEVICE_UNAVAILABLE, "CUDA_ERROR_DEVICE_UNAVAILABLE"%string);
  (CUDA_ERROR_NO_DEVICE, "CUDA_ERROR_NO_DEVICE"%string);
  (CUDA_ERROR_INVALID_DEVICE, "CUDA_ERROR_INVALID_DEVICE"%string);
  (CUDA_ERROR_DEVICE_NOT_LICENSED, "CUDA_ERROR_DEVICE_NOT_LICENSED"%string);
  (CUDA_ERROR_INVALID_IMAGE, "CUDA_ERROR_INVALID_IMAGE"%string);
  (CUDA_ERROR_INVALID_CONTEXT, "CUDA_ERROR_INVALID_CONTEXT"%string);
  (CUDA_ERROR_MAP_FAILED, "CUDA_ERROR_MAP_FAILED"%string);
  (CUDA_ERROR_UNMAP_FAILED, "CUDA_ERROR_UNMAP_FAILED"%string);
  (CUDA_ERROR_ARRAY_IS_MAPPED, "CUDA_ERROR_ARRAY_IS_MAPPED"%string);
  (CUDA_ERROR_ALREADY_MAPPED, "CUDA_ERROR_ALREADY_MAPPED"%string);
  (CUDA_ERROR_NO_BINARY_FOR_GPU, "CUDA_ERROR_NO_BINARY_FOR_GPU"%string);
  (CUDA_ERROR_ALREADY_ACQUIRED, "CUDA_ERROR_ALREADY_ACQUIRED"%string);
  (CUDA_ERROR_NOT_MAPPED, "CUDA_ERROR_NOT_MAPPED"%string);
  (CUDA_ERROR_NOT_MAPPED_AS_ARRAY, "CUDA_ERROR_NOT_MAPPED_AS_ARRAY"%string);
  (CUDA_ERROR_NOT_MAPPED_AS_POINTER, "CUDA_ERROR_NOT_MAPPED_AS_POINTER"%string);
  (CUDA_ERROR_ECC_UNCORRECTABLE, "CUDA_ERROR_ECC_UNCORRECTABLE"%string);
  (CUDA_ERROR_UNSUPPORTED_LIMIT, "CUDA_ERROR_UNSUPPORTED_LIMIT"%string);
  (CUDA_ERROR_CONTEXT_ALREADY_IN_USE, "CUDA_ERROR_CONTEXT_ALREADY_IN_USE"%string);
  (CUDA_ERROR_PEER_ACCESS_UNSUPPORTED, "CUDA_ERROR_PEER_ACCESS_UNSUPPORTED"%string);
  (CUDA_ERROR_INVALID_PTX, "CUDA_ERROR_INVALID_PTX"%string);
  (CUDA_ERROR_INVALID_GRAPHICS_CONTEXT, "CUDA_ERROR_INVALID_GRAPHICS_CONTEXT"%string);
  (CUDA_ERROR_NVLINK_UNCORRECTABLE, "CUDA_ERROR_NVLINK_UNCORRECTABLE"%string);
  (CUDA_ERROR_JIT_COMPILER_NOT_FOUND, "CUDA_ERROR_JIT_COMPILER_NOT_FOUND"%string);
  (CUDA_ERROR_UNSUPPORTED_PTX_VERSION, "CUDA_ERROR_UNSUPPORTED_PTX_VERSION"%string);
  (CUDA_ERROR_INVALID_SOURCE, "CUDA_ERROR_INVALID_SOURCE"%string);
  (CUDA_ERROR_FILE_NOT_FOUND, "CUDA_ERROR_FILE_NOT_FOUND"%string);
  (CUDA_ERROR_SHARED_OBJECT_SYMBOL_NOT_FOUND, "CUDA_ERROR_SHARED_OBJECT_SYMBOL_NOT_FOUND"%string);
  (CUDA_ERROR_SHARED_OBJECT_INIT_FAILED, "CUDA_ERROR_SHARED_OBJECT_INIT_FAILED"%string);
  (CUDA_ERROR_OPERATING_SYSTEM, "CUDA_ERROR_OPERATING_SYSTEM"%string);
  (CUDA_ERROR_INVALID_HANDLE, "CUDA_ERROR_INVALID_HANDLE"%string);
  (CUDA_ERROR_ILLEGAL_STATE, "CUDA_ERROR_ILLEGAL_STATE"%string);
  (CUDA_ERROR_NOT_FOUND, "CUDA_ERROR_NOT_FOUND"%string);
  (CUDA_ERROR_NOT_READY, "CUDA_ERROR_NOT_READY"%string);
  (CUDA_ERROR_ILLEGAL_ADDRESS, "CUDA_ERROR_ILLEGAL_ADDRESS"%string);
  (CUDA_ERROR_LAUNCH_OUT_OF_RESOURCES, "CUDA_ERROR_LAUNCH_OUT_OF_RESOURCES"%string);
  (CUDA_ERROR_LAUNCH_TIMEOUT, "CUDA_ERROR_LAUNCH_TIMEOUT"%string);
  (CUDA_ERROR_LAUNCH_INCOMPATIBLE_TEXTURING, "CUDA_ERROR_LAUNCH_INCOMPATIBLE_TEXTURING"%string);
  (CUDA_ERROR_PEER_ACCESS_ALREADY_ENABLED, "CUDA_ERROR_PEER_ACCESS_ALREADY_ENABLED"%string);
  (CUDA_ERROR_PEER_ACCESS_NOT_ENABLED, "CUDA_ERROR_PEER_ACCESS_NOT_ENABLED"%string);
  (CUDA_ERROR_PRIMARY_CONTEXT_ACTIVE, "CUDA_ERROR_PRIMARY_CONTEXT_ACTIVE"%string);
  (CUDA_ERROR_CONTEXT_IS_DESTROYED, "CUDA_ERROR_CONTEXT_IS_DESTROYED"%string);
  (CUDA_ERROR_ASSERT, "CUDA_ERROR_ASSERT"%string);
  (CUDA_ERROR_TOO_MANY_PEERS, "CUDA_ERROR_TOO_MANY_PEERS"%string);
  (CUDA_ERROR_HOST_MEMORY_ALREADY_REGISTERED, "CUDA_ERROR_HOST_MEMORY_ALREADY_REGISTERED"%string);
  (CUDA_ERROR_HOST_MEMORY_NOT_REGISTERED, "CUDA_ERROR_HOST_MEMORY_NOT_REGISTERED"%string);
  (CUDA_ERROR_HARDWARE_STACK_ERROR, "CUDA_ERROR_HARDWARE_STACK_ERROR"%string);
  (CUDA_ERROR_ILLEGAL_INSTRUCTION, "CUDA_ERROR_ILLEGAL_INSTRUCTION"%string);
  (CUDA_ERROR_MISALIGNED_ADDRESS, "CUDA_ERROR_MISALIGNED_ADDRESS"%string);
  (CUDA_ERROR_INVALID_ADDRESS_SPACE, "CUDA_ERROR_INVALID_ADDRESS_SPACE"%string);
  (CUDA_ERROR_INVALID_PC, "CUDA_ERROR_INVALID_PC"%string);
  (CUDA_ERROR_LAUNCH_FAILED, "CUDA_ERROR_LAUNCH_FAILED"%string);
  (CUDA_ERROR_COOPERATIVE_LAUNCH_TOO_LARGE, "CUDA_ERROR_COOPERATIVE_LAUNCH_TOO_LARGE"%string);
  (CUDA_ERROR_NOT_PERMITTED, "CUDA_ERROR_NOT_PERMITTED"%string);
  (CUDA_ERROR_NOT_SUPPORTED, "CUDA_ERROR_NOT_SUPPORTED"%string);
  (CUDA_ERROR_SYSTEM_NOT_READY, "CUDA_ERROR_SYSTEM_NOT_READY"%string);
  (CUDA_ERROR_SYSTEM_DRIVER_MISMATCH, "CUDA_ERROR_SYSTEM_DRIVER_MISMATCH"%string);
  (CUDA_ERROR_COMPAT_NOT_SUPPORTED_ON_DEVICE, "CUDA_ERROR_COMPAT_NOT_SUPPORTED_ON_DEVICE"%string);
  (CUDA_ERROR_STREAM_CAPTURE_UNSUPPORTED, "CUDA_ERROR_STREAM_CAPTURE_UNSUPPORTED"%string);
  (CUDA_ERROR_STREAM_CAPTURE_INVALIDATED, "CUDA_ERROR_STREAM_CAPTURE_INVALIDATED"%string);
  (CUDA_ERROR_STREAM_CAPTURE_MERGE, "CUDA_ERROR_STREAM_CAPTURE_MERGE"%string);
  (CUDA_ERROR_STREAM_CAPTURE_UNMATCHED, "CUDA_ERROR_STREAM_CAPTURE_UNMATCHED"%string);
  (CUDA_ERROR_STREAM_CAPTURE_UNJOINED, "CUDA_ERROR_STREAM_CAPTURE_UNJOINED"%string);
  (CUDA_ERROR_STREAM_CAPTURE_ISOLATION, "CUDA_ERROR_STREAM_CAPTURE_ISOLATION"%string);
  (CUDA_ERROR_STREAM_CAPTURE_IMPLICIT, "CUDA_ERROR_STREAM_CAPTURE_IMPLICIT"%string);
  (CUDA_ERROR_CAPTURED_EVENT, "CUDA_ERROR_CAPTURED_EVENT"%string);
  (CUDA_ERROR_STREAM_CAPTURE_WRONG_THREAD, "CUDA_ERROR_STREAM_CAPTURE_WRONG_THREAD"%string);
  (CUDA_ERROR_TIMEOUT, "CUDA_ERROR_TIMEOUT"%string);
  (CUDA_ERROR_GRAPH_EXEC_UPDATE_FAILURE, "CUDA_ERROR_GRAPH_EXEC_UPDATE_FAILURE"%string);
  (CUDA_ERROR_EXTERNAL_DEVICE, "CUDA_ERROR_EXTERNAL_DEVICE"%string);
  (CUDA_ERROR_UNKNOWN, "CUDA_ERROR_UNKNOWN"%string)
].

(** [CUresult.Name]: a missing key of the Go map gives the zero string. *)
Definition CUresult_Name (r : Z) : string :=
  default EmptyString ((list_to_map cuResultNames : gmap Z string) !! r).

(** ** Descriptors *)

Definition MemoryTypeHost : Z := 1.
Definition MemoryTypeDevice : Z := 2.
Definition MemoryTypeArray : Z := 3.
Definition MemoryTypeUnified : Z := 4.

Record CUDA_MEMCPY2D := mkMemcpy2D {
  m2_SrcXInBytes : Z;
  m2_SrcY : Z;
  m2_SrcMemoryType : Z;
  m2_SrcHost : Z;
  m2_SrcDevice : Z;
  m2_SrcArray : Z;
  m2_SrcPitch : Z;
  m2_DstXInBytes : Z;
  m2_DstY : Z;
  m2_DstMemoryType : Z;
  m2_DstHost : Z;
  m2_DstDevice : Z;
  m2_DstArray : Z;
  m2_DstPitch : Z;
  m2_WidthInBytes : Z;
  m2_Height : Z
}.

Record CUDA_MEMCPY3D := mkMemcpy3D {
  m3_SrcXInBytes : Z;
  m3_SrcY : Z;
  m3_SrcZ : Z;
  m3_SrcLOD : Z;
  m3_SrcMemoryType : Z;
  m3_SrcHost : Z;
  m3_SrcDevice : Z;
  m3_SrcArray : Z;
  m3_SrcPitch : Z;
  m3_SrcHeight : Z;
  m3_DstXInBytes : Z;
  m3_DstY : Z;
  m3_DstZ : Z;
  m3_DstLOD : Z;
  m3_DstMemoryType : Z;
  m3_DstHost : Z;
  m3_DstDevice : Z;
  m3_DstArray : Z;
  m3_DstPitch : Z;
  m3_DstHeight : Z;
  m3_WidthInBytes : Z;
  m3_Height : Z;
  m3_Depth : Z
}.

Record CUDA_ARRAY_DESCRIPTOR := mkCUDA_ARRAY_DESCRIPTOR {
  ad_Width : Z;
  ad_Height : Z;
  ad_Format : Z;
  ad_NumChannels : Z
}.

Record CUDA_ARRAY3D_DESCRIPTOR := mkCUDA_ARRAY3D_DESCRIPTOR {
  a3_Width : Z;
  a3_Height : Z;
  a3_Depth : Z;
  a3_Format : Z;
  a3_NumChannels : Z;
  a3_Flags : Z
}.

Record CUDA_RESOURCE_DESC := mkCUDA_RESOURCE_DESC {
  rd_ResType : Z;
  rd_Handle : Z;
  rd_Flags : Z
}.

(** The fields the code leaves at zero after [Flags] (anisotropy, mipmaps, border
    colour) are not carried. *)
Record CUDA_TEXTURE_DESC := mkCUDA_TEXTURE_DESC {
  td_AddressMode : Z * Z * Z;
  td_FilterMode : Z;
  td_Flags : Z
}.

Record CUmemLocation := mkCUmemLocation {
  loc_Type : Z;
  loc_Id : Z
}.

Record CUmemAllocationProp := mkCUmemAllocationProp {
  ap_Type : Z;
  ap_RequestedHandleTypes : Z;
  ap_Location : CUmemLocation
}.

Record CUmemAccessDesc := mkCUmemAccessDesc {
  acc_Location : CUmemLocation;
  acc_Flags : Z
}.

Definition dim3 : Type := Z * Z * Z.

(** What [kernelParams] points to: nil, or one argument value (its bytes) per entry. *)
Definition kernel_params : Type := option (list (list Z)).

(** ** The entry points of [Driver] *)

(** One constructor per function-typed field of the Go structure. *)
Inductive field :=
| F_CuInit
| F_CuDriverGetVersion
| F_CuDeviceGetCount
| F_CuDeviceGet
| F_CuDeviceGetName
| F_CuDeviceTotalMem
| F_CuDeviceGetAttribute
| F_CuDeviceGetPCIBusId
| F_CuDeviceGetUuid
| F_CuCtxGetCurrent
| F_CuCtxSetCurrent
| F_CuCtxSynchronize
| F_CuCtxGetStreamPriorityRange
| F_CuDevicePrimaryCtxRetain
| F_CuDevicePrimaryCtxRelease
| F_CuMemAlloc
| F_CuMemFree
| F_CuMemAllocAsync
| F_CuMemFreeAsync
| F_CuMemGetInfo
| F_CuMemcpyHtoD
| F_CuMemcpyDtoH
| F_CuMemcpyDtoD
| F_CuMemcpyHtoDAsync
| F_CuMemcpyDtoHAsync
| F_CuMemcpyDtoDAsync
| F_CuMemsetD8
| F_CuMemsetD16
| F_CuMemsetD32
| F_CuMemsetD8Async
| F_CuMemsetD16Async
| F_CuMemsetD32Async
| F_CuMemAllocHost
| F_CuMemFreeHost
| F_CuMemHostRegister
| F_CuMemHostUnregister
| F_CuMemAllocPitch
| F_CuMemcpy2D
| F_CuMemcpy2DAsync
| F_CuMemcpy3D
| F_CuMemcpy3DAsync
| F_CuArrayCreate
| F_CuArray3DCreate
| F_CuArrayDestroy
| F_CuTexObjectCreate
| F_CuTexObjectDestroy
| F_CuSurfObjectCreate
| F_CuSurfObjectDestroy
| F_CuDeviceGetDefaultMemPool
| F_CuMemPoolGetAttribute
| F_CuMemPoolSetAttribute
| F_CuMemAllocFromPoolAsync
| F_CuModuleLoadData
| F_CuModuleLoadDataEx
| F_CuModuleUnload
| F_CuModuleGetFunction
| F_CuModuleGetGlobal
| F_CuLinkCreate
| F_CuLinkAddData
| F_CuLinkComplete
| F_CuLinkDestroy
| F_CuStreamCreate
| F_CuStreamCreateWithPriority
| F_CuStreamDestroy
| F_CuStreamSynchronize
| F_CuStreamQuery
| F_CuStreamWaitEvent
| F_CuEventCreate
| F_CuEventDestroy
| F_CuEventRecord
| F_CuEventQuery
| F_CuEventSynchronize
| F_CuEventElapsedTime
| F_CuLaunchKernel
| F_CuLaunchCooperativeKernel
| F_CuLaunchHostFunc
| F_CuIpcGetMemHandle
| F_CuIpcOpenMemHandle
| F_CuIpcCloseMemHandle
| F_CuIpcGetEventHandle
| F_CuIpcOpenEventHandle
| F_CuOccupancyMaxActiveBlocksPerMultiprocessor
| F_CuOccupancyMaxPotentialBlockSize
| F_CuStreamBeginCapture
| F_CuStreamEndCapture
| F_CuGraphInstantiate
| F_CuGraphLaunch
| F_CuGraphDestroy
| F_CuGraphExecDestroy
| F_CuGraphExecUpdate
| F_CuMemAllocManaged
| F_CuMemPrefetchAsync
| F_CuMemAdvise
| F_CuMemGetAllocationGranularity
| F_CuMemCreate
| F_CuMemAddressReserve
| F_CuMemMap
| F_CuMemSetAccess
| F_CuMemUnmap
| F_CuMemAddressFree
| F_CuMemRelease
| F_CuFuncSetAttribute
| F_CuFuncGetAttribute
| F_CuPointerGetAttribute
| F_CuDeviceCanAccessPeer
| F_CuCtxEnablePeerAccess
| F_CuCtxDisablePeerAccess
| F_CuMemcpyPeer.

Definition all_fields : list field := [
  F_CuInit;
  F_CuDriverGetVersion;
  F_CuDeviceGetCount;
  F_CuDeviceGet;
  F_CuDeviceGetName;
  F_CuDeviceTotalMem;
  F_CuDeviceGetAttribute;
  F_CuDeviceGetPCIBusId;
  F_CuDeviceGetUuid;
  F_CuCtxGetCurrent;
  F_CuCtxSetCurrent;
  F_CuCtxSynchronize;
  F_CuCtxGetStreamPriorityRange;
  F_CuDevicePrimaryCtxRetain;
  F_CuDevicePrimaryCtxRelease;
  F_CuMemAlloc;
  F_CuMemFree;
  F_CuMemAllocAsync;
  F_CuMemFreeAsync;
  F_CuMemGetInfo;
  F_CuMemcpyHtoD;
  F_CuMemcpyDtoH;
  F_CuMemcpyDtoD;
  F_CuMemcpyHtoDAsync;
  F_CuMemcpyDtoHAsync;
  F_CuMemcpyDtoDAsync;
  F_CuMemsetD8;
  F_CuMemsetD16;
  F_CuMemsetD32;
  F_CuMemsetD8Async;
  F_CuMemsetD16Async;
  F_CuMemsetD32Async;
  F_CuMemAllocHost;
  F_CuMemFreeHost;
  F_CuMemHostRegister;
  F_CuMemHostUnregister;
  F_CuMemAllocPitch;
  F_CuMemcpy2D;
  F_CuMemcpy2DAsync;
  F_CuMemcpy3D;
  F_CuMemcpy3DAsync;
  F_CuArrayCreate;
  F_CuArray3DCreate;
  F_CuArrayDestroy;
  F_CuTexObjectCreate;
  F_CuTexObjectDestroy;
  F_CuSurfObjectCreate;
  F_CuSurfObjectDestroy;
  F_CuDeviceGetDefaultMemPool;
  F_CuMemPoolGetAttribute;
  F_CuMemPoolSetAttribute;
  F_CuMemAllocFromPoolAsync;
  F_CuModuleLoadData;
  F_CuModuleLoadDataEx;
  F_CuModuleUnload;
  F_CuModuleGetFunction;
  F_CuModuleGetGlobal;
  F_CuLinkCreate;
  F_CuLinkAddData;
  F_CuLinkComplete;
  F_CuLinkDestroy;
  F_CuStreamCreate;
  F_CuStreamCreateWithPriority;
  F_CuStreamDestroy;
  F_CuStreamSynchronize;
  F_CuStreamQuery;
  F_CuStreamWaitEvent;
  F_CuEventCreate;
  F_CuEventDestroy;
  F_CuEventRecord;
  F_CuEventQuery;
  F_CuEventSynchronize;
  F_CuEventElapsedTime;
  F_CuLaunchKernel;
  F_CuLaunchCooperativeKernel;
  F_CuLaunchHostFunc;
  F_CuIpcGetMemHandle;
  F_CuIpcOpenMemHandle;
  F_CuIpcCloseMemHandle;
  F_CuIpcGetEventHandle;
  F_CuIpcOpenEventHandle;
  F_CuOccupancyMaxActiveBlocksPerMultiprocessor;
  F_CuOccupancyMaxPotentialBlockSize;
  F_CuStreamBeginCapture;
  F_CuStreamEndCapture;
  F_CuGraphInstantiate;
  F_CuGraphLaunch;
  F_CuGraphDestroy;
  F_CuGraphExecDestroy;
  F_CuGraphExecUpdate;
  F_CuMemAllocManaged;
  F_CuMemPrefetchAsync;
  F_CuMemAdvise;
  F_CuMemGetAllocationGranularity;
  F_CuMemCreate;
  F_CuMemAddressReserve;
  F_CuMemMap;
  F_CuMemSetAccess;
  F_CuMemUnmap;
  F_CuMemAddressFree;
  F_CuMemRelease;
  F_CuFuncSetAttribute;
  F_CuFuncGetAttribute;
  F_CuPointerGetAttribute;
  F_CuDeviceCanAccessPeer;
  F_CuCtxEnablePeerAccess;
  F_CuCtxDisablePeerAccess;
  F_CuMemcpyPeer
].

Definition field_index (f : field) : nat :=
  match f with
  | F_CuInit => 0%nat
  | F_CuDriverGetVersion => 1%nat
  | F_CuDeviceGetCount => 2%nat
  | F_CuDeviceGet => 3%nat
  | F_CuDeviceGetName => 4%nat
  | F_CuDeviceTotalMem => 5%nat
  | F_CuDeviceGetAttribute => 6%nat
  | F_CuDeviceGetPCIBusId => 7%nat
  | F_CuDeviceGetUuid => 8%nat
  | F_CuCtxGetCurrent => 9%nat
  | F_CuCtxSetCurrent => 10%nat
  | F_CuCtxSynchronize => 11%nat
  | F_CuCtxGetStreamPriorityRange => 12%nat
  | F_CuDevicePrimaryCtxRetain => 13%nat
  | F_CuDevicePrimaryCtxRelease => 14%nat
  | F_CuMemAlloc => 15%nat
  | F_CuMemFree => 16%nat
  | F_CuMemAllocAsync => 17%nat
  | F_CuMemFreeAsync => 18%nat
  | F_CuMemGetInfo => 19%nat
  | F_CuMemcpyHtoD => 20%nat
  | F_CuMemcpyDtoH => 21%nat
  | F_CuMemcpyDtoD => 22%nat
  | F_CuMemcpyHtoDAsync => 23%nat
  | F_CuMemcpyDtoHAsync => 24%nat
  | F_CuMemcpyDtoDAsync => 25%nat
  | F_CuMemsetD8 => 26%nat
  | F_CuMemsetD16 => 27%nat
  | F_CuMemsetD32 => 28%nat
  | F_CuMemsetD8Async => 29%nat
  | F_CuMemsetD16Async => 30%nat
  | F_CuMemsetD32Async => 31%nat
  | F_CuMemAllocHost => 32%nat
  | F_CuMemFreeHost => 33%nat
  | F_CuMemHostRegister => 34%nat
  | F_CuMemHostUnregister => 35%nat
  | F_CuMemAllocPitch => 36%nat
  | F_CuMemcpy2D => 37%nat
  | F_CuMemcpy2DAsync => 38%nat
  | F_CuMemcpy3D => 39%nat
  | F_CuMemcpy3DAsync => 40%nat
  | F_CuArrayCreate => 41%nat
  | F_CuArray3DCreate => 42%nat
  | F_CuArrayDestroy => 43%nat
  | F_CuTexObjectCreate => 44%nat
  | F_CuTexObjectDestroy => 45%nat
  | F_CuSurfObjectCreate => 46%nat
  | F_CuSurfObjectDestroy => 47%nat
  | F_CuDeviceGetDefaultMemPool => 48%nat
  | F_CuMemPoolGetAttribute => 49%nat
  | F_CuMemPoolSetAttribute => 50%nat
  | F_CuMemAllocFromPoolAsync => 51%nat
  | F_CuModuleLoadData => 52%nat
  | F_CuModuleLoadDataEx => 53%nat
  | F_CuModuleUnload => 54%nat
  | F_CuModuleGetFunction => 55%nat
  | F_CuModuleGetGlobal => 56%nat
  | F_CuLinkCreate => 57%nat
  | F_CuLinkAddData => 58%nat
  | F_CuLinkComplete => 59%nat
  | F_CuLinkDestroy => 60%nat
  | F_CuStreamCreate => 61%nat
  | F_CuStreamCreateWithPriority => 62%nat
  | F_CuStreamDestroy => 63%nat
  | F_CuStreamSynchronize => 64%nat
  | F_CuStreamQuery => 65%nat
  | F_CuStreamWaitEvent => 66%nat
  | F_CuEventCreate => 67%nat
  | F_CuEventDestroy => 68%nat
  | F_CuEventRecord => 69%nat
  | F_CuEventQuery => 70%nat
  | F_CuEventSynchronize => 71%nat
  | F_CuEventElapsedTime => 72%nat
  | F_CuLaunchKernel => 73%nat
  | F_CuLaunchCooperativeKernel => 74%nat
  | F_CuLaunchHostFunc => 75%nat
  | F_CuIpcGetMemHandle => 76%nat
  | F_CuIpcOpenMemHandle => 77%nat
  | F_CuIpcCloseMemHandle => 78%nat
  | F_CuIpcGetEventHandle => 79%nat
  | F_CuIpcOpenEventHandle => 80%nat
  | F_CuOccupancyMaxActiveBlocksPerMultiprocessor => 81%nat
  | F_CuOccupancyMaxPotentialBlockSize => 82%nat
  | F_CuStreamBeginCapture => 83%nat
  | F_CuStreamEndCapture => 84%nat
  | F_CuGraphInstantiate => 85%nat
  | F_CuGraphLaunch => 86%nat
  | F_CuGraphDestroy => 87%nat
  | F_CuGraphExecDestroy => 88%nat
  | F_CuGraphExecUpdate => 89%nat
  | F_CuMemAllocManaged => 90%nat
  | F_CuMemPrefetchAsync => 91%nat
  | F_CuMemAdvise => 92%nat
  | F_CuMemGetAllocationGranularity => 93%nat
  | F_CuMemCreate => 94%nat
  | F_CuMemAddressReserve => 95%nat
  | F_CuMemMap => 96%nat
  | F_CuMemSetAccess => 97%nat
  | F_CuMemUnmap => 98%nat
  | F_CuMemAddressFree => 99%nat
  | F_CuMemRelease => 100%nat
  | F_CuFuncSetAttribute => 101%nat
  | F_CuFuncGetAttribute => 102%nat
  | F_CuPointerGetAttribute => 103%nat
  | F_CuDeviceCanAccessPeer => 104%nat
  | F_CuCtxEnablePeerAccess => 105%nat
  | F_CuCtxDisablePeerAccess => 106%nat
  | F_CuMemcpyPeer => 107%nat
  end.

(** A driver call with the arguments the Go code passes.  Pointers to host memory are addresses,
    in-parameters given by pointer (descriptors, images, names, option lists) are their contents. *)
Inductive call :=
| CuInit (flags : Z)
| CuDriverGetVersion
| CuDeviceGetCount
| CuDeviceGet (ordinal : Z)
| CuDeviceGetName (length : Z) (dev : Z)
| CuDeviceTotalMem (dev : Z)
| CuDeviceGetAttribute (attr : Z) (dev : Z)
| CuDeviceGetPCIBusId (length : Z) (dev : Z)
| CuDeviceGetUuid (dev : Z)
| CuCtxGetCurrent
| CuCtxSetCurrent (ctx : Z)
| CuCtxSynchronize
| CuCtxGetStreamPriorityRange
| CuDevicePrimaryCtxRetain (dev : Z)
| CuDevicePrimaryCtxRelease (dev : Z)
| CuMemAlloc (bytesize : Z)
| CuMemFree (devPtr : Z)
| CuMemAllocAsync (bytesize : Z) (stream : Z)
| CuMemFreeAsync (devPtr : Z) (stream : Z)
| CuMemGetInfo
| CuMemcpyHtoD (dst : Z) (src : Z) (byteCount : Z)
| CuMemcpyDtoH (dst : Z) (src : Z) (byteCount : Z)
| CuMemcpyDtoD (dst : Z) (src : Z) (byteCount : Z)
| CuMemcpyHtoDAsync (dst : Z) (src : Z) (byteCount : Z) (stream : Z)
| CuMemcpyDtoHAsync (dst : Z) (src : Z) (byteCount : Z) (stream : Z)
| CuMemcpyDtoDAsync (dst : Z) (src : Z) (byteCount : Z) (stream : Z)
| CuMemsetD8 (dst : Z) (value : Z) (count : Z)
| CuMemsetD16 (dst : Z) (value : Z) (count : Z)
| CuMemsetD32 (dst : Z) (value : Z) (count : Z)
| CuMemsetD8Async (dst : Z) (value : Z) (count : Z) (stream : Z)
| CuMemsetD16Async (dst : Z) (value : Z) (count : Z) (stream : Z)
| CuMemsetD32Async (dst : Z) (value : Z) (count : Z) (stream : Z)
| CuMemAllocHost (bytesize : Z)
| CuMemFreeHost (p : Z)
| CuMemHostRegister (p : Z) (bytesize : Z) (flags : Z)
| CuMemHostUnregister (p : Z)
| CuMemAllocPitch (widthInBytes : Z) (height : Z) (elementSizeBytes : Z)
| CuMemcpy2D (pCopy : CUDA_MEMCPY2D)
| CuMemcpy2DAsync (pCopy : CUDA_MEMCPY2D) (stream : Z)
| CuMemcpy3D (pCopy : CUDA_MEMCPY3D)
| CuMemcpy3DAsync (pCopy : CUDA_MEMCPY3D) (stream : Z)
| CuArrayCreate (pAllocateArray : CUDA_ARRAY_DESCRIPTOR)
| CuArray3DCreate (pAllocateArray : CUDA_ARRAY3D_DESCRIPTOR)
| CuArrayDestroy (hArray : Z)
| CuTexObjectCreate (pResDesc : CUDA_RESOURCE_DESC) (pTexDesc : CUDA_TEXTURE_DESC)
| CuTexObjectDestroy (texObject : Z)
| CuSurfObjectCreate (pResDesc : CUDA_RESOURCE_DESC)
| CuSurfObjectDestroy (surfObject : Z)
| CuDeviceGetDefaultMemPool (dev : Z)
| CuMemPoolGetAttribute (pool : Z) (attr : Z)
| CuMemPoolSetAttribute (pool : Z) (attr : Z) (value : Z)
| CuMemAllocFromPoolAsync (bytesize : Z) (pool : Z) (stream : Z)
| CuModuleLoadData (image : list Z)
| CuModuleLoadDataEx (image : list Z) (options : list Z) (optionValues : list Z)
| CuModuleUnload (module : Z)
| CuModuleGetFunction (module : Z) (name : list Z)
| CuModuleGetGlobal (module : Z) (name : list Z)
| CuLinkCreate (options : list Z) (optionValues : list Z)
| CuLinkAddData (state : Z) (inputType : Z) (data : list Z) (size : Z) (name : option (list Z))
| CuLinkComplete (state : Z)
| CuLinkDestroy (state : Z)
| CuStreamCreate (flags : Z)
| CuStreamCreateWithPriority (flags : Z) (priority : Z)
| CuStreamDestroy (stream : Z)
| CuStreamSynchronize (stream : Z)
| CuStreamQuery (stream : Z)
| CuStreamWaitEvent (stream : Z) (event : Z) (flags : Z)
| CuEventCreate (flags : Z)
| CuEventDestroy (event : Z)
| CuEventRecord (event : Z) (stream : Z)
| CuEventQuery (event : Z)
| CuEventSynchronize (event : Z)
| CuEventElapsedTime (start : Z) (end_ : Z)
| CuLaunchKernel (fn : Z) (grid : dim3) (block : dim3) (sharedMemBytes : Z) (stream : Z) (kernelParams : kernel_params)
| CuLaunchCooperativeKernel (fn : Z) (grid : dim3) (block : dim3) (sharedMemBytes : Z) (stream : Z) (kernelParams : kernel_params)
| CuLaunchHostFunc (stream : Z) (fn : Z) (userData : Z)
| CuIpcGetMemHandle (dptr : Z)
| CuIpcOpenMemHandle (handle : list Z) (flags : Z)
| CuIpcCloseMemHandle (dptr : Z)
| CuIpcGetEventHandle (event : Z)
| CuIpcOpenEventHandle (handle : list Z)
| CuOccupancyMaxActiveBlocksPerMultiprocessor (fn : Z) (blockSize : Z) (dynamicSMemSize : Z)
| CuOccupancyMaxPotentialBlockSize (fn : Z) (blockSizeToDynamicSMemSize : Z) (dynamicSMemSize : Z) (blockSizeLimit : Z)
| CuStreamBeginCapture (stream : Z) (mode : Z)
| CuStreamEndCapture (stream : Z)
| CuGraphInstantiate (graph : Z) (flags : Z)
| CuGraphLaunch (execGraph : Z) (stream : Z)
| CuGraphDestroy (graph : Z)
| CuGraphExecDestroy (execGraph : Z)
| CuGraphExecUpdate (execGraph : Z) (graph : Z)
| CuMemAllocManaged (bytesize : Z) (flags : Z)
| CuMemPrefetchAsync (devPtr : Z) (count : Z) (dstDevice : Z) (stream : Z)
| CuMemAdvise (devPtr : Z) (count : Z) (advice : Z) (device : Z)
| CuMemGetAllocationGranularity (prop : CUmemAllocationProp) (option_ : Z)
| CuMemCreate (size : Z) (prop : CUmemAllocationProp) (flags : Z)
| CuMemAddressReserve (size : Z) (alignment : Z) (addr : Z) (flags : Z)
| CuMemMap (ptr : Z) (size : Z) (offset : Z) (handle : Z) (flags : Z)
| CuMemSetAccess (ptr : Z) (size : Z) (desc : CUmemAccessDesc) (count : Z)
| CuMemUnmap (ptr : Z) (size : Z)
| CuMemAddressFree (ptr : Z) (size : Z)
| CuMemRelease (handle : Z)
| CuFuncSetAttribute (fn : Z) (attrib : Z) (value : Z)
| CuFuncGetAttribute (attrib : Z) (fn : Z)
| CuPointerGetAttribute (attribute : Z) (ptr : Z)
| CuDeviceCanAccessPeer (dev : Z) (peerDev : Z)
| CuCtxEnablePeerAccess (peerContext : Z) (flags : Z)
| CuCtxDisablePeerAccess (peerContext : Z)
| CuMemcpyPeer (dstDevice : Z) (dstContext : Z) (srcDevice : Z) (srcContext : Z) (byteCount : Z).

(** The field of [Driver] a call goes through. *)
Definition call_field (c : call) : field :=
  match c with
  | CuInit _ => F_CuInit
  | CuDriverGetVersion => F_CuDriverGetVersion
  | CuDeviceGetCount => F_CuDeviceGetCount
  | CuDeviceGet _ => F_CuDeviceGet
  | CuDeviceGetName _ _ => F_CuDeviceGetName
  | CuDeviceTotalMem _ => F_CuDeviceTotalMem
  | CuDeviceGetAttribute _ _ => F_CuDeviceGetAttribute
  | CuDeviceGetPCIBusId _ _ => F_CuDeviceGetPCIBusId
  | CuDeviceGetUuid _ => F_CuDeviceGetUuid
  | CuCtxGetCurrent => F_CuCtxGetCurrent
  | CuCtxSetCurrent _ => F_CuCtxSetCurrent
  | CuCtxSynchronize => F_CuCtxSynchronize
  | CuCtxGetStreamPriorityRange => F_CuCtxGetStreamPriorityRange
  | CuDevicePrimaryCtxRetain _ => F_CuDevicePrimaryCtxRetain
  | CuDevicePrimaryCtxRelease _ => F_CuDevicePrimaryCtxRelease
  | CuMemAlloc _ => F_CuMemAlloc
  | CuMemFree _ => F_CuMemFree
  | CuMemAllocAsync _ _ => F_CuMemAllocAsync
  | CuMemFreeAsync _ _ => F_CuMemFreeAsync
  | CuMemGetInfo => F_CuMemGetInfo
  | CuMemcpyHtoD _ _ _ => F_CuMemcpyHtoD
  | CuMemcpyDtoH _ _ _ => F_CuMemcpyDtoH
  | CuMemcpyDtoD _ _ _ => F_CuMemcpyDtoD
  | CuMemcpyHtoDAsync _ _ _ _ => F_CuMemcpyHtoDAsync
  | CuMemcpyDtoHAsync _ _ _ _ => F_CuMemcpyDtoHAsync
  | CuMemcpyDtoDAsync _ _ _ _ => F_CuMemcpyDtoDAsync
  | CuMemsetD8 _ _ _ => F_CuMemsetD8
  | CuMemsetD16 _ _ _ => F_CuMemsetD16
  | CuMemsetD32 _ _ _ => F_CuMemsetD32
  | CuMemsetD8Async _ _ _ _ => F_CuMemsetD8Async
  | CuMemsetD16Async _ _ _ _ => F_CuMemsetD16Async
  | CuMemsetD32Async _ _ _ _ => F_CuMemsetD32Async
  | CuMemAllocHost _ => F_CuMemAllocHost
  | CuMemFreeHost _ => F_CuMemFreeHost
  | CuMemHostRegister _ _ _ => F_CuMemHostRegister
  | CuMemHostUnregister _ => F_CuMemHostUnregister
  | CuMemAllocPitch _ _ _ => F_CuMemAllocPitch
  | CuMemcpy2D _ => F_CuMemcpy2D
  | CuMemcpy2DAsync _ _ => F_CuMemcpy2DAsync
  | CuMemcpy3D _ => F_CuMemcpy3D
  | CuMemcpy3DAsync _ _ => F_CuMemcpy3DAsync
  | CuArrayCreate _ => F_CuArrayCreate
  | CuArray3DCreate _ => F_CuArray3DCreate
  | CuArrayDestroy _ => F_CuArrayDestroy
  | CuTexObjectCreate _ _ => F_CuTexObjectCreate
  | CuTexObjectDestroy _ => F_CuTexObjectDestroy
  | CuSurfObjectCreate _ => F_CuSurfObjectCreate
  | CuSurfObjectDestroy _ => F_CuSurfObjectDestroy
  | CuDeviceGetDefaultMemPool _ => F_CuDeviceGetDefaultMemPool
  | CuMemPoolGetAttribute _ _ => F_CuMemPoolGetAttribute
  | CuMemPoolSetAttribute _ _ _ => F_CuMemPoolSetAttribute
  | CuMemAllocFromPoolAsync _ _ _ => F_CuMemAllocFromPoolAsync
  | CuModuleLoadData _ => F_CuModuleLoadData
  | CuModuleLoadDataEx _ _ _ => F_CuModuleLoadDataEx
  | CuModuleUnload _ => F_CuModuleUnload
  | CuModuleGetFunction _ _ => F_CuModuleGetFunction
  | CuModuleGetGlobal _ _ => F_CuModuleGetGlobal
  | CuLinkCreate _ _ => F_CuLinkCreate
  | CuLinkAddData _ _ _ _ _ => F_CuLinkAddData
  | CuLinkComplete _ => F_CuLinkComplete
  | CuLinkDestroy _ => F_CuLinkDestroy
  | CuStreamCreate _ => F_CuStreamCreate
  | CuStreamCreateWithPriority _ _ => F_CuStreamCreateWithPriority
  | CuStreamDestroy _ => F_CuStreamDestroy
  | CuStreamSynchronize _ => F_CuStreamSynchronize
  | CuStreamQuery _ => F_CuStreamQuery
  | CuStreamWaitEvent _ _ _ => F_CuStreamWaitEvent
  | CuEventCreate _ => F_CuEventCreate
  | CuEventDestroy _ => F_CuEventDestroy
  | CuEventRecord _ _ => F_CuEventRecord
  | CuEventQuery _ => F_CuEventQuery
  | CuEventSynchronize _ => F_CuEventSynchronize
  | CuEventElapsedTime _ _ => F_CuEventElapsedTime
  | CuLaunchKernel _ _ _ _ _ _ => F_CuLaunchKernel
  | CuLaunchCooperativeKernel _ _ _ _ _ _ => F_CuLaunchCooperativeKernel
  | CuLaunchHostFunc _ _ _ => F_CuLaunchHostFunc
  | CuIpcGetMemHandle _ => F_CuIpcGetMemHandle
  | CuIpcOpenMemHandle _ _ => F_CuIpcOpenMemHandle
  | CuIpcCloseMemHandle _ => F_CuIpcCloseMemHandle
  | CuIpcGetEventHandle _ => F_CuIpcGetEventHandle
  | CuIpcOpenEventHandle _ => F_CuIpcOpenEventHandle
  | CuOccupancyMaxActiveBlocksPerMultiprocessor _ _ _ => F_CuOccupancyMaxActiveBlocksPerMultiprocessor
  | CuOccupancyMaxPotentialBlockSize _ _ _ _ => F_CuOccupancyMaxPotentialBlockSize
  | CuStreamBeginCapture _ _ => F_CuStreamBeginCapture
  | CuStreamEndCapture _ => F_CuStreamEndCapture
  | CuGraphInstantiate _ _ => F_CuGraphInstantiate
  | CuGraphLaunch _ _ => F_CuGraphLaunch
  | CuGraphDestroy _ => F_CuGraphDestroy
  | CuGraphExecDestroy _ => F_CuGraphExecDestroy
  | CuGraphExecUpdate _ _ => F_CuGraphExecUpdate
  | CuMemAllocManaged _ _ => F_CuMemAllocManaged
  | CuMemPrefetchAsync _ _ _ _ => F_CuMemPrefetchAsync
  | CuMemAdvise _ _ _ _ => F_CuMemAdvise
  | CuMemGetAllocationGranularity _ _ => F_CuMemGetAllocationGranularity
  | CuMemCreate _ _ _ => F_CuMemCreate
  | CuMemAddressReserve _ _ _ _ => F_CuMemAddressReserve
  | CuMemMap _ _ _ _ _ => F_CuMemMap
  | CuMemSetAccess _ _ _ _ => F_CuMemSetAccess
  | CuMemUnmap _ _ => F_CuMemUnmap
  | CuMemAddressFree _ _ => F_CuMemAddressFree
  | CuMemRelease _ => F_CuMemRelease
  | CuFuncSetAttribute _ _ _ => F_CuFuncSetAttribute
  | CuFuncGetAttribute _ _ => F_CuFuncGetAttribute
  | CuPointerGetAttribute _ _ => F_CuPointerGetAttribute
  | CuDeviceCanAccessPeer _ _ => F_CuDeviceCanAccessPeer
  | CuCtxEnablePeerAccess _ _ => F_CuCtxEnablePeerAccess
  | CuCtxDisablePeerAccess _ => F_CuCtxDisablePeerAccess
  | CuMemcpyPeer _ _ _ _ _ => F_CuMemcpyPeer
  end.

(** What the driver writes through the out-pointers of a call. *)
Definition out (c : call) : Type :=
  match c with
  | CuDriverGetVersion => Z
  | CuDeviceGetCount => Z
  | CuDeviceGet _ => Z
  | CuDeviceGetName _ _ => list Z
  | CuDeviceTotalMem _ => Z
  | CuDeviceGetAttribute _ _ => Z
  | CuDeviceGetPCIBusId _ _ => list Z
  | CuDeviceGetUuid _ => list Z
  | CuCtxGetCurrent => Z
  | CuCtxGetStreamPriorityRange => Z * Z
  | CuDevicePrimaryCtxRetain _ => Z
  | CuMemAlloc _ => Z
  | CuMemAllocAsync _ _ => Z
  | CuMemGetInfo => Z * Z
  | CuMemAllocHost _ => Z
  | CuMemAllocPitch _ _ _ => Z * Z
  | CuArrayCreate _ => Z
  | CuArray3DCreate _ => Z
  | CuTexObjectCreate _ _ => Z
  | CuSurfObjectCreate _ => Z
  | CuDeviceGetDefaultMemPool _ => Z
  | CuMemPoolGetAttribute _ _ => Z
  | CuMemAllocFromPoolAsync _ _ _ => Z
  | CuModuleLoadData _ => Z
  | CuModuleLoadDataEx _ _ _ => Z
  | CuModuleGetFunction _ _ => Z
  | CuModuleGetGlobal _ _ => Z * Z
  | CuLinkCreate _ _ => Z
  | CuLinkComplete _ => Z * Z
  | CuStreamCreate _ => Z
  | CuStreamCreateWithPriority _ _ => Z
  | CuEventCreate _ => Z
  | CuEventElapsedTime _ _ => Z
  | CuIpcGetMemHandle _ => list Z
  | CuIpcOpenMemHandle _ _ => Z
  | CuIpcGetEventHandle _ => list Z
  | CuIpcOpenEventHandle _ => Z
  | CuOccupancyMaxActiveBlocksPerMultiprocessor _ _ _ => Z
  | CuOccupancyMaxPotentialBlockSize _ _ _ _ => Z * Z
  | CuStreamEndCapture _ => Z
  | CuGraphInstantiate _ _ => Z
  | CuGraphExecUpdate _ _ => Z * Z
  | CuMemAllocManaged _ _ => Z
  | CuMemGetAllocationGranularity _ _ => Z
  | CuMemCreate _ _ _ => Z
  | CuMemAddressReserve _ _ _ _ => Z
  | CuFuncGetAttribute _ _ => Z
  | CuPointerGetAttribute _ _ => Z
  | CuDeviceCanAccessPeer _ _ => Z
  | _ => unit
  end.

(** The Go zero value of the out-variables. *)
Definition out_zero (c : call) : out c :=
  match c return out c with
  | CuInit _ => tt
  | CuDriverGetVersion => 0%Z
  | CuDeviceGetCount => 0%Z
  | CuDeviceGet _ => 0%Z
  | CuDeviceGetName _ _ => @nil Z
  | CuDeviceTotalMem _ => 0%Z
  | CuDeviceGetAttribute _ _ => 0%Z
  | CuDeviceGetPCIBusId _ _ => @nil Z
  | CuDeviceGetUuid _ => @nil Z
  | CuCtxGetCurrent => 0%Z
  | CuCtxSetCurrent _ => tt
  | CuCtxSynchronize => tt
  | CuCtxGetStreamPriorityRange => (0%Z, 0%Z)
  | CuDevicePrimaryCtxRetain _ => 0%Z
  | CuDevicePrimaryCtxRelease _ => tt
  | CuMemAlloc _ => 0%Z
  | CuMemFree _ => tt
  | CuMemAllocAsync _ _ => 0%Z
  | CuMemFreeAsync _ _ => tt
  | CuMemGetInfo => (0%Z, 0%Z)
  | CuMemcpyHtoD _ _ _ => tt
  | CuMemcpyDtoH _ _ _ => tt
  | CuMemcpyDtoD _ _ _ => tt
  | CuMemcpyHtoDAsync _ _ _ _ => tt
  | CuMemcpyDtoHAsync _ _ _ _ => tt
  | CuMemcpyDtoDAsync _ _ _ _ => tt
  | CuMemsetD8 _ _ _ => tt
  | CuMemsetD16 _ _ _ => tt
  | CuMemsetD32 _ _ _ => tt
  | CuMemsetD8Async _ _ _ _ => tt
  | CuMemsetD16Async _ _ _ _ => tt
  | CuMemsetD32Async _ _ _ _ => tt
  | CuMemAllocHost _ => 0%Z
  | CuMemFreeHost _ => tt
  | CuMemHostRegister _ _ _ => tt
  | CuMemHostUnregister _ => tt
  | CuMemAllocPitch _ _ _ => (0%Z, 0%Z)
  | CuMemcpy2D _ => tt
  | CuMemcpy2DAsync _ _ => tt
  | CuMemcpy3D _ => tt
  | CuMemcpy3DAsync _ _ => tt
  | CuArrayCreate _ => 0%Z
  | CuArray3DCreate _ => 0%Z
  | CuArrayDestroy _ => tt
  | CuTexObjectCreate _ _ => 0%Z
  | CuTexObjectDestroy _ => tt
  | CuSurfObjectCreate _ => 0%Z
  | CuSurfObjectDestroy _ => tt
  | CuDeviceGetDefaultMemPool _ => 0%Z
  | CuMemPoolGetAttribute _ _ => 0%Z
  | CuMemPoolSetAttribute _ _ _ => tt
  | CuMemAllocFromPoolAsync _ _ _ => 0%Z
  | CuModuleLoadData _ => 0%Z
  | CuModuleLoadDataEx _ _ _ => 0%Z
  | CuModuleUnload _ => tt
  | CuModuleGetFunction _ _ => 0%Z
  | CuModuleGetGlobal _ _ => (0%Z, 0%Z)
  | CuLinkCreate _ _ => 0%Z
  | CuLinkAddData _ _ _ _ _ => tt
  | CuLinkComplete _ => (0%Z, 0%Z)
  | CuLinkDestroy _ => tt
  | CuStreamCreate _ => 0%Z
  | CuStreamCreateWithPriority _ _ => 0%Z
  | CuStreamDestroy _ => tt
  | CuStreamSynchronize _ => tt
  | CuStreamQuery _ => tt
  | CuStreamWaitEvent _ _ _ => tt
  | CuEventCreate _ => 0%Z
  | CuEventDestroy _ => tt
  | CuEventRecord _ _ => tt
  | CuEventQuery _ => tt
  | CuEventSynchronize _ => tt
  | CuEventElapsedTime _ _ => 0%Z
  | CuLaunchKernel _ _ _ _ _ _ => tt
  | CuLaunchCooperativeKernel _ _ _ _ _ _ => tt
  | CuLaunchHostFunc _ _ _ => tt
  | CuIpcGetMemHandle _ => @nil Z
  | CuIpcOpenMemHandle _ _ => 0%Z
  | CuIpcCloseMemHandle _ => tt
  | CuIpcGetEventHandle _ => @nil Z
  | CuIpcOpenEventHandle _ => 0%Z
  | CuOccupancyMaxActiveBlocksPerMultiprocessor _ _ _ => 0%Z
  | CuOccupancyMaxPotentialBlockSize _ _ _ _ => (0%Z, 0%Z)
  | CuStreamBeginCapture _ _ => tt
  | CuStreamEndCapture _ => 0%Z
  | CuGraphInstantiate _ _ => 0%Z
  | CuGraphLaunch _ _ => tt
  | CuGraphDestroy _ => tt
  | CuGraphExecDestroy _ => tt
  | CuGraphExecUpdate _ _ => (0%Z, 0%Z)
  | CuMemAllocManaged _ _ => 0%Z
  | CuMemPrefetchAsync _ _ _ _ => tt
  | CuMemAdvise _ _ _ _ => tt
  | CuMemGetAllocationGranularity _ _ => 0%Z
  | CuMemCreate _ _ _ => 0%Z
  | CuMemAddressReserve _ _ _ _ => 0%Z
  | CuMemMap _ _ _ _ _ => tt
  | CuMemSetAccess _ _ _ _ => tt
  | CuMemUnmap _ _ => tt
  | CuMemAddressFree _ _ => tt
  | CuMemRelease _ => tt
  | CuFuncSetAttribute _ _ _ => tt
  | CuFuncGetAttribute _ _ => 0%Z
  | CuPointerGetAttribute _ _ => 0%Z
  | CuDeviceCanAccessPeer _ _ => 0%Z
  | CuCtxEnablePeerAccess _ _ => tt
  | CuCtxDisablePeerAccess _ => tt
  | CuMemcpyPeer _ _ _ _ _ => tt
  end.

(** ** The driver structure *)

(** [Driver]: the library handle it owns (nil for a hand-made driver) and which fields are non-nil. *)
Record Driver := mkDriver {
  drv_lib : option Z;
  drv_bound : field -> bool
}.

#[export] Instance field_eq_dec : EqDecision field.
Proof.
  refine (fun a b => cast_if (decide (field_index a = field_index b))); [|congruence].
  abstract (intros; assert (Ha : all_fields !! field_index a = Some a) by (destruct a; reflexivity);
    assert (Hb : all_fields !! field_index b = Some b) by (destruct b; reflexivity); congruence).
Defined.

Definition set_field (d : Driver) (f : field) : Driver :=
  mkDriver (drv_lib d) (fun g => bool_decide (f = g) || drv_bound d g).

(** ** Symbol tables *)

(** [boundSymbol]: an entry-point name with the field its [set] assigns. *)
Definition boundSymbol : Type := string * field.

Definition requiredSymbols : list boundSymbol := [
  ("cuInit"%string, F_CuInit);
  ("cuDriverGetVersion"%string, F_CuDriverGetVersion);
  ("cuDeviceGetCount"%string, F_CuDeviceGetCount);
  ("cuDeviceGet"%string, F_CuDeviceGet);
  ("cuDeviceGetName"%string, F_CuDeviceGetName);
  ("cuDeviceTotalMem_v2"%string, F_CuDeviceTotalMem);
  ("cuDeviceGetAttribute"%string, F_CuDeviceGetAttribute);
  ("cuCtxGetCurrent"%string, F_CuCtxGetCurrent);
  ("cuCtxSetCurrent"%string, F_CuCtxSetCurrent);
  ("cuCtxSynchronize"%string, F_CuCtxSynchronize);
  ("cuCtxGetStreamPriorityRange"%string, F_CuCtxGetStreamPriorityRange);
  ("cuDevicePrimaryCtxRetain"%string, F_CuDevicePrimaryCtxRetain);
  ("cuDevicePrimaryCtxRelease_v2"%string, F_CuDevicePrimaryCtxRelease);
  ("cuMemAlloc_v2"%string, F_CuMemAlloc);
  ("cuMemFree_v2"%string, F_CuMemFree);
  ("cuMemGetInfo_v2"%string, F_CuMemGetInfo);
  ("cuMemcpyHtoD_v2"%string, F_CuMemcpyHtoD);
  ("cuMemcpyDtoH_v2"%string, F_CuMemcpyDtoH);
  ("cuMemcpyDtoD_v2"%string, F_CuMemcpyDtoD);
  ("cuMemcpyHtoDAsync_v2"%string, F_CuMemcpyHtoDAsync);
  ("cuMemcpyDtoHAsync_v2"%string, F_CuMemcpyDtoHAsync);
  ("cuMemcpyDtoDAsync_v2"%string, F_CuMemcpyDtoDAsync);
  ("cuMemsetD8_v2"%string, F_CuMemsetD8);
  ("cuMemsetD16_v2"%string, F_CuMemsetD16);
  ("cuMemsetD32_v2"%string, F_CuMemsetD32);
  ("cuMemsetD8Async"%string, F_CuMemsetD8Async);
  ("cuMemsetD16Async"%string, F_CuMemsetD16Async);
  ("cuMemsetD32Async"%string, F_CuMemsetD32Async);
  ("cuMemAllocHost_v2"%string, F_CuMemAllocHost);
  ("cuMemFreeHost"%string, F_CuMemFreeHost);
  ("cuModuleLoadData"%string, F_CuModuleLoadData);
  ("cuModuleLoadDataEx"%string, F_CuModuleLoadDataEx);
  ("cuModuleUnload"%string, F_CuModuleUnload);
  ("cuModuleGetFunction"%string, F_CuModuleGetFunction);
  ("cuModuleGetGlobal_v2"%string, F_CuModuleGetGlobal);
  ("cuStreamCreate"%string, F_CuStreamCreate);
  ("cuStreamCreateWithPriority"%string, F_CuStreamCreateWithPriority);
  ("cuStreamDestroy_v2"%string, F_CuStreamDestroy);
  ("cuStreamSynchronize"%string, F_CuStreamSynchronize);
  ("cuStreamQuery"%string, F_CuStreamQuery);
  ("cuStreamWaitEvent"%string, F_CuStreamWaitEvent);
  ("cuEventCreate"%string, F_CuEventCreate);
  ("cuEventDestroy_v2"%string, F_CuEventDestroy);
  ("cuEventRecord"%string, F_CuEventRecord);
  ("cuEventQuery"%string, F_CuEventQuery);
  ("cuEventSynchronize"%string, F_CuEventSynchronize);
  ("cuEventElapsedTime"%string, F_CuEventElapsedTime);
  ("cuLaunchKernel"%string, F_CuLaunchKernel)
].

Definition optionalSymbols : list boundSymbol := [
  ("cuMemAllocAsync"%string, F_CuMemAllocAsync);
  ("cuMemFreeAsync"%string, F_CuMemFreeAsync);
  ("cuOccupancyMaxActiveBlocksPerMultiprocessor"%string, F_CuOccupancyMaxActiveBlocksPerMultiprocessor);
  ("cuOccupancyMaxPotentialBlockSize"%string, F_CuOccupancyMaxPotentialBlockSize);
  ("cuStreamBeginCapture_v2"%string, F_CuStreamBeginCapture);
  ("cuStreamEndCapture"%string, F_CuStreamEndCapture);
  ("cuGraphInstantiateWithFlags"%string, F_CuGraphInstantiate);
  ("cuGraphLaunch"%string, F_CuGraphLaunch);
  ("cuGraphDestroy"%string, F_CuGraphDestroy);
  ("cuGraphExecDestroy"%string, F_CuGraphExecDestroy);
  ("cuGraphExecUpdate"%string, F_CuGraphExecUpdate);
  ("cuDeviceGetPCIBusId"%string, F_CuDeviceGetPCIBusId);
  ("cuDeviceGetUuid"%string, F_CuDeviceGetUuid);
  ("cuMemHostRegister_v2"%string, F_CuMemHostRegister);
  ("cuMemHostUnregister"%string, F_CuMemHostUnregister);
  ("cuMemAllocPitch_v2"%string, F_CuMemAllocPitch);
  ("cuMemcpy2D_v2"%string, F_CuMemcpy2D);
  ("cuMemcpy2DAsync_v2"%string, F_CuMemcpy2DAsync);
  ("cuMemcpy3D_v2"%string, F_CuMemcpy3D);
  ("cuMemcpy3DAsync_v2"%string, F_CuMemcpy3DAsync);
  ("cuArrayCreate_v2"%string, F_CuArrayCreate);
  ("cuArray3DCreate_v2"%string, F_CuArray3DCreate);
  ("cuArrayDestroy"%string, F_CuArrayDestroy);
  ("cuTexObjectCreate"%string, F_CuTexObjectCreate);
  ("cuTexObjectDestroy"%string, F_CuTexObjectDestroy);
  ("cuSurfObjectCreate"%string, F_CuSurfObjectCreate);
  ("cuSurfObjectDestroy"%string, F_CuSurfObjectDestroy);
  ("cuDeviceGetDefaultMemPool"%string, F_CuDeviceGetDefaultMemPool);
  ("cuMemPoolGetAttribute"%string, F_CuMemPoolGetAttribute);
  ("cuMemPoolSetAttribute"%string, F_CuMemPoolSetAttribute);
  ("cuMemAllocFromPoolAsync"%string, F_CuMemAllocFromPoolAsync);
  ("cuMemAllocManaged"%string, F_CuMemAllocManaged);
  ("cuMemPrefetchAsync"%string, F_CuMemPrefetchAsync);
  ("cuMemAdvise"%string, F_CuMemAdvise);
  ("cuMemGetAllocationGranularity"%string, F_CuMemGetAllocationGranularity);
  ("cuMemCreate"%string, F_CuMemCreate);
  ("cuMemAddressReserve"%string, F_CuMemAddressReserve);
  ("cuMemMap"%string, F_CuMemMap);
  ("cuMemSetAccess"%string, F_CuMemSetAccess);
  ("cuMemUnmap"%string, F_CuMemUnmap);
  ("cuMemAddressFree"%string, F_CuMemAddressFree);
  ("cuMemRelease"%string, F_CuMemRelease);
  ("cuFuncSetAttribute"%string, F_CuFuncSetAttribute);
  ("cuFuncGetAttribute"%string, F_CuFuncGetAttribute);
  ("cuPointerGetAttribute"%string, F_CuPointerGetAttribute);
  ("cuDeviceCanAccessPeer"%string, F_CuDeviceCanAccessPeer);
  ("cuCtxEnablePeerAccess"%string, F_CuCtxEnablePeerAccess);
  ("cuCtxDisablePeerAccess"%string, F_CuCtxDisablePeerAccess);
  ("cuMemcpyPeer"%string, F_CuMemcpyPeer);
  ("cuLaunchCooperativeKernel"%string, F_CuLaunchCooperativeKernel);
  ("cuLaunchHostFunc"%string, F_CuLaunchHostFunc);
  ("cuIpcGetMemHandle"%string, F_CuIpcGetMemHandle);
  ("cuIpcCloseMemHandle"%string, F_CuIpcCloseMemHandle);
  ("cuIpcGetEventHandle"%string, F_CuIpcGetEventHandle);
  ("cuLinkCreate_v2"%string, F_CuLinkCreate);
  ("cuLinkAddData_v2"%string, F_CuLinkAddData);
  ("cuLinkComplete"%string, F_CuLinkComplete);
  ("cuLinkDestroy"%string, F_CuLinkDestroy)
].

(** The two entry points whose 64-byte handle passes by value, bound apart from the tables
    ([ipc_bind_notwindows.go], [ipc_bind_windows.go]). *)
Definition byValueIPC : list boundSymbol := [
  ("cuIpcOpenMemHandle_v2"%string, F_CuIpcOpenMemHandle);
  ("cuIpcOpenEventHandle"%string, F_CuIpcOpenEventHandle)
].

(** A field the wrappers treat as required: its symbol is in [requiredSymbols]. *)
Definition required_field (f : field) : bool :=
  existsb (fun s => bool_decide (snd s = f)) requiredSymbols.

(** ** Lemmas *)

Lemma all_fields_lookup (f : field) : all_fields !! field_index f = Some f.
Proof. now destruct f. Qed.

Lemma set_field_bound (d : Driver) (f g : field) :
  drv_bound (set_field d f) g = bool_decide (f = g) || drv_bound d g.
Proof. done. Qed.

(** Every field of [Driver] is bound by exactly one of the three tables. *)
Lemma tables_cover (f : field) :
  length (List.filter (fun s => bool_decide (snd s = f))
    (requiredSymbols ++ optionalSymbols ++ byValueIPC)) = 1%nat.
Proof. destruct f; vm_compute; reflexivity. Qed.

Lemma symbol_names_distinct :
  NoDup (map fst (requiredSymbols ++ optionalSymbols ++ byValueIPC)).
Proof. apply (bool_decide_unpack _). vm_compute. exact I. Qed.

(** The map literal of [result.go] has no duplicate key or value, so a name identifies its code. *)
Lemma cuResultNames_distinct :
  NoDup (map fst cuResultNames) /\ NoDup (map snd cuResultNames).
Proof. split; apply (bool_decide_unpack _); vm_compute; exact I. Qed.
