(* ===== verification/Errors.v ===== *)
(** * Go errors and the mapping from result codes to errors

    The error values of packages [cudaresult] ([error.go], the immutable errors of [stream.go]) and
    [cuda] ([errors.go], [device.go]), the standard library's [errors.Is] and [errors.Join] as the
    code uses them, and [check], which turns a [CUresult] into an error. *)

From S2P Require Import Prelude CudaSys.

Set Warnings "-register-all".

(** ** Error values

    A Go [error] is an [option error], nil being [None].  A value of [errors.New] is identified by its message: the
    messages of the development's sentinels are distinct ([sentinels_distinct]).  The contexts' errors
    ([context.Canceled], [context.DeadlineExceeded]) are values of the same form. *)

Inductive error :=
| ErrNew (msg : string)
| ErrCode (code : Z) (op : string)
| ErrImmutable (code : Z) (op text : string)
| ErrPanic (value : string)
| ErrWrap (msg : string) (inner : error)
| ErrJoin (errs : list error).

Definition err : Type := option error.

Definition is_nil (e : err) : bool := match e with None => true | Some _ => false end.

(** [err == target] on values whose identity the model keeps; wrapped and joined errors are never used as targets
    by the code, and are the same as nothing. *)
Definition same_value (e t : error) : bool :=
  match e, t with
  | ErrNew m, ErrNew m' => String.eqb m m'
  | ErrCode c o, ErrCode c' o' => (c =? c') && String.eqb o o'
  | ErrImmutable c o x, ErrImmutable c' o' x' => (c =? c') && String.eqb o o' && String.eqb x x'
  | _, _ => false
  end.

(** [Error.Is] of [cudaresult]: only the code is compared. *)
Definition Error_Is (code : Z) (target : error) : bool :=
  match target with
  | ErrCode c _ => code =? c
  | _ => false
  end.

(** [immutableResultError.Is]. *)
Definition immutableResultError_Is (code : Z) (target : error) : bool :=
  match target with
  | ErrCode c _ => code =? c
  | ErrImmutable c _ _ => code =? c
  | _ => false
  end.

(** [immutableResultError.As]: the [*Error] it converts to. *)
Definition immutableResultError_As (code : Z) (op : string) : error := ErrCode code op.

(** [PanicError.Is] of the executor: any panic matches any other. *)
Definition PanicError_Is (target : error) : bool :=
  match target with
  | ErrPanic _ => true
  | _ => false
  end.

(** The [Is] method of a value, when its type has one. *)
Definition method_Is (e t : error) : bool :=
  match e with
  | ErrCode c _ => Error_Is c t
  | ErrImmutable c _ _ => immutableResultError_Is c t
  | ErrPanic _ => PanicError_Is t
  | _ => false
  end.

Fixpoint errors_is_tree (e t : error) : bool :=
  same_value e t || method_Is e t ||
  match e with
  | ErrWrap _ i => errors_is_tree i t
  | ErrJoin es => existsb (fun x => errors_is_tree x t) es
  | _ => false
  end.

(** [errors.Is]. *)
Definition errors_is (e t : err) : bool :=
  match e, t with
  | Some e, Some t => errors_is_tree e t
  | None, None => true
  | _, _ => false
  end.

(** [errors.Join]: nil entries are dropped, nothing left gives nil. *)
Definition errors_join (es : list err) : err :=
  match omap id es with
  | [] => None
  | ns => Some (ErrJoin ns)
  end.

(** ** Result codes to errors (cudaresult) *)

(** [Error.Error]. *)
Definition Error_Error (code : Z) (op : string) : string :=
  let name := CUresult_Name code in
  let name := if String.eqb name EmptyString
              then String.append "CUDA_ERROR_" (pretty (int32 code)) else name in
  if String.eqb op EmptyString then name
  else String.append op (String.append ": " name).

Definition ErrSymbolUnavailable : error := ErrNew "cuda: optional driver symbol unavailable".

Definition ErrInvalidValue : error := ErrCode CUDA_ERROR_INVALID_VALUE EmptyString.
Definition ErrOutOfMemory : error := ErrCode CUDA_ERROR_OUT_OF_MEMORY EmptyString.
Definition ErrNotInitialized : error := ErrCode CUDA_ERROR_NOT_INITIALIZED EmptyString.
Definition ErrDeinitialized : error := ErrCode CUDA_ERROR_DEINITIALIZED EmptyString.
Definition ErrProfilerDisabled : error := ErrCode CUDA_ERROR_PROFILER_DISABLED EmptyString.
Definition ErrStubLibrary : error := ErrCode CUDA_ERROR_STUB_LIBRARY EmptyString.
Definition ErrDeviceUnavailable : error := ErrCode CUDA_ERROR_DEVICE_UNAVAILABLE EmptyString.
Definition ErrNoDevice : error := ErrCode CUDA_ERROR_NO_DEVICE EmptyString.
Definition ErrInvalidDevice : error := ErrCode CUDA_ERROR_INVALID_DEVICE EmptyString.
Definition ErrDeviceNotLicensed : error := ErrCode CUDA_ERROR_DEVICE_NOT_LICENSED EmptyString.
Definition ErrInvalidImage : error := ErrCode CUDA_ERROR_INVALID_IMAGE EmptyString.
Definition ErrInvalidContext : error := ErrCode CUDA_ERROR_INVALID_CONTEXT EmptyString.
Definition ErrNoBinaryForGPU : error := ErrCode CUDA_ERROR_NO_BINARY_FOR_GPU EmptyString.
Definition ErrInvalidPTX : error := ErrCode CUDA_ERROR_INVALID_PTX EmptyString.
Definition ErrUnsupportedPTXVersion : error := ErrCode CUDA_ERROR_UNSUPPORTED_PTX_VERSION EmptyString.
Definition ErrInvalidSource : error := ErrCode CUDA_ERROR_INVALID_SOURCE EmptyString.
Definition ErrFileNotFound : error := ErrCode CUDA_ERROR_FILE_NOT_FOUND EmptyString.
Definition ErrSharedObjectSymbolNotFound : error := ErrCode CUDA_ERROR_SHARED_OBJECT_SYMBOL_NOT_FOUND EmptyString.
Definition ErrSharedObjectInitFailed : error := ErrCode CUDA_ERROR_SHARED_OBJECT_INIT_FAILED EmptyString.
Definition ErrOperatingSystem : error := ErrCode CUDA_ERROR_OPERATING_SYSTEM EmptyString.
Definition ErrInvalidHandle : error := ErrCode CUDA_ERROR_INVALID_HANDLE EmptyString.
Definition ErrIllegalState : error := ErrCode CUDA_ERROR_ILLEGAL_STATE EmptyString.
Definition ErrNotFound : error := ErrCode CUDA_ERROR_NOT_FOUND EmptyString.
Definition ErrNotReady : error := ErrCode CUDA_ERROR_NOT_READY EmptyString.
Definition ErrIllegalAddress : error := ErrCode CUDA_ERROR_ILLEGAL_ADDRESS EmptyString.
Definition ErrLaunchOutOfResources : error := ErrCode CUDA_ERROR_LAUNCH_OUT_OF_RESOURCES EmptyString.
Definition ErrLaunchTimeout : error := ErrCode CUDA_ERROR_LAUNCH_TIMEOUT EmptyString.
Definition ErrLaunchFailed : error := ErrCode CUDA_ERROR_LAUNCH_FAILED EmptyString.
Definition ErrCooperativeLaunchTooLarge : error := ErrCode CUDA_ERROR_COOPERATIVE_LAUNCH_TOO_LARGE EmptyString.
Definition ErrNotPermitted : error := ErrCode CUDA_ERROR_NOT_PERMITTED EmptyString.
Definition ErrNotSupported : error := ErrCode CUDA_ERROR_NOT_SUPPORTED EmptyString.
Definition ErrSystemNotReady : error := ErrCode CUDA_ERROR_SYSTEM_NOT_READY EmptyString.
Definition ErrSystemDriverMismatch : error := ErrCode CUDA_ERROR_SYSTEM_DRIVER_MISMATCH EmptyString.
Definition ErrStreamCaptureUnsupported : error := ErrCode CUDA_ERROR_STREAM_CAPTURE_UNSUPPORTED EmptyString.
Definition ErrStreamCaptureInvalidated : error := ErrCode CUDA_ERROR_STREAM_CAPTURE_INVALIDATED EmptyString.
Definition ErrStreamCaptureMerge : error := ErrCode CUDA_ERROR_STREAM_CAPTURE_MERGE EmptyString.
Definition ErrStreamCaptureUnmatched : error := ErrCode CUDA_ERROR_STREAM_CAPTURE_UNMATCHED EmptyString.
Definition ErrStreamCaptureUnjoined : error := ErrCode CUDA_ERROR_STREAM_CAPTURE_UNJOINED EmptyString.
Definition ErrStreamCaptureIsolation : error := ErrCode CUDA_ERROR_STREAM_CAPTURE_ISOLATION EmptyString.
Definition ErrStreamCaptureImplicit : error := ErrCode CUDA_ERROR_STREAM_CAPTURE_IMPLICIT EmptyString.
Definition ErrCapturedEvent : error := ErrCode CUDA_ERROR_CAPTURED_EVENT EmptyString.
Definition ErrStreamCaptureWrongThread : error := ErrCode CUDA_ERROR_STREAM_CAPTURE_WRONG_THREAD EmptyString.
Definition ErrTimeout : error := ErrCode CUDA_ERROR_TIMEOUT EmptyString.
Definition ErrGraphExecUpdateFailure : error := ErrCode CUDA_ERROR_GRAPH_EXEC_UPDATE_FAILURE EmptyString.
Definition ErrExternalDevice : error := ErrCode CUDA_ERROR_EXTERNAL_DEVICE EmptyString.
Definition ErrUnknown : error := ErrCode CUDA_ERROR_UNKNOWN EmptyString.

(** Converts a result into an error carrying the operation name. *)
Definition check (op : string) (code : Z) : err :=
  if code =? CUDA_SUCCESS then None else Some (ErrCode code op).

Definition checkNotReady (op : string) (code : Z) (notReady : error) : err :=
  if code =? CUDA_ERROR_NOT_READY then Some notReady else check op code.

Definition errStreamQueryNotReady : error :=
  ErrImmutable CUDA_ERROR_NOT_READY "cuStreamQuery" "cuStreamQuery: CUDA_ERROR_NOT_READY".
Definition errEventQueryNotReady : error :=
  ErrImmutable CUDA_ERROR_NOT_READY "cuEventQuery" "cuEventQuery: CUDA_ERROR_NOT_READY".
Definition errEventTimeNotReady : error :=
  ErrImmutable CUDA_ERROR_NOT_READY "cuEventElapsedTime" "cuEventElapsedTime: CUDA_ERROR_NOT_READY".

(** ** Sentinels of package cuda *)

Definition ErrContextClosed : error := ErrNew "cuda: context is closed".
Definition ErrNilContext : error := ErrNew "cuda: nil context".
Definition ErrNilBuffer : error := ErrNew "cuda: nil buffer".
Definition ErrBufferClosed : error := ErrNew "cuda: buffer is closed".
Definition ErrLengthMismatch : error := ErrNew "cuda: length mismatch".
Definition ErrInvalidLength : error := ErrNew "cuda: invalid length".
Definition ErrOutOfRange : error := ErrNew "cuda: copy range out of bounds".
Definition ErrNilModule : error := ErrNew "cuda: nil module".
Definition ErrModuleClosed : error := ErrNew "cuda: module is closed".
Definition ErrEmptyImage : error := ErrNew "cuda: empty module image".
Definition ErrEmptyFunctionName : error := ErrNew "cuda: empty function name".
Definition ErrInvalidFunctionName : error := ErrNew "cuda: function name contains null byte".
Definition ErrNilFunction : error := ErrNew "cuda: nil function".
Definition ErrNilStream : error := ErrNew "cuda: nil stream".
Definition ErrStreamClosed : error := ErrNew "cuda: stream is closed".
Definition ErrInvalidStreamPriority : error := ErrNew "cuda: invalid stream priority".
Definition ErrNilEvent : error := ErrNew "cuda: nil event".
Definition ErrEventClosed : error := ErrNew "cuda: event is closed".
Definition ErrEventTimingDisabled : error := ErrNew "cuda: event timing is disabled".
Definition ErrInvalidLaunchConfig : error := ErrNew "cuda: invalid launch config".
Definition ErrNilKernelArg : error := ErrNew "cuda: nil kernel argument".
Definition ErrInvalidArgSize : error := ErrNew "cuda: invalid raw kernel argument size".
Definition ErrContextMismatch : error := ErrNew "cuda: resource belongs to a different context".
Definition ErrUnsupportedFillType : error := ErrNew "cuda: Fill is unsupported for 8-byte element types".
Definition ErrInvalidBlockSize : error := ErrNew "cuda: block size must be positive".
Definition ErrNilGlobal : error := ErrNew "cuda: nil global".
Definition ErrEmptyGlobalName : error := ErrNew "cuda: empty global name".
Definition ErrInvalidGlobalName : error := ErrNew "cuda: global name contains null byte".
Definition ErrNilGraph : error := ErrNew "cuda: nil graph".
Definition ErrGraphClosed : error := ErrNew "cuda: graph is closed".
Definition ErrNilGraphExec : error := ErrNew "cuda: nil executable graph".
Definition ErrGraphExecClosed : error := ErrNew "cuda: executable graph is closed".
Definition ErrNilMemPool : error := ErrNew "cuda: nil memory pool".
Definition ErrNilArray : error := ErrNew "cuda: nil array".
Definition ErrArrayClosed : error := ErrNew "cuda: array is closed".
Definition ErrNilTexture : error := ErrNew "cuda: nil texture".
Definition ErrTextureClosed : error := ErrNew "cuda: texture is closed".
Definition ErrUnsupportedElement : error := ErrNew "cuda: element type not supported by CUDA arrays".
Definition ErrNilSurface : error := ErrNew "cuda: nil surface".
Definition ErrSurfaceClosed : error := ErrNew "cuda: surface is closed".
Definition ErrNoSurfaceStore : error := ErrNew "cuda: array was not allocated with surface store".
Definition ErrNilHostFunc : error := ErrNew "cuda: nil host function".
Definition ErrEventNotInterprocess : error := ErrNew "cuda: event was not created with WithEventInterprocess".
Definition ErrNilLinker : error := ErrNew "cuda: nil linker".
Definition ErrLinkerClosed : error := ErrNew "cuda: linker is closed".
Definition ErrInvalidOrdinal : error := ErrNew "cuda: invalid device ordinal".
Definition ErrNilDevice : error := ErrNew "cuda: nil device".
Definition ErrIndexOutOfRange : error := ErrNew "cuda: packed argument index out of range".
Definition ErrTypeMismatch : error := ErrNew "cuda: packed argument type mismatch".
Definition ErrSizeMismatch : error := ErrNew "cuda: packed argument size mismatch".
(** Re-exported from [argpack] under the names of package [cuda]. *)
Definition ErrArgIndexOutOfRange : error := ErrIndexOutOfRange.
Definition ErrArgTypeMismatch : error := ErrTypeMismatch.
Definition ErrArgSizeMismatch : error := ErrSizeMismatch.

Definition ErrExecutorClosed : error := ErrNew "cuda: executor is closed".

(** dynload *)
Definition ErrUnsupported : error := ErrNew "dynload: platform not supported".
Definition ErrNoCandidates : error := ErrNew "dynload: no library candidates provided".

(** Standard library: the error of a cancelled [context.Context]. *)
Definition ErrCanceled : error := ErrNew "context canceled".

(** Every [errors.New] value of the development. *)
Definition sentinels : list error := [
  ErrSymbolUnavailable;
  ErrContextClosed;
  ErrNilContext;
  ErrNilBuffer;
  ErrBufferClosed;
  ErrLengthMismatch;
  ErrInvalidLength;
  ErrOutOfRange;
  ErrNilModule;
  ErrModuleClosed;
  ErrEmptyImage;
  ErrEmptyFunctionName;
  ErrInvalidFunctionName;
  ErrNilFunction;
  ErrNilStream;
  ErrStreamClosed;
  ErrInvalidStreamPriority;
  ErrNilEvent;
  ErrEventClosed;
  ErrEventTimingDisabled;
  ErrInvalidLaunchConfig;
  ErrNilKernelArg;
  ErrInvalidArgSize;
  ErrContextMismatch;
  ErrUnsupportedFillType;
  ErrInvalidBlockSize;
  ErrNilGlobal;
  ErrEmptyGlobalName;
  ErrInvalidGlobalName;
  ErrNilGraph;
  ErrGraphClosed;
  ErrNilGraphExec;
  ErrGraphExecClosed;
  ErrNilMemPool;
  ErrNilArray;
  ErrArrayClosed;
  ErrNilTexture;
  ErrTextureClosed;
  ErrUnsupportedElement;
  ErrNilSurface;
  ErrSurfaceClosed;
  ErrNoSurfaceStore;
  ErrNilHostFunc;
  ErrEventNotInterprocess;
  ErrNilLinker;
  ErrLinkerClosed;
  ErrInvalidOrdinal;
  ErrNilDevice;
  ErrIndexOutOfRange;
  ErrTypeMismatch;
  ErrSizeMismatch;
  ErrExecutorClosed;
  ErrUnsupported;
  ErrNoCandidates;
  ErrCanceled
].

(** Every bare [*Error] sentinel. *)
Definition code_sentinels : list error := [
  ErrInvalidValue;
  ErrOutOfMemory;
  ErrNotInitialized;
  ErrDeinitialized;
  ErrProfilerDisabled;
  ErrStubLibrary;
  ErrDeviceUnavailable;
  ErrNoDevice;
  ErrInvalidDevice;
  ErrDeviceNotLicensed;
  ErrInvalidImage;
  ErrInvalidContext;
  ErrNoBinaryForGPU;
  ErrInvalidPTX;
  ErrUnsupportedPTXVersion;
  ErrInvalidSource;
  ErrFileNotFound;
  ErrSharedObjectSymbolNotFound;
  ErrSharedObjectInitFailed;
  ErrOperatingSystem;
  ErrInvalidHandle;
  ErrIllegalState;
  ErrNotFound;
  ErrNotReady;
  ErrIllegalAddress;
  ErrLaunchOutOfResources;
  ErrLaunchTimeout;
  ErrLaunchFailed;
  ErrCooperativeLaunchTooLarge;
  ErrNotPermitted;
  ErrNotSupported;
  ErrSystemNotReady;
  ErrSystemDriverMismatch;
  ErrStreamCaptureUnsupported;
  ErrStreamCaptureInvalidated;
  ErrStreamCaptureMerge;
  ErrStreamCaptureUnmatched;
  ErrStreamCaptureUnjoined;
  ErrStreamCaptureIsolation;
  ErrStreamCaptureImplicit;
  ErrCapturedEvent;
  ErrStreamCaptureWrongThread;
  ErrTimeout;
  ErrGraphExecUpdateFailure;
  ErrExternalDevice;
  ErrUnknown
].

(** ** Lemmas *)

#[export] Instance error_eq_dec : EqDecision error.
Proof.
  refine (fix go (a b : error) {struct a} : Decision (a = b) :=
    match a, b with
    | ErrNew m, ErrNew m' => cast_if (decide (m = m'))
    | ErrCode c o, ErrCode c' o' => cast_if_and (decide (c = c')) (decide (o = o'))
    | ErrImmutable c o x, ErrImmutable c' o' x' =>
        cast_if_and3 (decide (c = c')) (decide (o = o')) (decide (x = x'))
    | ErrPanic v, ErrPanic v' => cast_if (decide (v = v'))
    | ErrWrap m i, ErrWrap m' i' => cast_if_and (decide (m = m')) (go i i')
    | ErrJoin l, ErrJoin l' =>
        cast_if ((fix gol (l l' : list error) {struct l} : Decision (l = l') :=
          match l, l' with
          | [], [] => left eq_refl
          | x :: l, y :: l' => cast_if_and (go x y) (gol l l')
          | _, _ => right _
          end) l l')
    | _, _ => right _
    end); clear go; abstract congruence.
Defined.

Lemma sentinels_distinct : NoDup sentinels.
Proof. apply (bool_decide_unpack _). vm_compute. exact I. Qed.

Lemma check_nil (op : string) (code : Z) : check op code = None <-> code = CUDA_SUCCESS.
Proof. unfold check. destruct (Z.eqb_spec code CUDA_SUCCESS); intuition congruence. Qed.

Lemma check_cases (op : string) (code : Z) :
  (code = CUDA_SUCCESS /\ check op code = None) \/
  (code <> CUDA_SUCCESS /\ check op code = Some (ErrCode code op)).
Proof. unfold check. destruct (Z.eqb_spec code CUDA_SUCCESS); intuition congruence. Qed.

Lemma errors_is_code (c c' : Z) (op op' : string) :
  errors_is (Some (ErrCode c op)) (Some (ErrCode c' op')) = (c =? c').
Proof.
  cbn. destruct (Z.eqb_spec c c'); cbn; [now rewrite orb_true_r|reflexivity].
Qed.

Lemma errors_is_imm (c c' : Z) (op op' x : string) :
  errors_is (Some (ErrImmutable c op x)) (Some (ErrCode c' op')) = (c =? c').
Proof. cbn. now rewrite orb_false_r. Qed.

Lemma errors_join_nil (es : list err) : errors_join es = None <-> Forall (fun e => e = None) es.
Proof.
  unfold errors_join. induction es as [|[e|] es IH]; cbn; [naive_solver| |].
  - split; [done|]. intros H. inversion H. done.
  - rewrite IH. split; [now constructor|]. now inversion 1.
Qed.

Lemma omap_id_elem (es : list err) (e : error) : Some e ∈ es <-> e ∈ omap id es.
Proof.
  rewrite list_elem_of_omap. split; [intros; now exists (Some e)|]. intros (x & Hx & E). cbn in E. now subst x.
Qed.

(** A joined error matches exactly what one of its non-nil parts matches. *)
Lemma errors_join_is (es : list err) (e t : error) :
  Some e ∈ es -> errors_is (Some e) (Some t) = true -> errors_is (errors_join es) (Some t) = true.
Proof.
  intros Hin Ht. unfold errors_join. apply omap_id_elem in Hin.
  destruct (omap id es) as [|n ns] eqn:E; [now apply not_elem_of_nil in Hin|].
  change (existsb (fun x => errors_is_tree x t) (n :: ns) = true).
  apply existsb_exists. exists e. split; [now apply list_elem_of_In|exact Ht].
Qed.

#[export] Hint Rewrite errors_is_code errors_is_imm : gocu_simp.
