(* ===== verification/Runtime.v ===== *)
(** * The Go runtime the code runs on

    The state a call of the library reads and writes, and the monad its functions are translated
    into: read-write locks, [defer], panics and [recover], contexts ([context.Context]) that are
    cancelled after some polls, the thread a driver call is made on, and the driver calls themselves,
    which go to the foreign [Sys] and are recorded in a trace.  One call of the library is modelled at
    a time; what other goroutines hold is in the initial lock table, and a call that would wait for
    them gives [Blocks].  The components whose meaning is the interleaving (executor queue, result
    handshake, wait lanes) have step relations of their own. *)

From S2P Require Import Prelude CudaSys Errors.

(** ** Locks, threads, and the environment of a driver call *)

(** Identity of a heap object: two Go pointers are equal when their [loc]s are. *)
Abbreviation loc := positive.

(** The mutexes: [opMu] of every resource and of [Context], the other mutexes of [Context], [Executor.mu]
    and the package's [mu]. *)
Inductive lockfield := OpMu | CopyMu | SyncMu | LaneCreateMu | ExecMu | PkgMu.

#[export] Instance lockfield_eq_dec : EqDecision lockfield.
Proof. solve_decision. Defined.

#[export] Instance lockfield_countable : Countable lockfield.
Proof.
  refine (inj_countable'
    (fun f => match f with OpMu => 1 | CopyMu => 2 | SyncMu => 3 | LaneCreateMu => 4 | ExecMu => 5 | PkgMu => 6 end%positive)
    (fun p => match p with 1 => OpMu | 2 => CopyMu | 3 => SyncMu | 4 => LaneCreateMu | 5 => ExecMu | _ => PkgMu end%positive) _).
  now intros [].
Defined.

Abbreviation lockid := (positive * lockfield)%type.

(** The lock of the package variables, which live at no object. *)
Definition pkg_mu : lockid := (1%positive, PkgMu).

(** [env_locks_r]: how many readers hold each lock; [env_locks_w]: the locks held by a writer;
    [env_thread]: the executor whose thread runs, or the caller; [env_closed]: the objects whose [closed]
    flag is set. *)
Record Env := mkEnv {
  env_locks_r : gmap lockid positive;
  env_locks_w : gset lockid;
  env_thread : option loc;
  env_closed : gset loc
}.

Definition rlocked (l : lockid) (E : Env) : Env :=
  mkEnv (<[l := match env_locks_r E !! l with Some n => Pos.succ n | None => 1%positive end]> (env_locks_r E))
    (env_locks_w E) (env_thread E) (env_closed E).

Definition runlocked (l : lockid) (E : Env) : Env :=
  mkEnv (match env_locks_r E !! l with
         | Some n => if decide (n = 1%positive) then delete l (env_locks_r E)
                     else <[l := Pos.pred n]> (env_locks_r E)
         | None => env_locks_r E
         end) (env_locks_w E) (env_thread E) (env_closed E).

Definition wlocked (l : lockid) (E : Env) : Env :=
  mkEnv (env_locks_r E) ({[l]} ∪ env_locks_w E) (env_thread E) (env_closed E).

Definition wunlocked (l : lockid) (E : Env) : Env :=
  mkEnv (env_locks_r E) (env_locks_w E ∖ {[l]}) (env_thread E) (env_closed E).

Definition on_thread (t : option loc) (E : Env) : Env :=
  mkEnv (env_locks_r E) (env_locks_w E) t (env_closed E).

Definition with_closed (l : loc) (E : Env) : Env :=
  mkEnv (env_locks_r E) (env_locks_w E) (env_thread E) ({[l]} ∪ env_closed E).

Definition r_held (l : lockid) (E : Env) : Prop := is_Some (env_locks_r E !! l).
Definition w_held (l : lockid) (E : Env) : Prop := l ∈ env_locks_w E.
Definition open (l : loc) (E : Env) : Prop := l ∉ env_closed E.

(** A driver call and the environment it was made in. *)
Definition event : Type := Env * call.

(** ** Objects of the heap *)

(** [syncOp] and its kinds (dispatch.go). *)
Inductive syncOpKind :=
| opStreamSync | opStreamQuery | opStreamWaitEvent | opCtxSync | opEventRecord | opEventQuery | opEventSync.

Record syncOp := mkSyncOp {
  so_driver : option Driver;
  so_stream : Z;
  so_event : Z;
  so_flags : Z;
  so_kind : syncOpKind
}.

(** [memOp] and its kinds (dispatch.go); [mo_host] is the host address, nil being 0. *)
Inductive memOpKind :=
| opHtoD | opDtoH | opDtoD | opHtoDAsync | opDtoHAsync | opDtoDAsync
| opMemset8 | opMemset16 | opMemset32 | opMemset8Async | opMemset16Async | opMemset32Async.

Record memOp := mkMemOp {
  mo_driver : option Driver;
  mo_dst : Z;
  mo_src : Z;
  mo_host : Z;
  mo_n : Z;
  mo_val : Z;
  mo_stream : Z;
  mo_kind : memOpKind
}.

(** A job an executor still has to run for a caller that gave up waiting: a [trackedSyncJob] with its
    context, its operation and its lane, or [syncBarrierNoop]. *)
Inductive pjob :=
| PTracked (ctx : loc) (op : syncOp) (lane : loc)
| PNoop.

(** [Executor]: [ex_once] is [closeOnce], [ex_done] the closing of channel [done], [ex_queue] the accepted jobs nobody waits for. *)
Record Exec := mkExec {
  ex_closed : bool;
  ex_retire : bool;
  ex_once : bool;
  ex_done : bool;
  ex_queue : list pjob
}.

(** [waitLane]. *)
Record Lane := mkLane { ln_exec : loc; ln_pending : Z }.

(** The mutable fields of [Context] but [closed], which is in [env_closed]. *)
Record CtxState := mkCtxState {
  cs_exec : option loc;
  cs_copyExec : option loc;
  cs_waitLanes : list loc;
  cs_syncActive : Z;
  cs_commandErr : err
}.

(** What the code relies on outside [src]: the driver library, called on a thread. *)
Class Foreign := {
  World : Type;
  Sys : option loc -> forall c : call, World -> (Z * out c) * World
}.

Section State.
Context `{Foreign}.

Record state := mkState {
  st_world : World;
  st_env : Env;
  st_next : loc;
  st_polls : gmap loc nat;
  st_execs : gmap loc Exec;
  st_ctxs : gmap loc CtxState;
  st_lanes : gmap loc Lane;
  st_memOps : list memOp;
  st_driver : option Driver;
  st_trace : list event
}.

Definition set_world (v : World) (s : state) : state :=
  mkState v (st_env s) (st_next s) (st_polls s) (st_execs s) (st_ctxs s) (st_lanes s) (st_memOps s) (st_driver s) (st_trace s).

Definition set_env (v : Env) (s : state) : state :=
  mkState (st_world s) v (st_next s) (st_polls s) (st_execs s) (st_ctxs s) (st_lanes s) (st_memOps s) (st_driver s) (st_trace s).

Definition set_next (v : loc) (s : state) : state :=
  mkState (st_world s) (st_env s) v (st_polls s) (st_execs s) (st_ctxs s) (st_lanes s) (st_memOps s) (st_driver s) (st_trace s).

Definition set_polls (v : gmap loc nat) (s : state) : state :=
  mkState (st_world s) (st_env s) (st_next s) v (st_execs s) (st_ctxs s) (st_lanes s) (st_memOps s) (st_driver s) (st_trace s).

Definition set_execs (v : gmap loc Exec) (s : state) : state :=
  mkState (st_world s) (st_env s) (st_next s) (st_polls s) v (st_ctxs s) (st_lanes s) (st_memOps s) (st_driver s) (st_trace s).

Definition set_ctxs (v : gmap loc CtxState) (s : state) : state :=
  mkState (st_world s) (st_env s) (st_next s) (st_polls s) (st_execs s) v (st_lanes s) (st_memOps s) (st_driver s) (st_trace s).

Definition set_lanes (v : gmap loc Lane) (s : state) : state :=
  mkState (st_world s) (st_env s) (st_next s) (st_polls s) (st_execs s) (st_ctxs s) v (st_memOps s) (st_driver s) (st_trace s).

Definition set_memOps (v : list memOp) (s : state) : state :=
  mkState (st_world s) (st_env s) (st_next s) (st_polls s) (st_execs s) (st_ctxs s) (st_lanes s) v (st_driver s) (st_trace s).

Definition set_driver (v : option Driver) (s : state) : state :=
  mkState (st_world s) (st_env s) (st_next s) (st_polls s) (st_execs s) (st_ctxs s) (st_lanes s) (st_memOps s) v (st_trace s).

Definition set_trace (v : list event) (s : state) : state :=
  mkState (st_world s) (st_env s) (st_next s) (st_polls s) (st_execs s) (st_ctxs s) (st_lanes s) (st_memOps s) (st_driver s) v.
End State.

(** ** Outcomes and the monad *)

Inductive outcome (A : Type) :=
| Done (a : A)
| Panics (v : string)
| Blocks
| Fatal.
Arguments Done {A} _.
Arguments Panics {A} _.
Arguments Blocks {A}.
Arguments Fatal {A}.

Definition returns {A} (o : outcome A) : Prop :=
  match o with Done _ | Panics _ => True | _ => False end.

Section Monad.
Context `{Foreign}.

Definition M (A : Type) : Type := state -> outcome A * state.

Definition ret {A} (a : A) : M A := fun s => (Done a, s).

Definition bind {A B} (m : M A) (k : A -> M B) : M B := fun s =>
  let '(o, s') := m s in
  match o with
  | Done a => k a s'
  | Panics v => (Panics v, s')
  | Blocks => (Blocks, s')
  | Fatal => (Fatal, s')
  end.

Definition get {A} (f : state -> A) : M A := fun s => (Done (f s), s).
Definition modify (f : state -> state) : M unit := fun s => (Done tt, f s).
Definition panic {A} (v : string) : M A := fun s => (Panics v, s).

(** [defer d()] around the rest of a function body: [d] runs on return and on panic. *)
Definition defer {A} (d : M unit) (m : M A) : M A := fun s =>
  let '(o, s1) := m s in
  match o with
  | Done _ | Panics _ =>
      let '(o2, s2) := d s1 in
      match o2 with
      | Done _ => (o, s2)
      | Panics v => (Panics v, s2)
      | Blocks => (Blocks, s2)
      | Fatal => (Fatal, s2)
      end
  | Blocks => (Blocks, s1)
  | Fatal => (Fatal, s1)
  end.

(** [defer func() (r := recover(); ...)]: a panic of [m] becomes the value [h] gives. *)
Definition recovering {A} (h : string -> A) (m : M A) : M A := fun s =>
  let '(o, s1) := m s in
  match o with
  | Panics v => (Done (h v), s1)
  | _ => (o, s1)
  end.

(** [new(T)]: a fresh identity. *)
Definition new_loc : M loc := fun s => (Done (st_next s), set_next (Pos.succ (st_next s)) s).

End Monad.

Notation "'let!' x := m 'in' k" := (bind m (fun x => k))
  (at level 10, x pattern, m at level 200, k at level 200).
Notation "m1 ;! m2" := (bind m1 (fun _ => m2)) (at level 100, m2 at level 200, right associativity).

Section Operations.
Context `{Foreign}.

(** *** sync.RWMutex and sync.Mutex *)

Definition RLock (l : lockid) : M unit := fun s =>
  if decide (l ∈ env_locks_w (st_env s)) then (Blocks, s)
  else (Done tt, set_env (rlocked l (st_env s)) s).

Definition RUnlock (l : lockid) : M unit := fun s =>
  match env_locks_r (st_env s) !! l with
  | Some _ => (Done tt, set_env (runlocked l (st_env s)) s)
  | None => (Fatal, s)
  end.

Definition Lock (l : lockid) : M unit := fun s =>
  if decide (l ∈ env_locks_w (st_env s)) then (Blocks, s)
  else match env_locks_r (st_env s) !! l with
       | Some _ => (Blocks, s)
       | None => (Done tt, set_env (wlocked l (st_env s)) s)
       end.

Definition Unlock (l : lockid) : M unit := fun s =>
  if decide (l ∈ env_locks_w (st_env s)) then (Done tt, set_env (wunlocked l (st_env s)) s)
  else (Fatal, s).

(** [l.RLock(); defer l.RUnlock(); m]. *)
Definition with_RLock {A} (l : lockid) (m : M A) : M A := RLock l ;! defer (RUnlock l) m.

(** [l.Lock(); defer l.Unlock(); m]. *)
Definition with_Lock {A} (l : lockid) (m : M A) : M A := Lock l ;! defer (Unlock l) m.

(** *** Flags of objects *)

Definition is_closed (l : loc) : M bool := get (fun s => bool_decide (l ∈ env_closed (st_env s))).
Definition set_closed (l : loc) : M unit := modify (fun s => set_env (with_closed l (st_env s)) s).

(** *** Threads *)

(** Runs [m] on the thread of executor [t]. *)
Definition on {A} (t : loc) (m : M A) : M A := fun s =>
  let '(o, s') := m (set_env (on_thread (Some t) (st_env s)) s) in
  (o, set_env (on_thread (env_thread (st_env s)) (st_env s')) s').

(** *** Driver calls *)

(** [d.F(...)]: calling through a nil driver or a nil field panics. *)
Definition invoke (d : option Driver) (c : call) : M (Z * out c) := fun s =>
  match d with
  | None => (Panics "runtime error: invalid memory address or nil pointer dereference"%string, s)
  | Some d =>
      if drv_bound d (call_field c) then
        let '(r, w) := Sys (env_thread (st_env s)) c (st_world s) in
        (Done r, set_world w (set_trace ((st_env s, c) :: st_trace s) s))
      else (Panics "runtime error: invalid memory address or nil pointer dereference"%string, s)
  end.

(** *** context.Context *)

(** A context is nil, [context.Background()], or one that may be cancelled and then reports [e]:
    [st_polls] holds how many more polls see it alive (no entry: all of them). *)
Inductive gctx := NilCtx | Background | CtxVal (l : loc) (e : error).

(** [if ctx == nil (ctx = context.Background())]. *)
Definition orBackground (g : gctx) : gctx := match g with NilCtx => Background | _ => g end.

(** [ctx.Err()], and equally a poll of [ctx.Done()]. *)
Definition ctx_Err (g : gctx) : M err :=
  match g with
  | NilCtx => panic "runtime error: invalid memory address or nil pointer dereference"
  | Background => ret None
  | CtxVal l e => fun s =>
      match st_polls s !! l with
      | None => (Done None, s)
      | Some O => (Done (Some e), s)
      | Some (S n) => (Done None, set_polls (<[l := n]> (st_polls s)) s)
      end
  end.

(** *** Slices *)

(** A host slice: the address of its first element and its length; the element size is that of its type. *)
Record slice := mkSlice { sl_ptr : Z; sl_len : Z }.

(** [&s[0]]. *)
Definition first_elem (x : slice) : M Z :=
  if 0 <? sl_len x then ret (sl_ptr x)
  else panic "runtime error: index out of range [0] with length 0".

(** *** Mutable fields *)

Definition zero_ctx : CtxState := mkCtxState None None [] 0 None.
Definition ctx_state (c : loc) : M CtxState := get (fun s => default zero_ctx (st_ctxs s !! c)).
Definition set_ctx_state (c : loc) (f : CtxState -> CtxState) : M unit :=
  modify (fun s => set_ctxs (<[c := f (default zero_ctx (st_ctxs s !! c))]> (st_ctxs s)) s).

Definition zero_exec : Exec := mkExec false false false false [].
Definition exec_state (e : loc) : M Exec := get (fun s => default zero_exec (st_execs s !! e)).
Definition set_exec_state (e : loc) (f : Exec -> Exec) : M unit :=
  modify (fun s => set_execs (<[e := f (default zero_exec (st_execs s !! e))]> (st_execs s)) s).

Definition zero_lane : Lane := mkLane 1 0.
Definition lane_state (l : loc) : M Lane := get (fun s => default zero_lane (st_lanes s !! l)).
Definition set_lane_state (l : loc) (f : Lane -> Lane) : M unit :=
  modify (fun s => set_lanes (<[l := f (default zero_lane (st_lanes s !! l))]> (st_lanes s)) s).

End Operations.

(** ** What every function of the library keeps

    [tidy P E m]: started in environment [E], [m] makes only driver calls that satisfy [P] (of the
    environment they are made in), is never fatal, and if it returns or panics the environment is [E]
    again: every lock it took is released, it is back on its thread, and no object was closed. *)

Section Tidy.
Context `{Foreign}.

Definition calls (P : Env -> call -> Prop) (s s' : state) : Prop :=
  exists l, st_trace s' = l ++ st_trace s /\ Forall (fun ev => P ev.1 ev.2) l.

Definition tidy {A} (P : Env -> call -> Prop) (E : Env) (m : M A) : Prop :=
  forall s, st_env s = E ->
    let '(o, s') := m s in
    calls P s s' /\ o <> Fatal /\ (returns o -> st_env s' = E).

Lemma calls_refl P s s' : st_trace s' = st_trace s -> calls P s s'.
Proof. intros E. exists []. now rewrite E. Qed.

Lemma calls_trans P s1 s2 s3 : calls P s1 s2 -> calls P s2 s3 -> calls P s1 s3.
Proof.
  intros (l1 & E1 & H1) (l2 & E2 & H2). exists (l2 ++ l1). split.
  - now rewrite E2, E1, app_assoc.
  - now apply Forall_app.
Qed.

Lemma calls_weaken (P Q : Env -> call -> Prop) s s' :
  (forall E c, P E c -> Q E c) -> calls P s s' -> calls Q s s'.
Proof. intros HPQ (l & E & Hl). exists l. split; [done|]. eapply Forall_impl; eauto. Qed.

Lemma tidy_weaken {A} (P Q : Env -> call -> Prop) E (m : M A) :
  (forall E' c, P E' c -> Q E' c) -> tidy P E m -> tidy Q E m.
Proof.
  intros HPQ Hm s Hs. specialize (Hm s Hs). destruct (m s) as [o s'].
  destruct Hm as (Hc & Ho & He). eauto using calls_weaken.
Qed.

Lemma tidy_ret {A} P E (a : A) : tidy P E (ret a).
Proof. intros s Hs. cbn. split_and!; [now apply calls_refl|done|done]. Qed.

Lemma tidy_panic {A} P E v : tidy P E (panic (A:=A) v).
Proof. intros s Hs. cbn. split_and!; [now apply calls_refl|done|done]. Qed.

Lemma tidy_get {A} P E (f : state -> A) : tidy P E (get f).
Proof. intros s Hs. cbn. split_and!; [now apply calls_refl|done|done]. Qed.

Lemma tidy_bind {A B} P E (m : M A) (k : A -> M B) :
  tidy P E m -> (forall a, tidy P E (k a)) -> tidy P E (bind m k).
Proof.
  intros Hm Hk s Hs. unfold bind. specialize (Hm s Hs). destruct (m s) as [o s1].
  destruct Hm as (Hc & Ho & He). destruct o; cbn in *; try done.
  specialize (Hk a s1 (He I)). destruct (k a s1) as [o s2]. destruct Hk as (Hc' & Ho' & He').
  split_and!; eauto using calls_trans.
Qed.

Lemma tidy_modify P E (f : state -> state) :
  (forall s, st_trace (f s) = st_trace s) -> (forall s, st_env (f s) = st_env s) -> tidy P E (modify f).
Proof. intros Ht He s Hs. cbn. split_and!; [now apply calls_refl|done|intros _; now rewrite He]. Qed.

Lemma tidy_recovering {A} P E (h : string -> A) (m : M A) : tidy P E m -> tidy P E (recovering h m).
Proof.
  intros Hm s Hs. unfold recovering. specialize (Hm s Hs). destruct (m s) as [o s1].
  destruct Hm as (Hc & Ho & He). destruct o; cbn in *; try done; auto.
Qed.

Lemma tidy_new_loc P E : tidy P E new_loc.
Proof. intros s Hs. cbn. split_and!; [now apply calls_refl|done|done]. Qed.

Lemma runlocked_rlocked l E : runlocked l (rlocked l E) = E.
Proof.
  unfold runlocked, rlocked. cbn. rewrite lookup_insert_eq. destruct E as [r w t c]. cbn.
  destruct (r !! l) as [n|] eqn:Hl.
  - destruct (decide (Pos.succ n = 1%positive)) as [En|]; [lia|].
    rewrite insert_insert_eq, Pos.pred_succ, insert_id by done. done.
  - destruct (decide (1 = 1)%positive); [|done]. rewrite delete_insert_id by done. done.
Qed.

Lemma wunlocked_wlocked l E : l ∉ env_locks_w E -> wunlocked l (wlocked l E) = E.
Proof.
  intros Hl. unfold wunlocked, wlocked. destruct E as [r w t c]. cbn in *. f_equal. set_solver.
Qed.

Lemma open_test l E : bool_decide (l ∈ env_closed E) = false -> open l E.
Proof. intros Hl. now apply bool_decide_eq_false in Hl. Qed.

Lemma r_held_rlocked l E : r_held l (rlocked l E).
Proof. unfold r_held, rlocked. cbn. rewrite lookup_insert_eq. eauto. Qed.

Lemma r_held_mono l l' E : r_held l E -> r_held l (rlocked l' E).
Proof.
  unfold r_held, rlocked. cbn. intros Hl. destruct (decide (l = l')) as [->|Hn].
  - rewrite lookup_insert_eq. eauto.
  - now rewrite lookup_insert_ne.
Qed.

Lemma tidy_with_RLock {A} P E l (m : M A) : tidy P (rlocked l E) m -> tidy P E (with_RLock l m).
Proof.
  intros Hm s Hs. unfold with_RLock, RLock, bind, defer. case_decide as Hw.
  { split_and!; [now apply calls_refl|done|done]. }
  specialize (Hm (set_env (rlocked l (st_env s)) s)). cbn in Hm. rewrite Hs in Hm |- *.
  specialize (Hm eq_refl).
  destruct (m _) as [o s1]. destruct Hm as (Hc & Ho & He).
  assert (Hc' : calls P s s1) by (destruct Hc as (tr & Htr & Hf); exists tr; split; [exact Htr|exact Hf]).
  unfold RUnlock.
  destruct o; cbn in *; try done; rewrite He by done; cbn; rewrite lookup_insert_eq, runlocked_rlocked;
    (split_and!; [|done|done]); (destruct Hc' as (tr & Htr & Hf); exists tr; split; [exact Htr|exact Hf]).
Qed.

Lemma tidy_with_Lock {A} P E l (m : M A) : tidy P (wlocked l E) m -> tidy P E (with_Lock l m).
Proof.
  intros Hm s Hs. unfold with_Lock, Lock, bind, defer. case_decide as Hw.
  { split_and!; [now apply calls_refl|done|done]. }
  destruct (env_locks_r (st_env s) !! l) eqn:Hr.
  { split_and!; [now apply calls_refl|done|done]. }
  specialize (Hm (set_env (wlocked l (st_env s)) s)). cbn in Hm. rewrite Hs in Hm, Hw |- *.
  specialize (Hm eq_refl).
  destruct (m _) as [o s1]. destruct Hm as (Hc & Ho & He).
  assert (Hc' : calls P s s1) by (destruct Hc as (tr & Htr & Hf); exists tr; split; [exact Htr|exact Hf]).
  unfold Unlock.
  destruct o; cbn in *; try done; rewrite He by done; cbn;
    (rewrite decide_True by set_solver); cbn;
    (split_and!; [|done|intros _; now apply wunlocked_wlocked]);
    (destruct Hc' as (tr & Htr & Hf); exists tr; split; [exact Htr|exact Hf]).
Qed.

Lemma tidy_on {A} P E t (m : M A) : tidy P (on_thread (Some t) E) m -> tidy P E (on t m).
Proof.
  intros Hm s Hs. unfold on. specialize (Hm (set_env (on_thread (Some t) (st_env s)) s)). cbn in Hm.
  rewrite Hs in *. specialize (Hm eq_refl). destruct (m _) as [o s1]. destruct Hm as (Hc & Ho & He).
  split_and!; [|done|].
  - destruct Hc as (tr & Htr & Hf). exists tr. split; [exact Htr|exact Hf].
  - intros Hr. cbn. rewrite He by done. now destruct E.
Qed.

Lemma tidy_invoke P E d c : P E c -> tidy P E (invoke d c).
Proof.
  intros HP s Hs. unfold invoke. destruct d as [d|]; [|split_and!; [now apply calls_refl|done|done]].
  destruct (drv_bound _ _); [|split_and!; [now apply calls_refl|done|done]].
  destruct (Sys _ _ _) as [r w]. split_and!; [|done|done].
  exists [(st_env s, c)]. split; [done|]. constructor; [|constructor]. cbn. now rewrite Hs.
Qed.

Lemma tidy_ctx_Err P E g : tidy P E (ctx_Err g).
Proof.
  destruct g; [apply tidy_panic|apply tidy_ret|]. intros s Hs. cbn.
  destruct (st_polls s !! l) as [[|n]|]; split_and!; try done; now apply calls_refl.
Qed.

Lemma tidy_first_elem P E x : tidy P E (first_elem x).
Proof. unfold first_elem. destruct (0 <? sl_len x); [apply tidy_ret|apply tidy_panic]. Qed.

(** Running a sequence whose first part returns. *)
Lemma bind_done {A B} (m : M A) (k : A -> M B) s a s1 : m s = (Done a, s1) -> bind m k s = k a s1.
Proof. unfold bind. now intros ->. Qed.

Lemma is_closed_open l s : open l (st_env s) -> is_closed l s = (Done false, s).
Proof. intros Ho. unfold is_closed, get. now rewrite bool_decide_eq_false_2 by exact Ho. Qed.

Lemma is_closed_closed l s : l ∈ env_closed (st_env s) -> is_closed l s = (Done true, s).
Proof. intros Ho. unfold is_closed, get. now rewrite bool_decide_eq_true_2 by exact Ho. Qed.

(** The state as it is when a flag is read: [is_closed] reads the environment, so its result is known. *)
Lemma tidy_is_closed {B} P E l (k : bool -> M B) :
  tidy P E (k (bool_decide (l ∈ env_closed E))) -> tidy P E (bind (is_closed l) k).
Proof. intros Hk s Hs. unfold bind, is_closed, get. rewrite Hs. now apply Hk. Qed.

(** ** What a function returns

    [yields m Q]: every value [m] returns, from any state, satisfies [Q]. *)

Definition yields {A} (m : M A) (Q : A -> Prop) : Prop := forall s a s', m s = (Done a, s') -> Q a.

Lemma yields_true {A} (m : M A) : yields m (fun _ => True).
Proof. now intros s a s' _. Qed.

Lemma yields_weaken {A} (m : M A) (Q R : A -> Prop) : (forall a, Q a -> R a) -> yields m Q -> yields m R.
Proof. intros HQ Hm s a s' Hr. eapply HQ, Hm, Hr. Qed.

Lemma yields_ret {A} (a : A) (Q : A -> Prop) : Q a -> yields (ret a) Q.
Proof. intros HQ s b s' [= <- <-]. exact HQ. Qed.

Lemma yields_panic {A} v (Q : A -> Prop) : yields (panic v) Q.
Proof. intros s a s' [=]. Qed.

Lemma yields_bind {A B} (m : M A) (k : A -> M B) (Q : A -> Prop) (R : B -> Prop) :
  yields m Q -> (forall a, Q a -> yields (k a) R) -> yields (bind m k) R.
Proof.
  intros Hm Hk s b s' Hr. unfold bind in Hr. destruct (m s) as [[a| | |] s1] eqn:E; try done.
  exact (Hk a (Hm s a s1 E) s1 b s' Hr).
Qed.

(** The first part may return anything. *)
Lemma yields_then {A B} (m : M A) (k : A -> M B) (R : B -> Prop) : (forall a, yields (k a) R) -> yields (bind m k) R.
Proof. intros Hk. apply (yields_bind _ _ (fun _ => True)); [apply yields_true|auto]. Qed.

Lemma yields_defer {A} d (m : M A) (Q : A -> Prop) : yields m Q -> yields (defer d m) Q.
Proof.
  intros Hm s a s' Hr. unfold defer in Hr. destruct (m s) as [o s1] eqn:E.
  destruct o; try done; destruct (d s1) as [[] s2]; try done. injection Hr as <- <-. exact (Hm s _ s1 E).
Qed.

Lemma yields_with_RLock {A} l (m : M A) (Q : A -> Prop) : yields m Q -> yields (with_RLock l m) Q.
Proof. intros Hm. apply yields_then. intros _. now apply yields_defer. Qed.

Lemma yields_with_Lock {A} l (m : M A) (Q : A -> Prop) : yields m Q -> yields (with_Lock l m) Q.
Proof. intros Hm. apply yields_then. intros _. now apply yields_defer. Qed.

Lemma yields_on {A} t (m : M A) (Q : A -> Prop) : yields m Q -> yields (on t m) Q.
Proof. intros Hm s a s' Hr. unfold on in Hr. destruct (m _) as [o s1] eqn:E. injection Hr as -> <-. exact (Hm _ _ _ E). Qed.

Lemma yields_recovering {A} (h : string -> A) (m : M A) (Q : A -> Prop) :
  (forall v, Q (h v)) -> yields m Q -> yields (recovering h m) Q.
Proof.
  intros Hh Hm s a s' Hr. unfold recovering in Hr. destruct (m s) as [[] s1] eqn:E; try done; injection Hr as <- <-; [exact (Hm _ _ _ E)|apply Hh].
Qed.

End Tidy.
