(* ===== verification/CudaResult.v ===== *)
(** * Package cudaresult: one Go error per driver call

    Every wrapper has the guards of its source: a required entry point that is missing gives
    [ErrNotInitialized], a missing optional one [ErrSymbolUnavailable], a nil driver [ErrNotInitialized];
    after the call a non-zero result code becomes an error with the operation's name, and the
    out-parameters are dropped.  A Go function with results [(v, err)] is a pair. *)

From S2P Require Import Prelude CudaSys Errors Runtime.

Section Guards.
Context `{Foreign}.

(** [d == nil || d.F == nil]. *)
Definition lacks (d : option Driver) (f : field) : bool :=
  match d with None => true | Some d => negb (drv_bound d f) end.

(** [if d == nil || d.F == nil (return ErrNotInitialized)]; [fail] is the return with its zero values. *)
Definition required {A} (d : option Driver) (f : field) (fail : err -> A) (k : M A) : M A :=
  if lacks d f then ret (fail (Some ErrNotInitialized)) else k.

(** [if d == nil (return ErrNotInitialized); if d.F == nil (return ErrSymbolUnavailable)]. *)
Definition optional {A} (d : option Driver) (f : field) (fail : err -> A) (k : M A) : M A :=
  match d with
  | None => ret (fail (Some ErrNotInitialized))
  | Some _ => if lacks d f then ret (fail (Some ErrSymbolUnavailable)) else k
  end.

(** [if err := check(op, code); err != nil (return zero, err); return v, nil]. *)
Definition checked {A} (zero : A) (op : string) (r : Z * A) : A * err :=
  match check op r.1 with
  | Some e => (zero, Some e)
  | None => (r.2, None)
  end.

End Guards.

Definition deviceNameBufferLen : Z := 256.
Definition pciBusIDBufferLen : Z := 16.
Definition graphExecUpdateSuccess : Z := 0.

(** [CUipcMemHandle] and [CUipcEventHandle]: 64 opaque bytes. *)
Definition zeroIpcHandle : list Z := replicate 64 0.

(** A C string in a buffer: the bytes before the first NUL ([bytes.IndexByte]), or all of them. *)
Fixpoint c_string (buf : list Z) : list Z :=
  match buf with
  | [] => []
  | b :: bs => if b =? 0 then [] else b :: c_string bs
  end.

(** [%x] of bytes. *)
Definition hex_digit (n : Z) : string :=
  default EmptyString (["0"; "1"; "2"; "3"; "4"; "5"; "6"; "7"; "8"; "9"; "a"; "b"; "c"; "d"; "e"; "f"]%string !! Z.to_nat n).
Definition hex_bytes (bs : list Z) : string :=
  foldr (fun b acc => String.append (hex_digit (b / 16)) (String.append (hex_digit (b mod 16)) acc)) EmptyString bs.

(** The format of [DeviceUUID]: GPU- and the 4, 2, 2, 2 and 6 byte groups. *)
Definition uuid_string (raw : list Z) : string :=
  String.append "GPU-" (String.append (hex_bytes (take 4 raw)) (String.append "-"
    (String.append (hex_bytes (take 2 (drop 4 raw))) (String.append "-"
      (String.append (hex_bytes (take 2 (drop 6 raw))) (String.append "-"
        (String.append (hex_bytes (take 2 (drop 8 raw))) (String.append "-"
          (hex_bytes (take 6 (drop 10 raw))))))))))).

(** ** The wrappers *)

Module cudaresult.

Section Wrappers.
Context `{Foreign}.

(** *** init.go *)

Definition Init (d : option Driver) (flags : Z) : M err :=
  required d F_CuInit id (
  let! r := invoke d (CuInit flags) in
  ret (check "cuInit" r.1)).


(** *** version.go *)

Definition DriverVersion (d : option Driver) : M (Z * err) :=
  required d F_CuDriverGetVersion (pair 0) (
  let! r := invoke d CuDriverGetVersion in
  ret (checked 0 "cuDriverGetVersion" r)).


(** *** device.go *)

Definition DeviceCount (d : option Driver) : M (Z * err) :=
  required d F_CuDeviceGetCount (pair 0) (
  let! r := invoke d CuDeviceGetCount in
  ret (checked 0 "cuDeviceGetCount" r)).

Definition GetDevice (d : option Driver) (ordinal : Z) : M (Z * err) :=
  required d F_CuDeviceGet (pair 0) (
  let! r := invoke d (CuDeviceGet (int32 ordinal)) in
  ret (checked 0 "cuDeviceGet" r)).

Definition DeviceName (d : option Driver) (dev : Z) : M (list Z * err) :=
  required d F_CuDeviceGetName (pair []) (
  let! r := invoke d (CuDeviceGetName (int32 deviceNameBufferLen) dev) in
  ret (match check "cuDeviceGetName" r.1 with
       | Some e => ([], Some e)
       | None => (c_string (r.2 : list Z), None)
       end)).

Definition DeviceTotalMem (d : option Driver) (dev : Z) : M (Z * err) :=
  required d F_CuDeviceTotalMem (pair 0) (
  let! r := invoke d (CuDeviceTotalMem dev) in
  ret (checked 0 "cuDeviceTotalMem_v2" r)).

Definition DeviceAttribute (d : option Driver) (attr : Z) (dev : Z) : M (Z * err) :=
  required d F_CuDeviceGetAttribute (pair 0) (
  let! r := invoke d (CuDeviceGetAttribute attr dev) in
  ret (checked 0 "cuDeviceGetAttribute" r)).

Definition DevicePCIBusID (d : option Driver) (dev : Z) : M (list Z * err) :=
  optional d F_CuDeviceGetPCIBusId (pair []) (
  let! r := invoke d (CuDeviceGetPCIBusId (int32 pciBusIDBufferLen) dev) in
  ret (match check "cuDeviceGetPCIBusId" r.1 with
       | Some e => ([], Some e)
       | None => (c_string (r.2 : list Z), None)
       end)).

(** The 16 bytes; [uuid_string] is what [fmt.Sprintf] makes of them. *)
Definition DeviceUUID (d : option Driver) (dev : Z) : M (string * err) :=
  optional d F_CuDeviceGetUuid (pair EmptyString) (
  let! r := invoke d (CuDeviceGetUuid dev) in
  ret (match check "cuDeviceGetUuid" r.1 with
       | Some e => (EmptyString, Some e)
       | None => (uuid_string (r.2 : list Z), None)
       end)).


(** *** context.go *)

Definition PrimaryCtxRetain (d : option Driver) (dev : Z) : M (Z * err) :=
  required d F_CuDevicePrimaryCtxRetain (pair 0) (
  let! r := invoke d (CuDevicePrimaryCtxRetain dev) in
  ret (checked 0 "cuDevicePrimaryCtxRetain" r)).

Definition PrimaryCtxRelease (d : option Driver) (dev : Z) : M err :=
  required d F_CuDevicePrimaryCtxRelease id (
  let! r := invoke d (CuDevicePrimaryCtxRelease dev) in
  ret (check "cuDevicePrimaryCtxRelease_v2" r.1)).

Definition CtxSetCurrent (d : option Driver) (ctx : Z) : M err :=
  required d F_CuCtxSetCurrent id (
  let! r := invoke d (CuCtxSetCurrent ctx) in
  ret (check "cuCtxSetCurrent" r.1)).

Definition CtxGetCurrent (d : option Driver) : M (Z * err) :=
  required d F_CuCtxGetCurrent (pair 0) (
  let! r := invoke d CuCtxGetCurrent in
  ret (checked 0 "cuCtxGetCurrent" r)).

Definition CtxSynchronize (d : option Driver) : M err :=
  required d F_CuCtxSynchronize id (
  let! r := invoke d CuCtxSynchronize in
  ret (check "cuCtxSynchronize" r.1)).

Definition CtxGetStreamPriorityRange (d : option Driver) : M (Z * Z * err) :=
  required d F_CuCtxGetStreamPriorityRange (pair (0, 0)) (
  let! r := invoke d CuCtxGetStreamPriorityRange in
  ret (checked (0, 0) "cuCtxGetStreamPriorityRange" r)).


(** *** memory.go *)

Definition MemAlloc (d : option Driver) (bytes : Z) : M (Z * err) :=
  required d F_CuMemAlloc (pair 0) (
  let! r := invoke d (CuMemAlloc bytes) in
  ret (checked 0 "cuMemAlloc_v2" r)).

Definition MemFree (d : option Driver) (ptr : Z) : M err :=
  required d F_CuMemFree id (
  let! r := invoke d (CuMemFree ptr) in
  ret (check "cuMemFree_v2" r.1)).

Definition MemAllocAsync (d : option Driver) (bytes : Z) (stream : Z) : M (Z * err) :=
  optional d F_CuMemAllocAsync (pair 0) (
  let! r := invoke d (CuMemAllocAsync bytes stream) in
  ret (checked 0 "cuMemAllocAsync" r)).

Definition MemFreeAsync (d : option Driver) (ptr : Z) (stream : Z) : M err :=
  optional d F_CuMemFreeAsync id (
  let! r := invoke d (CuMemFreeAsync ptr stream) in
  ret (check "cuMemFreeAsync" r.1)).

Definition MemGetInfo (d : option Driver) : M (Z * Z * err) :=
  required d F_CuMemGetInfo (pair (0, 0)) (
  let! r := invoke d CuMemGetInfo in
  ret (checked (0, 0) "cuMemGetInfo_v2" r)).

Definition MemcpyHtoD (d : option Driver) (dst : Z) (src : Z) (bytes : Z) : M err :=
  required d F_CuMemcpyHtoD id (
  let! r := invoke d (CuMemcpyHtoD dst src bytes) in
  ret (check "cuMemcpyHtoD_v2" r.1)).

Definition MemcpyDtoH (d : option Driver) (dst : Z) (src : Z) (bytes : Z) : M err :=
  required d F_CuMemcpyDtoH id (
  let! r := invoke d (CuMemcpyDtoH dst src bytes) in
  ret (check "cuMemcpyDtoH_v2" r.1)).

Definition MemcpyHtoDAsync (d : option Driver) (dst : Z) (src : Z) (bytes : Z) (stream : Z) : M err :=
  required d F_CuMemcpyHtoDAsync id (
  let! r := invoke d (CuMemcpyHtoDAsync dst src bytes stream) in
  ret (check "cuMemcpyHtoDAsync_v2" r.1)).

Definition MemcpyDtoHAsync (d : option Driver) (dst : Z) (src : Z) (bytes : Z) (stream : Z) : M err :=
  required d F_CuMemcpyDtoHAsync id (
  let! r := invoke d (CuMemcpyDtoHAsync dst src bytes stream) in
  ret (check "cuMemcpyDtoHAsync_v2" r.1)).

Definition MemcpyDtoD (d : option Driver) (dst : Z) (src : Z) (bytes : Z) : M err :=
  required d F_CuMemcpyDtoD id (
  let! r := invoke d (CuMemcpyDtoD dst src bytes) in
  ret (check "cuMemcpyDtoD_v2" r.1)).

Definition MemcpyDtoDAsync (d : option Driver) (dst : Z) (src : Z) (bytes : Z) (stream : Z) : M err :=
  required d F_CuMemcpyDtoDAsync id (
  let! r := invoke d (CuMemcpyDtoDAsync dst src bytes stream) in
  ret (check "cuMemcpyDtoDAsync_v2" r.1)).

Definition MemsetD8 (d : option Driver) (dst : Z) (value : Z) (count : Z) : M err :=
  required d F_CuMemsetD8 id (
  let! r := invoke d (CuMemsetD8 dst value count) in
  ret (check "cuMemsetD8_v2" r.1)).

Definition MemsetD16 (d : option Driver) (dst : Z) (value : Z) (count : Z) : M err :=
  required d F_CuMemsetD16 id (
  let! r := invoke d (CuMemsetD16 dst value count) in
  ret (check "cuMemsetD16_v2" r.1)).

Definition MemsetD32 (d : option Driver) (dst : Z) (value : Z) (count : Z) : M err :=
  required d F_CuMemsetD32 id (
  let! r := invoke d (CuMemsetD32 dst value count) in
  ret (check "cuMemsetD32_v2" r.1)).

Definition MemsetD8Async (d : option Driver) (dst : Z) (value : Z) (count : Z) (stream : Z) : M err :=
  required d F_CuMemsetD8Async id (
  let! r := invoke d (CuMemsetD8Async dst value count stream) in
  ret (check "cuMemsetD8Async" r.1)).

Definition MemsetD16Async (d : option Driver) (dst : Z) (value : Z) (count : Z) (stream : Z) : M err :=
  required d F_CuMemsetD16Async id (
  let! r := invoke d (CuMemsetD16Async dst value count stream) in
  ret (check "cuMemsetD16Async" r.1)).

Definition MemsetD32Async (d : option Driver) (dst : Z) (value : Z) (count : Z) (stream : Z) : M err :=
  required d F_CuMemsetD32Async id (
  let! r := invoke d (CuMemsetD32Async dst value count stream) in
  ret (check "cuMemsetD32Async" r.1)).

Definition MemAllocHost (d : option Driver) (bytes : Z) : M (Z * err) :=
  required d F_CuMemAllocHost (pair 0) (
  let! r := invoke d (CuMemAllocHost bytes) in
  ret (checked 0 "cuMemAllocHost_v2" r)).

Definition MemFreeHost (d : option Driver) (p : Z) : M err :=
  required d F_CuMemFreeHost id (
  let! r := invoke d (CuMemFreeHost p) in
  ret (check "cuMemFreeHost" r.1)).

Definition MemHostRegister (d : option Driver) (p : Z) (bytes : Z) (flags : Z) : M err :=
  optional d F_CuMemHostRegister id (
  let! r := invoke d (CuMemHostRegister p bytes flags) in
  ret (check "cuMemHostRegister_v2" r.1)).

Definition MemHostUnregister (d : option Driver) (p : Z) : M err :=
  optional d F_CuMemHostUnregister id (
  let! r := invoke d (CuMemHostUnregister p) in
  ret (check "cuMemHostUnregister" r.1)).


(** *** mempool.go *)

Definition DeviceGetDefaultMemPool (d : option Driver) (dev : Z) : M (Z * err) :=
  optional d F_CuDeviceGetDefaultMemPool (pair 0) (
  let! r := invoke d (CuDeviceGetDefaultMemPool dev) in
  ret (checked 0 "cuDeviceGetDefaultMemPool" r)).

(** The value read goes through [unsafe.Pointer(&v)]. *)
Definition MemPoolGetAttributeU64 (d : option Driver) (pool attr : Z) : M (Z * err) :=
  optional d F_CuMemPoolGetAttribute (pair 0) (
  let! r := invoke d (CuMemPoolGetAttribute pool attr) in
  ret (checked 0 "cuMemPoolGetAttribute" r)).

Definition MemPoolSetAttributeU64 (d : option Driver) (pool attr value : Z) : M err :=
  optional d F_CuMemPoolSetAttribute id (
  let! r := invoke d (CuMemPoolSetAttribute pool attr value) in
  ret (check "cuMemPoolSetAttribute" r.1)).

Definition MemAllocFromPoolAsync (d : option Driver) (bytes : Z) (pool : Z) (stream : Z) : M (Z * err) :=
  optional d F_CuMemAllocFromPoolAsync (pair 0) (
  let! r := invoke d (CuMemAllocFromPoolAsync bytes pool stream) in
  ret (checked 0 "cuMemAllocFromPoolAsync" r)).


(** *** managed.go *)

Definition MemAllocManaged (d : option Driver) (bytesize : Z) (flags : Z) : M (Z * err) :=
  optional d F_CuMemAllocManaged (pair 0) (
  let! r := invoke d (CuMemAllocManaged bytesize flags) in
  ret (checked 0 "cuMemAllocManaged" r)).

Definition MemPrefetchAsync (d : option Driver) (devPtr : Z) (count : Z) (dstDevice : Z) (stream : Z) : M err :=
  optional d F_CuMemPrefetchAsync id (
  let! r := invoke d (CuMemPrefetchAsync devPtr count dstDevice stream) in
  ret (check "cuMemPrefetchAsync" r.1)).

Definition MemAdvise (d : option Driver) (devPtr : Z) (count : Z) (advice : Z) (device : Z) : M err :=
  optional d F_CuMemAdvise id (
  let! r := invoke d (CuMemAdvise devPtr count advice device) in
  ret (check "cuMemAdvise" r.1)).


(** *** pitch.go *)

Definition MemAllocPitch (d : option Driver) (widthInBytes : Z) (height : Z) (elementSizeBytes : Z) : M (Z * Z * err) :=
  optional d F_CuMemAllocPitch (pair (0, 0)) (
  let! r := invoke d (CuMemAllocPitch widthInBytes height elementSizeBytes) in
  ret (checked (0, 0) "cuMemAllocPitch_v2" r)).

Definition Memcpy2D (d : option Driver) (desc : CUDA_MEMCPY2D) : M err :=
  optional d F_CuMemcpy2D id (
  let! r := invoke d (CuMemcpy2D desc) in
  ret (check "cuMemcpy2D_v2" r.1)).

Definition Memcpy2DAsync (d : option Driver) (desc : CUDA_MEMCPY2D) (stream : Z) : M err :=
  optional d F_CuMemcpy2DAsync id (
  let! r := invoke d (CuMemcpy2DAsync desc stream) in
  ret (check "cuMemcpy2DAsync_v2" r.1)).

Definition Memcpy3D (d : option Driver) (desc : CUDA_MEMCPY3D) : M err :=
  optional d F_CuMemcpy3D id (
  let! r := invoke d (CuMemcpy3D desc) in
  ret (check "cuMemcpy3D_v2" r.1)).

Definition Memcpy3DAsync (d : option Driver) (desc : CUDA_MEMCPY3D) (stream : Z) : M err :=
  optional d F_CuMemcpy3DAsync id (
  let! r := invoke d (CuMemcpy3DAsync desc stream) in
  ret (check "cuMemcpy3DAsync_v2" r.1)).


(** *** texture.go *)

Definition ArrayCreate (d : option Driver) (desc : CUDA_ARRAY_DESCRIPTOR) : M (Z * err) :=
  optional d F_CuArrayCreate (pair 0) (
  let! r := invoke d (CuArrayCreate desc) in
  ret (checked 0 "cuArrayCreate_v2" r)).

Definition ArrayDestroy (d : option Driver) (h : Z) : M err :=
  optional d F_CuArrayDestroy id (
  let! r := invoke d (CuArrayDestroy h) in
  ret (check "cuArrayDestroy" r.1)).

Definition TexObjectCreate (d : option Driver) (resDesc : CUDA_RESOURCE_DESC) (texDesc : CUDA_TEXTURE_DESC) : M (Z * err) :=
  optional d F_CuTexObjectCreate (pair 0) (
  let! r := invoke d (CuTexObjectCreate resDesc texDesc) in
  ret (checked 0 "cuTexObjectCreate" r)).

Definition TexObjectDestroy (d : option Driver) (h : Z) : M err :=
  optional d F_CuTexObjectDestroy id (
  let! r := invoke d (CuTexObjectDestroy h) in
  ret (check "cuTexObjectDestroy" r.1)).


(** *** surface.go *)

Definition Array3DCreate (d : option Driver) (desc : CUDA_ARRAY3D_DESCRIPTOR) : M (Z * err) :=
  optional d F_CuArray3DCreate (pair 0) (
  let! r := invoke d (CuArray3DCreate desc) in
  ret (checked 0 "cuArray3DCreate_v2" r)).

Definition SurfObjectCreate (d : option Driver) (resDesc : CUDA_RESOURCE_DESC) : M (Z * err) :=
  optional d F_CuSurfObjectCreate (pair 0) (
  let! r := invoke d (CuSurfObjectCreate resDesc) in
  ret (checked 0 "cuSurfObjectCreate" r)).

Definition SurfObjectDestroy (d : option Driver) (h : Z) : M err :=
  optional d F_CuSurfObjectDestroy id (
  let! r := invoke d (CuSurfObjectDestroy h) in
  ret (check "cuSurfObjectDestroy" r.1)).


(** *** vmm.go *)

Definition MemGetAllocationGranularity (d : option Driver) (prop : CUmemAllocationProp) (option_ : Z) : M (Z * err) :=
  optional d F_CuMemGetAllocationGranularity (pair 0) (
  let! r := invoke d (CuMemGetAllocationGranularity prop option_) in
  ret (checked 0 "cuMemGetAllocationGranularity" r)).

Definition MemCreate (d : option Driver) (size : Z) (prop : CUmemAllocationProp) : M (Z * err) :=
  optional d F_CuMemCreate (pair 0) (
  let! r := invoke d (CuMemCreate size prop 0) in
  ret (checked 0 "cuMemCreate" r)).

Definition MemAddressReserve (d : option Driver) (size : Z) (alignment : Z) : M (Z * err) :=
  optional d F_CuMemAddressReserve (pair 0) (
  let! r := invoke d (CuMemAddressReserve size alignment 0 0) in
  ret (checked 0 "cuMemAddressReserve" r)).

Definition MemMap (d : option Driver) (ptr : Z) (size : Z) (handle : Z) : M err :=
  optional d F_CuMemMap id (
  let! r := invoke d (CuMemMap ptr size 0 handle 0) in
  ret (check "cuMemMap" r.1)).

Definition MemSetAccess (d : option Driver) (ptr : Z) (size : Z) (desc : CUmemAccessDesc) : M err :=
  optional d F_CuMemSetAccess id (
  let! r := invoke d (CuMemSetAccess ptr size desc 1) in
  ret (check "cuMemSetAccess" r.1)).

Definition MemUnmap (d : option Driver) (ptr : Z) (size : Z) : M err :=
  optional d F_CuMemUnmap id (
  let! r := invoke d (CuMemUnmap ptr size) in
  ret (check "cuMemUnmap" r.1)).

Definition MemAddressFree (d : option Driver) (ptr : Z) (size : Z) : M err :=
  optional d F_CuMemAddressFree id (
  let! r := invoke d (CuMemAddressFree ptr size) in
  ret (check "cuMemAddressFree" r.1)).

Definition MemRelease (d : option Driver) (handle : Z) : M err :=
  optional d F_CuMemRelease id (
  let! r := invoke d (CuMemRelease handle) in
  ret (check "cuMemRelease" r.1)).


(** *** peer.go *)

Definition DeviceCanAccessPeer (d : option Driver) (dev peer : Z) : M (bool * err) :=
  optional d F_CuDeviceCanAccessPeer (pair false) (
  let! r := invoke d (CuDeviceCanAccessPeer dev peer) in
  ret (match check "cuDeviceCanAccessPeer" r.1 with
       | Some e => (false, Some e)
       | None => (negb ((r.2 : Z) =? 0), None)
       end)).

Definition CtxEnablePeerAccess (d : option Driver) (peerContext : Z) : M err :=
  optional d F_CuCtxEnablePeerAccess id (
  let! r := invoke d (CuCtxEnablePeerAccess peerContext 0) in
  ret (check "cuCtxEnablePeerAccess" r.1)).

Definition CtxDisablePeerAccess (d : option Driver) (peerContext : Z) : M err :=
  optional d F_CuCtxDisablePeerAccess id (
  let! r := invoke d (CuCtxDisablePeerAccess peerContext) in
  ret (check "cuCtxDisablePeerAccess" r.1)).

Definition MemcpyPeer (d : option Driver) (dst : Z) (dstContext : Z) (src : Z) (srcContext : Z) (byteCount : Z) : M err :=
  optional d F_CuMemcpyPeer id (
  let! r := invoke d (CuMemcpyPeer dst dstContext src srcContext byteCount) in
  ret (check "cuMemcpyPeer" r.1)).

(** The attribute is returned; the Go function writes it to [*data]. *)
Definition PointerGetAttribute (d : option Driver) (attribute ptr : Z) : M (Z * err) :=
  optional d F_CuPointerGetAttribute (pair 0) (
  let! r := invoke d (CuPointerGetAttribute attribute ptr) in
  ret ((r.2 : Z), check "cuPointerGetAttribute" r.1)).


(** *** module.go *)

Definition ModuleLoadData (d : option Driver) (image : list Z) : M (Z * err) :=
  required d F_CuModuleLoadData (pair 0) (
  let! r := invoke d (CuModuleLoadData image) in
  ret (checked 0 "cuModuleLoadData" r)).

Definition ModuleLoadDataEx (d : option Driver) (image options values : list Z) : M (Z * err) :=
  required d F_CuModuleLoadDataEx (pair 0) (
  if negb (length values =? length options)%nat then ret (0, Some ErrInvalidValue)
  else
    let! r := invoke d (CuModuleLoadDataEx image options values) in
    ret (checked 0 "cuModuleLoadDataEx" r)).

Definition ModuleUnload (d : option Driver) (mod_ : Z) : M err :=
  required d F_CuModuleUnload id (
  let! r := invoke d (CuModuleUnload mod_) in
  ret (check "cuModuleUnload" r.1)).

Definition ModuleGetFunction (d : option Driver) (mod_ : Z) (name : list Z) : M (Z * err) :=
  required d F_CuModuleGetFunction (pair 0) (
  let! r := invoke d (CuModuleGetFunction mod_ name) in
  ret (checked 0 "cuModuleGetFunction" r)).

Definition ModuleGetGlobal (d : option Driver) (mod_ : Z) (name : list Z) : M (Z * Z * err) :=
  required d F_CuModuleGetGlobal (pair (0, 0)) (
  let! r := invoke d (CuModuleGetGlobal mod_ name) in
  ret (checked (0, 0) "cuModuleGetGlobal_v2" r)).


(** *** link.go *)

Definition LinkCreate (d : option Driver) (options values : list Z) : M (Z * err) :=
  optional d F_CuLinkCreate (pair 0) (
  if negb (length values =? length options)%nat then ret (0, Some ErrInvalidValue)
  else
    let! r := invoke d (CuLinkCreate options values) in
    ret (checked 0 "cuLinkCreate_v2" r)).

Definition LinkAddData (d : option Driver) (state inputType : Z) (data : list Z) (size : Z) (name : option (list Z)) : M err :=
  optional d F_CuLinkAddData id (
  let! r := invoke d (CuLinkAddData state inputType data size name) in
  ret (check "cuLinkAddData_v2" r.1)).

Definition LinkComplete (d : option Driver) (state : Z) : M (Z * Z * err) :=
  optional d F_CuLinkComplete (pair (0, 0)) (
  let! r := invoke d (CuLinkComplete state) in
  ret (checked (0, 0) "cuLinkComplete" r)).

Definition LinkDestroy (d : option Driver) (state : Z) : M err :=
  optional d F_CuLinkDestroy id (
  let! r := invoke d (CuLinkDestroy state) in
  ret (check "cuLinkDestroy" r.1)).


(** *** function.go *)

Definition FuncSetAttribute (d : option Driver) (fn : Z) (attrib : Z) (value : Z) : M err :=
  optional d F_CuFuncSetAttribute id (
  let! r := invoke d (CuFuncSetAttribute fn attrib value) in
  ret (check "cuFuncSetAttribute" r.1)).

Definition FuncGetAttribute (d : option Driver) (fn : Z) (attrib : Z) : M (Z * err) :=
  optional d F_CuFuncGetAttribute (pair 0) (
  let! r := invoke d (CuFuncGetAttribute attrib fn) in
  ret (checked 0 "cuFuncGetAttribute" r)).


(** *** occupancy.go *)

Definition OccupancyMaxActiveBlocksPerMultiprocessor (d : option Driver) (fn : Z) (blockSize : Z) (dynamicSMemSize : Z) : M (Z * err) :=
  optional d F_CuOccupancyMaxActiveBlocksPerMultiprocessor (pair 0) (
  let! r := invoke d (CuOccupancyMaxActiveBlocksPerMultiprocessor fn blockSize dynamicSMemSize) in
  ret (checked 0 "cuOccupancyMaxActiveBlocksPerMultiprocessor" r)).

Definition OccupancyMaxPotentialBlockSize (d : option Driver) (fn dynamicSMemSize blockSizeLimit : Z) : M (Z * Z * err) :=
  optional d F_CuOccupancyMaxPotentialBlockSize (pair (0, 0)) (
  let! r := invoke d (CuOccupancyMaxPotentialBlockSize fn 0 dynamicSMemSize blockSizeLimit) in
  ret (checked (0, 0) "cuOccupancyMaxPotentialBlockSize" r)).


(** *** launch.go *)

Definition LaunchKernel (d : option Driver) (fn : Z) (grid block : dim3) (sharedMemBytes stream : Z)
    (kernelParams : kernel_params) : M err :=
  required d F_CuLaunchKernel id (
  let! r := invoke d (CuLaunchKernel fn grid block sharedMemBytes stream kernelParams) in
  ret (check "cuLaunchKernel" r.1)).

Definition LaunchCooperativeKernel (d : option Driver) (fn : Z) (grid block : dim3) (sharedMemBytes stream : Z)
    (kernelParams : kernel_params) : M err :=
  optional d F_CuLaunchCooperativeKernel id (
  let! r := invoke d (CuLaunchCooperativeKernel fn grid block sharedMemBytes stream kernelParams) in
  ret (check "cuLaunchCooperativeKernel" r.1)).

Definition LaunchHostFunc (d : option Driver) (stream : Z) (fn : Z) (userData : Z) : M err :=
  optional d F_CuLaunchHostFunc id (
  let! r := invoke d (CuLaunchHostFunc stream fn userData) in
  ret (check "cuLaunchHostFunc" r.1)).


(** *** stream.go *)

Definition StreamCreate (d : option Driver) (flags : Z) : M (Z * err) :=
  required d F_CuStreamCreate (pair 0) (
  let! r := invoke d (CuStreamCreate flags) in
  ret (checked 0 "cuStreamCreate" r)).

Definition StreamCreateWithPriority (d : option Driver) (flags : Z) (priority : Z) : M (Z * err) :=
  required d F_CuStreamCreateWithPriority (pair 0) (
  let! r := invoke d (CuStreamCreateWithPriority flags priority) in
  ret (checked 0 "cuStreamCreateWithPriority" r)).

Definition StreamDestroy (d : option Driver) (stream : Z) : M err :=
  required d F_CuStreamDestroy id (
  let! r := invoke d (CuStreamDestroy stream) in
  ret (check "cuStreamDestroy_v2" r.1)).

Definition StreamSynchronize (d : option Driver) (stream : Z) : M err :=
  required d F_CuStreamSynchronize id (
  let! r := invoke d (CuStreamSynchronize stream) in
  ret (check "cuStreamSynchronize" r.1)).

Definition StreamQuery (d : option Driver) (stream : Z) : M err :=
  required d F_CuStreamQuery id (
  let! r := invoke d (CuStreamQuery stream) in
  ret (checkNotReady "cuStreamQuery" r.1 errStreamQueryNotReady)).

Definition StreamWaitEvent (d : option Driver) (stream : Z) (event : Z) (flags : Z) : M err :=
  required d F_CuStreamWaitEvent id (
  let! r := invoke d (CuStreamWaitEvent stream event flags) in
  ret (check "cuStreamWaitEvent" r.1)).

Definition EventCreate (d : option Driver) (flags : Z) : M (Z * err) :=
  required d F_CuEventCreate (pair 0) (
  let! r := invoke d (CuEventCreate flags) in
  ret (checked 0 "cuEventCreate" r)).

Definition EventDestroy (d : option Driver) (event : Z) : M err :=
  required d F_CuEventDestroy id (
  let! r := invoke d (CuEventDestroy event) in
  ret (check "cuEventDestroy_v2" r.1)).

Definition EventRecord (d : option Driver) (event : Z) (stream : Z) : M err :=
  required d F_CuEventRecord id (
  let! r := invoke d (CuEventRecord event stream) in
  ret (check "cuEventRecord" r.1)).

Definition EventQuery (d : option Driver) (event : Z) : M err :=
  required d F_CuEventQuery id (
  let! r := invoke d (CuEventQuery event) in
  ret (checkNotReady "cuEventQuery" r.1 errEventQueryNotReady)).

Definition EventSynchronize (d : option Driver) (event : Z) : M err :=
  required d F_CuEventSynchronize id (
  let! r := invoke d (CuEventSynchronize event) in
  ret (check "cuEventSynchronize" r.1)).

Definition EventElapsedTime (d : option Driver) (start end_ : Z) : M (Z * err) :=
  required d F_CuEventElapsedTime (pair 0) (
  let! r := invoke d (CuEventElapsedTime start end_) in
  ret (match checkNotReady "cuEventElapsedTime" r.1 errEventTimeNotReady with
       | Some e => (0, Some e)
       | None => ((r.2 : Z), None)
       end)).


(** *** graph.go *)

Definition StreamBeginCapture (d : option Driver) (stream : Z) (mode : Z) : M err :=
  optional d F_CuStreamBeginCapture id (
  let! r := invoke d (CuStreamBeginCapture stream mode) in
  ret (check "cuStreamBeginCapture_v2" r.1)).

Definition StreamEndCapture (d : option Driver) (stream : Z) : M (Z * err) :=
  optional d F_CuStreamEndCapture (pair 0) (
  let! r := invoke d (CuStreamEndCapture stream) in
  ret (checked 0 "cuStreamEndCapture" r)).

Definition GraphInstantiate (d : option Driver) (graph : Z) (flags : Z) : M (Z * err) :=
  optional d F_CuGraphInstantiate (pair 0) (
  let! r := invoke d (CuGraphInstantiate graph flags) in
  ret (checked 0 "cuGraphInstantiateWithFlags" r)).

Definition GraphLaunch (d : option Driver) (exec : Z) (stream : Z) : M err :=
  optional d F_CuGraphLaunch id (
  let! r := invoke d (CuGraphLaunch exec stream) in
  ret (check "cuGraphLaunch" r.1)).

Definition GraphDestroy (d : option Driver) (graph : Z) : M err :=
  optional d F_CuGraphDestroy id (
  let! r := invoke d (CuGraphDestroy graph) in
  ret (check "cuGraphDestroy" r.1)).

Definition GraphExecUpdate (d : option Driver) (exec graph : Z) : M err :=
  optional d F_CuGraphExecUpdate id (
  let! r := invoke d (CuGraphExecUpdate exec graph) in
  ret (match check "cuGraphExecUpdate" r.1 with
       | Some e => Some e
       | None => if (r.2 : Z * Z).2 =? graphExecUpdateSuccess then None else Some ErrGraphExecUpdateFailure
       end)).

Definition GraphExecDestroy (d : option Driver) (exec : Z) : M err :=
  optional d F_CuGraphExecDestroy id (
  let! r := invoke d (CuGraphExecDestroy exec) in
  ret (check "cuGraphExecDestroy" r.1)).


(** *** ipc.go *)

Definition IpcGetMemHandle (d : option Driver) (dptr : Z) : M (list Z * err) :=
  optional d F_CuIpcGetMemHandle (pair zeroIpcHandle) (
  let! r := invoke d (CuIpcGetMemHandle dptr) in
  ret (checked zeroIpcHandle "cuIpcGetMemHandle" r)).

Definition IpcOpenMemHandle (d : option Driver) (h : list Z) (flags : Z) : M (Z * err) :=
  optional d F_CuIpcOpenMemHandle (pair 0) (
  let! r := invoke d (CuIpcOpenMemHandle h flags) in
  ret (checked 0 "cuIpcOpenMemHandle_v2" r)).

Definition IpcCloseMemHandle (d : option Driver) (dptr : Z) : M err :=
  optional d F_CuIpcCloseMemHandle id (
  let! r := invoke d (CuIpcCloseMemHandle dptr) in
  ret (check "cuIpcCloseMemHandle" r.1)).

Definition IpcGetEventHandle (d : option Driver) (event : Z) : M (list Z * err) :=
  optional d F_CuIpcGetEventHandle (pair zeroIpcHandle) (
  let! r := invoke d (CuIpcGetEventHandle event) in
  ret (checked zeroIpcHandle "cuIpcGetEventHandle" r)).

Definition IpcOpenEventHandle (d : option Driver) (h : list Z) : M (Z * err) :=
  optional d F_CuIpcOpenEventHandle (pair 0) (
  let! r := invoke d (CuIpcOpenEventHandle h) in
  ret (checked 0 "cuIpcOpenEventHandle" r)).

End Wrappers.

End cudaresult.

(** ** Proof automation for [tidy]

    [tidy_auto] follows the structure of a function; what is left are the [P E c] obligations of its
    driver calls.  Lemmas on the library's own functions are found in the database [tidy]. *)

Create HintDb tidy discriminated.
#[export] Hint Constants Opaque : tidy.

Section GuardLemmas.
Context `{Foreign}.

Lemma tidy_required {A} P E d f (fail : err -> A) (k : M A) :
  tidy P E k -> tidy P E (required d f fail k).
Proof. intros Hk. unfold required. destruct (lacks d f); [apply tidy_ret|exact Hk]. Qed.

Lemma tidy_optional {A} P E d f (fail : err -> A) (k : M A) :
  tidy P E k -> tidy P E (optional d f fail k).
Proof.
  intros Hk. unfold optional. destruct d; [|apply tidy_ret].
  destruct (lacks _ f); [apply tidy_ret|exact Hk].
Qed.

Lemma invoke_bound (d : Driver) (c : call) s :
  drv_bound d (call_field c) = true ->
  invoke (Some d) c s =
    (Done (Sys (env_thread (st_env s)) c (st_world s)).1,
     set_world (Sys (env_thread (st_env s)) c (st_world s)).2 (set_trace ((st_env s, c) :: st_trace s) s)).
Proof. intros Hb. unfold invoke. rewrite Hb. now destruct (Sys _ _ _). Qed.

End GuardLemmas.

Ltac tidy_step :=
  lazymatch goal with
  | |- tidy _ _ (ret _) => apply tidy_ret
  | |- tidy _ _ (panic _) => apply tidy_panic
  | |- tidy _ _ (get _) => apply tidy_get
  | |- tidy _ _ (modify _) => apply tidy_modify; [reflexivity|reflexivity]
  | |- tidy _ _ new_loc => apply tidy_new_loc
  | |- tidy _ _ (bind (is_closed _) _) => apply tidy_is_closed
  | |- tidy _ _ (bind _ _) => apply tidy_bind; [|intros ?]
  | |- tidy _ _ (required _ _ _ _) => apply tidy_required
  | |- tidy _ _ (optional _ _ _ _) => apply tidy_optional
  | |- tidy _ _ (invoke _ _) => apply tidy_invoke
  | |- tidy _ _ (with_RLock _ _) => apply tidy_with_RLock
  | |- tidy _ _ (with_Lock _ _) => apply tidy_with_Lock
  | |- tidy _ _ (on _ _) => apply tidy_on
  | |- tidy _ _ (recovering _ _) => apply tidy_recovering
  | |- tidy _ _ (ctx_Err _) => apply tidy_ctx_Err
  | |- tidy _ _ (first_elem _) => apply tidy_first_elem
  | |- tidy _ _ (if ?b then _ else _) => destruct b eqn:?
  | |- tidy _ _ (match ?x with _ => _ end) => destruct x eqn:?
  | |- tidy _ _ (let '(_, _) := ?x in _) => destruct x eqn:?
  end.

Ltac tidy_auto := repeat (first [tidy_step | solve [eauto 3 with tidy]]).
