(* ===== verification/Wrappers.v ===== *)
(** * The driver wrappers as a whole

    What holds of all the wrappers of package cudaresult: they return, whatever the driver lacks, after at most one driver call. *)

From S2P Require Import Prelude CudaSys Errors Runtime CudaResult.

Section Wrappers.
Context `{Foreign}.

(** [m] returns, after at most one driver call, made in the environment it was called in; nothing else changes. *)
Definition one_call {A} (m : M A) : Prop := forall s, exists a s', m s = (Done a, s') /\
  (s' = s \/ exists c w, s' = set_world w (set_trace ((st_env s, c) :: st_trace s) s)).

(** [m] makes exactly one. *)
Definition exact_call {A} (m : M A) : Prop := forall s, exists a c w,
  m s = (Done a, set_world w (set_trace ((st_env s, c) :: st_trace s) s)).

Lemma one_ret {A} (a : A) : one_call (ret a).
Proof. intros s. exists a, s. split; [done|now left]. Qed.

Lemma one_invoke {A} d (c : call) (k : Z * out c -> A) :
  drv_bound d (call_field c) = true -> one_call (let! r := invoke (Some d) c in ret (k r)).
Proof.
  intros Hb s. unfold bind. rewrite invoke_bound by exact Hb. eexists _, _. split; [reflexivity|]. right. eauto.
Qed.

Lemma exact_invoke {A} d (c : call) (k : Z * out c -> A) :
  drv_bound d (call_field c) = true -> exact_call (let! r := invoke (Some d) c in ret (k r)).
Proof. intros Hb s. unfold bind. rewrite invoke_bound by exact Hb. eexists _, _, _. reflexivity. Qed.

Lemma one_required {A} d f (fail : err -> A) k :
  (forall d', d = Some d' -> drv_bound d' f = true -> one_call k) -> one_call (required d f fail k).
Proof.
  intros Hk. unfold required, lacks. destruct d as [d|]; [|apply one_ret].
  destruct (drv_bound d f) eqn:Hb; [exact (Hk d eq_refl Hb)|apply one_ret].
Qed.

Lemma one_optional {A} d f (fail : err -> A) k :
  (forall d', d = Some d' -> drv_bound d' f = true -> one_call k) -> one_call (optional d f fail k).
Proof.
  intros Hk. unfold optional, lacks. destruct d as [d|]; [|apply one_ret].
  destruct (drv_bound d f) eqn:Hb; [exact (Hk d eq_refl Hb)|apply one_ret].
Qed.

Lemma exact_required {A} d f (fail : err -> A) k :
  required_field f = true -> (forall f, required_field f = true -> drv_bound d f = true) ->
  (drv_bound d f = true -> exact_call k) -> exact_call (required (Some d) f fail k).
Proof. intros Hf Hc Hk. unfold required, lacks. rewrite (Hc f Hf). exact (Hk (Hc f Hf)). Qed.

Ltac one_call_tac :=
  lazymatch goal with
  | |- one_call (required _ _ _ _) => apply one_required; intros ? -> ?; one_call_tac
  | |- one_call (optional _ _ _ _) => apply one_optional; intros ? -> ?; one_call_tac
  | |- one_call (ret _) => apply one_ret
  | |- one_call (if ?b then _ else _) => destruct b; one_call_tac
  | |- one_call (match ?x with _ => _ end) => destruct x; one_call_tac
  | |- one_call (bind (invoke _ _) (fun _ => ret _)) => apply one_invoke; assumption
  end.

Ltac head_of t := lazymatch t with ?f _ => head_of f | _ => t end.

(** Every wrapper of package cudaresult returns whatever driver it is given - none, one without the entry point, a complete one - and whatever the arguments: it never
    calls through a nil function field, because the field it tests is the field it calls; it makes at most one driver call, on the caller's thread and
    with the locks the caller holds, and changes nothing else. *)
Theorem wrappers_total :
  (forall d flags, one_call (cudaresult.Init d flags)) /\
  (forall d, one_call (cudaresult.DriverVersion d)) /\
  (forall d, one_call (cudaresult.DeviceCount d)) /\
  (forall d ordinal, one_call (cudaresult.GetDevice d ordinal)) /\
  (forall d dev, one_call (cudaresult.DeviceName d dev)) /\
  (forall d dev, one_call (cudaresult.DeviceTotalMem d dev)) /\
  (forall d attr dev, one_call (cudaresult.DeviceAttribute d attr dev)) /\
  (forall d dev, one_call (cudaresult.DevicePCIBusID d dev)) /\
  (forall d dev, one_call (cudaresult.DeviceUUID d dev)) /\
  (forall d dev, one_call (cudaresult.PrimaryCtxRetain d dev)) /\
  (forall d dev, one_call (cudaresult.PrimaryCtxRelease d dev)) /\
  (forall d ctx, one_call (cudaresult.CtxSetCurrent d ctx)) /\
  (forall d, one_call (cudaresult.CtxGetCurrent d)) /\
  (forall d, one_call (cudaresult.CtxSynchronize d)) /\
  (forall d, one_call (cudaresult.CtxGetStreamPriorityRange d)) /\
  (forall d bytes, one_call (cudaresult.MemAlloc d bytes)) /\
  (forall d ptr, one_call (cudaresult.MemFree d ptr)) /\
  (forall d bytes stream, one_call (cudaresult.MemAllocAsync d bytes stream)) /\
  (forall d ptr stream, one_call (cudaresult.MemFreeAsync d ptr stream)) /\
  (forall d, one_call (cudaresult.MemGetInfo d)) /\
  (forall d dst src bytes, one_call (cudaresult.MemcpyHtoD d dst src bytes)) /\
  (forall d dst src bytes, one_call (cudaresult.MemcpyDtoH d dst src bytes)) /\
  (forall d dst src bytes stream, one_call (cudaresult.MemcpyHtoDAsync d dst src bytes stream)) /\
  (forall d dst src bytes stream, one_call (cudaresult.MemcpyDtoHAsync d dst src bytes stream)) /\
  (forall d dst src bytes, one_call (cudaresult.MemcpyDtoD d dst src bytes)) /\
  (forall d dst src bytes stream, one_call (cudaresult.MemcpyDtoDAsync d dst src bytes stream)) /\
  (forall d dst value count, one_call (cudaresult.MemsetD8 d dst value count)) /\
  (forall d dst value count, one_call (cudaresult.MemsetD16 d dst value count)) /\
  (forall d dst value count, one_call (cudaresult.MemsetD32 d dst value count)) /\
  (forall d dst value count stream, one_call (cudaresult.MemsetD8Async d dst value count stream)) /\
  (forall d dst value count stream, one_call (cudaresult.MemsetD16Async d dst value count stream)) /\
  (forall d dst value count stream, one_call (cudaresult.MemsetD32Async d dst value count stream)) /\
  (forall d bytes, one_call (cudaresult.MemAllocHost d bytes)) /\
  (forall d p, one_call (cudaresult.MemFreeHost d p)) /\
  (forall d p bytes flags, one_call (cudaresult.MemHostRegister d p bytes flags)) /\
  (forall d p, one_call (cudaresult.MemHostUnregister d p)) /\
  (forall d dev, one_call (cudaresult.DeviceGetDefaultMemPool d dev)) /\
  (forall d pool attr, one_call (cudaresult.MemPoolGetAttributeU64 d pool attr)) /\
  (forall d pool attr value, one_call (cudaresult.MemPoolSetAttributeU64 d pool attr value)) /\
  (forall d bytes pool stream, one_call (cudaresult.MemAllocFromPoolAsync d bytes pool stream)) /\
  (forall d bytesize flags, one_call (cudaresult.MemAllocManaged d bytesize flags)) /\
  (forall d devPtr count dstDevice stream, one_call (cudaresult.MemPrefetchAsync d devPtr count dstDevice stream)) /\
  (forall d devPtr count advice device, one_call (cudaresult.MemAdvise d devPtr count advice device)) /\
  (forall d widthInBytes height elementSizeBytes, one_call (cudaresult.MemAllocPitch d widthInBytes height elementSizeBytes)) /\
  (forall d desc, one_call (cudaresult.Memcpy2D d desc)) /\
  (forall d desc stream, one_call (cudaresult.Memcpy2DAsync d desc stream)) /\
  (forall d desc, one_call (cudaresult.Memcpy3D d desc)) /\
  (forall d desc stream, one_call (cudaresult.Memcpy3DAsync d desc stream)) /\
  (forall d desc, one_call (cudaresult.ArrayCreate d desc)) /\
  (forall d h, one_call (cudaresult.ArrayDestroy d h)) /\
  (forall d resDesc texDesc, one_call (cudaresult.TexObjectCreate d resDesc texDesc)) /\
  (forall d h, one_call (cudaresult.TexObjectDestroy d h)) /\
  (forall d desc, one_call (cudaresult.Array3DCreate d desc)) /\
  (forall d resDesc, one_call (cudaresult.SurfObjectCreate d resDesc)) /\
  (forall d h, one_call (cudaresult.SurfObjectDestroy d h)) /\
  (forall d prop option_, one_call (cudaresult.MemGetAllocationGranularity d prop option_)) /\
  (forall d size prop, one_call (cudaresult.MemCreate d size prop)) /\
  (forall d size alignment, one_call (cudaresult.MemAddressReserve d size alignment)) /\
  (forall d ptr size handle, one_call (cudaresult.MemMap d ptr size handle)) /\
  (forall d ptr size desc, one_call (cudaresult.MemSetAccess d ptr size desc)) /\
  (forall d ptr size, one_call (cudaresult.MemUnmap d ptr size)) /\
  (forall d ptr size, one_call (cudaresult.MemAddressFree d ptr size)) /\
  (forall d handle, one_call (cudaresult.MemRelease d handle)) /\
  (forall d dev peer, one_call (cudaresult.DeviceCanAccessPeer d dev peer)) /\
  (forall d peerContext, one_call (cudaresult.CtxEnablePeerAccess d peerContext)) /\
  (forall d peerContext, one_call (cudaresult.CtxDisablePeerAccess d peerContext)) /\
  (forall d dst dstContext src srcContext byteCount, one_call (cudaresult.MemcpyPeer d dst dstContext src srcContext byteCount)) /\
  (forall d attribute ptr, one_call (cudaresult.PointerGetAttribute d attribute ptr)) /\
  (forall d image, one_call (cudaresult.ModuleLoadData d image)) /\
  (forall d image options values, one_call (cudaresult.ModuleLoadDataEx d image options values)) /\
  (forall d mod_, one_call (cudaresult.ModuleUnload d mod_)) /\
  (forall d mod_ name, one_call (cudaresult.ModuleGetFunction d mod_ name)) /\
  (forall d mod_ name, one_call (cudaresult.ModuleGetGlobal d mod_ name)) /\
  (forall d options values, one_call (cudaresult.LinkCreate d options values)) /\
  (forall d state inputType data size name, one_call (cudaresult.LinkAddData d state inputType data size name)) /\
  (forall d state, one_call (cudaresult.LinkComplete d state)) /\
  (forall d state, one_call (cudaresult.LinkDestroy d state)) /\
  (forall d fn attrib value, one_call (cudaresult.FuncSetAttribute d fn attrib value)) /\
  (forall d fn attrib, one_call (cudaresult.FuncGetAttribute d fn attrib)) /\
  (forall d fn blockSize dynamicSMemSize, one_call (cudaresult.OccupancyMaxActiveBlocksPerMultiprocessor d fn blockSize dynamicSMemSize)) /\
  (forall d fn dynamicSMemSize blockSizeLimit, one_call (cudaresult.OccupancyMaxPotentialBlockSize d fn dynamicSMemSize blockSizeLimit)) /\
  (forall d fn grid block sharedMemBytes stream kernelParams, one_call (cudaresult.LaunchKernel d fn grid block sharedMemBytes stream kernelParams)) /\
  (forall d fn grid block sharedMemBytes stream kernelParams, one_call (cudaresult.LaunchCooperativeKernel d fn grid block sharedMemBytes stream kernelParams)) /\
  (forall d stream fn userData, one_call (cudaresult.LaunchHostFunc d stream fn userData)) /\
  (forall d flags, one_call (cudaresult.StreamCreate d flags)) /\
  (forall d flags priority, one_call (cudaresult.StreamCreateWithPriority d flags priority)) /\
  (forall d stream, one_call (cudaresult.StreamDestroy d stream)) /\
  (forall d stream, one_call (cudaresult.StreamSynchronize d stream)) /\
  (forall d stream, one_call (cudaresult.StreamQuery d stream)) /\
  (forall d stream event flags, one_call (cudaresult.StreamWaitEvent d stream event flags)) /\
  (forall d flags, one_call (cudaresult.EventCreate d flags)) /\
  (forall d event, one_call (cudaresult.EventDestroy d event)) /\
  (forall d event stream, one_call (cudaresult.EventRecord d event stream)) /\
  (forall d event, one_call (cudaresult.EventQuery d event)) /\
  (forall d event, one_call (cudaresult.EventSynchronize d event)) /\
  (forall d start end_, one_call (cudaresult.EventElapsedTime d start end_)) /\
  (forall d stream mode, one_call (cudaresult.StreamBeginCapture d stream mode)) /\
  (forall d stream, one_call (cudaresult.StreamEndCapture d stream)) /\
  (forall d graph flags, one_call (cudaresult.GraphInstantiate d graph flags)) /\
  (forall d exec stream, one_call (cudaresult.GraphLaunch d exec stream)) /\
  (forall d graph, one_call (cudaresult.GraphDestroy d graph)) /\
  (forall d exec graph, one_call (cudaresult.GraphExecUpdate d exec graph)) /\
  (forall d exec, one_call (cudaresult.GraphExecDestroy d exec)) /\
  (forall d dptr, one_call (cudaresult.IpcGetMemHandle d dptr)) /\
  (forall d h flags, one_call (cudaresult.IpcOpenMemHandle d h flags)) /\
  (forall d dptr, one_call (cudaresult.IpcCloseMemHandle d dptr)) /\
  (forall d event, one_call (cudaresult.IpcGetEventHandle d event)) /\
  (forall d h, one_call (cudaresult.IpcOpenEventHandle d h)).
Proof.
  repeat match goal with |- _ /\ _ => split end; intros;
    lazymatch goal with |- one_call ?m => let h := head_of m in unfold h end; one_call_tac.
Qed.

(** With a driver that has every symbol of the table of required symbols, as [Load] guarantees, each wrapper of a required entry point calls the driver (the one that loads
    a module with options, when there is a value for each option): none of
    them tests a field that the table does not bind, so none can answer [ErrNotInitialized] of its own. *)
Theorem required_wrappers_call (d : Driver) :
  (forall f, required_field f = true -> drv_bound d f = true) ->
  (forall flags, exact_call (cudaresult.Init (Some d) flags)) /\
  (exact_call (cudaresult.DriverVersion (Some d))) /\
  (exact_call (cudaresult.DeviceCount (Some d))) /\
  (forall ordinal, exact_call (cudaresult.GetDevice (Some d) ordinal)) /\
  (forall dev, exact_call (cudaresult.DeviceName (Some d) dev)) /\
  (forall dev, exact_call (cudaresult.DeviceTotalMem (Some d) dev)) /\
  (forall attr dev, exact_call (cudaresult.DeviceAttribute (Some d) attr dev)) /\
  (forall dev, exact_call (cudaresult.PrimaryCtxRetain (Some d) dev)) /\
  (forall dev, exact_call (cudaresult.PrimaryCtxRelease (Some d) dev)) /\
  (forall ctx, exact_call (cudaresult.CtxSetCurrent (Some d) ctx)) /\
  (exact_call (cudaresult.CtxGetCurrent (Some d))) /\
  (exact_call (cudaresult.CtxSynchronize (Some d))) /\
  (exact_call (cudaresult.CtxGetStreamPriorityRange (Some d))) /\
  (forall bytes, exact_call (cudaresult.MemAlloc (Some d) bytes)) /\
  (forall ptr, exact_call (cudaresult.MemFree (Some d) ptr)) /\
  (exact_call (cudaresult.MemGetInfo (Some d))) /\
  (forall dst src bytes, exact_call (cudaresult.MemcpyHtoD (Some d) dst src bytes)) /\
  (forall dst src bytes, exact_call (cudaresult.MemcpyDtoH (Some d) dst src bytes)) /\
  (forall dst src bytes stream, exact_call (cudaresult.MemcpyHtoDAsync (Some d) dst src bytes stream)) /\
  (forall dst src bytes stream, exact_call (cudaresult.MemcpyDtoHAsync (Some d) dst src bytes stream)) /\
  (forall dst src bytes, exact_call (cudaresult.MemcpyDtoD (Some d) dst src bytes)) /\
  (forall dst src bytes stream, exact_call (cudaresult.MemcpyDtoDAsync (Some d) dst src bytes stream)) /\
  (forall dst value count, exact_call (cudaresult.MemsetD8 (Some d) dst value count)) /\
  (forall dst value count, exact_call (cudaresult.MemsetD16 (Some d) dst value count)) /\
  (forall dst value count, exact_call (cudaresult.MemsetD32 (Some d) dst value count)) /\
  (forall dst value count stream, exact_call (cudaresult.MemsetD8Async (Some d) dst value count stream)) /\
  (forall dst value count stream, exact_call (cudaresult.MemsetD16Async (Some d) dst value count stream)) /\
  (forall dst value count stream, exact_call (cudaresult.MemsetD32Async (Some d) dst value count stream)) /\
  (forall bytes, exact_call (cudaresult.MemAllocHost (Some d) bytes)) /\
  (forall p, exact_call (cudaresult.MemFreeHost (Some d) p)) /\
  (forall image, exact_call (cudaresult.ModuleLoadData (Some d) image)) /\
  (forall image options values, length values = length options -> exact_call (cudaresult.ModuleLoadDataEx (Some d) image options values)) /\
  (forall mod_, exact_call (cudaresult.ModuleUnload (Some d) mod_)) /\
  (forall mod_ name, exact_call (cudaresult.ModuleGetFunction (Some d) mod_ name)) /\
  (forall mod_ name, exact_call (cudaresult.ModuleGetGlobal (Some d) mod_ name)) /\
  (forall fn grid block sharedMemBytes stream kernelParams, exact_call (cudaresult.LaunchKernel (Some d) fn grid block sharedMemBytes stream kernelParams)) /\
  (forall flags, exact_call (cudaresult.StreamCreate (Some d) flags)) /\
  (forall flags priority, exact_call (cudaresult.StreamCreateWithPriority (Some d) flags priority)) /\
  (forall stream, exact_call (cudaresult.StreamDestroy (Some d) stream)) /\
  (forall stream, exact_call (cudaresult.StreamSynchronize (Some d) stream)) /\
  (forall stream, exact_call (cudaresult.StreamQuery (Some d) stream)) /\
  (forall stream event flags, exact_call (cudaresult.StreamWaitEvent (Some d) stream event flags)) /\
  (forall flags, exact_call (cudaresult.EventCreate (Some d) flags)) /\
  (forall event, exact_call (cudaresult.EventDestroy (Some d) event)) /\
  (forall event stream, exact_call (cudaresult.EventRecord (Some d) event stream)) /\
  (forall event, exact_call (cudaresult.EventQuery (Some d) event)) /\
  (forall event, exact_call (cudaresult.EventSynchronize (Some d) event)) /\
  (forall start end_, exact_call (cudaresult.EventElapsedTime (Some d) start end_)).
Proof.
  intros Hc. repeat match goal with |- _ /\ _ => split end; intros;
    lazymatch goal with |- exact_call ?m => let h := head_of m in unfold h end;
    (apply exact_required; [reflexivity|exact Hc|intros ?]);
    try match goal with E : length _ = length _ |- _ => rewrite (proj2 (Nat.eqb_eq _ _) E); cbn [negb] end;
    (apply exact_invoke; assumption).
Qed.

End Wrappers.
