(* ===== verification/ExecutorApi.v ===== *)
(** * The executor as its clients see it

    [internal/executor] called from one goroutine at a time: [submit], [DoJob], [DoJobCtx], [DoCtx],
    [Close], [Retire].  A job accepted by the queue is run by the worker on the executor's own thread,
    in order of acceptance; a caller that gives up leaves its job in [ex_queue], where the worker
    finds it before any later job.  (That the queue and the worker of the real executor, with all their
    interleavings, behave this way is the subject of [Executor.v].) *)

From S2P Require Import Prelude CudaSys Errors Runtime CudaResult.

(** ** Jobs *)

(** [Job]: [Run] and, for a job the worker gives back to its pool, [Recycle].  [A] is what a closure job
    leaves in the variables it captures, besides the error it returns. *)
Record Job `{Foreign} (A : Type) := mkJob {
  job_Run : M (A * err);
  job_Recycle : M unit
}.
Arguments mkJob {_ A} _ _.
Arguments job_Run {_ A} _.
Arguments job_Recycle {_ A} _.

(** The jobs a cancellable caller can abandon are interpreted by the client (package [cuda]). *)
Class AsyncJobs `{Foreign} := { async_job : pjob -> Job unit }.

(** [funcJob]: a closure has no [Recycle]. *)
Definition funcJob `{Foreign} {A} (fn : M (A * err)) : Job A := mkJob fn (ret tt).

Module executor.

Section Executor.
Context `{Foreign} {AJ : AsyncJobs}.

(** [New]. *)
Definition New : M loc :=
  let! e := new_loc in
  set_exec_state e (fun _ => mkExec false false false false []) ;!
  ret e.

(** [RecycleJob]. *)
Definition RecycleJob {A} (j : Job A) : M unit := job_Recycle j.

(** [runOne]: a panic of the job becomes a [*PanicError]; the captured variables keep their zero values. *)
Definition runOne {A} (zero : A) (j : Job A) : M (A * err) :=
  recovering (fun v => (zero, Some (ErrPanic v))) (job_Run j).

(** [runTask]: run, recycle, deliver. *)
Definition runTask {A} (e : loc) (zero : A) (j : Job A) : M (A * err) :=
  on e (
    let! r := runOne zero j in
    RecycleJob j ;!
    ret r).

(** [t := <-e.tasks] for the abandoned job at the head. *)
Definition dequeue (e : loc) : M unit :=
  set_exec_state e (fun x => mkExec (ex_closed x) (ex_retire x) (ex_once x) (ex_done x) (tail (ex_queue x))).

Definition enqueue (e : loc) (p : pjob) : M unit :=
  set_exec_state e (fun x => mkExec (ex_closed x) (ex_retire x) (ex_once x) (ex_done x) (ex_queue x ++ [p])).

(** The worker taking the jobs waiting in the channel, oldest first; the results are in that order. *)
Fixpoint runTasks (e : loc) (ps : list pjob) : M (list err) :=
  match ps with
  | [] => ret []
  | p :: ps =>
      dequeue e ;!
      let! r := runTask e tt (async_job p) in
      let! rs := runTasks e ps in
      ret (r.2 :: rs)
  end.

Definition drain (e : loc) : M (list err) :=
  let! x := exec_state e in
  runTasks e (ex_queue x).

(** [submit]: nil when the job was accepted. *)
Definition submit (e : loc) (ctx : gctx) : M err :=
  let ctx := orBackground ctx in
  let! er := ctx_Err ctx in
  match er with
  | Some x => ret (Some x)
  | None =>
      with_RLock (e, ExecMu) (
        let! x := exec_state e in
        if ex_closed x then ret (Some ErrExecutorClosed)
        else
          let! er := ctx_Err ctx in
          match er with
          | Some y => ret (Some y)
          | None => if ex_done x then ret (Some ErrExecutorClosed) else ret None
          end)
  end.

(** [DoJob]: once accepted, the job is waited for. *)
Definition DoJob {A} (e : loc) (ctx : gctx) (zero : A) (j : Job A) : M (A * err) :=
  let! er := submit e ctx in
  match er with
  | Some x => RecycleJob j ;! ret (zero, Some x)
  | None =>
      let! _ := drain e in
      runTask e zero j
  end.

(** [DoCtxWait]. *)
Definition DoCtxWait {A} (e : loc) (ctx : gctx) (zero : A) (fn : M (A * err)) : M (A * err) :=
  DoJob e ctx zero (funcJob fn).

(** [DoJobCtx]: a caller whose context is cancelled first leaves the job to the worker. *)
Definition DoJobCtx (e : loc) (ctx : gctx) (p : pjob) : M err :=
  let ctx := orBackground ctx in
  let! er := submit e ctx in
  match er with
  | Some x => RecycleJob (async_job p) ;! ret (Some x)
  | None =>
      enqueue e p ;!
      let! er := ctx_Err ctx in
      match er with
      | Some x => ret (Some x)
      | None =>
          let! rs := drain e in
          ret (default None (last rs))
      end
  end.

(** [DoCtx] with a closure: the effects of [fn] are placed before the caller's last look at its context
    (the library passes a cancellable context only with [syncBarrierNoop], which is a [PNoop] for [DoJobCtx]). *)
Definition DoCtx {A} (e : loc) (ctx : gctx) (zero : A) (fn : M (A * err)) : M (A * err) :=
  let ctx := orBackground ctx in
  let! er := submit e ctx in
  match er with
  | Some x => ret (zero, Some x)
  | None =>
      let! _ := drain e in
      let! r := runTask e zero (funcJob fn) in
      let! er := ctx_Err ctx in
      match er with
      | Some x => ret (zero, Some x)
      | None => ret r
      end
  end.

(** [Do]. *)
Definition Do {A} (e : loc) (zero : A) (fn : M (A * err)) : M (A * err) := DoCtx e Background zero fn.

(** [Retire]. *)
Definition Retire (e : loc) : M unit :=
  set_exec_state e (fun x => mkExec (ex_closed x) true (ex_once x) (ex_done x) (ex_queue x)).

(** [Close]: the first call closes the queue and waits for the worker, which runs what was accepted;
    [closeErr] is never assigned. *)
Definition Close (e : loc) : M err :=
  let! x := exec_state e in
  if ex_once x then ret None
  else
    with_Lock (e, ExecMu)
      (set_exec_state e (fun x => mkExec true (ex_retire x) (ex_once x) (ex_done x) (ex_queue x))) ;!
    let! _ := drain e in
    set_exec_state e (fun x => mkExec (ex_closed x) (ex_retire x) true true (ex_queue x)) ;!
    ret None.

End Executor.

End executor.

(** ** Tidiness *)

Section ExecutorTidy.
Context `{Foreign} {AJ : AsyncJobs}.
Variable P : Env -> call -> Prop.

(** A job whose run and recycling are tidy on the executor's thread, and whose recycling is tidy on the caller's. *)
Definition tidy_job {A} (e : loc) (E : Env) (j : Job A) : Prop :=
  tidy P (on_thread (Some e) E) (job_Run j) /\ tidy P (on_thread (Some e) E) (job_Recycle j) /\
  tidy P E (job_Recycle j).

Definition tidy_async (e : loc) (E : Env) : Prop := forall p, tidy_job e E (async_job p).

Lemma tidy_exec_state E e : tidy P E (exec_state e).
Proof. apply tidy_get. Qed.

Lemma tidy_set_exec_state E e f : tidy P E (set_exec_state e f).
Proof. now apply tidy_modify. Qed.

Hint Resolve tidy_exec_state tidy_set_exec_state : tidy.

Lemma tidy_executor_New E : tidy P E executor.New.
Proof. unfold executor.New. tidy_auto. Qed.

Lemma tidy_funcJob {A} E e (fn : M (A * err)) :
  tidy P (on_thread (Some e) E) fn -> tidy_job e E (funcJob fn).
Proof. intros Hf. unfold tidy_job, funcJob. cbn. split_and!; [exact Hf|apply tidy_ret|apply tidy_ret]. Qed.

Lemma tidy_runTask {A} E e (zero : A) j : tidy_job e E j -> tidy P E (executor.runTask e zero j).
Proof.
  intros (Hr & Hc & _). unfold executor.runTask, executor.runOne, executor.RecycleJob. tidy_auto.
Qed.

Lemma tidy_drain E e : tidy_async e E -> tidy P E (executor.drain e).
Proof.
  intros Ha. unfold executor.drain. tidy_auto.
  generalize (ex_queue a). intros ps. induction ps as [|p ps IH]; cbn; unfold executor.dequeue; tidy_auto.
  now apply tidy_runTask.
Qed.

Lemma tidy_submit E e ctx : tidy P E (executor.submit e ctx).
Proof. unfold executor.submit. tidy_auto. Qed.

Hint Resolve tidy_submit tidy_drain : tidy.

Lemma tidy_DoJob {A} E e ctx (zero : A) j :
  tidy_async e E -> tidy_job e E j -> tidy P E (executor.DoJob e ctx zero j).
Proof.
  intros Ha Hj. pose proof Hj as (_ & _ & Hc). unfold executor.DoJob, executor.RecycleJob. tidy_auto.
  now apply tidy_runTask.
Qed.

Lemma tidy_DoCtxWait {A} E e ctx (zero : A) fn :
  tidy_async e E -> tidy P (on_thread (Some e) E) fn -> tidy P E (executor.DoCtxWait e ctx zero fn).
Proof. intros. apply tidy_DoJob; [done|]. now apply tidy_funcJob. Qed.

Lemma tidy_DoJobCtx E e ctx p : tidy_async e E -> tidy P E (executor.DoJobCtx e ctx p).
Proof.
  intros Ha. destruct (Ha p) as (_ & _ & Hc).
  unfold executor.DoJobCtx, executor.RecycleJob, executor.enqueue. tidy_auto.
Qed.

Lemma tidy_DoCtx {A} E e ctx (zero : A) fn :
  tidy_async e E -> tidy P (on_thread (Some e) E) fn -> tidy P E (executor.DoCtx e ctx zero fn).
Proof.
  intros Ha Hf. unfold executor.DoCtx. tidy_auto. now apply tidy_runTask, tidy_funcJob.
Qed.

Lemma tidy_Retire E e : tidy P E (executor.Retire e).
Proof. unfold executor.Retire. tidy_auto. Qed.

Lemma tidy_executor_Close E e : tidy_async e E -> tidy P E (executor.Close e).
Proof. intros Ha. unfold executor.Close. tidy_auto. Qed.

End ExecutorTidy.

#[export] Hint Resolve tidy_exec_state tidy_set_exec_state tidy_executor_New tidy_submit tidy_drain
  tidy_DoJob tidy_DoCtxWait tidy_DoJobCtx tidy_DoCtx tidy_Retire tidy_executor_Close : tidy.
