(* ===== verification/Context.v ===== *)
(** * Contexts (package cuda: context.go, and the sync operations of dispatch.go)

    A [Context] owns a command executor, a copy executor made on first use and up to [maxWaitLanes] wait
    lanes.  The fields Go never assigns after construction are the record [Context]; [exec], [copyExec],
    [waitLanes], [syncActive] and [commandErr] are the [CtxState] at [cx_id]; [closed] is in the
    environment.  A Go pointer is an [option]. *)

From S2P Require Import Prelude CudaSys Errors Runtime CudaResult ExecutorApi.

(** [Device] (device.go). *)
Record Device := mkDevice { dv_ordinal : Z; dv_handle : Z }.

Record Context := mkContext {
  cx_id : loc;
  cx_device : option Device;
  cx_driver : option Driver;
  cx_raw : Z
}.

Definition maxWaitLanes : nat := 8.

Section ContextDefs.
Context `{Foreign}.

(** A field access through a pointer. *)
Definition deref {A} (p : option A) : M A :=
  match p with
  | Some a => ret a
  | None => panic "runtime error: invalid memory address or nil pointer dereference"
  end.

(** A closure without captured variables. *)
Definition closure (m : M err) : M (unit * err) := let! e := m in ret (tt, e).

(** *** Synchronisation operations (dispatch.go) *)

Definition syncOp_Run (o : syncOp) : M err :=
  match so_kind o with
  | opStreamSync => cudaresult.StreamSynchronize (so_driver o) (so_stream o)
  | opStreamQuery => cudaresult.StreamQuery (so_driver o) (so_stream o)
  | opStreamWaitEvent => cudaresult.StreamWaitEvent (so_driver o) (so_stream o) (so_event o) (so_flags o)
  | opCtxSync => cudaresult.CtxSynchronize (so_driver o)
  | opEventRecord => cudaresult.EventRecord (so_driver o) (so_event o) (so_stream o)
  | opEventQuery => cudaresult.EventQuery (so_driver o) (so_event o)
  | opEventSync => cudaresult.EventSynchronize (so_driver o) (so_event o)
  end.

(** [newSyncOp] assigns every field, so what the pool returned does not show. *)
Definition newSyncOp (d : option Driver) (kind : syncOpKind) (stream event flags : Z) : syncOp :=
  mkSyncOp d stream event flags kind.

(** A [*syncOp] as a job of the command executor; [Recycle] puts it back in its pool. *)
Definition syncOp_job (o : syncOp) : Job unit := mkJob (closure (syncOp_Run o)) (ret tt).

(** *** Wait lanes *)

Definition releaseWaitLane (c lane : loc) : M unit :=
  with_Lock (c, SyncMu) (set_lane_state lane (fun l => mkLane (ln_exec l) (ln_pending l - 1))).

Definition add_syncActive (c : loc) (n : Z) : M unit :=
  set_ctx_state c (fun x => mkCtxState (cs_exec x) (cs_copyExec x) (cs_waitLanes x) (cs_syncActive x + n) (cs_commandErr x)).

(** [trackedSyncJob]: [Run] and [Recycle]. *)
Definition trackedSyncJob_Run (op : syncOp) : M (unit * err) := closure (syncOp_Run op).

Definition trackedSyncJob_Recycle (c : loc) (op : syncOp) (lane : loc) : M unit :=
  executor.RecycleJob (syncOp_job op) ;!
  releaseWaitLane c lane ;!
  add_syncActive c (-1).

Definition syncBarrierNoop : M (unit * err) := ret (tt, None).

#[export] Instance cuda_jobs : AsyncJobs := {|
  async_job p := match p with
                 | PTracked c op lane => mkJob (trackedSyncJob_Run op) (trackedSyncJob_Recycle c op lane)
                 | PNoop => funcJob syncBarrierNoop
                 end
|}.

(** *** Executors of a context *)

Definition newExecutor (c : Context) : M (option loc * err) :=
  let! candidate := executor.New in
  let! r := executor.Do candidate tt (closure (cudaresult.CtxSetCurrent (cx_driver c) (cx_raw c))) in
  match r.2 with
  | Some e =>
      executor.Retire candidate ;!
      let! _ := executor.Close candidate in
      ret (None, Some e)
  | None => ret (Some candidate, None)
  end.

Definition set_copyExec (c : loc) (e : option loc) : M unit :=
  set_ctx_state c (fun x => mkCtxState (cs_exec x) e (cs_waitLanes x) (cs_syncActive x) (cs_commandErr x)).

Definition copyExecutor (c : Context) : M (option loc * err) :=
  with_Lock (cx_id c, CopyMu) (
    let! cs := ctx_state (cx_id c) in
    match cs_copyExec cs with
    | Some e => ret (Some e, None)
    | None =>
        let! r := newExecutor c in
        match r.2 with
        | Some e => ret (None, Some e)
        | None => set_copyExec (cx_id c) r.1 ;! ret (r.1, None)
        end
    end).

(** [idleWaitLane]: the first lane with nothing pending. *)
Fixpoint idleWaitLane (lanes : gmap loc Lane) (ids : list loc) : option loc :=
  match ids with
  | [] => None
  | l :: ids => if ln_pending (default zero_lane (lanes !! l)) =? 0 then Some l else idleWaitLane lanes ids
  end.

(** The loop of [leastLoadedWaitLane] over the lanes after [chosen]. *)
Fixpoint leastLoadedFrom (lanes : gmap loc Lane) (chosen : loc) (ids : list loc) : loc :=
  match ids with
  | [] => chosen
  | l :: ids =>
      if ln_pending (default zero_lane (lanes !! l)) <? ln_pending (default zero_lane (lanes !! chosen))
      then leastLoadedFrom lanes l ids
      else leastLoadedFrom lanes chosen ids
  end.

Definition leastLoadedWaitLane (lanes : gmap loc Lane) (ids : list loc) : M (option loc) :=
  match ids with
  | [] => panic "runtime error: index out of range [0] with length 0"
  | l :: ids => ret (Some (leastLoadedFrom lanes l ids))
  end.

Definition reuseWaitLane (c : loc) : M (option loc) :=
  with_Lock (c, SyncMu) (
    let! cs := ctx_state c in
    let! lanes := get st_lanes in
    let ids := cs_waitLanes cs in
    let! lane := match idleWaitLane lanes ids with
                 | Some l => ret (Some l)
                 | None => if (maxWaitLanes <=? length ids)%nat then leastLoadedWaitLane lanes ids else ret None
                 end in
    match lane with
    | Some l => set_lane_state l (fun x => mkLane (ln_exec x) (ln_pending x + 1)) ;! ret (Some l)
    | None => ret None
    end).

Definition append_lane (c lane : loc) : M unit :=
  set_ctx_state c (fun x => mkCtxState (cs_exec x) (cs_copyExec x) (cs_waitLanes x ++ [lane]) (cs_syncActive x) (cs_commandErr x)).

Definition acquireWaitLane (c : Context) : M (option loc * err) :=
  let! lane := reuseWaitLane (cx_id c) in
  match lane with
  | Some l => ret (Some l, None)
  | None =>
      with_Lock (cx_id c, LaneCreateMu) (
        let! lane := reuseWaitLane (cx_id c) in
        match lane with
        | Some l => ret (Some l, None)
        | None =>
            let! r := newExecutor c in
            match r with
            | (Some e, None) =>
                with_Lock (cx_id c, SyncMu) (
                  let! l := new_loc in
                  set_lane_state l (fun _ => mkLane e 1) ;!
                  append_lane (cx_id c) l ;!
                  ret (Some l, None))
            | (_, er) => ret (None, er)
            end
        end)
  end.

(** The loop of [syncBarrier]: a no-op through every lane, stopping at the first error. *)
Fixpoint barrier_loop (ctx : gctx) (execs : list loc) : M err :=
  match execs with
  | [] => ret None
  | e :: execs =>
      let! er := executor.DoJobCtx e ctx PNoop in
      match er with
      | Some x => ret (Some x)
      | None => barrier_loop ctx execs
      end
  end.

Definition syncBarrier (c : loc) (ctx : gctx) : M err :=
  let! cs := ctx_state c in
  if cs_syncActive cs =? 0 then ret None
  else
    let! execs := with_Lock (c, SyncMu) (
      let! cs := ctx_state c in
      let! lanes := get st_lanes in
      ret (map (fun l => ln_exec (default zero_lane (lanes !! l))) (cs_waitLanes cs))) in
    barrier_loop ctx execs.

(** *** Dispatch *)

(** [doJob]. *)
Definition doJob {A} (c : option Context) (ctx : gctx) (zero : A) (j : Job A) : M (A * err) :=
  match c with
  | None => executor.RecycleJob j ;! ret (zero, Some ErrNilContext)
  | Some c =>
      let ctx := orBackground ctx in
      with_RLock (cx_id c, OpMu) (
        let! cs := ctx_state (cx_id c) in
        match cs_exec cs with
        | None => executor.RecycleJob j ;! ret (zero, Some ErrNilContext)
        | Some e =>
            let! closed := is_closed (cx_id c) in
            if closed then executor.RecycleJob j ;! ret (zero, Some ErrContextClosed)
            else
              match cs_commandErr cs with
              | Some ce =>
                  let! er := ctx_Err ctx in
                  match er with
                  | Some x => executor.RecycleJob j ;! ret (zero, Some x)
                  | None => executor.RecycleJob j ;! ret (zero, Some ce)
                  end
              | None => executor.DoJob e ctx zero j
              end
        end)
  end.

(** The common body of [doCopyJob] and [doCopyWait], which differ in how the job is handed over. *)
Definition doCopy {A} (run : loc -> gctx -> M (A * err)) (c : option Context) (ctx : gctx) (zero : A) : M (A * err) :=
  match c with
  | None => ret (zero, Some ErrNilContext)
  | Some c =>
      let ctx := orBackground ctx in
      with_RLock (cx_id c, OpMu) (
        let! cs := ctx_state (cx_id c) in
        match cs_exec cs with
        | None => ret (zero, Some ErrNilContext)
        | Some _ =>
            let! closed := is_closed (cx_id c) in
            if closed then ret (zero, Some ErrContextClosed)
            else
              let! er := ctx_Err ctx in
              match er with
              | Some x => ret (zero, Some x)
              | None =>
                  match cs_commandErr cs with
                  | Some ce => ret (zero, Some ce)
                  | None =>
                      let! r := copyExecutor c in
                      match r with
                      | (Some lane, None) => run lane ctx
                      | (_, er) => ret (zero, er)
                      end
                  end
              end
        end)
  end.

Definition doCopyJob {A} (c : option Context) (ctx : gctx) (zero : A) (j : Job A) : M (A * err) :=
  doCopy (fun lane ctx => executor.DoJob lane ctx zero j) c ctx zero.

Definition doCopyWait {A} (c : option Context) (ctx : gctx) (zero : A) (fn : M (A * err)) : M (A * err) :=
  doCopy (fun lane ctx => executor.DoCtxWait lane ctx zero fn) c ctx zero.

(** [doJobCtx]: the job is a [*syncOp]; recycling it before submission only returns it to its pool. *)
Definition doJobCtx (c : option Context) (ctx : gctx) (o : syncOp) : M err :=
  match c with
  | None => ret (Some ErrNilContext)
  | Some c =>
      let ctx := orBackground ctx in
      with_RLock (cx_id c, OpMu) (
        let! cs := ctx_state (cx_id c) in
        match cs_exec cs with
        | None => ret (Some ErrNilContext)
        | Some _ =>
            let! closed := is_closed (cx_id c) in
            if closed then ret (Some ErrContextClosed)
            else
              let! er := ctx_Err ctx in
              match er with
              | Some x => ret (Some x)
              | None =>
                  match cs_commandErr cs with
                  | Some ce => ret (Some ce)
                  | None =>
                      let! r := acquireWaitLane c in
                      match r with
                      | (Some lane, None) =>
                          add_syncActive (cx_id c) 1 ;!
                          let! lanes := get st_lanes in
                          executor.DoJobCtx (ln_exec (default zero_lane (lanes !! lane))) ctx (PTracked (cx_id c) o lane)
                      | (_, er) => ret er
                      end
                  end
              end
        end)
  end.

(** [doWith]. *)
Definition doWith {A} (c : option Context) (ctx : gctx) (zero : A) (fn : M (A * err))
    (waitAfterSubmit barrierBeforeSubmit : bool) : M (A * err) :=
  match c with
  | None => ret (zero, Some ErrNilContext)
  | Some c =>
      let ctx := orBackground ctx in
      with_RLock (cx_id c, OpMu) (
        let! cs := ctx_state (cx_id c) in
        match cs_exec cs with
        | None => ret (zero, Some ErrNilContext)
        | Some e =>
            let! closed := is_closed (cx_id c) in
            if closed then ret (zero, Some ErrContextClosed)
            else
              match cs_commandErr cs with
              | Some ce =>
                  let! er := ctx_Err ctx in
                  match er with
                  | Some x => ret (zero, Some x)
                  | None => ret (zero, Some ce)
                  end
              | None =>
                  if waitAfterSubmit then
                    let! er := ctx_Err ctx in
                    match er with
                    | Some x => ret (zero, Some x)
                    | None =>
                        let! er := if barrierBeforeSubmit then syncBarrier (cx_id c) ctx else ret None in
                        match er with
                        | Some x => ret (zero, Some x)
                        | None => executor.DoCtxWait e ctx zero fn
                        end
                    end
                  else executor.DoCtx e ctx zero fn
              end
        end)
  end.

(** [do], [doWait], [doBarrier]. *)
Definition do_ {A} (c : option Context) (ctx : gctx) (zero : A) (fn : M (A * err)) : M (A * err) :=
  doWith c ctx zero fn false false.
Definition doWait {A} (c : option Context) (ctx : gctx) (zero : A) (fn : M (A * err)) : M (A * err) :=
  doWith c ctx zero fn true false.
Definition doBarrier {A} (c : option Context) (ctx : gctx) (zero : A) (fn : M (A * err)) : M (A * err) :=
  doWith c ctx zero fn true true.

(** *** Construction and queries *)

Definition currentDriver : M (option Driver) := with_Lock pkg_mu (get st_driver).

(** The closure [Primary] runs on the new thread; its captured variable is [raw]. *)
Definition primary_closure (drv : option Driver) (h : Z) : M (Z * err) :=
  let! r := cudaresult.PrimaryCtxRetain drv h in
  match r.2 with
  | Some e => ret (0, Some e)
  | None =>
      let! e := cudaresult.CtxSetCurrent drv r.1 in
      match e with
      | Some e =>
          let! rel := cudaresult.PrimaryCtxRelease drv h in
          ret (0, errors_join [Some e; rel])
      | None => ret (r.1, None)
      end
  end.

(** [Device.Primary]. *)
Definition Device_Primary (d : option Device) : M (option Context * err) :=
  let! drv := currentDriver in
  match drv with
  | None => ret (None, Some ErrNotInitialized)
  | Some _ =>
      match d with
      | None => ret (None, Some ErrNilDevice)
      | Some dv =>
          let! exec := executor.New in
          let! r := executor.Do exec 0 (primary_closure drv (dv_handle dv)) in
          match r.2 with
          | Some e => let! _ := executor.Close exec in ret (None, Some e)
          | None =>
              let! id := new_loc in
              set_ctx_state id (fun _ => mkCtxState (Some exec) None [] 0 None) ;!
              ret (Some (mkContext id d drv r.1), None)
          end
      end
  end.

Definition Context_Device (c : option Context) : option Device :=
  match c with None => None | Some c => cx_device c end.

Definition Context_Synchronize (c : option Context) (ctx : gctx) : M err :=
  match c with
  | None => ret (Some ErrNilContext)
  | Some x => doJobCtx c ctx (newSyncOp (cx_driver x) opCtxSync 0 0 0)
  end.

Definition StreamPriorityRange (c : option Context) : M (Z * Z * err) :=
  match c with
  | None => ret (0, 0, Some ErrNilContext)
  | Some x =>
      let! r := do_ c Background (0, 0) (cudaresult.CtxGetStreamPriorityRange (cx_driver x)) in
      match r.2 with
      | Some e => ret (0, 0, Some e)
      | None => ret (r.1, None)
      end
  end.

Definition MemInfo (c : option Context) : M (Z * Z * err) :=
  match c with
  | None => ret (0, 0, Some ErrNilContext)
  | Some x =>
      let! r := do_ c Background (0, 0) (cudaresult.MemGetInfo (cx_driver x)) in
      match r.2 with
      | Some e => ret (0, 0, Some e)
      | None => ret (r.1, None)
      end
  end.

(** *** Closing *)

Definition closeExecutor (c : Context) (lane : loc) : M err :=
  let! r := executor.Do lane tt (closure (cudaresult.CtxSetCurrent (cx_driver c) 0)) in
  let clearErr := r.2 in
  (if is_nil clearErr then ret tt else executor.Retire lane) ;!
  let! ce := executor.Close lane in
  ret (errors_join [clearErr; ce]).

Fixpoint closeLanes (c : Context) (er : err) (ids : list loc) : M err :=
  match ids with
  | [] => ret er
  | l :: ids =>
      let! lanes := get st_lanes in
      let! e := closeExecutor c (ln_exec (default zero_lane (lanes !! l))) in
      closeLanes c (errors_join [er; e]) ids
  end.

Definition closeWaitLanes (c : Context) : M err :=
  let! ids := with_Lock (cx_id c, SyncMu) (
    let! cs := ctx_state (cx_id c) in
    set_ctx_state (cx_id c) (fun x => mkCtxState (cs_exec x) (cs_copyExec x) [] (cs_syncActive x) (cs_commandErr x)) ;!
    ret (cs_waitLanes cs)) in
  closeLanes c None ids.

Definition closeCopyExecutor (c : Context) : M err :=
  let! lane := with_Lock (cx_id c, CopyMu) (
    let! cs := ctx_state (cx_id c) in
    set_copyExec (cx_id c) None ;!
    ret (cs_copyExec cs)) in
  match lane with
  | None => ret None
  | Some e => closeExecutor c e
  end.

Definition set_commandErr (c : loc) (e : err) : M unit :=
  set_ctx_state c (fun x => mkCtxState (cs_exec x) (cs_copyExec x) (cs_waitLanes x) (cs_syncActive x) e).

Definition recoverCommandExecutor (c : Context) : M err :=
  let! cs := ctx_state (cx_id c) in
  if is_nil (cs_commandErr cs) then ret None
  else
    let! candidate := executor.New in
    let! r := executor.Do candidate tt (closure (cudaresult.CtxSetCurrent (cx_driver c) (cx_raw c))) in
    match r.2 with
    | Some e =>
        executor.Retire candidate ;!
        let! _ := executor.Close candidate in
        set_commandErr (cx_id c) (Some e) ;!
        ret (Some e)
    | None =>
        set_ctx_state (cx_id c) (fun x => mkCtxState (Some candidate) (cs_copyExec x) (cs_waitLanes x) (cs_syncActive x) None) ;!
        ret None
    end.

(** The closure of [Close]: it assigns [clearErr], [releaseErr] and [restoreErr] and returns nil. *)
Definition close_commands (c : Context) (dv : Device) : M (err * err * err * err) :=
  let! clearErr := cudaresult.CtxSetCurrent (cx_driver c) 0 in
  let! releaseErr := cudaresult.PrimaryCtxRelease (cx_driver c) (dv_handle dv) in
  let! restoreErr := (if is_nil releaseErr then ret None
                      else cudaresult.CtxSetCurrent (cx_driver c) (cx_raw c)) in
  ret (clearErr, releaseErr, restoreErr, None).

(** [Context.Close] after the early returns, under [opMu]. *)
Definition close_body (c : Context) (dv : Device) : M err :=
  let! rec := recoverCommandExecutor c in
  match rec with
  | Some e => ret (Some e)
  | None =>
      let! syncErr := closeWaitLanes c in
      let! copyErr := closeCopyExecutor c in
      let! cs := ctx_state (cx_id c) in
      let! exec := deref (cs_exec cs) in
      let! r := executor.Do exec (None, None, None) (close_commands c dv) in
      let '(clearErr, releaseErr, restoreErr, doErr) := r in
      match doErr with
      | Some e => ret (errors_join [syncErr; copyErr; Some e])
      | None =>
          if negb (is_nil releaseErr) then
            (if is_nil restoreErr then ret tt
             else
               set_commandErr (cx_id c) restoreErr ;!
               executor.Retire exec ;!
               let! _ := executor.Close exec in ret tt) ;!
            ret (errors_join [syncErr; copyErr; clearErr; releaseErr; restoreErr])
          else
            set_closed (cx_id c) ;!
            (if is_nil clearErr then ret tt else executor.Retire exec) ;!
            let! ce := executor.Close exec in
            ret (errors_join [syncErr; copyErr; clearErr; ce])
      end
  end.

Definition Context_Close (c : option Context) : M err :=
  match c with
  | None => ret (Some ErrNilContext)
  | Some c =>
      match cx_device c with
      | None => ret (Some ErrNilContext)
      | Some dv =>
          with_Lock (cx_id c, OpMu) (
            let! cs := ctx_state (cx_id c) in
            match cs_exec cs with
            | None => ret (Some ErrNilContext)
            | Some _ =>
                let! closed := is_closed (cx_id c) in
                if closed then ret None else close_body c dv
            end)
      end
  end.

End ContextDefs.

(** ** Tidiness

    Besides the calls of the operation itself, the executors may run what earlier callers abandoned
    (synchronisation operations) and bind a new thread to the context. *)

Definition background (c : call) : bool :=
  match c with
  | CuStreamSynchronize _ | CuStreamQuery _ | CuStreamWaitEvent _ _ _ | CuCtxSynchronize
  | CuEventRecord _ _ | CuEventQuery _ | CuEventSynchronize _ | CuCtxSetCurrent _ => true
  | _ => false
  end.

Section ContextTidy.
Context `{Foreign}.
Variable P : Env -> call -> Prop.
Hypothesis P_background : forall E c, background c = true -> P E c.

Lemma tidy_deref {A} E (p : option A) : tidy P E (deref p).
Proof. unfold deref. tidy_auto. Qed.

Lemma tidy_ctx_state E c : tidy P E (ctx_state c).
Proof. apply tidy_get. Qed.

Lemma tidy_set_ctx_state E c f : tidy P E (set_ctx_state c f).
Proof. now apply tidy_modify. Qed.

Lemma tidy_set_lane_state E c f : tidy P E (set_lane_state c f).
Proof. now apply tidy_modify. Qed.

Hint Resolve tidy_deref tidy_ctx_state tidy_set_ctx_state tidy_set_lane_state : tidy.

Lemma tidy_closure E m : tidy P E m -> tidy P E (closure m).
Proof. intros Hm. unfold closure. tidy_auto. Qed.

Lemma tidy_syncOp_Run E o : tidy P E (syncOp_Run o).
Proof.
  unfold syncOp_Run. destruct (so_kind o);
    [unfold cudaresult.StreamSynchronize|unfold cudaresult.StreamQuery|unfold cudaresult.StreamWaitEvent
    |unfold cudaresult.CtxSynchronize|unfold cudaresult.EventRecord|unfold cudaresult.EventQuery
    |unfold cudaresult.EventSynchronize]; tidy_auto; now apply P_background.
Qed.

Lemma tidy_CtxSetCurrent E d x : tidy P E (cudaresult.CtxSetCurrent d x).
Proof. unfold cudaresult.CtxSetCurrent. tidy_auto. Qed.

Hint Resolve tidy_closure tidy_syncOp_Run tidy_CtxSetCurrent : tidy.

Lemma tidy_async_cuda e E : tidy_async P e E.
Proof.
  intros [c op l|]; split_and!; cbn;
    unfold trackedSyncJob_Run, trackedSyncJob_Recycle, releaseWaitLane, add_syncActive, executor.RecycleJob, syncBarrierNoop;
    cbn; tidy_auto.
Qed.

Hint Resolve tidy_async_cuda : tidy.

Lemma tidy_newExecutor E c : tidy P E (newExecutor c).
Proof. unfold newExecutor, executor.Do. tidy_auto. Qed.

Hint Resolve tidy_newExecutor : tidy.

Lemma tidy_copyExecutor E c : tidy P E (copyExecutor c).
Proof. unfold copyExecutor, set_copyExec. tidy_auto. Qed.

Lemma tidy_reuseWaitLane E c : tidy P E (reuseWaitLane c).
Proof. unfold reuseWaitLane, leastLoadedWaitLane. tidy_auto. Qed.

Hint Resolve tidy_copyExecutor tidy_reuseWaitLane : tidy.

Lemma tidy_acquireWaitLane E c : tidy P E (acquireWaitLane c).
Proof. unfold acquireWaitLane, append_lane. tidy_auto. Qed.

Lemma tidy_barrier_loop E ctx es : tidy P E (barrier_loop ctx es).
Proof. induction es as [|e es IH]; cbn; tidy_auto. Qed.

Hint Resolve tidy_acquireWaitLane tidy_barrier_loop : tidy.

Lemma tidy_syncBarrier E c ctx : tidy P E (syncBarrier c ctx).
Proof. unfold syncBarrier. tidy_auto. Qed.

Hint Resolve tidy_syncBarrier : tidy.

Lemma tidy_doJobCtx E c ctx o : tidy P E (doJobCtx c ctx o).
Proof. unfold doJobCtx, add_syncActive. tidy_auto. Qed.

(** The environment a closure or job of context [c] runs in: on one of its executors, with [opMu] read-locked
    and [c] open. *)
Definition in_context (c : option Context) (E : Env) (K : Env -> Prop) : Prop :=
  match c with
  | Some c => forall e, open (cx_id c) E -> K (on_thread (Some e) (rlocked (cx_id c, OpMu) E))
  | None => True
  end.

Lemma tidy_doJob {A} E c ctx (zero : A) j :
  (forall E', tidy P E' (job_Recycle j)) ->
  in_context c E (fun E => tidy P E (job_Run j)) ->
  tidy P E (doJob c ctx zero j).
Proof.
  intros Hrec Hrun. unfold doJob, executor.RecycleJob. destruct c as [c|]; [|tidy_auto].
  cbn in Hrun. tidy_auto.
  apply tidy_DoJob; [apply tidy_async_cuda|]. split_and!; [|apply Hrec|apply Hrec].
  apply Hrun. now apply open_test.
Qed.

Lemma tidy_doCopy {A} E (run : loc -> gctx -> M (A * err)) c ctx (zero : A) :
  (match c with
   | Some c => open (cx_id c) E -> forall lane ctx, tidy P (rlocked (cx_id c, OpMu) E) (run lane ctx)
   | None => True
   end) ->
  tidy P E (doCopy run c ctx zero).
Proof.
  intros Hrun. unfold doCopy. destruct c as [c|]; [|tidy_auto].
  tidy_auto; apply Hrun; now apply open_test.
Qed.

Lemma tidy_doCopyJob {A} E c ctx (zero : A) j :
  (forall E', tidy P E' (job_Recycle j)) ->
  in_context c E (fun E => tidy P E (job_Run j)) ->
  tidy P E (doCopyJob c ctx zero j).
Proof.
  intros Hrec Hrun. apply tidy_doCopy. destruct c as [c|]; [|done]. cbn in Hrun. intros Ho lane ctx'.
  apply tidy_DoJob; [apply tidy_async_cuda|]. split_and!; [now apply Hrun|apply Hrec|apply Hrec].
Qed.

Lemma tidy_doCopyWait {A} E c ctx (zero : A) fn :
  in_context c E (fun E => tidy P E fn) -> tidy P E (doCopyWait c ctx zero fn).
Proof.
  intros Hrun. apply tidy_doCopy. destruct c as [c|]; [|done]. cbn in Hrun. intros Ho lane ctx'.
  apply tidy_DoCtxWait; [apply tidy_async_cuda|]. now apply Hrun.
Qed.

Lemma tidy_doWith {A} E c ctx (zero : A) fn w b :
  in_context c E (fun E => tidy P E fn) -> tidy P E (doWith c ctx zero fn w b).
Proof.
  intros Hrun. unfold doWith. destruct c as [c|]; [|tidy_auto]. cbn in Hrun.
  assert (Hf : forall e, bool_decide (cx_id c ∈ env_closed (rlocked (cx_id c, OpMu) E)) = false ->
    tidy P (on_thread (Some e) (rlocked (cx_id c, OpMu) E)) fn).
  { intros e Ho. apply Hrun. now apply open_test. }
  tidy_auto.
Qed.

Lemma tidy_do {A} E c ctx (zero : A) fn :
  in_context c E (fun E => tidy P E fn) -> tidy P E (do_ c ctx zero fn).
Proof. apply tidy_doWith. Qed.

Lemma tidy_doWait {A} E c ctx (zero : A) fn :
  in_context c E (fun E => tidy P E fn) -> tidy P E (doWait c ctx zero fn).
Proof. apply tidy_doWith. Qed.

Lemma tidy_doBarrier {A} E c ctx (zero : A) fn :
  in_context c E (fun E => tidy P E fn) -> tidy P E (doBarrier c ctx zero fn).
Proof. apply tidy_doWith. Qed.

Lemma tidy_closeExecutor E c e : tidy P E (closeExecutor c e).
Proof. unfold closeExecutor, executor.Do. tidy_auto. Qed.

Lemma tidy_closeWaitLanes E c : tidy P E (closeWaitLanes c).
Proof.
  unfold closeWaitLanes. tidy_auto. generalize (@None error). induction a as [|l ids IH]; intros er; cbn; tidy_auto.
  apply tidy_closeExecutor.
Qed.

Lemma tidy_closeCopyExecutor E c : tidy P E (closeCopyExecutor c).
Proof. unfold closeCopyExecutor, set_copyExec. tidy_auto. apply tidy_closeExecutor. Qed.

Lemma tidy_recoverCommandExecutor E c : tidy P E (recoverCommandExecutor c).
Proof. unfold recoverCommandExecutor, set_commandErr, executor.Do. tidy_auto. Qed.

End ContextTidy.

#[export] Hint Resolve tidy_deref tidy_ctx_state tidy_set_ctx_state tidy_set_lane_state tidy_closure tidy_syncOp_Run
  tidy_CtxSetCurrent tidy_async_cuda tidy_newExecutor tidy_copyExecutor tidy_syncBarrier tidy_doJobCtx : tidy.
