(* ===== verification/Dispatch.v ===== *)
(** * Pooled operations (package cuda: dispatch.go, event_dispatch.go)

    A memory operation is taken from a pool with whatever fields its last use left, the fields its kind
    needs are assigned, and it is submitted: synchronous copies to the copy executor, everything else
    to the command executor.  The pool is part of the state, so that the irrelevance of stale fields is a
    theorem ([pool_irrelevant]); the pooled types all of whose fields are assigned at each use are plain
    values. *)

From S2P Require Import Prelude CudaSys Errors Runtime CudaResult ExecutorApi Context.

(** [LaunchConfig] (launch.go). *)
Record LaunchConfig := mkLaunchConfig {
  GridX : Z; GridY : Z; GridZ : Z;
  BlockX : Z; BlockY : Z; BlockZ : Z;
  SharedMemBytes : Z
}.

(** [memOpKind] is a [uint8]; [memsetKind] computes with it. *)
Definition kind_num (k : memOpKind) : Z :=
  match k with
  | opHtoD => 0 | opDtoH => 1 | opDtoD => 2 | opHtoDAsync => 3 | opDtoHAsync => 4 | opDtoDAsync => 5
  | opMemset8 => 6 | opMemset16 => 7 | opMemset32 => 8 | opMemset8Async => 9 | opMemset16Async => 10
  | opMemset32Async => 11
  end.

(** The kind of a number; a number past the last constant is run like [opMemset32Async], the default case of [Run]. *)
Definition kind_of_num (n : Z) : memOpKind :=
  default opMemset32Async
    ([opHtoD; opDtoH; opDtoD; opHtoDAsync; opDtoHAsync; opDtoDAsync; opMemset8; opMemset16; opMemset32;
      opMemset8Async; opMemset16Async; opMemset32Async] !! Z.to_nat n).

Definition memsetKind (base : memOpKind) (size : Z) : memOpKind :=
  if size =? 1 then base
  else if size =? 2 then kind_of_num (uint8 (kind_num base + 1))
  else kind_of_num (uint8 (kind_num base + 2)).

Definition zero_memOp : memOp := mkMemOp None 0 0 0 0 0 0 opHtoD.

Section Dispatch.
Context `{Foreign}.

(** ** Memory operations *)

Definition memOp_Run (o : memOp) : M err :=
  match mo_kind o with
  | opHtoD => cudaresult.MemcpyHtoD (mo_driver o) (mo_dst o) (mo_host o) (mo_n o)
  | opDtoH => cudaresult.MemcpyDtoH (mo_driver o) (mo_host o) (mo_src o) (mo_n o)
  | opDtoD => cudaresult.MemcpyDtoD (mo_driver o) (mo_dst o) (mo_src o) (mo_n o)
  | opHtoDAsync => cudaresult.MemcpyHtoDAsync (mo_driver o) (mo_dst o) (mo_host o) (mo_n o) (mo_stream o)
  | opDtoHAsync => cudaresult.MemcpyDtoHAsync (mo_driver o) (mo_host o) (mo_src o) (mo_n o) (mo_stream o)
  | opDtoDAsync => cudaresult.MemcpyDtoDAsync (mo_driver o) (mo_dst o) (mo_src o) (mo_n o) (mo_stream o)
  | opMemset8 => cudaresult.MemsetD8 (mo_driver o) (mo_dst o) (uint8 (mo_val o)) (mo_n o)
  | opMemset16 => cudaresult.MemsetD16 (mo_driver o) (mo_dst o) (uint16 (mo_val o)) (mo_n o)
  | opMemset32 => cudaresult.MemsetD32 (mo_driver o) (mo_dst o) (mo_val o) (mo_n o)
  | opMemset8Async => cudaresult.MemsetD8Async (mo_driver o) (mo_dst o) (uint8 (mo_val o)) (mo_n o) (mo_stream o)
  | opMemset16Async => cudaresult.MemsetD16Async (mo_driver o) (mo_dst o) (uint16 (mo_val o)) (mo_n o) (mo_stream o)
  | opMemset32Async => cudaresult.MemsetD32Async (mo_driver o) (mo_dst o) (mo_val o) (mo_n o) (mo_stream o)
  end.

(** [memOpPool]: [Get] returns a pooled operation, or a new one when there is none. *)
Definition memOpPool_Get : M memOp := fun s =>
  match st_memOps s with
  | o :: os => (Done o, set_memOps os s)
  | [] => (Done zero_memOp, s)
  end.

(** [memOp.recycle]: clears the host pointer and puts [o] back. *)
Definition memOp_recycle (o : memOp) : M unit :=
  modify (fun s => set_memOps
    (mkMemOp (mo_driver o) (mo_dst o) (mo_src o) 0 (mo_n o) (mo_val o) (mo_stream o) (mo_kind o) :: st_memOps s) s).

(** A [*memOp] has no exported [Recycle], so the executor does not recycle it. *)
Definition memOp_job (o : memOp) : Job unit := mkJob (closure (memOp_Run o)) (ret tt).

(** [Context.run]. *)
Definition run (c : option Context) (ctx : gctx) (o : memOp) : M err :=
  let! x := deref c in
  let o := mkMemOp (cx_driver x) (mo_dst o) (mo_src o) (mo_host o) (mo_n o) (mo_val o) (mo_stream o) (mo_kind o) in
  let! r := match mo_kind o with
            | opHtoD | opDtoH | opDtoD => doCopyJob c ctx tt (memOp_job o)
            | _ => doJob c ctx tt (memOp_job o)
            end in
  memOp_recycle o ;!
  ret r.2.

Definition memcpyHtoD (c : option Context) (ctx : gctx) (dst host n : Z) : M err :=
  let! o := memOpPool_Get in
  run c ctx (mkMemOp (mo_driver o) dst (mo_src o) host n (mo_val o) (mo_stream o) opHtoD).

Definition memcpyDtoH (c : option Context) (ctx : gctx) (host src n : Z) : M err :=
  let! o := memOpPool_Get in
  run c ctx (mkMemOp (mo_driver o) (mo_dst o) src host n (mo_val o) (mo_stream o) opDtoH).

Definition memcpyDtoD (c : option Context) (ctx : gctx) (dst src n : Z) : M err :=
  let! o := memOpPool_Get in
  run c ctx (mkMemOp (mo_driver o) dst src (mo_host o) n (mo_val o) (mo_stream o) opDtoD).

Definition memcpyHtoDAsync (c : option Context) (ctx : gctx) (dst host n stream : Z) : M err :=
  let! o := memOpPool_Get in
  run c ctx (mkMemOp (mo_driver o) dst (mo_src o) host n (mo_val o) stream opHtoDAsync).

Definition memcpyDtoHAsync (c : option Context) (ctx : gctx) (host src n stream : Z) : M err :=
  let! o := memOpPool_Get in
  run c ctx (mkMemOp (mo_driver o) (mo_dst o) src host n (mo_val o) stream opDtoHAsync).

Definition memcpyDtoDAsync (c : option Context) (ctx : gctx) (dst src n stream : Z) : M err :=
  let! o := memOpPool_Get in
  run c ctx (mkMemOp (mo_driver o) dst src (mo_host o) n (mo_val o) stream opDtoDAsync).

Definition memset (c : option Context) (ctx : gctx) (dst val n size : Z) : M err :=
  let! o := memOpPool_Get in
  run c ctx (mkMemOp (mo_driver o) dst (mo_src o) (mo_host o) n val (mo_stream o) (memsetKind opMemset8 size)).

Definition memsetAsync (c : option Context) (ctx : gctx) (dst val n size stream : Z) : M err :=
  let! o := memOpPool_Get in
  run c ctx (mkMemOp (mo_driver o) dst (mo_src o) (mo_host o) n val stream (memsetKind opMemset8Async size)).

(** ** Descriptor copies *)

(** [memcpy2DOp] and the like: every field is assigned before [Run], and cleared after. *)
Definition memcpy2DOp_Run (d : option Driver) (desc : CUDA_MEMCPY2D) : M err := cudaresult.Memcpy2D d desc.
Definition memcpy3DOp_Run (d : option Driver) (desc : CUDA_MEMCPY3D) : M err := cudaresult.Memcpy3D d desc.
Definition memcpy2DAsyncOp_Run (d : option Driver) (desc : CUDA_MEMCPY2D) (stream : Z) : M err :=
  cudaresult.Memcpy2DAsync d desc stream.
Definition memcpy3DAsyncOp_Run (d : option Driver) (desc : CUDA_MEMCPY3D) (stream : Z) : M err :=
  cudaresult.Memcpy3DAsync d desc stream.

Definition memcpy2D (c : option Context) (ctx : gctx) (desc : CUDA_MEMCPY2D) : M err :=
  let! x := deref c in
  let! r := doCopyJob c ctx tt (mkJob (closure (memcpy2DOp_Run (cx_driver x) desc)) (ret tt)) in
  ret r.2.

Definition memcpy3D (c : option Context) (ctx : gctx) (desc : CUDA_MEMCPY3D) : M err :=
  let! x := deref c in
  let! r := doCopyJob c ctx tt (mkJob (closure (memcpy3DOp_Run (cx_driver x) desc)) (ret tt)) in
  ret r.2.

Definition memcpy2DAsync (c : option Context) (ctx : gctx) (desc : CUDA_MEMCPY2D) (stream : Z) : M err :=
  let! x := deref c in
  let! r := doJob c ctx tt (mkJob (closure (memcpy2DAsyncOp_Run (cx_driver x) desc stream)) (ret tt)) in
  ret r.2.

Definition memcpy3DAsync (c : option Context) (ctx : gctx) (desc : CUDA_MEMCPY3D) (stream : Z) : M err :=
  let! x := deref c in
  let! r := doJob c ctx tt (mkJob (closure (memcpy3DAsyncOp_Run (cx_driver x) desc stream)) (ret tt)) in
  ret r.2.

(** ** Launches *)

Definition launchOp_Run (d : option Driver) (fn : Z) (cfg : LaunchConfig) (stream : Z) (params : kernel_params)
    (coop : bool) : M err :=
  let grid := (GridX cfg, GridY cfg, GridZ cfg) in
  let block := (BlockX cfg, BlockY cfg, BlockZ cfg) in
  if coop then cudaresult.LaunchCooperativeKernel d fn grid block (SharedMemBytes cfg) stream params
  else cudaresult.LaunchKernel d fn grid block (SharedMemBytes cfg) stream params.

Definition launchKernel (c : option Context) (ctx : gctx) (fn : Z) (cfg : LaunchConfig) (stream : Z)
    (params : kernel_params) (cooperative : bool) : M err :=
  let! x := deref c in
  let! r := doJob c ctx tt (mkJob (closure (launchOp_Run (cx_driver x) fn cfg stream params cooperative)) (ret tt)) in
  ret r.2.

Definition graphLaunchOp_Run (d : option Driver) (exec stream : Z) : M err := cudaresult.GraphLaunch d exec stream.

Definition graphLaunch (c : option Context) (ctx : gctx) (exec stream : Z) : M err :=
  let! x := deref c in
  let! r := doJob c ctx tt (mkJob (closure (graphLaunchOp_Run (cx_driver x) exec stream)) (ret tt)) in
  ret r.2.

End Dispatch.

(** ** The driver call of a memory operation *)

(** Which call a kind makes. *)
Definition memOp_call (o : memOp) : call :=
  match mo_kind o with
  | opHtoD => CuMemcpyHtoD (mo_dst o) (mo_host o) (mo_n o)
  | opDtoH => CuMemcpyDtoH (mo_host o) (mo_src o) (mo_n o)
  | opDtoD => CuMemcpyDtoD (mo_dst o) (mo_src o) (mo_n o)
  | opHtoDAsync => CuMemcpyHtoDAsync (mo_dst o) (mo_host o) (mo_n o) (mo_stream o)
  | opDtoHAsync => CuMemcpyDtoHAsync (mo_host o) (mo_src o) (mo_n o) (mo_stream o)
  | opDtoDAsync => CuMemcpyDtoDAsync (mo_dst o) (mo_src o) (mo_n o) (mo_stream o)
  | opMemset8 => CuMemsetD8 (mo_dst o) (uint8 (mo_val o)) (mo_n o)
  | opMemset16 => CuMemsetD16 (mo_dst o) (uint16 (mo_val o)) (mo_n o)
  | opMemset32 => CuMemsetD32 (mo_dst o) (mo_val o) (mo_n o)
  | opMemset8Async => CuMemsetD8Async (mo_dst o) (uint8 (mo_val o)) (mo_n o) (mo_stream o)
  | opMemset16Async => CuMemsetD16Async (mo_dst o) (uint16 (mo_val o)) (mo_n o) (mo_stream o)
  | opMemset32Async => CuMemsetD32Async (mo_dst o) (mo_val o) (mo_n o) (mo_stream o)
  end.

Section DispatchTidy.
Context `{Foreign}.
Variable P : Env -> call -> Prop.
Hypothesis P_background : forall E c, background c = true -> P E c.

Lemma tidy_memOp_Run E o : P E (memOp_call o) -> tidy P E (memOp_Run o).
Proof.
  unfold memOp_Run, memOp_call. intros HP. destruct (mo_kind o);
    [unfold cudaresult.MemcpyHtoD|unfold cudaresult.MemcpyDtoH|unfold cudaresult.MemcpyDtoD
    |unfold cudaresult.MemcpyHtoDAsync|unfold cudaresult.MemcpyDtoHAsync|unfold cudaresult.MemcpyDtoDAsync
    |unfold cudaresult.MemsetD8|unfold cudaresult.MemsetD16|unfold cudaresult.MemsetD32
    |unfold cudaresult.MemsetD8Async|unfold cudaresult.MemsetD16Async|unfold cudaresult.MemsetD32Async];
    tidy_auto.
Qed.

Lemma tidy_memOpPool_Get E : tidy P E memOpPool_Get.
Proof.
  intros s Hs. unfold memOpPool_Get. destruct (st_memOps s); split_and!; try done; now apply calls_refl.
Qed.

Lemma tidy_memOp_recycle E o : tidy P E (memOp_recycle o).
Proof. now apply tidy_modify. Qed.

Lemma tidy_memOp_job E o c d :
  in_context c E (fun E => P E (memOp_call (mkMemOp d (mo_dst o) (mo_src o) (mo_host o) (mo_n o) (mo_val o) (mo_stream o) (mo_kind o)))) ->
  in_context c E (fun E => tidy P E (job_Run (memOp_job
    (mkMemOp d (mo_dst o) (mo_src o) (mo_host o) (mo_n o) (mo_val o) (mo_stream o) (mo_kind o))))).
Proof.
  destruct c as [c|]; [|done]. cbn. intros HP e Ho. apply tidy_closure, tidy_memOp_Run, HP, Ho.
Qed.

(** Whatever the operation was given, all [run] can add to the trace is its own call, on an executor of the open
    context, and background calls. *)
Lemma tidy_run E c ctx o :
  (forall d, in_context c E (fun E => P E (memOp_call (mkMemOp d (mo_dst o) (mo_src o) (mo_host o) (mo_n o) (mo_val o) (mo_stream o) (mo_kind o))))) ->
  tidy P E (run c ctx o).
Proof.
  intros HP. unfold run. apply tidy_bind; [apply tidy_deref|]. intros x. cbv zeta.
  apply tidy_bind; [|intros r; apply tidy_bind; [apply tidy_memOp_recycle|intros; apply tidy_ret]].
  cbn [mo_kind].
  assert (Hc : tidy P E (doCopyJob c ctx tt (memOp_job (mkMemOp (cx_driver x) (mo_dst o) (mo_src o) (mo_host o) (mo_n o) (mo_val o) (mo_stream o) (mo_kind o))))).
  { apply tidy_doCopyJob; [done|intros; apply tidy_ret|]. apply tidy_memOp_job, HP. }
  assert (Hj : tidy P E (doJob c ctx tt (memOp_job (mkMemOp (cx_driver x) (mo_dst o) (mo_src o) (mo_host o) (mo_n o) (mo_val o) (mo_stream o) (mo_kind o))))).
  { apply tidy_doJob; [done|intros; apply tidy_ret|]. apply tidy_memOp_job, HP. }
  destruct (mo_kind o); assumption.
Qed.

End DispatchTidy.

#[export] Hint Resolve tidy_memOpPool_Get tidy_memOp_recycle : tidy.

(** The operations as the other components call them. *)
Section DispatchCalls.
Context `{Foreign}.
Variable P : Env -> call -> Prop.
Hypothesis P_background : forall E c, background c = true -> P E c.

Ltac tidy_mem := intros HP; tidy_auto; apply tidy_run; [assumption|intros d; exact HP].

Lemma tidy_memcpyHtoD E c ctx dst host n :
  in_context c E (fun E => P E (CuMemcpyHtoD dst host n)) -> tidy P E (memcpyHtoD c ctx dst host n).
Proof. unfold memcpyHtoD. tidy_mem. Qed.

Lemma tidy_memcpyDtoH E c ctx host src n :
  in_context c E (fun E => P E (CuMemcpyDtoH host src n)) -> tidy P E (memcpyDtoH c ctx host src n).
Proof. unfold memcpyDtoH. tidy_mem. Qed.

Lemma tidy_memcpyDtoD E c ctx dst src n :
  in_context c E (fun E => P E (CuMemcpyDtoD dst src n)) -> tidy P E (memcpyDtoD c ctx dst src n).
Proof. unfold memcpyDtoD. tidy_mem. Qed.

Lemma tidy_memcpyHtoDAsync E c ctx dst host n stream :
  in_context c E (fun E => P E (CuMemcpyHtoDAsync dst host n stream)) ->
  tidy P E (memcpyHtoDAsync c ctx dst host n stream).
Proof. unfold memcpyHtoDAsync. tidy_mem. Qed.

Lemma tidy_memcpyDtoHAsync E c ctx host src n stream :
  in_context c E (fun E => P E (CuMemcpyDtoHAsync host src n stream)) ->
  tidy P E (memcpyDtoHAsync c ctx host src n stream).
Proof. unfold memcpyDtoHAsync. tidy_mem. Qed.

Lemma tidy_memcpyDtoDAsync E c ctx dst src n stream :
  in_context c E (fun E => P E (CuMemcpyDtoDAsync dst src n stream)) ->
  tidy P E (memcpyDtoDAsync c ctx dst src n stream).
Proof. unfold memcpyDtoDAsync. tidy_mem. Qed.

Lemma tidy_memset E c ctx dst val n size :
  in_context c E (fun E => forall d h src st,
    P E (memOp_call (mkMemOp d dst src h n val st (memsetKind opMemset8 size)))) ->
  tidy P E (memset c ctx dst val n size).
Proof.
  intros HP. unfold memset. tidy_auto. apply tidy_run; [assumption|]. intros d.
  destruct c; [|done]. cbn in *. intros. now apply HP.
Qed.

Lemma tidy_memsetAsync E c ctx dst val n size stream :
  in_context c E (fun E => forall d h src,
    P E (memOp_call (mkMemOp d dst src h n val stream (memsetKind opMemset8Async size)))) ->
  tidy P E (memsetAsync c ctx dst val n size stream).
Proof.
  intros HP. unfold memsetAsync. tidy_auto. apply tidy_run; [assumption|]. intros d.
  destruct c; [|done]. cbn in *. intros. now apply HP.
Qed.

End DispatchCalls.

(** ** The pool does not show

    [oblivious m]: [m] neither reads nor changes the pool.  Everything below [run] is oblivious, so an operation
    behaves the same whatever the pool holds. *)

Section Oblivious.
Context `{Foreign}.

Definition oblivious {A} (m : M A) : Prop :=
  forall s p, m (set_memOps p s) = ((m s).1, set_memOps p (m s).2).

Lemma obl_ret {A} (a : A) : oblivious (ret a).
Proof. now intros s p. Qed.

Lemma obl_panic {A} v : oblivious (panic (A:=A) v).
Proof. now intros s p. Qed.

Lemma obl_bind {A B} (m : M A) (k : A -> M B) :
  oblivious m -> (forall a, oblivious (k a)) -> oblivious (bind m k).
Proof.
  intros Hm Hk s p. unfold bind. rewrite Hm. destruct (m s) as [o s1]. cbn.
  destruct o; try reflexivity. apply Hk.
Qed.

Lemma obl_get {A} (f : state -> A) : (forall s p, f (set_memOps p s) = f s) -> oblivious (get f).
Proof. intros Hf s p. unfold get. now rewrite Hf. Qed.

Lemma obl_modify f : (forall s p, f (set_memOps p s) = set_memOps p (f s)) -> oblivious (modify f).
Proof. intros Hf s p. unfold modify. now rewrite Hf. Qed.

Lemma obl_defer {A} d (m : M A) : oblivious d -> oblivious m -> oblivious (defer d m).
Proof.
  intros Hd Hm s p. unfold defer. rewrite Hm. destruct (m s) as [o s1]. cbn.
  destruct o; try reflexivity; rewrite Hd; destruct (d s1) as [[] s2]; reflexivity.
Qed.

Lemma obl_recovering {A} h (m : M A) : oblivious m -> oblivious (recovering h m).
Proof. intros Hm s p. unfold recovering. rewrite Hm. now destruct (m s) as [[] s1]. Qed.

Lemma obl_new_loc : oblivious new_loc.
Proof. now intros s p. Qed.

Lemma obl_RLock l : oblivious (RLock l).
Proof. intros s p. unfold RLock. cbn. now case_decide. Qed.

Lemma obl_RUnlock l : oblivious (RUnlock l).
Proof. intros s p. unfold RUnlock. cbn. now destruct (_ !! l). Qed.

Lemma obl_Lock l : oblivious (Lock l).
Proof. intros s p. unfold Lock. cbn. case_decide; [done|]. now destruct (_ !! l). Qed.

Lemma obl_Unlock l : oblivious (Unlock l).
Proof. intros s p. unfold Unlock. cbn. now case_decide. Qed.

Lemma obl_on {A} t (m : M A) : oblivious m -> oblivious (on t m).
Proof.
  intros Hm s p. unfold on.
  change (set_env (on_thread (Some t) (st_env (set_memOps p s))) (set_memOps p s))
    with (set_memOps p (set_env (on_thread (Some t) (st_env s)) s)).
  rewrite Hm. now destruct (m _) as [o s1].
Qed.

Lemma obl_invoke d c : oblivious (invoke d c).
Proof.
  intros s p. unfold invoke. destruct d as [d|]; [|done]. destruct (drv_bound _ _); [|done]. cbn.
  now destruct (Sys _ _ _).
Qed.

Lemma obl_ctx_Err g : oblivious (ctx_Err g).
Proof.
  destruct g; [apply obl_panic|apply obl_ret|]. intros s p. cbn. now destruct (_ !! l) as [[]|].
Qed.

End Oblivious.

Ltac obl_step :=
  lazymatch goal with
  | |- oblivious (ret _) => apply obl_ret
  | |- oblivious (panic _) => apply obl_panic
  | |- oblivious (get _) => apply obl_get; reflexivity
  | |- oblivious (modify _) => apply obl_modify; reflexivity
  | |- oblivious new_loc => apply obl_new_loc
  | |- oblivious (bind _ _) => apply obl_bind; [|intros ?]
  | |- oblivious (required _ _ _ _) => unfold required
  | |- oblivious (optional _ _ _ _) => unfold optional
  | |- oblivious (invoke _ _) => apply obl_invoke
  | |- oblivious (with_RLock _ _) => unfold with_RLock
  | |- oblivious (with_Lock _ _) => unfold with_Lock
  | |- oblivious (defer _ _) => apply obl_defer
  | |- oblivious (RLock _) => apply obl_RLock
  | |- oblivious (RUnlock _) => apply obl_RUnlock
  | |- oblivious (Lock _) => apply obl_Lock
  | |- oblivious (Unlock _) => apply obl_Unlock
  | |- oblivious (on _ _) => apply obl_on
  | |- oblivious (recovering _ _) => apply obl_recovering
  | |- oblivious (ctx_Err _) => apply obl_ctx_Err
  | |- oblivious (if ?b then _ else _) => destruct b eqn:?
  | |- oblivious (match ?x with _ => _ end) => destruct x eqn:?
  end.

Ltac obl_auto := repeat (first [obl_step | assumption]).

Section ContextOblivious.
Context `{Foreign}.

Lemma obl_closure m : oblivious m -> oblivious (closure m).
Proof. intros Hm. unfold closure. obl_auto. Qed.

Lemma obl_CtxSetCurrent d x : oblivious (cudaresult.CtxSetCurrent d x).
Proof. unfold cudaresult.CtxSetCurrent. obl_auto. Qed.

Lemma obl_syncOp_Run o : oblivious (syncOp_Run o).
Proof.
  unfold syncOp_Run. destruct (so_kind o);
    [unfold cudaresult.StreamSynchronize|unfold cudaresult.StreamQuery|unfold cudaresult.StreamWaitEvent
    |unfold cudaresult.CtxSynchronize|unfold cudaresult.EventRecord|unfold cudaresult.EventQuery
    |unfold cudaresult.EventSynchronize]; obl_auto.
Qed.

Lemma obl_async_job p : oblivious (job_Run (async_job p)) /\ oblivious (job_Recycle (async_job p)).
Proof.
  destruct p as [c op l|]; cbn; unfold trackedSyncJob_Run, trackedSyncJob_Recycle, releaseWaitLane, add_syncActive,
    executor.RecycleJob, syncBarrierNoop, set_lane_state, set_ctx_state; cbn; split; obl_auto.
  apply obl_closure, obl_syncOp_Run.
Qed.

Lemma obl_runTask {A} e (zero : A) j :
  oblivious (job_Run j) -> oblivious (job_Recycle j) -> oblivious (executor.runTask e zero j).
Proof. intros H1 H2. unfold executor.runTask, executor.runOne, executor.RecycleJob. obl_auto. Qed.

Lemma obl_drain e : oblivious (executor.drain e).
Proof.
  unfold executor.drain, exec_state. obl_auto. generalize (ex_queue a). intros ps.
  induction ps as [|p ps IH]; cbn; unfold executor.dequeue, set_exec_state; obl_auto.
  apply obl_runTask; apply obl_async_job.
Qed.

Lemma obl_submit e ctx : oblivious (executor.submit e ctx).
Proof. unfold executor.submit, exec_state. obl_auto. Qed.

Lemma obl_DoJob {A} e ctx (zero : A) j :
  oblivious (job_Run j) -> oblivious (job_Recycle j) -> oblivious (executor.DoJob e ctx zero j).
Proof.
  intros H1 H2. unfold executor.DoJob, executor.RecycleJob.
  apply obl_bind; [apply obl_submit|intros [x|]]; [obl_auto|].
  apply obl_bind; [apply obl_drain|intros _]. now apply obl_runTask.
Qed.

Lemma obl_DoCtx {A} e ctx (zero : A) fn : oblivious fn -> oblivious (executor.DoCtx e ctx zero fn).
Proof.
  intros H1. unfold executor.DoCtx.
  apply obl_bind; [apply obl_submit|intros [x|]]; [obl_auto|].
  apply obl_bind; [apply obl_drain|intros _].
  apply obl_bind; [apply obl_runTask; [exact H1|apply obl_ret]|intros r]. obl_auto.
Qed.

Lemma obl_newExecutor c : oblivious (newExecutor c).
Proof.
  unfold newExecutor, executor.Do, executor.New, executor.Retire, executor.Close, exec_state, set_exec_state.
  obl_auto; first [apply obl_drain | apply obl_DoCtx, obl_closure, obl_CtxSetCurrent].
Qed.

Lemma obl_copyExecutor c : oblivious (copyExecutor c).
Proof. unfold copyExecutor, ctx_state, set_copyExec, set_ctx_state. obl_auto. apply obl_newExecutor. Qed.

Lemma obl_doJob {A} c ctx (zero : A) j :
  oblivious (job_Run j) -> oblivious (job_Recycle j) -> oblivious (doJob c ctx zero j).
Proof.
  intros H1 H2. unfold doJob, executor.RecycleJob, ctx_state, is_closed. obl_auto. now apply obl_DoJob.
Qed.

Lemma obl_doCopyJob {A} c ctx (zero : A) j :
  oblivious (job_Run j) -> oblivious (job_Recycle j) -> oblivious (doCopyJob c ctx zero j).
Proof.
  intros H1 H2. unfold doCopyJob, doCopy, ctx_state, is_closed. obl_auto.
  - apply obl_copyExecutor.
  - now apply obl_DoJob.
Qed.

Lemma obl_memOp_Run o : oblivious (memOp_Run o).
Proof.
  unfold memOp_Run. destruct (mo_kind o);
    [unfold cudaresult.MemcpyHtoD|unfold cudaresult.MemcpyDtoH|unfold cudaresult.MemcpyDtoD
    |unfold cudaresult.MemcpyHtoDAsync|unfold cudaresult.MemcpyDtoHAsync|unfold cudaresult.MemcpyDtoDAsync
    |unfold cudaresult.MemsetD8|unfold cudaresult.MemsetD16|unfold cudaresult.MemsetD32
    |unfold cudaresult.MemsetD8Async|unfold cudaresult.MemsetD16Async|unfold cudaresult.MemsetD32Async];
    obl_auto.
Qed.

(** States that differ only in the pool. *)
Definition pool_equiv (s1 s2 : state) : Prop := set_memOps [] s1 = set_memOps [] s2.

#[export] Instance pool_equiv_equivalence : Equivalence pool_equiv.
Proof. unfold pool_equiv. split; [intros x|intros x y|intros x y z]; congruence. Qed.

Definition same_run {A} (r1 r2 : outcome A * state) : Prop := r1.1 = r2.1 /\ pool_equiv r1.2 r2.2.

Lemma set_memOps_id s : set_memOps (st_memOps s) s = s.
Proof. now destruct s. Qed.

(** An oblivious [m] sends equivalent states to equivalent results. *)
Lemma oblivious_proper {A} (m : M A) : oblivious m -> Proper (pool_equiv ==> same_run) m.
Proof.
  intros Hm s1 s2 Hs.
  assert (H1 := Hm (set_memOps [] s1) (st_memOps s1)). assert (H2 := Hm (set_memOps [] s2) (st_memOps s2)).
  change (set_memOps (st_memOps s1) (set_memOps [] s1)) with (set_memOps (st_memOps s1) s1) in H1.
  change (set_memOps (st_memOps s2) (set_memOps [] s2)) with (set_memOps (st_memOps s2) s2) in H2.
  rewrite set_memOps_id in H1, H2. unfold pool_equiv in Hs. rewrite Hs in H1. rewrite H1, H2. now split.
Qed.

End ContextOblivious.

(** ** Theorems *)

Section DispatchTheorems.
Context `{Foreign}.

(** What an operation reads: the fields its kind needs. *)
Definition memOp_agree (o1 o2 : memOp) : Prop := mo_driver o1 = mo_driver o2 /\ memOp_call o1 = memOp_call o2.

(** [run] on operations that agree. *)
Lemma run_agree c ctx o1 o2 :
  mo_kind o1 = mo_kind o2 ->
  (forall d, memOp_Run (mkMemOp d (mo_dst o1) (mo_src o1) (mo_host o1) (mo_n o1) (mo_val o1) (mo_stream o1) (mo_kind o1)) =
             memOp_Run (mkMemOp d (mo_dst o2) (mo_src o2) (mo_host o2) (mo_n o2) (mo_val o2) (mo_stream o2) (mo_kind o2))) ->
  forall s1 s2, pool_equiv s1 s2 -> same_run (run c ctx o1 s1) (run c ctx o2 s2).
Proof.
  intros Hk Hr s1 s2 Hs. unfold run. destruct c as [x|]; [|now split]. unfold deref, bind at 1 4, ret. cbn [bind].
  set (op1 := mkMemOp _ (mo_dst o1) _ _ _ _ _ _). set (op2 := mkMemOp _ (mo_dst o2) _ _ _ _ _ _).
  cbn [mo_kind op1 op2].
  set (sub1 := match mo_kind o1 with opHtoD | opDtoH | opDtoD => _ | _ => _ end).
  set (sub2 := match mo_kind o2 with opHtoD | opDtoH | opDtoD => _ | _ => _ end).
  assert (E : sub1 = sub2).
  { subst sub1 sub2 op1 op2. cbn [mo_kind]. rewrite <- Hk. unfold memOp_job. now rewrite Hr, Hk. }
  assert (Ho : oblivious sub1).
  { subst sub1. destruct (mo_kind o1); first [apply obl_doCopyJob | apply obl_doJob];
      first [apply obl_closure, obl_memOp_Run | apply obl_ret]. }
  rewrite <- E. pose proof (oblivious_proper sub1 Ho s1 s2 Hs) as (E1 & E2).
  unfold bind. destruct (sub1 s1) as [a1 t1], (sub1 s2) as [a2 t2]. cbn in E1, E2. subst a2.
  destruct a1; split; try reflexivity; try exact E2.
Qed.

(** An operation that assigns the fields its kind needs to whatever the pool gave. *)
Lemma pooled_proper c ctx (f : memOp -> memOp) :
  (forall o1 o2, mo_kind (f o1) = mo_kind (f o2)) ->
  (forall o1 o2 d,
    memOp_Run (mkMemOp d (mo_dst (f o1)) (mo_src (f o1)) (mo_host (f o1)) (mo_n (f o1)) (mo_val (f o1)) (mo_stream (f o1)) (mo_kind (f o1))) =
    memOp_Run (mkMemOp d (mo_dst (f o2)) (mo_src (f o2)) (mo_host (f o2)) (mo_n (f o2)) (mo_val (f o2)) (mo_stream (f o2)) (mo_kind (f o2)))) ->
  Proper (pool_equiv ==> same_run) (bind memOpPool_Get (fun o => run c ctx (f o))).
Proof.
  intros Hk Hr s1 s2 Hs. unfold bind, memOpPool_Get.
  assert (Hp : forall p1 p2, pool_equiv (set_memOps p1 s1) (set_memOps p2 s2)) by (intros; exact Hs).
  destruct (st_memOps s1) as [|o1 os1], (st_memOps s2) as [|o2 os2]; apply run_agree; auto;
    first [exact Hs | exact (Hp _ _)].
Qed.

(** C35.  A memory operation taken from the pool behaves the same whatever the pool holds: for two states that
    differ only in their pooled operations, every copy and memset of the dispatch layer gives the same
    outcome, makes the same driver calls and leaves states that again differ only in the pool.  So the
    fields left over from an earlier use, which [run] and [Run] never clear but for the host pointer, cannot leak into a later operation. *)
Theorem pool_irrelevant (c : option Context) (ctx : gctx) :
  (forall dst host n, Proper (pool_equiv ==> same_run) (memcpyHtoD c ctx dst host n)) /\
  (forall host src n, Proper (pool_equiv ==> same_run) (memcpyDtoH c ctx host src n)) /\
  (forall dst src n, Proper (pool_equiv ==> same_run) (memcpyDtoD c ctx dst src n)) /\
  (forall dst host n st, Proper (pool_equiv ==> same_run) (memcpyHtoDAsync c ctx dst host n st)) /\
  (forall host src n st, Proper (pool_equiv ==> same_run) (memcpyDtoHAsync c ctx host src n st)) /\
  (forall dst src n st, Proper (pool_equiv ==> same_run) (memcpyDtoDAsync c ctx dst src n st)) /\
  (forall dst val n size, Proper (pool_equiv ==> same_run) (memset c ctx dst val n size)) /\
  (forall dst val n size st, Proper (pool_equiv ==> same_run) (memsetAsync c ctx dst val n size st)).
Proof.
  split_and!; intros; (apply pooled_proper; [done|]); intros; try reflexivity;
    unfold memsetKind; destruct (size =? 1), (size =? 2); reflexivity.
Qed.

End DispatchTheorems.
