(* ===== verification/Resource.v ===== *)
(** * What the resources of package cuda share

    Every resource (buffer, stream, event, module, ...) has a read-write lock [opMu], a flag [closed] and an
    owning context.  Its operations hold the lock for reading and start with the test of the flag
    ([opened]); its [Close] holds it for writing, returns nil when the flag is set, and sets it only after
    the release succeeded ([close_resource]).  The theorems of this file are about these two shapes, for any resource. *)

From S2P Require Import Prelude CudaSys Errors Runtime CudaResult ExecutorApi Context Dispatch.

(** ** Element types *)

(** [Supported]. *)
Inductive elem := Int8 | Uint8 | Int16 | Uint16 | Int32 | Uint32 | Int64 | Uint64 | Float32 | Float64.

(** [unsafe.Sizeof]. *)
Definition sizeof (T : elem) : Z :=
  match T with
  | Int8 | Uint8 => 1
  | Int16 | Uint16 => 2
  | Int32 | Uint32 | Float32 => 4
  | Int64 | Uint64 | Float64 => 8
  end.

Definition elemSize (T : elem) : Z := uint64 (sizeof T).

Lemma sizeof_cases T : sizeof T = 1 \/ sizeof T = 2 \/ sizeof T = 4 \/ sizeof T = 8.
Proof. destruct T; cbn; auto. Qed.

Lemma elemSize_sizeof T : elemSize T = sizeof T.
Proof. now destruct T. Qed.

(** [a.ctx != b.ctx] compares pointers. *)
Definition same_ctx (a b : option Context) : bool :=
  match a, b with
  | None, None => true
  | Some a, Some b => bool_decide (cx_id a = cx_id b)
  | _, _ => false
  end.

(** [c.driver]. *)
Definition ctx_driver (c : option Context) : option Driver :=
  match c with Some c => cx_driver c | None => None end.

Section Resource.
Context `{Foreign}.

(** [r.opMu.RLock(); defer r.opMu.RUnlock(); if r.closed (return e); k]. *)
Definition opened {A} (l : loc) (e : A) (k : M A) : M A :=
  with_RLock (l, OpMu) (let! c := is_closed l in if c then ret e else k).

(** [r.opMu.Lock(); defer r.opMu.Unlock(); if r.closed (return nil); if err := release; err != nil (return err);
    r.closed = true; return nil]. *)
Definition close_resource (l : loc) (release : M err) : M err :=
  with_Lock (l, OpMu) (
    let! c := is_closed l in
    if c then ret None
    else
      let! e := release in
      match e with
      | Some x => ret (Some x)
      | None => set_closed l ;! ret None
      end).

(** ** Tidiness *)

(** [tidy_close P E l m]: like [tidy], but returning nil leaves [l] closed. *)
Definition tidy_close (P : Env -> call -> Prop) (E : Env) (l : loc) (m : M err) : Prop :=
  forall s, st_env s = E ->
    let '(o, s') := m s in
    calls P s s' /\ o <> Fatal /\
    match o with
    | Done None => st_env s' = with_closed l E
    | Done (Some _) | Panics _ => st_env s' = E
    | _ => True
    end.

Lemma with_closed_closed l E : l ∈ env_closed E -> with_closed l E = E.
Proof. intros Hl. destruct E as [r w t c]. unfold with_closed. cbn in *. f_equal. set_solver. Qed.

Lemma tidy_opened {A} P E l (e : A) k :
  (open l E -> tidy P (rlocked (l, OpMu) E) k) -> tidy P E (opened l e k).
Proof.
  intros Hk. unfold opened. apply tidy_with_RLock, tidy_is_closed.
  destruct (bool_decide _) eqn:Ho; [apply tidy_ret|]. apply Hk. now apply open_test in Ho.
Qed.

Lemma tidy_close_with_Lock P E l k (m : M err) :
  tidy_close P (wlocked k E) l m -> tidy_close P E l (with_Lock k m).
Proof.
  intros Hm s Hs. unfold with_Lock, Lock, bind, defer. case_decide as Hw.
  { split_and!; [now apply calls_refl|done|done]. }
  destruct (env_locks_r (st_env s) !! k) eqn:Hr.
  { split_and!; [now apply calls_refl|done|done]. }
  specialize (Hm (set_env (wlocked k (st_env s)) s)). cbn in Hm. rewrite Hs in Hm, Hw |- *.
  specialize (Hm eq_refl). destruct (m _) as [o s1]. destruct Hm as (Hc & Ho & He).
  assert (Hc' : calls P s s1) by (destruct Hc as (tr & Htr & Hf); exists tr; split; [exact Htr|exact Hf]).
  unfold Unlock. destruct o as [[x|]| | |]; cbn in *; try done; rewrite He; cbn;
    (rewrite decide_True by set_solver); cbn; (split_and!; [exact Hc'|done|]); destruct E as [r w t c];
    unfold wunlocked, wlocked, with_closed; cbn in *; f_equal; set_solver.
Qed.

Lemma tidy_close_with_RLock P E l k (m : M err) :
  tidy_close P (rlocked k E) l m -> tidy_close P E l (with_RLock k m).
Proof.
  intros Hm s Hs. unfold with_RLock, RLock, bind, defer. case_decide as Hw.
  { split_and!; [now apply calls_refl|done|done]. }
  specialize (Hm (set_env (rlocked k (st_env s)) s)). cbn in Hm. rewrite Hs in Hm, Hw |- *.
  specialize (Hm eq_refl). destruct (m _) as [o s1]. destruct Hm as (Hc & Ho & He).
  assert (Hc' : calls P s s1) by (destruct Hc as (tr & Htr & Hf); exists tr; split; [exact Htr|exact Hf]).
  assert (Hrr : runlocked k (with_closed l (rlocked k E)) = with_closed l E).
  { change (with_closed l (runlocked k (rlocked k E)) = with_closed l E). now rewrite runlocked_rlocked. }
  unfold RUnlock. destruct o as [[x|]| | |]; cbn in *; try done; rewrite He; cbn; rewrite lookup_insert_eq;
    (split_and!; [exact Hc'|done|]); cbn; first [exact Hrr | apply runlocked_rlocked].
Qed.

Lemma tidy_close_of_release P E l (m : M err) :
  tidy P E m -> tidy_close P E l (let! e := m in match e with Some x => ret (Some x) | None => set_closed l ;! ret None end).
Proof.
  intros Hm s Hs. unfold bind. specialize (Hm s Hs). destruct (m s) as [o s1]. destruct Hm as (Hc & Ho & He).
  destruct o as [[x|]| | |]; cbn in *; split_and!; try done; auto.
  now rewrite He.
Qed.

Lemma tidy_close_resource P E l (release : M err) :
  (open l E -> tidy P (wlocked (l, OpMu) E) release) -> tidy_close P E l (close_resource l release).
Proof.
  intros Hm. unfold close_resource. apply tidy_close_with_Lock. intros s Hs. unfold bind at 1, is_closed, get.
  case_bool_decide as Ho; rewrite Hs in Ho.
  - split_and!; [now apply calls_refl|done|]. cbn. rewrite Hs. now rewrite with_closed_closed.
  - now apply (tidy_close_of_release P (wlocked (l, OpMu) E) l release (Hm Ho)).
Qed.

Lemma tidy_close_ret_err P E l e : tidy_close P E l (ret (Some e)).
Proof. intros s Hs. cbn. split_and!; [now apply calls_refl|done|done]. Qed.

(** ** Running an operation *)

Lemma set_env_id s : set_env (st_env s) s = s.
Proof. now destruct s. Qed.

Definition unlocked (l : lockid) (s : state) : Prop :=
  l ∉ env_locks_w (st_env s) /\ env_locks_r (st_env s) !! l = None.
Definition not_writing (l : lockid) (s : state) : Prop := l ∉ env_locks_w (st_env s).

(** The result of a body that restores its environment, run under the read lock. *)
Lemma with_RLock_run {A} l (m : M A) s o s1 :
  not_writing l s ->
  m (set_env (rlocked l (st_env s)) s) = (o, s1) ->
  returns o -> st_env s1 = rlocked l (st_env s) ->
  with_RLock l m s = (o, set_env (st_env s) s1).
Proof.
  intros Hw Hm Hr He. unfold with_RLock, RLock, bind, defer.
  rewrite decide_False by exact Hw. rewrite Hm. unfold RUnlock.
  destruct o; try done; rewrite He; unfold rlocked at 1; cbn; rewrite lookup_insert_eq, runlocked_rlocked; reflexivity.
Qed.

Lemma with_Lock_run {A} l (m : M A) s o s1 :
  unlocked l s ->
  m (set_env (wlocked l (st_env s)) s) = (o, s1) ->
  returns o -> l ∈ env_locks_w (st_env s1) ->
  with_Lock l m s = (o, set_env (wunlocked l (st_env s1)) s1).
Proof.
  intros [Hw Hn] Hm Hr He. unfold with_Lock, Lock, bind, defer.
  rewrite decide_False by exact Hw. rewrite Hn, Hm. unfold Unlock.
  destruct o; try done; rewrite decide_True by exact He; reflexivity.
Qed.

(** The value a locked body returns is a value its body returns. *)
Lemma with_RLock_done {A} l (m : M A) s a s1 :
  with_RLock l m s = (Done a, s1) -> exists s2 s3, m s2 = (Done a, s3).
Proof.
  unfold with_RLock, RLock, bind, defer. case_decide; [done|].
  destruct (m _) as [o s2] eqn:E. intros Hr. destruct o; try done.
  - destruct (RUnlock l s2) as [[] s3]; try done. injection Hr as <- _. eauto.
  - destruct (RUnlock l s2) as [[] s3]; done.
Qed.

Lemma opened_done {A} l (e : A) k s a s1 :
  opened l e k s = (Done a, s1) -> a = e \/ exists s2 s3, k s2 = (Done a, s3).
Proof.
  unfold opened. intros Hr. apply with_RLock_done in Hr as (s2 & s3 & Hr).
  unfold bind, is_closed, get in Hr. destruct (bool_decide _); [left; now injection Hr|eauto].
Qed.

(** An operation of a closed resource returns its error and changes nothing. *)
Lemma opened_closed {A} l (e : A) k s :
  l ∈ env_closed (st_env s) -> not_writing (l, OpMu) s -> opened l e k s = (Done e, s).
Proof.
  intros Hc Hw. unfold opened.
  rewrite (with_RLock_run _ _ s (Done e) (set_env (rlocked (l, OpMu) (st_env s)) s)); try done.
  - now destruct s.
  - unfold bind, is_closed, get. cbn. rewrite bool_decide_eq_true_2 by exact Hc. reflexivity.
Qed.

Lemma opened_open {A} l (e : A) k s o s1 :
  open l (st_env s) -> not_writing (l, OpMu) s ->
  k (set_env (rlocked (l, OpMu) (st_env s)) s) = (o, s1) ->
  returns o -> st_env s1 = rlocked (l, OpMu) (st_env s) ->
  opened l e k s = (o, set_env (st_env s) s1).
Proof.
  intros Hc Hw Hk Hr He. unfold opened. apply with_RLock_run; try done.
  unfold bind, is_closed, get. cbn. rewrite bool_decide_eq_false_2 by exact Hc. exact Hk.
Qed.

(** A closed resource is not released again. *)
Lemma close_resource_closed l release s :
  l ∈ env_closed (st_env s) -> unlocked (l, OpMu) s -> close_resource l release s = (Done None, s).
Proof.
  intros Hc Hw. unfold close_resource.
  rewrite (with_Lock_run _ _ s (Done None) (set_env (wlocked (l, OpMu) (st_env s)) s)); try done.
  - cbn. rewrite wunlocked_wlocked by apply Hw. now destruct s.
  - unfold bind, is_closed, get. cbn. rewrite bool_decide_eq_true_2 by exact Hc. reflexivity.
  - cbn. set_solver.
Qed.

(** A [Close] that returned nil had the lock, and closed its resource. *)
Lemma close_resource_nil P l release s s1 :
  tidy P (wlocked (l, OpMu) (st_env s)) release ->
  close_resource l release s = (Done None, s1) ->
  unlocked (l, OpMu) s /\ st_env s1 = with_closed l (st_env s).
Proof.
  intros Ht Hc. pose proof (tidy_close_resource P (st_env s) l release (fun _ => Ht) s eq_refl) as Hs.
  rewrite Hc in Hs. split; [|apply Hs].
  unfold close_resource, with_Lock, Lock, bind in Hc. case_decide as Hw; [done|].
  destruct (env_locks_r (st_env s) !! (l, OpMu)) eqn:Hr; [done|]. now split.
Qed.

(** A second [Close] finds nothing to do. *)
Lemma close_resource_twice P l release s s1 :
  tidy P (wlocked (l, OpMu) (st_env s)) release ->
  close_resource l release s = (Done None, s1) -> close_resource l release s1 = (Done None, s1).
Proof.
  intros Ht Hc. destruct (close_resource_nil P l release s s1 Ht Hc) as [[Hw Hr] He].
  apply close_resource_closed; rewrite ?He; [cbn; set_solver|]. split; rewrite He; assumption.
Qed.

End Resource.

#[export] Hint Resolve set_env_id : gocu.
