(* ===== verification/Handles.v ===== *)
(** * Streams and pinned host memory, as far as buffers use them

    The handle records of [Stream] (stream.go), [HostBuffer] (hostbuffer.go) and [RegisteredHost]
    (hostregister.go), and the interface [PinnedHost] (pinned.go) the two host types implement. *)

From S2P Require Import Prelude CudaSys Errors Runtime CudaResult ExecutorApi Context Dispatch Resource.

Record Stream := mkStream { sm_id : loc; sm_ctx : option Context; sm_raw : Z }.

(** A typed handle: the Go type parameter is a parameter of the record. *)
Record HostBuffer (T : elem) := mkHostBuffer {
  hb_id : loc;
  hb_ctx : option Context;
  hb_ptr : Z;
  hb_length : Z;
  hb_bytes : Z
}.
Arguments mkHostBuffer {T} _ _ _ _ _.
Arguments hb_id {T} _.
Arguments hb_ctx {T} _.
Arguments hb_ptr {T} _.
Arguments hb_length {T} _.
Arguments hb_bytes {T} _.

(** The pinner of the garbage collector has no effect on the driver and is left out. *)
Record RegisteredHost (T : elem) := mkRegisteredHost {
  rh_id : loc;
  rh_ctx : option Context;
  rh_mem : slice;
  rh_ptr : Z;
  rh_bytes : Z
}.
Arguments mkRegisteredHost {T} _ _ _ _ _.
Arguments rh_id {T} _.
Arguments rh_ctx {T} _.
Arguments rh_mem {T} _.
Arguments rh_ptr {T} _.
Arguments rh_bytes {T} _.

(** [PinnedHost[T]]: the interface value is nil, or a possibly nil pointer of one of its two implementations. *)
Inductive PinnedHost (T : elem) :=
| HostNil
| HostBuf (h : option (HostBuffer T))
| HostReg (r : option (RegisteredHost T)).
Arguments HostNil {T}.
Arguments HostBuf {T} h.
Arguments HostReg {T} r.

(** [pinnedHostRef[T]]: [lock], [closed] and [owner] all designate the object at [pr_id]; the zero value is [None]. *)
Record pinnedHostRef (T : elem) := mkPinnedHostRef {
  pr_id : loc;
  pr_ctx : option Context;
  pr_ptr : Z;
  pr_length : Z
}.
Arguments mkPinnedHostRef {T} _ _ _ _.
Arguments pr_id {T} _.
Arguments pr_ctx {T} _.
Arguments pr_ptr {T} _.
Arguments pr_length {T} _.

Definition HostBuffer_pinnedHost {T} (h : option (HostBuffer T)) : option (pinnedHostRef T) :=
  match h with
  | None => None
  | Some h => Some (mkPinnedHostRef (hb_id h) (hb_ctx h) (hb_ptr h) (hb_length h))
  end.

Definition RegisteredHost_pinnedHost {T} (r : option (RegisteredHost T)) : option (pinnedHostRef T) :=
  match r with
  | None => None
  | Some r => Some (mkPinnedHostRef (rh_id r) (rh_ctx r) (rh_ptr r) (sl_len (rh_mem r)))
  end.

(** [pinnedHostRefOf]: a nil interface and a nil pointer in it are both [ErrNilBuffer]. *)
Definition pinnedHostRefOf {T} (host : PinnedHost T) : pinnedHostRef T + error :=
  match host with
  | HostNil => inr ErrNilBuffer
  | _ =>
      match (match host with
             | HostBuf h => HostBuffer_pinnedHost h
             | HostReg r => RegisteredHost_pinnedHost r
             | HostNil => None
             end) with
      | None => inr ErrNilBuffer
      | Some ref => inl ref
      end
  end.

Section HostDefs.
Context `{Foreign}.

(** *** HostBuffer (hostbuffer.go) *)

Definition AllocHost (T : elem) (ctx : option Context) (n : Z) : M (option (HostBuffer T) * err) :=
  match ctx with
  | None => ret (None, Some ErrNilContext)
  | Some c =>
      if n <=? 0 then ret (None, Some ErrInvalidLength)
      else
        let elemSize := uint64 (sizeof T) in
        if MaxUint64 / elemSize <? uint64 n then ret (None, Some ErrInvalidLength)
        else
          let bytes := uint64 (uint64 n * elemSize) in
          let! r := doWait ctx Background 0 (cudaresult.MemAllocHost (cx_driver c) bytes) in
          match r.2 with
          | Some e => ret (None, Some e)
          | None => let! id := new_loc in ret (Some (mkHostBuffer id ctx r.1 n bytes), None)
          end
  end.

Definition HostBuffer_Len {T} (h : option (HostBuffer T)) : Z :=
  match h with None => 0 | Some h => hb_length h end.

Definition HostBuffer_Bytes {T} (h : option (HostBuffer T)) : Z :=
  match h with None => 0 | Some h => hb_bytes h end.

(** [Slice]: nil when closed. *)
Definition HostBuffer_Slice {T} (h : option (HostBuffer T)) : M (option slice) :=
  match h with
  | None => ret None
  | Some h => opened (hb_id h) None (ret (Some (mkSlice (hb_ptr h) (hb_length h))))
  end.

Definition HostBuffer_Close {T} (h : option (HostBuffer T)) : M err :=
  match h with
  | None => ret (Some ErrNilBuffer)
  | Some h =>
      close_resource (hb_id h) (
        let! r := doBarrier (hb_ctx h) Background tt (closure (cudaresult.MemFreeHost (ctx_driver (hb_ctx h)) (hb_ptr h))) in
        ret r.2)
  end.

(** *** RegisteredHost (hostregister.go) *)

Definition RegisterHost (T : elem) (ctx : option Context) (mem : slice) : M (option (RegisteredHost T) * err) :=
  match ctx with
  | None => ret (None, Some ErrNilContext)
  | Some c =>
      if sl_len mem =? 0 then ret (None, Some ErrInvalidLength)
      else
        let bytes := uint64 (uint64 (sl_len mem) * elemSize T) in
        let! p := first_elem mem in
        let! r := doWait ctx Background tt (closure (cudaresult.MemHostRegister (cx_driver c) p bytes 0)) in
        match r.2 with
        | Some e => ret (None, Some e)
        | None => let! id := new_loc in ret (Some (mkRegisteredHost id ctx mem p bytes), None)
        end
  end.

Definition RegisteredHost_Slice {T} (r : option (RegisteredHost T)) : option slice :=
  match r with None => None | Some r => Some (rh_mem r) end.

Definition RegisteredHost_Len {T} (r : option (RegisteredHost T)) : Z :=
  match r with None => 0 | Some r => sl_len (rh_mem r) end.

Definition RegisteredHost_Bytes {T} (r : option (RegisteredHost T)) : Z :=
  match r with None => 0 | Some r => rh_bytes r end.

Definition RegisteredHost_Close {T} (r : option (RegisteredHost T)) : M err :=
  match r with
  | None => ret (Some ErrNilBuffer)
  | Some r =>
      close_resource (rh_id r) (
        let! e := doBarrier (rh_ctx r) Background tt (closure (cudaresult.MemHostUnregister (ctx_driver (rh_ctx r)) (rh_ptr r))) in
        ret e.2)
  end.

End HostDefs.
