(* ===== verification/Buffer.v ===== *)
(** * Device buffers and views (package cuda: buffer.go, buffer_offset.go, view.go) *)

From S2P Require Import Prelude CudaSys Errors Runtime CudaResult ExecutorApi Context Dispatch Resource Handles.

(** [Buffer[T]]; the flag [closed] and the lock [opMu] are those of [bf_id]. *)
Record Buffer (T : elem) := mkBuffer {
  bf_id : loc;
  bf_ctx : option Context;
  bf_ptr : Z;
  bf_length : Z;
  bf_bytes : Z
}.
Arguments mkBuffer {T} _ _ _ _ _.
Arguments bf_id {T} _.
Arguments bf_ctx {T} _.
Arguments bf_ptr {T} _.
Arguments bf_length {T} _.
Arguments bf_bytes {T} _.

(** [View[T]]. *)
Record View (T : elem) := mkView { vw_owner : option (Buffer T); vw_offset : Z; vw_length : Z }.
Arguments mkView {T} _ _ _.
Arguments vw_owner {T} _.
Arguments vw_offset {T} _.
Arguments vw_length {T} _.

(** [dst != b]. *)
Definition same_buffer {T} (a b : Buffer T) : bool := bool_decide (bf_id a = bf_id b).

(** [fillBits]: the bytes of [v] (given as its bit pattern) widened to a uint32. *)
Definition fillBits (T : elem) (v : Z) : Z :=
  if sizeof T =? 1 then uint32 (uint8 v)
  else if sizeof T =? 2 then uint32 (uint16 v)
  else uint32 v.

(** [offsetPtr]. *)
Definition offsetPtr {T} (b : Buffer T) (off : Z) : Z :=
  uint64 (bf_ptr b + uint64 (uint64 off * elemSize T)).

Section BufferDefs.
Context `{Foreign}.
Context {T : elem}.

Definition Alloc (ctx : option Context) (n : Z) : M (option (Buffer T) * err) :=
  match ctx with
  | None => ret (None, Some ErrNilContext)
  | Some c =>
      if n <=? 0 then ret (None, Some ErrInvalidLength)
      else
        let elemSize := uint64 (sizeof T) in
        if MaxUint64 / elemSize <? uint64 n then ret (None, Some ErrInvalidLength)
        else
          let bytes := uint64 (uint64 n * elemSize) in
          let! r := do_ ctx Background 0 (cudaresult.MemAlloc (cx_driver c) bytes) in
          match r.2 with
          | Some e => ret (None, Some e)
          | None => let! id := new_loc in ret (Some (mkBuffer id ctx r.1 n bytes), None)
          end
  end.

Definition AllocAsync (ctx : option Context) (stream : option Stream) (n : Z) : M (option (Buffer T) * err) :=
  match ctx, stream with
  | None, _ => ret (None, Some ErrNilContext)
  | _, None => ret (None, Some ErrNilStream)
  | Some c, Some st =>
      if n <=? 0 then ret (None, Some ErrInvalidLength)
      else
        let elemSize := uint64 (sizeof T) in
        if MaxUint64 / elemSize <? uint64 n then ret (None, Some ErrInvalidLength)
        else
          let bytes := uint64 (uint64 n * elemSize) in
          opened (sm_id st) (None, Some ErrStreamClosed) (
            if negb (same_ctx (sm_ctx st) ctx) then ret (None, Some ErrContextMismatch)
            else
              let! r := doWait ctx Background 0 (cudaresult.MemAllocAsync (cx_driver c) bytes (sm_raw st)) in
              match r.2 with
              | Some e => ret (None, Some e)
              | None => let! id := new_loc in ret (Some (mkBuffer id ctx r.1 n bytes), None)
              end)
  end.

Definition Buffer_Len (b : option (Buffer T)) : Z :=
  match b with None => 0 | Some b => bf_length b end.

Definition Buffer_Bytes (b : option (Buffer T)) : Z :=
  match b with None => 0 | Some b => bf_bytes b end.

Definition Buffer_Close (b : option (Buffer T)) : M err :=
  match b with
  | None => ret (Some ErrNilBuffer)
  | Some b =>
      close_resource (bf_id b) (
        let! r := doBarrier (bf_ctx b) Background tt (closure (cudaresult.MemFree (ctx_driver (bf_ctx b)) (bf_ptr b))) in
        ret r.2)
  end.

Definition Buffer_FreeAsync (b : option (Buffer T)) (stream : option Stream) : M err :=
  match b, stream with
  | None, _ => ret (Some ErrNilBuffer)
  | _, None => ret (Some ErrNilStream)
  | Some b, Some st =>
      opened (sm_id st) (Some ErrStreamClosed) (
        close_resource (bf_id b) (
          if negb (same_ctx (sm_ctx st) (bf_ctx b)) then ret (Some ErrContextMismatch)
          else
            let! r := doBarrier (bf_ctx b) Background tt
                        (closure (cudaresult.MemFreeAsync (ctx_driver (bf_ctx b)) (bf_ptr b) (sm_raw st))) in
            ret r.2))
  end.

Definition Buffer_CopyFrom (b : option (Buffer T)) (ctx : gctx) (src : slice) : M err :=
  match b with
  | None => ret (Some ErrNilBuffer)
  | Some b =>
      opened (bf_id b) (Some ErrBufferClosed) (
        if (sl_len src =? 0) || negb (sl_len src =? bf_length b) then ret (Some ErrLengthMismatch)
        else
          let! srcPtr := first_elem src in
          memcpyHtoD (bf_ctx b) ctx (bf_ptr b) srcPtr (bf_bytes b))
  end.

Definition Buffer_CopyTo (b : option (Buffer T)) (ctx : gctx) (dst : slice) : M err :=
  match b with
  | None => ret (Some ErrNilBuffer)
  | Some b =>
      opened (bf_id b) (Some ErrBufferClosed) (
        if (sl_len dst =? 0) || negb (sl_len dst =? bf_length b) then ret (Some ErrLengthMismatch)
        else
          let! dstPtr := first_elem dst in
          memcpyDtoH (bf_ctx b) ctx dstPtr (bf_ptr b) (bf_bytes b))
  end.

Definition Buffer_CopyFromHost (b : option (Buffer T)) (ctx : gctx) (src : PinnedHost T) : M err :=
  match b with
  | None => ret (Some ErrNilBuffer)
  | Some b =>
      match pinnedHostRefOf src with
      | inr e => ret (Some e)
      | inl host =>
          opened (bf_id b) (Some ErrBufferClosed) (
            opened (pr_id host) (Some ErrBufferClosed) (
              if negb (same_ctx (pr_ctx host) (bf_ctx b)) then ret (Some ErrContextMismatch)
              else if negb (pr_length host =? bf_length b) then ret (Some ErrLengthMismatch)
              else memcpyHtoD (bf_ctx b) ctx (bf_ptr b) (pr_ptr host) (bf_bytes b)))
      end
  end.

Definition Buffer_CopyToHost (b : option (Buffer T)) (ctx : gctx) (dst : PinnedHost T) : M err :=
  match b with
  | None => ret (Some ErrNilBuffer)
  | Some b =>
      match pinnedHostRefOf dst with
      | inr e => ret (Some e)
      | inl host =>
          opened (bf_id b) (Some ErrBufferClosed) (
            opened (pr_id host) (Some ErrBufferClosed) (
              if negb (same_ctx (pr_ctx host) (bf_ctx b)) then ret (Some ErrContextMismatch)
              else if negb (pr_length host =? bf_length b) then ret (Some ErrLengthMismatch)
              else memcpyDtoH (bf_ctx b) ctx (pr_ptr host) (bf_ptr b) (bf_bytes b)))
      end
  end.

Definition Buffer_CopyFromHostAsync (b : option (Buffer T)) (ctx : gctx) (stream : option Stream) (src : PinnedHost T) : M err :=
  match b with
  | None => ret (Some ErrNilBuffer)
  | Some b =>
      match pinnedHostRefOf src with
      | inr e => ret (Some e)
      | inl host =>
          match stream with
          | None => ret (Some ErrNilStream)
          | Some st =>
              opened (sm_id st) (Some ErrStreamClosed) (
                opened (bf_id b) (Some ErrBufferClosed) (
                  opened (pr_id host) (Some ErrBufferClosed) (
                    if negb (same_ctx (sm_ctx st) (bf_ctx b)) || negb (same_ctx (pr_ctx host) (bf_ctx b))
                    then ret (Some ErrContextMismatch)
                    else if negb (pr_length host =? bf_length b) then ret (Some ErrLengthMismatch)
                    else memcpyHtoDAsync (bf_ctx b) ctx (bf_ptr b) (pr_ptr host) (bf_bytes b) (sm_raw st))))
          end
      end
  end.

Definition Buffer_CopyToHostAsync (b : option (Buffer T)) (ctx : gctx) (stream : option Stream) (dst : PinnedHost T) : M err :=
  match b with
  | None => ret (Some ErrNilBuffer)
  | Some b =>
      match pinnedHostRefOf dst with
      | inr e => ret (Some e)
      | inl host =>
          match stream with
          | None => ret (Some ErrNilStream)
          | Some st =>
              opened (sm_id st) (Some ErrStreamClosed) (
                opened (bf_id b) (Some ErrBufferClosed) (
                  opened (pr_id host) (Some ErrBufferClosed) (
                    if negb (same_ctx (sm_ctx st) (bf_ctx b)) || negb (same_ctx (pr_ctx host) (bf_ctx b))
                    then ret (Some ErrContextMismatch)
                    else if negb (pr_length host =? bf_length b) then ret (Some ErrLengthMismatch)
                    else memcpyDtoHAsync (bf_ctx b) ctx (pr_ptr host) (bf_ptr b) (bf_bytes b) (sm_raw st))))
          end
      end
  end.

Definition Buffer_Zero (b : option (Buffer T)) (ctx : gctx) : M err :=
  match b with
  | None => ret (Some ErrNilBuffer)
  | Some b =>
      opened (bf_id b) (Some ErrBufferClosed) (memset (bf_ctx b) ctx (bf_ptr b) 0 (bf_bytes b) 1)
  end.

Definition Buffer_ZeroAsync (b : option (Buffer T)) (ctx : gctx) (stream : option Stream) : M err :=
  match b, stream with
  | None, _ => ret (Some ErrNilBuffer)
  | _, None => ret (Some ErrNilStream)
  | Some b, Some st =>
      opened (sm_id st) (Some ErrStreamClosed) (
        opened (bf_id b) (Some ErrBufferClosed) (
          if negb (same_ctx (sm_ctx st) (bf_ctx b)) then ret (Some ErrContextMismatch)
          else memsetAsync (bf_ctx b) ctx (bf_ptr b) 0 (bf_bytes b) 1 (sm_raw st)))
  end.

Definition Buffer_Fill (b : option (Buffer T)) (ctx : gctx) (v : Z) : M err :=
  match b with
  | None => ret (Some ErrNilBuffer)
  | Some b =>
      if sizeof T =? 8 then ret (Some ErrUnsupportedFillType)
      else
        opened (bf_id b) (Some ErrBufferClosed) (
          memset (bf_ctx b) ctx (bf_ptr b) (fillBits T v) (uint64 (bf_length b)) (sizeof T))
  end.

Definition Buffer_FillAsync (b : option (Buffer T)) (ctx : gctx) (stream : option Stream) (v : Z) : M err :=
  match b, stream with
  | None, _ => ret (Some ErrNilBuffer)
  | _, None => ret (Some ErrNilStream)
  | Some b, Some st =>
      if sizeof T =? 8 then ret (Some ErrUnsupportedFillType)
      else
        opened (sm_id st) (Some ErrStreamClosed) (
          opened (bf_id b) (Some ErrBufferClosed) (
            if negb (same_ctx (sm_ctx st) (bf_ctx b)) then ret (Some ErrContextMismatch)
            else memsetAsync (bf_ctx b) ctx (bf_ptr b) (fillBits T v) (uint64 (bf_length b)) (sizeof T) (sm_raw st)))
  end.

(** [if dst != b (dst.opMu.RLock(); defer dst.opMu.RUnlock(); if dst.closed (return ErrBufferClosed)); k]. *)
Definition opened_other (b dst : Buffer T) (k : M err) : M err :=
  if same_buffer dst b then k else opened (bf_id dst) (Some ErrBufferClosed) k.

Definition Buffer_CopyToDevice (b : option (Buffer T)) (ctx : gctx) (dst : option (Buffer T)) : M err :=
  match b, dst with
  | Some b, Some dst =>
      opened (bf_id b) (Some ErrBufferClosed) (
        opened_other b dst (
          if negb (same_ctx (bf_ctx dst) (bf_ctx b)) then ret (Some ErrContextMismatch)
          else if negb (bf_length dst =? bf_length b) then ret (Some ErrLengthMismatch)
          else memcpyDtoD (bf_ctx b) ctx (bf_ptr dst) (bf_ptr b) (bf_bytes b)))
  | _, _ => ret (Some ErrNilBuffer)
  end.

Definition Buffer_CopyToDeviceAsync (b : option (Buffer T)) (ctx : gctx) (stream : option Stream) (dst : option (Buffer T)) : M err :=
  match b, dst with
  | Some b, Some dst =>
      match stream with
      | None => ret (Some ErrNilStream)
      | Some st =>
          opened (sm_id st) (Some ErrStreamClosed) (
            opened (bf_id b) (Some ErrBufferClosed) (
              opened_other b dst (
                if negb (same_ctx (sm_ctx st) (bf_ctx b)) || negb (same_ctx (bf_ctx dst) (bf_ctx b))
                then ret (Some ErrContextMismatch)
                else if negb (bf_length dst =? bf_length b) then ret (Some ErrLengthMismatch)
                else memcpyDtoDAsync (bf_ctx b) ctx (bf_ptr dst) (bf_ptr b) (bf_bytes b) (sm_raw st))))
      end
  | _, _ => ret (Some ErrNilBuffer)
  end.

Definition CopyHtoD (ctx : gctx) (dst : option (Buffer T)) (src : slice) : M err := Buffer_CopyFrom dst ctx src.
Definition CopyDtoH (ctx : gctx) (dst : slice) (src : option (Buffer T)) : M err := Buffer_CopyTo src ctx dst.

(** ** Offset copies (buffer_offset.go)

    [b.length - len(src)] is computed in Go's 64-bit [int]. *)

Definition Buffer_CopyFromAt (b : option (Buffer T)) (ctx : gctx) (dstOffset : Z) (src : slice) : M err :=
  match b with
  | None => ret (Some ErrNilBuffer)
  | Some b =>
      opened (bf_id b) (Some ErrBufferClosed) (
        if (dstOffset <? 0) || (sl_len src =? 0) then ret (Some ErrInvalidLength)
        else if int64 (bf_length b - sl_len src) <? dstOffset then ret (Some ErrOutOfRange)
        else
          let! srcPtr := first_elem src in
          let dst := offsetPtr b dstOffset in
          let bytes := uint64 (uint64 (sl_len src) * elemSize T) in
          memcpyHtoD (bf_ctx b) ctx dst srcPtr bytes)
  end.

Definition Buffer_CopyToAt (b : option (Buffer T)) (ctx : gctx) (dst : slice) (srcOffset : Z) : M err :=
  match b with
  | None => ret (Some ErrNilBuffer)
  | Some b =>
      opened (bf_id b) (Some ErrBufferClosed) (
        if (srcOffset <? 0) || (sl_len dst =? 0) then ret (Some ErrInvalidLength)
        else if int64 (bf_length b - sl_len dst) <? srcOffset then ret (Some ErrOutOfRange)
        else
          let! dstPtr := first_elem dst in
          let src := offsetPtr b srcOffset in
          let bytes := uint64 (uint64 (sl_len dst) * elemSize T) in
          memcpyDtoH (bf_ctx b) ctx dstPtr src bytes)
  end.

Definition Buffer_CopyToDeviceAt (b : option (Buffer T)) (ctx : gctx) (dstOffset : Z) (dst : option (Buffer T))
    (srcOffset n : Z) : M err :=
  match b, dst with
  | Some b, Some dst =>
      opened (bf_id b) (Some ErrBufferClosed) (
        opened_other b dst (
          if negb (same_ctx (bf_ctx dst) (bf_ctx b)) then ret (Some ErrContextMismatch)
          else if (n <=? 0) || (srcOffset <? 0) || (dstOffset <? 0) then ret (Some ErrInvalidLength)
          else if (int64 (bf_length b - n) <? srcOffset) || (int64 (bf_length dst - n) <? dstOffset)
          then ret (Some ErrOutOfRange)
          else
            let srcP := offsetPtr b srcOffset in
            let dstP := offsetPtr dst dstOffset in
            let bytes := uint64 (uint64 n * elemSize T) in
            memcpyDtoD (bf_ctx b) ctx dstP srcP bytes))
  | _, _ => ret (Some ErrNilBuffer)
  end.

Definition Buffer_CopyToDeviceAtAsync (b : option (Buffer T)) (ctx : gctx) (stream : option Stream) (dstOffset : Z)
    (dst : option (Buffer T)) (srcOffset n : Z) : M err :=
  match b, dst with
  | Some b, Some dst =>
      match stream with
      | None => ret (Some ErrNilStream)
      | Some st =>
          opened (sm_id st) (Some ErrStreamClosed) (
            opened (bf_id b) (Some ErrBufferClosed) (
              opened_other b dst (
                if negb (same_ctx (sm_ctx st) (bf_ctx b)) || negb (same_ctx (bf_ctx dst) (bf_ctx b))
                then ret (Some ErrContextMismatch)
                else if (n <=? 0) || (srcOffset <? 0) || (dstOffset <? 0) then ret (Some ErrInvalidLength)
                else if (int64 (bf_length b - n) <? srcOffset) || (int64 (bf_length dst - n) <? dstOffset)
                then ret (Some ErrOutOfRange)
                else
                  let srcP := offsetPtr b srcOffset in
                  let dstP := offsetPtr dst dstOffset in
                  let bytes := uint64 (uint64 n * elemSize T) in
                  memcpyDtoDAsync (bf_ctx b) ctx dstP srcP bytes (sm_raw st))))
      end
  | _, _ => ret (Some ErrNilBuffer)
  end.

(** ** Views (view.go) *)

Definition Buffer_View (b : option (Buffer T)) (offset n : Z) : M (option (View T) * err) :=
  match b with
  | None => ret (None, Some ErrNilBuffer)
  | Some b' =>
      opened (bf_id b') (None, Some ErrBufferClosed) (
        if (offset <? 0) || (n <=? 0) then ret (None, Some ErrInvalidLength)
        else if int64 (bf_length b' - n) <? offset then ret (None, Some ErrOutOfRange)
        else ret (Some (mkView b offset n), None))
  end.

(** [v == nil || v.owner == nil]. *)
Definition view_owner (v : option (View T)) : option (View T * Buffer T) :=
  match v with
  | None => None
  | Some v => match vw_owner v with None => None | Some b => Some (v, b) end
  end.

Definition View_View (v : option (View T)) (offset n : Z) : M (option (View T) * err) :=
  match view_owner v with
  | None => ret (None, Some ErrNilBuffer)
  | Some (v, b) =>
      opened (bf_id b) (None, Some ErrBufferClosed) (
        if (offset <? 0) || (n <=? 0) then ret (None, Some ErrInvalidLength)
        else if int64 (vw_length v - n) <? offset then ret (None, Some ErrOutOfRange)
        else ret (Some (mkView (vw_owner v) (int64 (vw_offset v + offset)) n), None))
  end.

Definition View_Len (v : option (View T)) : Z :=
  match v with None => 0 | Some v => vw_length v end.

Definition View_Bytes (v : option (View T)) : Z :=
  match v with None => 0 | Some v => uint64 (uint64 (vw_length v) * elemSize T) end.

Definition View_DevicePtr (v : option (View T)) : Z :=
  match view_owner v with
  | None => 0
  | Some (v, b) => offsetPtr b (vw_offset v)
  end.

Definition View_CopyFrom (v : option (View T)) (ctx : gctx) (src : slice) : M err :=
  match view_owner v with
  | None => ret (Some ErrNilBuffer)
  | Some (v, _) =>
      if negb (sl_len src =? vw_length v) then ret (Some ErrLengthMismatch)
      else Buffer_CopyFromAt (vw_owner v) ctx (vw_offset v) src
  end.

Definition View_CopyTo (v : option (View T)) (ctx : gctx) (dst : slice) : M err :=
  match view_owner v with
  | None => ret (Some ErrNilBuffer)
  | Some (v, _) =>
      if negb (sl_len dst =? vw_length v) then ret (Some ErrLengthMismatch)
      else Buffer_CopyToAt (vw_owner v) ctx dst (vw_offset v)
  end.

End BufferDefs.

(** ** Memory safety

    [buffer_ok]: what [Alloc] establishes, with the block the driver returned not running past the end of the
    address space.  [in_buffer b a n]: the [n] bytes at [a] belong to [b]. *)

Definition buffer_ok {T} (b : Buffer T) : Prop :=
  0 < bf_length b /\ is_int (bf_length b) /\ bf_bytes b = bf_length b * sizeof T /\
  0 <= bf_ptr b /\ bf_bytes b <= MaxUint64 /\ bf_ptr b + bf_bytes b <= 2 ^ 64.

Definition in_buffer {T} (b : Buffer T) (a n : Z) : Prop :=
  bf_ptr b <= a /\ 0 <= n /\ a + n <= bf_ptr b + bf_bytes b.

Definition view_ok {T} (v : View T) : Prop :=
  match vw_owner v with
  | Some b => buffer_ok b /\ 0 <= vw_offset v /\ 0 < vw_length v /\ vw_offset v + vw_length v <= bf_length b
  | None => False
  end.

Definition slice_ok (x : slice) : Prop := 0 <= sl_len x /\ is_int (sl_len x).

(** The device ranges (address, bytes) a linear copy or memset touches. *)
Definition device_ranges (c : call) : list (Z * Z) :=
  match c with
  | CuMemcpyHtoD d _ n | CuMemcpyHtoDAsync d _ n _ => [(d, n)]
  | CuMemcpyDtoH _ s n | CuMemcpyDtoHAsync _ s n _ => [(s, n)]
  | CuMemcpyDtoD d s n | CuMemcpyDtoDAsync d s n _ => [(d, n); (s, n)]
  | CuMemsetD8 d _ n | CuMemsetD8Async d _ n _ => [(d, n)]
  | CuMemsetD16 d _ n | CuMemsetD16Async d _ n _ => [(d, 2 * n)]
  | CuMemsetD32 d _ n | CuMemsetD32Async d _ n _ => [(d, 4 * n)]
  | _ => []
  end.

(** A driver call that may be made while using the buffers [bs] of context [c]: a background call, or a copy or
    memset on one of the context's own threads, with the context and every buffer touched open and locked for
    reading, and every byte touched inside one of the buffers. *)
Definition live (l : loc) (E : Env) : Prop := open l E /\ r_held (l, OpMu) E.

Definition safe_use {T} (bs : list (Buffer T)) (E : Env) (c : call) : Prop :=
  background c = true \/
  (device_ranges c <> [] /\ is_Some (env_thread E) /\
   Forall (fun r => exists b x, b ∈ bs /\ in_buffer b r.1 r.2 /\ live (bf_id b) E /\
             bf_ctx b = Some x /\ live (cx_id x) E) (device_ranges c)).

(** The address arithmetic of the offset copies does not wrap. *)
Lemma offsetPtr_exact {T} (b : Buffer T) off len :
  buffer_ok b -> 0 <= off -> 0 < len -> off + len <= bf_length b ->
  offsetPtr b off = bf_ptr b + off * sizeof T /\ uint64 (uint64 len * elemSize T) = len * sizeof T /\
  in_buffer b (offsetPtr b off) (uint64 (uint64 len * elemSize T)).
Proof.
  intros (H0 & Hi & Hb & Hp & Hm & Hw) Ho Hl Hol. unfold offsetPtr, in_buffer. rewrite elemSize_sizeof, Hb in *.
  assert (0 < sizeof T) by (destruct T; cbn; lia).
  assert (0 <= off * sizeof T) by nia. assert (0 < len * sizeof T) by nia.
  assert (off * sizeof T + len * sizeof T <= bf_length b * sizeof T) by nia.
  rewrite (uint64_of_int off), (uint64_of_int len) by (widths; lia).
  rewrite (uint64_id (off * sizeof T)) by (widths; lia).
  rewrite (uint64_id (bf_ptr b + off * sizeof T)) by (widths; lia).
  rewrite (uint64_id (len * sizeof T)) by (widths; lia). lia.
Qed.

(** The range test of the offset copies, in 64-bit arithmetic, is the mathematical one. *)
Lemma range_test (len n off : Z) :
  0 <= len -> is_int len -> 0 <= n -> is_int n -> (int64 (len - n) <? off) = false <-> off + n <= len.
Proof.
  intros H0 H1 H2 H3. rewrite int64_id by (widths; lia). rewrite Z.ltb_ge. lia.
Qed.

Section Safety.
Context `{Foreign}.
Context {T : elem}.
Implicit Types b dst : Buffer T.

Lemma live_opened l E : open l E -> live l (rlocked (l, OpMu) E).
Proof. intros Ho. split; [exact Ho|apply r_held_rlocked]. Qed.

Lemma live_rlocked l k E : live l E -> live l (rlocked k E).
Proof. intros [Ho Hr]. split; [exact Ho|now apply r_held_mono]. Qed.

Lemma live_on l t E : live l E -> live l (on_thread t E).
Proof. intros [Ho Hr]. now split. Qed.

Hint Resolve live_opened live_rlocked live_on : gocu.

Lemma safe_background (bs : list (Buffer T)) E c : background c = true -> safe_use bs E c.
Proof. now left. Qed.

(** One buffer, whole or in part. *)
Lemma safe_one b bs E c n a (x : Context) e :
  b ∈ bs -> device_ranges c = [(a, n)] -> in_buffer b a n -> live (bf_id b) E ->
  bf_ctx b = Some x -> open (cx_id x) E ->
  safe_use bs (on_thread (Some e) (rlocked (cx_id x, OpMu) E)) c.
Proof.
  intros Hb Hr Hin Hl Hc Ho. right. rewrite Hr. split_and!; [done|cbn; eauto|].
  constructor; [|constructor]. exists b, x. cbn. split_and!; auto with gocu.
Qed.

(** From one buffer to another of the same context. *)
Lemma safe_two b dst bs E c n n' a a' (x : Context) e :
  b ∈ bs -> dst ∈ bs -> device_ranges c = [(a', n'); (a, n)] ->
  in_buffer b a n -> in_buffer dst a' n' -> live (bf_id b) E -> live (bf_id dst) E ->
  bf_ctx b = Some x -> same_ctx (bf_ctx dst) (bf_ctx b) = true -> open (cx_id x) E ->
  safe_use bs (on_thread (Some e) (rlocked (cx_id x, OpMu) E)) c.
Proof.
  intros Hb Hd Hr Hin Hin' Hl Hl' Hc Hs Ho. right. rewrite Hr. split_and!; [done|cbn; eauto|].
  rewrite Hc in Hs. destruct (bf_ctx dst) as [y|] eqn:Hy; [|done]. cbn in Hs. apply bool_decide_eq_true in Hs.
  constructor; [|constructor; [|constructor]].
  - exists dst, y. cbn. rewrite Hs. split_and!; auto with gocu.
  - exists b, x. cbn. split_and!; auto with gocu.
Qed.

Lemma in_whole b : buffer_ok b -> in_buffer b (bf_ptr b) (bf_bytes b).
Proof.
  intros (H0 & Hi & Hb & Hp & Hm & Hw). unfold in_buffer. assert (0 < sizeof T) by (destruct T; cbn; lia). nia.
Qed.

End Safety.

#[export] Hint Resolve live_opened live_rlocked live_on safe_background in_whole : gocu.

(** ** The operations of a buffer, as a client calls them *)

Inductive BufferOp (T : elem) :=
| OpCopyFrom (ctx : gctx) (src : slice)
| OpCopyTo (ctx : gctx) (dst : slice)
| OpCopyFromHost (ctx : gctx) (src : PinnedHost T)
| OpCopyToHost (ctx : gctx) (dst : PinnedHost T)
| OpCopyFromHostAsync (ctx : gctx) (stream : option Stream) (src : PinnedHost T)
| OpCopyToHostAsync (ctx : gctx) (stream : option Stream) (dst : PinnedHost T)
| OpZero (ctx : gctx)
| OpZeroAsync (ctx : gctx) (stream : option Stream)
| OpFill (ctx : gctx) (v : Z)
| OpFillAsync (ctx : gctx) (stream : option Stream) (v : Z)
| OpCopyToDevice (ctx : gctx) (dst : option (Buffer T))
| OpCopyToDeviceAsync (ctx : gctx) (stream : option Stream) (dst : option (Buffer T))
| OpCopyFromAt (ctx : gctx) (dstOffset : Z) (src : slice)
| OpCopyToAt (ctx : gctx) (dst : slice) (srcOffset : Z)
| OpCopyToDeviceAt (ctx : gctx) (dstOffset : Z) (dst : option (Buffer T)) (srcOffset n : Z)
| OpCopyToDeviceAtAsync (ctx : gctx) (stream : option Stream) (dstOffset : Z) (dst : option (Buffer T)) (srcOffset n : Z)
| OpViewCopyFrom (offset length : Z) (ctx : gctx) (src : slice)
| OpViewCopyTo (offset length : Z) (ctx : gctx) (dst : slice).
Arguments OpCopyFrom {T}. Arguments OpCopyTo {T}. Arguments OpCopyFromHost {T}. Arguments OpCopyToHost {T}.
Arguments OpCopyFromHostAsync {T}. Arguments OpCopyToHostAsync {T}. Arguments OpZero {T}. Arguments OpZeroAsync {T}.
Arguments OpFill {T}. Arguments OpFillAsync {T}. Arguments OpCopyToDevice {T}. Arguments OpCopyToDeviceAsync {T}.
Arguments OpCopyFromAt {T}. Arguments OpCopyToAt {T}. Arguments OpCopyToDeviceAt {T}. Arguments OpCopyToDeviceAtAsync {T}.
Arguments OpViewCopyFrom {T}. Arguments OpViewCopyTo {T}.

Definition run_op `{Foreign} {T : elem} (b : option (Buffer T)) (op : BufferOp T) : M err :=
  match op with
  | OpCopyFrom g s => Buffer_CopyFrom b g s
  | OpCopyTo g s => Buffer_CopyTo b g s
  | OpCopyFromHost g h => Buffer_CopyFromHost b g h
  | OpCopyToHost g h => Buffer_CopyToHost b g h
  | OpCopyFromHostAsync g st h => Buffer_CopyFromHostAsync b g st h
  | OpCopyToHostAsync g st h => Buffer_CopyToHostAsync b g st h
  | OpZero g => Buffer_Zero b g
  | OpZeroAsync g st => Buffer_ZeroAsync b g st
  | OpFill g v => Buffer_Fill b g v
  | OpFillAsync g st v => Buffer_FillAsync b g st v
  | OpCopyToDevice g d => Buffer_CopyToDevice b g d
  | OpCopyToDeviceAsync g st d => Buffer_CopyToDeviceAsync b g st d
  | OpCopyFromAt g o s => Buffer_CopyFromAt b g o s
  | OpCopyToAt g s o => Buffer_CopyToAt b g s o
  | OpCopyToDeviceAt g o d o' n => Buffer_CopyToDeviceAt b g o d o' n
  | OpCopyToDeviceAtAsync g st o d o' n => Buffer_CopyToDeviceAtAsync b g st o d o' n
  | OpViewCopyFrom o n g s =>
      let! v := Buffer_View b o n in
      match v.2 with Some e => ret (Some e) | None => View_CopyFrom v.1 g s end
  | OpViewCopyTo o n g s =>
      let! v := Buffer_View b o n in
      match v.2 with Some e => ret (Some e) | None => View_CopyTo v.1 g s end
  end.

(** The second buffer of an operation, if it has one. *)
Definition op_dst {T} (op : BufferOp T) : option (Buffer T) :=
  match op with
  | OpCopyToDevice _ d | OpCopyToDeviceAsync _ _ d | OpCopyToDeviceAt _ _ d _ _ | OpCopyToDeviceAtAsync _ _ _ d _ _ => d
  | _ => None
  end.

(** The arguments are Go values: lengths and offsets are 64-bit ints, and the other buffer is well formed. *)
Definition op_ok {T} (op : BufferOp T) : Prop :=
  match op_dst op with Some d => buffer_ok d | None => True end /\
  match op with
  | OpCopyFrom _ s | OpCopyTo _ s => slice_ok s
  | OpCopyFromAt _ o s | OpCopyToAt _ s o => slice_ok s /\ is_int o
  | OpCopyToDeviceAt _ o _ o' n | OpCopyToDeviceAtAsync _ _ o _ o' n => is_int o /\ is_int o' /\ is_int n
  | OpViewCopyFrom o n _ s | OpViewCopyTo o n _ s => slice_ok s /\ is_int o /\ is_int n
  | _ => True
  end.

Definition op_buffers {T} (b : Buffer T) (op : BufferOp T) : list (Buffer T) :=
  b :: match op_dst op with Some d => [d] | None => [] end.

Section SafetyProofs.
Context `{Foreign}.
Context {T : elem}.
Implicit Types b d : Buffer T.

(** Splits an operation into its locks and tests, down to its driver operation. *)
Ltac op_step :=
  lazymatch goal with
  | |- tidy _ _ (opened _ _ _) => apply tidy_opened; intros ?
  | |- tidy _ _ (opened_other ?b ?d _) => unfold opened_other, same_buffer; destruct (bool_decide (bf_id d = bf_id b)) eqn:?
  | |- tidy _ _ (memcpyHtoD _ _ _ _ _) => apply tidy_memcpyHtoD; [auto with gocu|]
  | |- tidy _ _ (memcpyDtoH _ _ _ _ _) => apply tidy_memcpyDtoH; [auto with gocu|]
  | |- tidy _ _ (memcpyDtoD _ _ _ _ _) => apply tidy_memcpyDtoD; [auto with gocu|]
  | |- tidy _ _ (memcpyHtoDAsync _ _ _ _ _ _) => apply tidy_memcpyHtoDAsync; [auto with gocu|]
  | |- tidy _ _ (memcpyDtoHAsync _ _ _ _ _ _) => apply tidy_memcpyDtoHAsync; [auto with gocu|]
  | |- tidy _ _ (memcpyDtoDAsync _ _ _ _ _ _) => apply tidy_memcpyDtoDAsync; [auto with gocu|]
  | |- tidy _ _ (memset _ _ _ _ _ _) => apply tidy_memset; [auto with gocu|]
  | |- tidy _ _ (memsetAsync _ _ _ _ _ _ _) => apply tidy_memsetAsync; [auto with gocu|]
  | |- _ => tidy_step
  end.

Ltac op_split := repeat op_step.

(** The environment of the driver call: one more lock, an executor's thread. *)
Ltac in_ctx b :=
  let x := fresh "x" in let Hx := fresh "Hx" in
  destruct (bf_ctx b) as [x|] eqn:Hx; [|exact I]; cbn [in_context]; intros ? ?.

Ltac whole b :=
  op_split; in_ctx b;
  (eapply (safe_one b); [apply list_elem_of_here|reflexivity|now apply in_whole| |eassumption|assumption]);
  eauto using live_opened, live_rlocked.

Lemma fill_in b E x e (dr : option Driver) h src st v size base :
  buffer_ok b -> sizeof T <> 8 -> size = sizeof T -> base = opMemset8 \/ base = opMemset8Async ->
  bf_ctx b = Some x -> live (bf_id b) E -> open (cx_id x) E ->
  safe_use [b] (on_thread (Some e) (rlocked (cx_id x, OpMu) E))
    (memOp_call (mkMemOp dr (bf_ptr b) src h (uint64 (bf_length b)) v st (memsetKind base size))).
Proof.
  intros Hok Hs -> Hbase Hx Hl Ho. pose proof Hok as (H0 & Hi & Hb & _).
  assert (Hw : in_buffer b (bf_ptr b) (sizeof T * uint64 (bf_length b))).
  { rewrite uint64_of_int by (first [lia|exact Hi]). rewrite Z.mul_comm, <- Hb. now apply in_whole. }
  destruct Hbase as [-> | ->]; destruct T; cbn in Hs |- *; try lia;
    (eapply (safe_one b); [apply list_elem_of_here|reflexivity| |eassumption|eassumption|eassumption]);
    cbn in Hw |- *; try rewrite Z.mul_1_l in Hw; exact Hw.
Qed.

Lemma zero_in b E x e (dr : option Driver) h src st v base :
  buffer_ok b -> base = opMemset8 \/ base = opMemset8Async ->
  bf_ctx b = Some x -> live (bf_id b) E -> open (cx_id x) E ->
  safe_use [b] (on_thread (Some e) (rlocked (cx_id x, OpMu) E))
    (memOp_call (mkMemOp dr (bf_ptr b) src h (bf_bytes b) v st (memsetKind base 1))).
Proof.
  intros Hok Hbase Hx Hl Ho.
  destruct Hbase as [-> | ->]; (eapply (safe_one b); [apply list_elem_of_here|reflexivity| |eassumption|eassumption|eassumption]);
    now apply in_whole.
Qed.

Lemma safe_copies b E op :
  buffer_ok b ->
  match op with
  | OpCopyFrom _ _ | OpCopyTo _ _ | OpCopyFromHost _ _ | OpCopyToHost _ _
  | OpCopyFromHostAsync _ _ _ | OpCopyToHostAsync _ _ _ => True
  | _ => False
  end ->
  tidy (safe_use (op_buffers b op)) E (run_op (Some b) op).
Proof.
  intros Hok Hop. destruct op; try (exfalso; exact Hop); cbn;
    [unfold Buffer_CopyFrom|unfold Buffer_CopyTo|unfold Buffer_CopyFromHost|unfold Buffer_CopyToHost
    |unfold Buffer_CopyFromHostAsync|unfold Buffer_CopyToHostAsync]; whole b.
Qed.

Lemma safe_sets b E op :
  buffer_ok b ->
  match op with OpZero _ | OpZeroAsync _ _ | OpFill _ _ | OpFillAsync _ _ _ => True | _ => False end ->
  tidy (safe_use (op_buffers b op)) E (run_op (Some b) op).
Proof.
  intros Hok Hop. destruct op; try (exfalso; exact Hop); cbn;
    [unfold Buffer_Zero|unfold Buffer_ZeroAsync|unfold Buffer_Fill|unfold Buffer_FillAsync];
    op_split; in_ctx b; intros; unfold op_buffers; cbn [op_dst];
    first [eapply zero_in | eapply fill_in]; eauto using live_opened, live_rlocked; now apply Z.eqb_neq.
Qed.

Lemma live_of_same b d E : bf_id d = bf_id b -> live (bf_id b) E -> live (bf_id d) E.
Proof. now intros ->. Qed.

Lemma safe_device_copies b E op :
  buffer_ok b -> op_ok op ->
  match op with OpCopyToDevice _ _ | OpCopyToDeviceAsync _ _ _ => True | _ => False end ->
  tidy (safe_use (op_buffers b op)) E (run_op (Some b) op).
Proof.
  intros Hok [Hd _] Hop. destruct op as [| | | | | | | | | |g [d|]|g st [d|]| | | | | |]; try (exfalso; exact Hop); cbn in Hd |- *;
    [unfold Buffer_CopyToDevice|apply tidy_ret|unfold Buffer_CopyToDeviceAsync|apply tidy_ret];
    op_split; reflect_bools; in_ctx b;
    (assert (Hbytes : bf_bytes b = bf_bytes d) by (destruct Hok as (_ & _ & -> & _), Hd as (_ & _ & -> & _); congruence));
    (eapply (safe_two b d); [apply list_elem_of_here|apply list_elem_of_further, list_elem_of_here|reflexivity
      |now apply in_whole|rewrite Hbytes; now apply in_whole| | |eassumption|congruence|assumption]);
    eauto using live_of_same, live_opened, live_rlocked.
Qed.

Lemma copy_range b off len :
  buffer_ok b -> 0 <= len -> is_int len -> is_int off -> (off <? 0) = false -> (len =? 0) = false ->
  (int64 (bf_length b - len) <? off) = false ->
  in_buffer b (offsetPtr b off) (uint64 (uint64 len * elemSize T)).
Proof.
  intros Hok Hl Hi Ho H0 H1 H2. reflect_bools. apply Z.ltb_ge, range_test in H2; [|destruct Hok as (? & ? & _); auto with zarith..].
  apply offsetPtr_exact; auto with zarith.
Qed.

Lemma tidy_CopyFromAt b E g off src :
  buffer_ok b -> slice_ok src -> is_int off -> tidy (safe_use [b]) E (Buffer_CopyFromAt (Some b) g off src).
Proof.
  intros Hok [Hl Hi] Ho. unfold Buffer_CopyFromAt. op_split. apply orb_false_iff in Heqb0 as [? ?]. in_ctx b.
  (eapply (safe_one b); [apply list_elem_of_here|reflexivity|now apply copy_range| |eassumption|assumption]);
  eauto using live_opened, live_rlocked.
Qed.

Lemma tidy_CopyToAt b E g off dst :
  buffer_ok b -> slice_ok dst -> is_int off -> tidy (safe_use [b]) E (Buffer_CopyToAt (Some b) g dst off).
Proof.
  intros Hok [Hl Hi] Ho. unfold Buffer_CopyToAt. op_split. apply orb_false_iff in Heqb0 as [? ?]. in_ctx b.
  (eapply (safe_one b); [apply list_elem_of_here|reflexivity|now apply copy_range| |eassumption|assumption]);
  eauto using live_opened, live_rlocked.
Qed.

Lemma safe_offset_device_copies b E op :
  buffer_ok b -> op_ok op ->
  match op with OpCopyToDeviceAt _ _ _ _ _ | OpCopyToDeviceAtAsync _ _ _ _ _ _ => True | _ => False end ->
  tidy (safe_use (op_buffers b op)) E (run_op (Some b) op).
Proof.
  intros Hok [Hd Hi] Hop.
  destruct op as [| | | | | | | | | | | | | |g o [d|] o' n|g st o [d|] o' n| |]; try (exfalso; exact Hop); cbn in Hd, Hi |- *;
    [unfold Buffer_CopyToDeviceAt|apply tidy_ret|unfold Buffer_CopyToDeviceAtAsync|apply tidy_ret];
    destruct Hi as (Ho & Ho' & Hn); op_split; in_ctx b;
    repeat match goal with Hb : (_ || _)%bool = false |- _ => apply orb_false_iff in Hb; destruct Hb end;
    (assert (Hn0 : 0 <= n) by (reflect_bools; lia)); (assert (Hn1 : (n =? 0) = false) by (reflect_bools; lia));
    (eapply (safe_two b d); [apply list_elem_of_here|apply list_elem_of_further, list_elem_of_here|reflexivity
      |now apply copy_range|now apply copy_range| | |eassumption
      |repeat match goal with Hs : negb _ = false |- _ => apply negb_false_iff in Hs end; congruence|assumption]);
    reflect_bools; eauto using live_of_same, live_opened, live_rlocked.
Qed.

(** What [View] returns: a window inside the buffer, or an error. *)
Lemma Buffer_View_post b o n s r s1 :
  buffer_ok b -> is_int o -> is_int n ->
  Buffer_View (Some b) o n s = (Done r, s1) ->
  (exists e, r = (None, Some e)) \/ (r = (Some (mkView (Some b) o n), None) /\ view_ok (mkView (Some b) o n)).
Proof.
  intros Hok Ho Hn Hrun. unfold Buffer_View in Hrun. apply opened_done in Hrun as [->|(s2 & s3 & Hrun)]; [eauto|].
  destruct (_ || _)%bool eqn:E1; [injection Hrun as <- _; eauto|].
  apply orb_false_iff in E1 as [E1 E2].
  destruct (_ <? o) eqn:E3; injection Hrun as <- _; [eauto|].
  right. split; [done|]. unfold view_ok. cbn. reflect_bools.
  apply Z.ltb_ge, range_test in E3; [|destruct Hok as (? & ? & _); auto with zarith..].
  split_and!; auto with zarith.
Qed.

(** [tidy] of a sequence whose first part returns only values satisfying [Q]. *)
Lemma tidy_bind_post {A B} P E (m : M A) (Q : A -> Prop) (k : A -> M B) :
  tidy P E m -> (forall s a s1, m s = (Done a, s1) -> Q a) -> (forall a, Q a -> tidy P E (k a)) -> tidy P E (bind m k).
Proof.
  intros Hm HQ Hk s Hs. unfold bind. specialize (Hm s Hs). destruct (m s) as [o s1] eqn:E1.
  destruct Hm as (Hc & Ho & He). destruct o; cbn in *; try done.
  specialize (Hk a (HQ s a s1 E1) s1 (He I)). destruct (k a s1) as [o s2]. destruct Hk as (Hc' & Ho' & He').
  split_and!; eauto using calls_trans.
Qed.

Lemma tidy_Buffer_View P E b o n : tidy P E (Buffer_View (Some b) o n).
Proof. unfold Buffer_View. op_split. Qed.

Lemma safe_view_op b E o n (use : option (View T) -> M err) :
  buffer_ok b -> is_int o -> is_int n ->
  (view_ok (mkView (Some b) o n) -> tidy (safe_use [b]) E (use (Some (mkView (Some b) o n)))) ->
  tidy (safe_use [b]) E
    (let! v := Buffer_View (Some b) o n in match v.2 with Some e => ret (Some e) | None => use v.1 end).
Proof.
  intros Hok Ho Hn Huse. apply (tidy_bind_post _ _ _
    (fun r => (exists e, r = (None, Some e)) \/ (r = (Some (mkView (Some b) o n), None) /\ view_ok (mkView (Some b) o n)))).
  - apply tidy_Buffer_View.
  - intros s r s1. now apply Buffer_View_post.
  - intros r [[e ->]|[-> Hv]]; [apply tidy_ret|]. now apply Huse.
Qed.

Lemma safe_views b E op :
  buffer_ok b -> op_ok op ->
  match op with OpViewCopyFrom _ _ _ _ | OpViewCopyTo _ _ _ _ => True | _ => False end ->
  tidy (safe_use (op_buffers b op)) E (run_op (Some b) op).
Proof.
  intros Hok [_ Hi] Hop. destruct op as [| | | | | | | | | | | | | | | |o n g x|o n g x]; try (exfalso; exact Hop); cbn in Hi;
    destruct Hi as (Hx & Ho & Hn).
  - apply (safe_view_op b E o n (fun v => View_CopyFrom v g x)); [assumption..|]. intros Hv.
    unfold View_CopyFrom. cbn [view_owner vw_owner vw_offset vw_length].
    destruct (negb _); [apply tidy_ret|apply tidy_CopyFromAt; assumption].
  - apply (safe_view_op b E o n (fun v => View_CopyTo v g x)); [assumption..|]. intros Hv.
    unfold View_CopyTo. cbn [view_owner vw_owner vw_offset vw_length].
    destruct (negb _); [apply tidy_ret|apply tidy_CopyToAt; assumption].
Qed.


End SafetyProofs.
