(* ===== verification/Ready.v ===== *)
(** * Operations on a context that is ready

    The normal case: the context is open, its executors run and have nothing left over, no lock the
    operation needs is held by a writer, and the caller's context is not cancelled.  Then a submitted
    job runs exactly once, on the executor's thread, under [opMu], and its result is the result of the operation. *)

From S2P Require Import Prelude CudaSys Errors Runtime CudaResult ExecutorApi Context Dispatch Resource.

Section Ready.
Context `{Foreign}.

(** A [context.Context] that is not cancelled during the operation. *)
Definition alive (g : gctx) (s : state) : Prop :=
  match g with CtxVal l _ => st_polls s !! l = None | _ => True end.

(** An executor that accepts jobs and has none left over. *)
Definition idle (e : loc) (s : state) : Prop :=
  let x := default zero_exec (st_execs s !! e) in
  ex_closed x = false /\ ex_done x = false /\ ex_queue x = [] /\ not_writing (e, ExecMu) s.

Record ready (c : Context) (e : loc) (s : state) : Prop := mkReady {
  rd_open : open (cx_id c) (st_env s);
  rd_lock : not_writing (cx_id c, OpMu) s;
  rd_exec : cs_exec (default zero_ctx (st_ctxs s !! cx_id c)) = Some e;
  rd_err : cs_commandErr (default zero_ctx (st_ctxs s !! cx_id c)) = None;
  rd_idle : idle e s
}.

(** The copy executor exists too. *)
Record copy_ready (c : Context) (e : loc) (s : state) : Prop := mkCopyReady {
  cr_ready : exists e0, ready c e0 s;
  cr_exec : cs_copyExec (default zero_ctx (st_ctxs s !! cx_id c)) = Some e;
  cr_lock : unlocked (cx_id c, CopyMu) s;
  cr_idle : idle e s
}.

(** The environment a job of [c] runs in on executor [e]. *)
Definition job_env (c : Context) (e : loc) (E : Env) : Env :=
  on_thread (Some e) (rlocked (cx_id c, OpMu) E).

Lemma ctx_Err_alive g s : alive g s -> ctx_Err (orBackground g) s = (Done None, s).
Proof. destruct g; cbn; try reflexivity. now intros ->. Qed.

Lemma alive_env g E s : alive g s -> alive g (set_env E s).
Proof. now destruct g. Qed.

Lemma orBackground_idem g : orBackground (orBackground g) = orBackground g.
Proof. now destruct g. Qed.

Lemma submit_idle e g s :
  idle e s -> alive g s -> executor.submit e g s = (Done None, s).
Proof.
  intros (Hc & Hd & Hq & Hw) Ha. unfold executor.submit, bind at 1. rewrite ctx_Err_alive by done.
  rewrite (with_RLock_run _ _ s (Done None) (set_env (rlocked (e, ExecMu) (st_env s)) s)); try done.
  - now destruct s.
  - unfold bind, exec_state, get. cbn. rewrite Hc.
    rewrite ctx_Err_alive by (now apply alive_env). now rewrite Hd.
Qed.

Lemma drain_idle e s : idle e s -> executor.drain e s = (Done [], s).
Proof. intros (_ & _ & Hq & _). unfold executor.drain, bind, exec_state, get. now rewrite Hq. Qed.

(** A task on thread [e]: what the job gives there. *)
Lemma runTask_run {A} e (zero : A) j s r s1 s2 :
  job_Run j (set_env (on_thread (Some e) (st_env s)) s) = (Done r, s1) ->
  job_Recycle j s1 = (Done tt, s2) -> st_env s2 = on_thread (Some e) (st_env s) ->
  executor.runTask e zero j s = (Done r, set_env (st_env s) s2).
Proof.
  intros Hr Hc He. unfold executor.runTask, on, executor.runOne, executor.RecycleJob, recovering, bind.
  rewrite Hr, Hc. cbn. rewrite He. f_equal. now destruct (st_env s).
Qed.

Lemma DoJob_run {A} e g (zero : A) j s r s1 s2 :
  idle e s -> alive g s ->
  job_Run j (set_env (on_thread (Some e) (st_env s)) s) = (Done r, s1) ->
  job_Recycle j s1 = (Done tt, s2) -> st_env s2 = on_thread (Some e) (st_env s) ->
  executor.DoJob e g zero j s = (Done r, set_env (st_env s) s2).
Proof.
  intros Hi Ha Hr Hc He. unfold executor.DoJob, bind at 1. rewrite submit_idle by done.
  unfold bind. rewrite drain_idle by done. now apply runTask_run with s1.
Qed.

Lemma DoCtx_run {A} e (zero : A) fn s r s1 :
  idle e s ->
  fn (set_env (on_thread (Some e) (st_env s)) s) = (Done r, s1) ->
  st_env s1 = on_thread (Some e) (st_env s) ->
  executor.DoCtx e Background zero fn s = (Done r, set_env (st_env s) s1).
Proof.
  intros Hi Hr He. unfold executor.DoCtx. cbn [orBackground]. unfold bind at 1. rewrite submit_idle by done.
  unfold bind. rewrite drain_idle by done.
  rewrite (runTask_run e zero (funcJob fn) s r s1 s1) by done. reflexivity.
Qed.

Lemma idle_env e E s : env_locks_w E = env_locks_w (st_env s) -> idle e s -> idle e (set_env E s).
Proof. intros HE (Hc & Hd & Hq & Hw). unfold idle, not_writing in *. cbn. now rewrite HE. Qed.

(** [doJob] on a ready context. *)
Lemma doJob_ready {A} c e g (zero : A) j s r s1 s2 :
  ready c e s -> alive g s ->
  job_Run j (set_env (job_env c e (st_env s)) s) = (Done r, s1) ->
  job_Recycle j s1 = (Done tt, s2) -> st_env s2 = job_env c e (st_env s) ->
  doJob (Some c) g zero j s = (Done r, set_env (st_env s) s2).
Proof.
  intros [Ho Hl He Herr Hi] Ha Hr Hc Henv. unfold doJob.
  rewrite (with_RLock_run _ _ s (Done r) (set_env (rlocked (cx_id c, OpMu) (st_env s)) s2)); try done.
  unfold bind at 1, ctx_state, get. cbn. rewrite He.
  unfold bind at 1, is_closed, get. cbn. rewrite bool_decide_eq_false_2 by exact Ho. rewrite Herr.
  apply (DoJob_run e (orBackground g) zero j (set_env (rlocked (cx_id c, OpMu) (st_env s)) s) r s1 s2);
    [now apply idle_env|now destruct g|exact Hr|exact Hc|exact Henv].
Qed.

(** [doWith] without a barrier, or with one and nothing to drain. *)
Lemma doWith_ready {A} c e g (zero : A) fn w b s r s1 :
  ready c e s -> alive g s -> (w = false -> g = Background) ->
  (b = true -> cs_syncActive (default zero_ctx (st_ctxs s !! cx_id c)) = 0) ->
  fn (set_env (job_env c e (st_env s)) s) = (Done r, s1) ->
  st_env s1 = job_env c e (st_env s) ->
  doWith (Some c) g zero fn w b s = (Done r, set_env (st_env s) s1).
Proof.
  intros [Ho Hl He Herr Hi] Ha Hg Hb Hr Henv. unfold doWith.
  rewrite (with_RLock_run _ _ s (Done r) (set_env (rlocked (cx_id c, OpMu) (st_env s)) s1)); try done.
  set (s0 := set_env (rlocked (cx_id c, OpMu) (st_env s)) s).
  assert (Hi0 : idle e s0) by now apply idle_env.
  assert (Ha0 : alive g s0) by now apply alive_env.
  unfold bind at 1, ctx_state, get. cbn. rewrite He.
  unfold bind at 1, is_closed, get. cbn. rewrite bool_decide_eq_false_2 by exact Ho. rewrite Herr.
  destruct w.
  - unfold bind at 1. rewrite ctx_Err_alive by done.
    assert (Hbar : (if b then syncBarrier (cx_id c) (orBackground g) else ret None) s0 = (Done None, s0)).
    { destruct b; [|done]. unfold syncBarrier, bind, ctx_state, get. cbn. now rewrite Hb. }
    unfold bind at 1. rewrite Hbar.
    apply (DoJob_run e (orBackground g) zero (funcJob fn) s0 r s1 s1);
      [exact Hi0|now destruct g|exact Hr|reflexivity|exact Henv].
  - rewrite (Hg eq_refl). now apply (DoCtx_run e zero fn s0 r s1).
Qed.

(** [doCopyJob] with an existing copy executor. *)
Lemma copyExecutor_existing c e s :
  cs_copyExec (default zero_ctx (st_ctxs s !! cx_id c)) = Some e -> unlocked (cx_id c, CopyMu) s ->
  copyExecutor c s = (Done (Some e, None), s).
Proof.
  intros He Hu. unfold copyExecutor.
  rewrite (with_Lock_run _ _ s (Done (Some e, None)) (set_env (wlocked (cx_id c, CopyMu) (st_env s)) s)); try done.
  - cbn. rewrite wunlocked_wlocked by apply Hu. now destruct s.
  - unfold bind, ctx_state, get. cbn. now rewrite He.
  - cbn. set_solver.
Qed.

Lemma doCopyJob_ready {A} c e g (zero : A) j s r s1 s2 :
  copy_ready c e s -> alive g s ->
  job_Run j (set_env (job_env c e (st_env s)) s) = (Done r, s1) ->
  job_Recycle j s1 = (Done tt, s2) -> st_env s2 = job_env c e (st_env s) ->
  doCopyJob (Some c) g zero j s = (Done r, set_env (st_env s) s2).
Proof.
  intros [[e0 [Ho Hl He0 Herr _]] He Hu Hi] Ha Hr Hc Henv. unfold doCopyJob, doCopy.
  rewrite (with_RLock_run _ _ s (Done r) (set_env (rlocked (cx_id c, OpMu) (st_env s)) s2)); try done.
  set (s0 := set_env (rlocked (cx_id c, OpMu) (st_env s)) s).
  assert (Hi0 : idle e s0) by now apply idle_env.
  assert (Ha0 : alive g s0) by now apply alive_env.
  unfold bind at 1, ctx_state, get. cbn. rewrite He0.
  unfold bind at 1, is_closed, get. cbn. rewrite bool_decide_eq_false_2 by exact Ho.
  unfold bind at 1. rewrite ctx_Err_alive by done. rewrite Herr.
  unfold bind at 1. rewrite (copyExecutor_existing c e s0); [|done|].
  - apply (DoJob_run e (orBackground g) zero j s0 r s1 s2); [exact Hi0|now destruct g|exact Hr|exact Hc|exact Henv].
  - destruct Hu as [Hu1 Hu2]. split; [exact Hu1|]. cbn. rewrite lookup_insert_ne; [exact Hu2|congruence].
Qed.

(** [doWith] on a closed context. *)
Lemma doWith_closed {A} c g (zero : A) fn w b s :
  cx_id c ∈ env_closed (st_env s) -> cs_exec (default zero_ctx (st_ctxs s !! cx_id c)) <> None ->
  not_writing (cx_id c, OpMu) s ->
  doWith (Some c) g zero fn w b s = (Done (zero, Some ErrContextClosed), s).
Proof.
  intros Hcl He Hw. unfold doWith.
  rewrite (with_RLock_run _ _ s (Done (zero, Some ErrContextClosed)) (set_env (rlocked (cx_id c, OpMu) (st_env s)) s)); try done.
  - now destruct s.
  - unfold bind at 1, ctx_state, get. cbn. destruct (cs_exec _); [|done].
    unfold bind at 1, is_closed, get. cbn. now rewrite bool_decide_eq_true_2 by exact Hcl.
Qed.

(** *** Calls of the driver *)

(** The state after call [c] in environment [E]. *)
Definition after_call (E : Env) (c : call) (s : state) : state :=
  set_world (Sys (env_thread E) c (st_world s)).2 (set_trace ((E, c) :: st_trace s) s).

Definition call_code (E : Env) (c : call) (s : state) : Z := (Sys (env_thread E) c (st_world s)).1.1.

Lemma invoke_call d c s :
  drv_bound d (call_field c) = true ->
  invoke (Some d) c s = (Done (Sys (env_thread (st_env s)) c (st_world s)).1, after_call (st_env s) c s).
Proof. apply invoke_bound. Qed.

(** The name [check] is given for the call of a memory operation. *)
Definition memOp_name (k : memOpKind) : string :=
  match k with
  | opHtoD => "cuMemcpyHtoD_v2" | opDtoH => "cuMemcpyDtoH_v2" | opDtoD => "cuMemcpyDtoD_v2"
  | opHtoDAsync => "cuMemcpyHtoDAsync_v2" | opDtoHAsync => "cuMemcpyDtoHAsync_v2" | opDtoDAsync => "cuMemcpyDtoDAsync_v2"
  | opMemset8 => "cuMemsetD8_v2" | opMemset16 => "cuMemsetD16_v2" | opMemset32 => "cuMemsetD32_v2"
  | opMemset8Async => "cuMemsetD8Async" | opMemset16Async => "cuMemsetD16Async" | opMemset32Async => "cuMemsetD32Async"
  end.

Lemma memOp_Run_call o d s :
  mo_driver o = Some d -> drv_bound d (call_field (memOp_call o)) = true ->
  memOp_Run o s = (Done (check (memOp_name (mo_kind o)) (call_code (st_env s) (memOp_call o) s)),
                   after_call (st_env s) (memOp_call o) s).
Proof.
  intros Hd Hb. unfold memOp_Run, call_code. revert Hb. unfold memOp_call. rewrite Hd.
  destruct (mo_kind o); intros Hb; cbn in Hb;
    [unfold cudaresult.MemcpyHtoD|unfold cudaresult.MemcpyDtoH|unfold cudaresult.MemcpyDtoD
    |unfold cudaresult.MemcpyHtoDAsync|unfold cudaresult.MemcpyDtoHAsync|unfold cudaresult.MemcpyDtoDAsync
    |unfold cudaresult.MemsetD8|unfold cudaresult.MemsetD16|unfold cudaresult.MemsetD32
    |unfold cudaresult.MemsetD8Async|unfold cudaresult.MemsetD16Async|unfold cudaresult.MemsetD32Async];
    unfold required, lacks; rewrite Hb; cbn [negb]; unfold bind;
    (rewrite invoke_call by exact Hb); reflexivity.
Qed.

(** The executor a kind of operation goes to is ready. *)
Definition run_ready (c : Context) (k : memOpKind) (e : loc) (s : state) : Prop :=
  match k with
  | opHtoD | opDtoH | opDtoD => copy_ready c e s
  | _ => ready c e s
  end.

(** [run] makes the call of its operation, once, on the executor of its kind, and returns its code as an error. *)
Lemma run_run c d e g o s :
  cx_driver c = Some d -> drv_bound d (call_field (memOp_call o)) = true ->
  run_ready c (mo_kind o) e s -> alive g s ->
  exists pool,
    run (Some c) g o s =
      (Done (check (memOp_name (mo_kind o)) (call_code (job_env c e (st_env s)) (memOp_call o) s)),
       set_memOps pool (set_env (st_env s) (after_call (job_env c e (st_env s)) (memOp_call o) s))).
Proof.
  intros Hd Hb Hrd Ha. unfold run, deref, bind at 1, ret at 1.
  set (o' := mkMemOp _ _ _ _ _ _ _ _).
  assert (Hc : memOp_call o' = memOp_call o) by reflexivity.
  set (E := job_env c e (st_env s)). set (s0 := set_env E s).
  assert (Hrun : job_Run (memOp_job o') s0 =
    (Done (tt, check (memOp_name (mo_kind o)) (call_code E (memOp_call o) s)), after_call E (memOp_call o) s0)).
  { cbn [memOp_job job_Run]. unfold closure, bind.
    rewrite (memOp_Run_call o' d) by (first [exact Hd|exact Hb]). reflexivity. }
  set (r := (tt, check _ _)) in Hrun.
  assert (Hm : (match mo_kind o' with
                | opHtoD | opDtoH | opDtoD => doCopyJob (Some c) g tt (memOp_job o')
                | _ => doJob (Some c) g tt (memOp_job o')
                end) s = (Done r, set_env (st_env s) (after_call E (memOp_call o) s0))).
  { cbn [mo_kind o']. destruct (mo_kind o); cbn in Hrd;
      first [eapply doCopyJob_ready; [exact Hrd|exact Ha|exact Hrun|reflexivity|reflexivity]
            |eapply doJob_ready; [exact Hrd|exact Ha|exact Hrun|reflexivity|reflexivity]]. }
  unfold bind at 1. rewrite Hm. unfold bind, memOp_recycle, modify, ret. cbn [snd r]. eexists. reflexivity.
Qed.

(** *** Under the lock of a resource *)

Lemma ready_opened c e l s : ready c e s -> ready c e (set_env (rlocked (l, OpMu) (st_env s)) s).
Proof. intros [Ho Hl He Herr Hi]. split; try done. Qed.

Lemma copy_ready_opened c e l s : copy_ready c e s -> copy_ready c e (set_env (rlocked (l, OpMu) (st_env s)) s).
Proof.
  intros [[e0 Hr] He [Hu1 Hu2] Hi]. split; [exists e0; now apply ready_opened|done| |done].
  split; [exact Hu1|]. cbn. rewrite lookup_insert_ne; [exact Hu2|congruence].
Qed.

Lemma run_ready_opened c k e l s : run_ready c k e s -> run_ready c k e (set_env (rlocked (l, OpMu) (st_env s)) s).
Proof. destruct k; cbn; first [apply copy_ready_opened | apply ready_opened]. Qed.

(** Whatever the pool holds, [memOpPool_Get] gives some operation and leaves the rest of the state. *)
Lemma pool_Get_run s : exists o p, memOpPool_Get s = (Done o, set_memOps p s).
Proof.
  unfold memOpPool_Get. destruct (st_memOps s) as [|o os] eqn:E.
  - exists zero_memOp, (st_memOps s). now rewrite set_memOps_id.
  - now exists o, os.
Qed.

Lemma run_ready_pool c k e p s : run_ready c k e s -> run_ready c k e (set_memOps p s).
Proof.
  assert (Hr : forall e, ready c e s -> ready c e (set_memOps p s)).
  { intros e' [Ho Hl He Herr Hi]. split; assumption. }
  destruct k; cbn; try apply Hr; intros [[e0 H0] He Hu Hi]; (split; [exists e0; now apply Hr|assumption..]).
Qed.

(** The state a memory operation leaves: its call on the trace, the driver's new state, a pooled operation. *)
Definition called (E : Env) (c : call) (s s' : state) : Prop :=
  exists pool, s' = set_memOps pool (after_call E c s).

(** An operation of the dispatch layer, whose fields [f] assigns, under the lock of an open resource: exactly one
    driver call, on the executor of its kind; the result is the result code as an error. *)
Lemma opened_call c d e g l er (f : memOp -> memOp) k cl s :
  (forall o, mo_kind (f o) = k) -> (forall o, memOp_call (f o) = cl) ->
  open l (st_env s) -> not_writing (l, OpMu) s ->
  cx_driver c = Some d -> drv_bound d (call_field cl) = true ->
  run_ready c k e s -> alive g s ->
  let E := job_env c e (rlocked (l, OpMu) (st_env s)) in
  exists s', opened l er (bind memOpPool_Get (fun o => run (Some c) g (f o))) s =
      (Done (check (memOp_name k) (call_code E cl s)), s') /\
    called E cl s s'.
Proof.
  intros Hk Hcl Ho Hl Hd Hb Hrd Ha E.
  set (s0 := set_env (rlocked (l, OpMu) (st_env s)) s).
  destruct (pool_Get_run s0) as (o & p & Hp).
  destruct (run_run c d e g (f o) (set_memOps p s0) Hd) as [pool Hrun].
  { now rewrite Hcl. }
  { rewrite Hk. now apply run_ready_pool, run_ready_opened. }
  { destruct g; done. }
  rewrite Hk, Hcl in Hrun. eexists. split.
  - eapply opened_open; [exact Ho|exact Hl| |exact I|].
    + unfold bind. fold s0. rewrite Hp. exact Hrun.
    + reflexivity.
  - exists pool. now destruct s as [w [r wl t clo]].
Qed.

(** *** Closing a resource *)

Lemma ready_wlocked c e l s : l <> cx_id c -> ready c e s -> ready c e (set_env (wlocked (l, OpMu) (st_env s)) s).
Proof.
  intros Hne [R1 R2 R3 R4 R5]. split; try assumption.
  - unfold not_writing in *. cbn. set_solver.
  - destruct R5 as (R5 & R6 & R7 & R8). split_and!; try assumption. unfold not_writing in *. cbn. set_solver.
Qed.

(** The releasing call [m] of a resource of a ready context: one driver call, whose code decides. *)
Lemma close_resource_ready c e l (m : M err) name cl s :
  (forall s', m s' = (Done (check name (call_code (st_env s') cl s')), after_call (st_env s') cl s')) ->
  ready c e s -> cs_syncActive (default zero_ctx (st_ctxs s !! cx_id c)) = 0 ->
  open l (st_env s) -> unlocked (l, OpMu) s -> l <> cx_id c ->
  let E := job_env c e (wlocked (l, OpMu) (st_env s)) in
  close_resource l (let! r := doBarrier (Some c) Background tt (closure m) in ret r.2) s =
    match check name (call_code E cl s) with
    | None => (Done None, set_env (with_closed l (st_env s)) (after_call E cl s))
    | Some er => (Done (Some er), set_env (st_env s) (after_call E cl s))
    end.
Proof.
  intros Hm Hrd Hsa Ho Hu Hne E. unfold close_resource.
  set (s0 := set_env (wlocked (l, OpMu) (st_env s)) s).
  assert (Hrd0 : ready c e s0) by now apply ready_wlocked.
  assert (Hrun : closure m (set_env E s0) = (Done (tt, check name (call_code E cl s)), after_call E cl (set_env E s0))).
  { unfold closure, bind. rewrite Hm. reflexivity. }
  pose proof (doWith_ready c e Background tt _ true true s0 _ _ Hrd0 I ltac:(done) (fun _ => Hsa) Hrun eq_refl) as Hw.
  assert (Hbody : forall r, r = check name (call_code E cl s) ->
    (let! c0 := is_closed l in if c0 then ret None else
      let! e0 := (let! r := doBarrier (Some c) Background tt (closure m) in ret r.2) in
      match e0 with Some x => ret (Some x) | None => set_closed l ;! ret None end) s0 =
    (Done r, match r with None => set_env (with_closed l (st_env s0)) (after_call E cl s0) | Some _ => set_env (st_env s0) (after_call E cl s0) end)).
  { intros r Hr. rewrite (bind_done _ _ s0 false s0) by (now apply is_closed_open).
    rewrite (bind_done _ _ s0 r (set_env (st_env s0) (after_call E cl (set_env E s0)))).
    - now destruct r.
    - unfold doBarrier. rewrite (bind_done _ _ _ _ _ Hw). now rewrite Hr. }
  specialize (Hbody _ eq_refl).
  destruct (check _ _) as [er|] eqn:Hck;
    (erewrite with_Lock_run; [|exact Hu|exact Hbody|exact I|cbn; set_solver]); f_equal;
    destruct s as [w [lr lw t cl'] ? ? ? ? ? ? ? ?]; cbn; unfold set_env, after_call, wunlocked, with_closed; cbn;
    repeat f_equal; destruct Hu as [Hu1 Hu2]; cbn in Hu1; set_solver.
Qed.

(** A context that was closed first. *)
Lemma close_resource_orphan c l (m : M err) s :
  cx_id c ∈ env_closed (st_env s) -> cs_exec (default zero_ctx (st_ctxs s !! cx_id c)) <> None -> not_writing (cx_id c, OpMu) s ->
  open l (st_env s) -> unlocked (l, OpMu) s -> l <> cx_id c ->
  close_resource l (let! r := doBarrier (Some c) Background tt (closure m) in ret r.2) s = (Done (Some ErrContextClosed), s).
Proof.
  intros Hcl He Hw Ho Hu Hne. unfold close_resource. set (s0 := set_env (wlocked (l, OpMu) (st_env s)) s).
  rewrite (with_Lock_run _ _ s (Done (Some ErrContextClosed)) s0); [|exact Hu| |exact I|cbn; set_solver].
  - cbn. rewrite wunlocked_wlocked by apply Hu. now destruct s.
  - fold s0. rewrite (bind_done _ _ s0 false s0) by (now apply is_closed_open).
    unfold bind. unfold doBarrier. rewrite doWith_closed; [reflexivity|exact Hcl|exact He|]. unfold not_writing in *. cbn. set_solver.
Qed.

(** A wrapper whose entry point is bound makes its call. *)
Lemma required_call d f name cl s :
  f = call_field cl -> drv_bound d f = true ->
  required (Some d) f id (let! r := invoke (Some d) cl in ret (check name r.1)) s =
    (Done (check name (call_code (st_env s) cl s)), after_call (st_env s) cl s).
Proof. intros -> Hb. unfold required, lacks. rewrite Hb. cbn [negb]. unfold bind. now rewrite invoke_call. Qed.

Lemma optional_call d f name cl s :
  f = call_field cl -> drv_bound d f = true ->
  optional (Some d) f id (let! r := invoke (Some d) cl in ret (check name r.1)) s =
    (Done (check name (call_code (st_env s) cl s)), after_call (st_env s) cl s).
Proof. intros -> Hb. unfold optional, lacks. rewrite Hb. cbn [negb]. unfold bind. now rewrite invoke_call. Qed.

End Ready.
