(* ===== verification/BufferProps.v ===== *)
(** * Properties of buffers: what each operation does on each branch *)

From S2P Require Import Prelude CudaSys Errors Runtime CudaResult ExecutorApi Context Dispatch Resource Handles Buffer Ready.

Section BufferProps.
Context `{Foreign}.
Context {T : elem}.
Implicit Types b : Buffer T.

(** [Close] and the operations of one buffer find its lock free. *)
Definition lock_free b (s : state) : Prop := not_writing (bf_id b, OpMu) s.

(** ** Offset copies *)

(** The result of a test of an operation that stops before the driver: the error, and the state as it was. *)
Lemma opened_ret {A} l (e a : A) s :
  open l (st_env s) -> not_writing (l, OpMu) s -> opened l e (ret a) s = (Done a, s).
Proof.
  intros Ho Hl. erewrite opened_open; [|exact Ho|exact Hl|reflexivity|exact I|reflexivity].
  f_equal. now destruct s.
Qed.

(** A copy into a range that fits. *)
Lemma CopyFromAt_run b c d e g off src (s : state) :
  buffer_ok b -> slice_ok src -> is_int off -> bf_ctx b = Some c -> cx_driver c = Some d ->
  drv_bound d F_CuMemcpyHtoD = true -> copy_ready c e s -> alive g s -> lock_free b s ->
  open (bf_id b) (st_env s) -> 0 <= off -> 0 < sl_len src -> off + sl_len src <= bf_length b ->
  let E := job_env c e (rlocked (bf_id b, OpMu) (st_env s)) in
  let cl := CuMemcpyHtoD (bf_ptr b + off * sizeof T) (sl_ptr src) (sl_len src * sizeof T) in
  exists s', Buffer_CopyFromAt (Some b) g off src s = (Done (check "cuMemcpyHtoD_v2" (call_code E cl s)), s') /\ called E cl s s'.
Proof.
  intros Hok [Hs0 Hsi] Hoi Hc Hd Hb Hrd Ha Hl Ho H0 H1 Hfit E cl. unfold Buffer_CopyFromAt.
  replace ((off <? 0) || (sl_len src =? 0))%bool with false by (symmetry; apply orb_false_iff; rewrite Z.ltb_ge, Z.eqb_neq; lia).
  replace (int64 (bf_length b - sl_len src) <? off) with false
    by (symmetry; apply range_test; [destruct Hok as (? & ? & _); auto with zarith..|exact Hfit]).
  destruct (offsetPtr_exact b off (sl_len src) Hok H0 H1 Hfit) as (E1 & E2 & _).
  replace (first_elem src) with (ret (sl_ptr src)) by (unfold first_elem; now rewrite (proj2 (Z.ltb_lt _ _) H1)).
  cbv zeta. rewrite E1, E2, Hc.
  now apply (opened_call c d e g (bf_id b) (Some ErrBufferClosed)
    (fun o => mkMemOp (mo_driver o) (bf_ptr b + off * sizeof T) (mo_src o) (sl_ptr src) (sl_len src * sizeof T) (mo_val o) (mo_stream o) opHtoD)
    opHtoD cl s).
Qed.

(** A copy out of a range that fits. *)
Lemma CopyToAt_run b c d e g dst off (s : state) :
  buffer_ok b -> slice_ok dst -> is_int off -> bf_ctx b = Some c -> cx_driver c = Some d ->
  drv_bound d F_CuMemcpyDtoH = true -> copy_ready c e s -> alive g s -> lock_free b s ->
  open (bf_id b) (st_env s) -> 0 <= off -> 0 < sl_len dst -> off + sl_len dst <= bf_length b ->
  let E := job_env c e (rlocked (bf_id b, OpMu) (st_env s)) in
  let cl := CuMemcpyDtoH (sl_ptr dst) (bf_ptr b + off * sizeof T) (sl_len dst * sizeof T) in
  exists s', Buffer_CopyToAt (Some b) g dst off s = (Done (check "cuMemcpyDtoH_v2" (call_code E cl s)), s') /\ called E cl s s'.
Proof.
  intros Hok [Hs0 Hsi] Hoi Hc Hd Hb Hrd Ha Hl Ho H0 H1 Hfit E cl. unfold Buffer_CopyToAt.
  replace ((off <? 0) || (sl_len dst =? 0))%bool with false by (symmetry; apply orb_false_iff; rewrite Z.ltb_ge, Z.eqb_neq; lia).
  replace (int64 (bf_length b - sl_len dst) <? off) with false
    by (symmetry; apply range_test; [destruct Hok as (? & ? & _); auto with zarith..|exact Hfit]).
  destruct (offsetPtr_exact b off (sl_len dst) Hok H0 H1 Hfit) as (E1 & E2 & _).
  replace (first_elem dst) with (ret (sl_ptr dst)) by (unfold first_elem; now rewrite (proj2 (Z.ltb_lt _ _) H1)).
  cbv zeta. rewrite E1, E2, Hc.
  now apply (opened_call c d e g (bf_id b) (Some ErrBufferClosed)
    (fun o => mkMemOp (mo_driver o) (mo_dst o) (bf_ptr b + off * sizeof T) (sl_ptr dst) (sl_len dst * sizeof T) (mo_val o) (mo_stream o) opDtoH)
    opDtoH cl s).
Qed.

(** C30.  [CopyFromAt], branch by branch, on a well-formed buffer of a ready context: a closed buffer
    gives [ErrBufferClosed]; a negative offset or an empty source [ErrInvalidLength]; a range that does not
    fit [ErrOutOfRange]; in these three cases nothing at all changes.  Otherwise the driver is called
    exactly once, to copy [len(src)*sizeof(T)] bytes to [ptr + dstOffset*sizeof(T)] (computed without
    wrap-around), on the copy executor's thread, and its result code is what the caller gets. *)
Theorem CopyFromAt_spec (b : Buffer T) c d e g off src (s : state) :
  buffer_ok b -> slice_ok src -> is_int off -> bf_ctx b = Some c -> cx_driver c = Some d ->
  drv_bound d F_CuMemcpyHtoD = true -> copy_ready c e s -> alive g s -> lock_free b s ->
  let fits := off + sl_len src <= bf_length b in
  let E := job_env c e (rlocked (bf_id b, OpMu) (st_env s)) in
  let cl := CuMemcpyHtoD (bf_ptr b + off * sizeof T) (sl_ptr src) (sl_len src * sizeof T) in
  (~ open (bf_id b) (st_env s) -> Buffer_CopyFromAt (Some b) g off src s = (Done (Some ErrBufferClosed), s)) /\
  (open (bf_id b) (st_env s) -> off < 0 \/ sl_len src = 0 ->
     Buffer_CopyFromAt (Some b) g off src s = (Done (Some ErrInvalidLength), s)) /\
  (open (bf_id b) (st_env s) -> 0 <= off -> 0 < sl_len src -> ~ fits ->
     Buffer_CopyFromAt (Some b) g off src s = (Done (Some ErrOutOfRange), s)) /\
  (open (bf_id b) (st_env s) -> 0 <= off -> 0 < sl_len src -> fits ->
     exists s', Buffer_CopyFromAt (Some b) g off src s =
         (Done (check "cuMemcpyHtoD_v2" (call_code E cl s)), s') /\ called E cl s s').
Proof.
  intros Hok [Hs0 Hsi] Hoi Hc Hd Hb Hrd Ha Hl fits E cl. unfold Buffer_CopyFromAt. split_and!.
  - intros Ho. apply opened_closed; [|exact Hl]. unfold open in Ho. now destruct (decide (bf_id b ∈ env_closed (st_env s))).
  - intros Ho Hbad. replace ((off <? 0) || (sl_len src =? 0))%bool with true; [now apply opened_ret|].
    symmetry. apply orb_true_iff. rewrite Z.ltb_lt, Z.eqb_eq. exact Hbad.
  - intros Ho H0 H1 Hfit. replace ((off <? 0) || (sl_len src =? 0))%bool with false
      by (symmetry; apply orb_false_iff; rewrite Z.ltb_ge, Z.eqb_neq; lia).
    destruct (_ <? off) eqn:Hr; [now apply opened_ret|].
    apply range_test in Hr; [contradiction|destruct Hok as (? & ? & _); auto with zarith..].
  - intros Ho H0 H1 Hfit. now apply (CopyFromAt_run b c d e g off src s).
Qed.

(** ** Allocation *)

(** The size test of [Alloc] is the exact comparison. *)
Lemma size_test m : 0 < m -> is_int m -> (MaxUint64 / uint64 (sizeof T) <? uint64 m) = (2 ^ 64 <=? m * sizeof T).
Proof.
  intros Hm Hi. assert (Hsz : 1 <= sizeof T <= 8) by (destruct T; cbn; lia). rewrite (uint64_of_int m) by (first [lia|exact Hi]).
  rewrite (uint64_id (sizeof T)) by (unfold is_uint64; lia). unfold MaxUint64.
  apply Bool.eq_true_iff_eq. rewrite Z.ltb_lt, Z.leb_le. split; intros Hx.
  - apply Z.nlt_ge. intros Hlt. assert (m <= (2 ^ 64 - 1) / sizeof T); [|lia]. apply Z.div_le_lower_bound; lia.
  - apply Z.div_lt_upper_bound; lia.
Qed.

(** An allocation whose size passes the test: one call of the driver; a new buffer when it succeeds. *)
Lemma Alloc_run c d e n (s : state) :
  is_int n -> cx_driver c = Some d -> drv_bound d F_CuMemAlloc = true -> ready c e s -> 0 < n -> n * sizeof T < 2 ^ 64 ->
  let E := job_env c e (st_env s) in
  let cl := CuMemAlloc (n * sizeof T) in
  Alloc (T := T) (Some c) n s =
    match check "cuMemAlloc_v2" (call_code E cl s) with
    | Some er => (Done (None, Some er), set_env (st_env s) (after_call E cl s))
    | None =>
        (Done (Some (mkBuffer (st_next s) (Some c) ((Sys (env_thread E) cl (st_world s)).1.2 : Z) n (n * sizeof T)), None),
         set_next (Pos.succ (st_next s)) (set_env (st_env s) (after_call E cl s)))
    end.
Proof.
  intros Hn Hd Hb Hrd Hpos Hfit E cl. unfold Alloc. assert (Hsz : 1 <= sizeof T <= 8) by (destruct T; cbn; lia).
  replace (n <=? 0) with false by (symmetry; apply Z.leb_gt; lia).
  rewrite size_test by assumption. replace (2 ^ 64 <=? n * sizeof T) with false by (symmetry; apply Z.leb_gt; lia).
  cbv zeta. rewrite (uint64_of_int n) by (first [lia|exact Hn]).
  rewrite (uint64_id (sizeof T)) by (unfold is_uint64; lia). rewrite (uint64_id (n * sizeof T)) by (unfold is_uint64; nia).
  assert (Hrun : cudaresult.MemAlloc (cx_driver c) (n * sizeof T) (set_env E s) =
    (Done (checked 0 "cuMemAlloc_v2" (Sys (env_thread E) cl (st_world s)).1), after_call E cl (set_env E s))).
  { unfold cudaresult.MemAlloc, required, lacks. rewrite Hd, Hb. cbn [negb]. unfold bind. rewrite invoke_call by exact Hb. reflexivity. }
  pose proof (doWith_ready c e Background 0 _ false false s _ _ Hrd I (fun _ => eq_refl) ltac:(done) Hrun eq_refl) as Hw.
  unfold bind, do_. rewrite Hw. unfold checked, call_code. now destruct (check "cuMemAlloc_v2" _).
Qed.

(** [Alloc] checks its arguments exactly: it asks the driver for memory precisely when the context is
    not nil, the length is positive and [n*sizeof(T)] fits 64 bits, and then for [n*sizeof(T)] bytes; an argument that fails the test gives
    [ErrInvalidLength] and changes nothing; on success the buffer has length [n], [n*sizeof(T)] bytes, the
    driver's pointer and an identity no existing object has, and it is open; on failure the driver's
    error is returned and there is no buffer. *)
Theorem Alloc_spec c d e n (s : state) :
  is_int n -> cx_driver c = Some d -> drv_bound d F_CuMemAlloc = true -> ready c e s ->
  (forall l, l ∈ env_closed (st_env s) -> (l < st_next s)%positive) ->
  let E := job_env c e (st_env s) in
  let cl := CuMemAlloc (n * sizeof T) in
  (n <= 0 \/ 2 ^ 64 <= n * sizeof T ->
     Alloc (T := T) (Some c) n s = (Done (None, Some ErrInvalidLength), s)) /\
  (0 < n -> n * sizeof T < 2 ^ 64 ->
     exists s', (s' = set_env (st_env s) (after_call E cl s) \/
                 s' = set_next (Pos.succ (st_next s)) (set_env (st_env s) (after_call E cl s))) /\
       match check "cuMemAlloc_v2" (call_code E cl s) with
       | Some er => Alloc (Some c) n s = (Done (None (A := Buffer T), Some er), s')
       | None =>
           let p : Z := (Sys (env_thread E) cl (st_world s)).1.2 in
           let b := mkBuffer (T := T) (st_next s) (Some c) p n (n * sizeof T) in
           Alloc (Some c) n s = (Done (Some b, None), s') /\ open (bf_id b) (st_env s') /\
           (0 <= p -> p + n * sizeof T <= 2 ^ 64 -> buffer_ok b)
       end).
Proof.
  intros Hn Hd Hb Hrd Hcl E cl. split.
  - intros Hbad. unfold Alloc. destruct (Z.leb_spec n 0) as [Hle|Hgt]; [done|].
    rewrite size_test by assumption. replace (2 ^ 64 <=? n * sizeof T) with true; [done|].
    symmetry. apply Z.leb_le. destruct Hbad; lia.
  - intros Hpos Hfit. rewrite (Alloc_run c d e n s) by assumption. fold E cl. destruct (check "cuMemAlloc_v2" _) as [er|].
    + eexists. split; [left|]; reflexivity.
    + eexists. split; [right; reflexivity|]. split_and!; [reflexivity| |].
      * unfold open. cbn. intros Hin. apply Hcl in Hin. lia.
      * intros Hp Hpw. unfold buffer_ok. cbn. unfold MaxUint64. split_and!; auto with zarith.
Qed.

(** ** Views *)

(** Views nest.  On an open buffer, [View] gives a window exactly when it lies inside the buffer; a view of a view is
    given exactly when it lies inside the outer view, it is the view of the buffer at the sum of the offsets, it is
    again well formed, and its device pointer is the outer one advanced by [offset*sizeof(T)], without wrap-around. *)
Theorem View_nested (b : Buffer T) o n o' n' (s : state) :
  buffer_ok b -> is_int o -> is_int n -> is_int o' -> is_int n' ->
  open (bf_id b) (st_env s) -> lock_free b s ->
  0 <= o -> 0 < n -> o + n <= bf_length b ->
  let v := mkView (Some b) o n in
  let w := mkView (Some b) (o + o') n' in
  Buffer_View (Some b) o n s = (Done (Some v, None), s) /\ view_ok v /\
  (0 <= o' -> 0 < n' -> o' + n' <= n ->
     View_View (Some v) o' n' s = (Done (Some w, None), s) /\
     Buffer_View (Some b) (o + o') n' s = (Done (Some w, None), s) /\ view_ok w /\
     View_DevicePtr (Some w) = View_DevicePtr (Some v) + o' * sizeof T) /\
  (o' < 0 \/ n' <= 0 -> View_View (Some v) o' n' s = (Done (None, Some ErrInvalidLength), s)) /\
  (0 <= o' -> 0 < n' -> n < o' + n' -> View_View (Some v) o' n' s = (Done (None, Some ErrOutOfRange), s)).
Proof.
  intros Hok Ho Hn Ho' Hn' Hop Hl H0 H1 H2 v w.
  pose proof Hok as (Hlen & Hli & _).
  assert (HB : forall x y, is_int x -> is_int y -> 0 <= x -> 0 < y -> x + y <= bf_length b ->
    Buffer_View (Some b) x y s = (Done (Some (mkView (Some b) x y), None), s)).
  { intros x y Hx Hy Hx0 Hy0 Hxy. unfold Buffer_View.
    replace ((x <? 0) || (y <=? 0))%bool with false
      by (symmetry; apply orb_false_iff; rewrite Z.ltb_ge, Z.leb_gt; lia).
    replace (int64 (bf_length b - y) <? x) with false
      by (symmetry; apply range_test; [lia|exact Hli|lia|exact Hy|exact Hxy]).
    now apply opened_ret. }
  split_and!; [now apply HB|unfold view_ok; cbn; auto| | |].
  - intros H3 H4 H5. unfold View_View, view_owner. cbn [vw_owner vw_length vw_offset v].
    replace ((o' <? 0) || (n' <=? 0))%bool with false
      by (symmetry; apply orb_false_iff; rewrite Z.ltb_ge, Z.leb_gt; lia).
    replace (int64 (n - n') <? o') with false
      by (symmetry; apply range_test; [lia|exact Hn|lia|exact Hn'|exact H5]).
    rewrite (int64_id (o + o')) by (widths; lia).
    assert (His : is_int (o + o')) by (widths; lia).
    split_and!; [now apply opened_ret|apply HB; auto; lia|unfold view_ok; cbn; split_and!; auto; lia|].
    unfold View_DevicePtr, view_owner. cbn [vw_owner vw_offset w v].
    destruct (offsetPtr_exact b o n Hok H0 H1 H2) as (-> & _).
    destruct (offsetPtr_exact b (o + o') n' Hok) as (-> & _); lia.
  - intros Hbad. unfold View_View, view_owner. cbn [vw_owner vw_length vw_offset v].
    replace ((o' <? 0) || (n' <=? 0))%bool with true; [now apply opened_ret|].
    symmetry. apply orb_true_iff. rewrite Z.ltb_lt, Z.leb_le. exact Hbad.
  - intros H3 H4 H5. unfold View_View, view_owner. cbn [vw_owner vw_length vw_offset v].
    replace ((o' <? 0) || (n' <=? 0))%bool with false
      by (symmetry; apply orb_false_iff; rewrite Z.ltb_ge, Z.leb_gt; lia).
    destruct (_ <? o') eqn:Hr; [now apply opened_ret|].
    apply range_test in Hr; [lia|lia|exact Hn|lia|exact Hn'].
Qed.

(** ** Closing *)

Lemma tidy_free E b : tidy (fun _ _ => True) E
  (let! r := doBarrier (bf_ctx b) Background tt (closure (cudaresult.MemFree (ctx_driver (bf_ctx b)) (bf_ptr b))) in ret r.2).
Proof.
  apply tidy_bind; [|intros r; apply tidy_ret]. apply tidy_doBarrier; [done|].
  destruct (bf_ctx b) as [c|]; [|exact I]. intros e Ho. apply tidy_closure. unfold cudaresult.MemFree. tidy_auto.
Qed.

(** Operations stop at the closed flag. *)
Ltac closed_op b :=
  repeat first
    [ tidy_step
    | lazymatch goal with
      | Hcl : bf_id ?b ∈ env_closed _ |- tidy _ _ (opened (bf_id ?b) _ _) =>
          apply tidy_opened; intros Hopen; exfalso; exact (Hopen Hcl)
      | |- tidy _ _ (opened _ _ _) => apply tidy_opened; intros ?
      end ].

Lemma Buffer_View_result b o n s r s1 :
  Buffer_View (Some b) o n s = (Done r, s1) ->
  (exists e, r = (None, Some e)) \/ r = (Some (mkView (Some b) o n), None).
Proof.
  intros Hr. unfold Buffer_View in Hr. apply opened_done in Hr as [->|(s2 & s3 & Hr)]; [eauto|].
  destruct (_ || _)%bool; [injection Hr as <- _; eauto|].
  destruct (_ <? o); injection Hr as <- _; eauto.
Qed.

Lemma closed_view b E o n (use : option (View T) -> M err) :
  bf_id b ∈ env_closed E ->
  tidy (fun _ _ => False) E (use (Some (mkView (Some b) o n))) ->
  tidy (fun _ _ => False) E
    (let! v := Buffer_View (Some b) o n in match v.2 with Some e => ret (Some e) | None => use v.1 end).
Proof.
  intros Hc Hu. apply (tidy_bind_post _ _ _
    (fun r => (exists e, r = (None, Some e)) \/ r = (Some (mkView (Some b) o n), None))).
  - unfold Buffer_View. closed_op b.
  - intros s r s1. apply Buffer_View_result.
  - intros r [[e ->]| ->]; [apply tidy_ret|exact Hu].
Qed.

(** An operation of a closed buffer makes no driver call, whatever its arguments. *)
Lemma closed_buffer_no_calls b op E :
  bf_id b ∈ env_closed E -> tidy (fun _ _ => False) E (run_op (Some b) op).
Proof.
  intros Hc.
  assert (Hat : forall g o x, tidy (fun _ _ => False) E (Buffer_CopyFromAt (Some b) g o x))
    by (intros; unfold Buffer_CopyFromAt; closed_op b).
  assert (Hto : forall g o x, tidy (fun _ _ => False) E (Buffer_CopyToAt (Some b) g o x))
    by (intros; unfold Buffer_CopyToAt; closed_op b).
  destruct op as [| | | | | | | | | | | | | | | |o n g x|o n g x]; cbn [run_op];
    [unfold Buffer_CopyFrom|unfold Buffer_CopyTo|unfold Buffer_CopyFromHost|unfold Buffer_CopyToHost
    |unfold Buffer_CopyFromHostAsync|unfold Buffer_CopyToHostAsync|unfold Buffer_Zero|unfold Buffer_ZeroAsync
    |unfold Buffer_Fill|unfold Buffer_FillAsync|unfold Buffer_CopyToDevice|unfold Buffer_CopyToDeviceAsync
    |apply Hat|apply Hto|unfold Buffer_CopyToDeviceAt|unfold Buffer_CopyToDeviceAtAsync| |];
    try (closed_op b; fail).
  - apply (closed_view b E o n (fun v => View_CopyFrom v g x) Hc). unfold View_CopyFrom.
    cbn [view_owner vw_owner vw_offset vw_length]. destruct (negb _); [apply tidy_ret|apply Hat].
  - apply (closed_view b E o n (fun v => View_CopyTo v g x) Hc). unfold View_CopyTo.
    cbn [view_owner vw_owner vw_offset vw_length]. destruct (negb _); [apply tidy_ret|apply Hto].
Qed.

(** Once [Close] has returned nil the buffer is gone for good: [Close] again returns nil and changes
    nothing (no second [cuMemFree]), and no operation of the buffer, on any arguments and from any later state in
    which the flag is still set, makes a driver call. *)
Theorem Buffer_Close_final (b : Buffer T) (s s1 : state) :
  Buffer_Close (Some b) s = (Done None, s1) ->
  env_closed (st_env s1) = {[bf_id b]} ∪ env_closed (st_env s) /\
  Buffer_Close (Some b) s1 = (Done None, s1) /\
  (forall op s2, env_closed (st_env s1) ⊆ env_closed (st_env s2) ->
     exists o s3, run_op (Some b) op s2 = (o, s3) /\ st_trace s3 = st_trace s2).
Proof.
  intros Hc.
  assert (Ht : tidy (fun _ _ => True) (wlocked (bf_id b, OpMu) (st_env s))
    (let! r := doBarrier (bf_ctx b) Background tt (closure (cudaresult.MemFree (ctx_driver (bf_ctx b)) (bf_ptr b))) in ret r.2))
    by apply tidy_free.
  destruct (close_resource_nil _ _ _ s s1 Ht Hc) as [_ He].
  split_and!; [now rewrite He|exact (close_resource_twice _ _ _ s s1 Ht Hc)|].
  intros op s2 Hs2. assert (Hb : bf_id b ∈ env_closed (st_env s2)) by (apply Hs2; rewrite He; cbn; set_solver).
  pose proof (closed_buffer_no_calls b op (st_env s2) Hb s2 eq_refl) as Ht2.
  destruct (run_op (Some b) op s2) as [o s3]. destruct Ht2 as ((l & Hl & Hf) & _).
  exists o, s3. split; [reflexivity|]. destruct l as [|ev l]; [exact Hl|]. inversion Hf; done.
Qed.

(** A [Close] the driver refuses can be retried.  On a ready context with nothing to drain, [Close] of an open buffer calls
    [cuMemFree] exactly once on its pointer, on the command executor's thread, holding the buffer's lock for
    writing; if the call succeeds the buffer becomes closed and nil is returned, otherwise the driver's error
    is returned, the buffer stays open and all locks are as before, so that a later [Close] calls [cuMemFree] again. *)
Theorem Buffer_Close_spec (b : Buffer T) c d e (s : state) :
  bf_ctx b = Some c -> cx_driver c = Some d -> drv_bound d F_CuMemFree = true -> ready c e s ->
  cs_syncActive (default zero_ctx (st_ctxs s !! cx_id c)) = 0 ->
  open (bf_id b) (st_env s) -> unlocked (bf_id b, OpMu) s ->
  let E := job_env c e (wlocked (bf_id b, OpMu) (st_env s)) in
  let cl := CuMemFree (bf_ptr b) in
  bf_id b <> cx_id c ->
  Buffer_Close (Some b) s =
    match check "cuMemFree_v2" (call_code E cl s) with
    | None => (Done None, set_env (with_closed (bf_id b) (st_env s)) (after_call E cl s))
    | Some er => (Done (Some er), set_env (st_env s) (after_call E cl s))
    end.
Proof.
  intros Hc Hd Hb Hrd Hsa Ho Hu E cl Hne. unfold Buffer_Close. rewrite Hc. cbn [ctx_driver]. rewrite Hd.
  apply close_resource_ready; try done. intros s'. now apply required_call.
Qed.

End BufferProps.
