(* ===== verification/ContextProps.v ===== *)
(** * Properties of contexts

    Acquiring the primary context with its rollback, closing it with its retry, and what a closed context answers. *)

From S2P Require Import Prelude CudaSys Errors Runtime CudaResult ExecutorApi Context Dispatch Resource Handles Buffer Ready.

Section ContextProps.
Context `{Foreign}.

Lemma check_success op : check op 0 = None.
Proof. reflexivity. Qed.

Lemma check_none op code : check op code = None <-> code = 0.
Proof. unfold check, CUDA_SUCCESS. destruct (Z.eqb_spec code 0); split; congruence. Qed.

(** ** Running on an executor nobody else uses *)

(** The executor's record after [Close]. *)
Definition closed_exec (e : loc) (s : state) : Exec :=
  mkExec true (ex_retire (default zero_exec (st_execs s !! e))) true true [].

Lemma Close_idle e s :
  idle e s -> ex_once (default zero_exec (st_execs s !! e)) = false -> unlocked (e, ExecMu) s ->
  executor.Close e s = (Done None, set_execs (<[e := closed_exec e s]> (st_execs s)) s).
Proof.
  intros (Hc & Hd & Hq & _) Ho Hu. unfold executor.Close, bind at 1, exec_state at 1, get. rewrite Ho.
  set (x := default zero_exec (st_execs s !! e)) in *.
  set (s1 := set_execs (<[e := mkExec true (ex_retire x) (ex_once x) (ex_done x) (ex_queue x)]> (st_execs s)) s).
  unfold bind at 1. rewrite (with_Lock_run (e, ExecMu) _ s (Done tt) (set_env (wlocked (e, ExecMu) (st_env s)) s1));
    [|exact Hu|reflexivity|exact I|cbn; set_solver].
  cbn [st_env set_env]. rewrite wunlocked_wlocked by apply Hu.
  unfold bind at 1, executor.drain, bind at 1, exec_state at 1, get. cbn. rewrite lookup_insert_eq. cbn. rewrite Hq. cbn.
  unfold set_execs, closed_exec. cbn. rewrite insert_insert_eq, lookup_insert_eq. cbn. fold x. rewrite Hq. now destruct s.
Qed.

(** ** A closed context *)

(** A closed context answers every submission with [ErrContextClosed] and does nothing: [do], [doWait], [doBarrier], blocking copies and cancellable
    waits, hence [Synchronize], [MemInfo], [StreamPriorityRange] and [Alloc] of a valid length, leave the whole state as it was; and [Close] again
    returns nil, likewise without any effect. *)
Theorem closed_context (c : Context) (s : state) :
  cx_id c ∈ env_closed (st_env s) -> cs_exec (default zero_ctx (st_ctxs s !! cx_id c)) <> None ->
  not_writing (cx_id c, OpMu) s ->
  (forall A g (zero : A) fn w b, doWith (Some c) g zero fn w b s = (Done (zero, Some ErrContextClosed), s)) /\
  (forall A g (zero : A) fn, doCopyWait (Some c) g zero fn s = (Done (zero, Some ErrContextClosed), s)) /\
  (forall g o, doJobCtx (Some c) g o s = (Done (Some ErrContextClosed), s)) /\
  (forall g, Context_Synchronize (Some c) g s = (Done (Some ErrContextClosed), s)) /\
  MemInfo (Some c) s = (Done (0, 0, Some ErrContextClosed), s) /\
  StreamPriorityRange (Some c) s = (Done (0, 0, Some ErrContextClosed), s) /\
  (forall T n, 0 < n < 2 ^ 60 -> Alloc (T := T) (Some c) n s = (Done (None, Some ErrContextClosed), s)) /\
  (unlocked (cx_id c, OpMu) s -> cx_device c <> None -> Context_Close (Some c) s = (Done None, s)).
Proof.
  intros Hcl He Hw. destruct (cs_exec (default zero_ctx (st_ctxs s !! cx_id c))) as [e|] eqn:Hexec; [|done].
  assert (Hrun : forall A (body : M A) r,
    body (set_env (rlocked (cx_id c, OpMu) (st_env s)) s) = (Done r, set_env (rlocked (cx_id c, OpMu) (st_env s)) s) ->
    with_RLock (cx_id c, OpMu) body s = (Done r, s)).
  { intros A body r Hb. rewrite (with_RLock_run _ body s (Done r) _ Hw Hb I eq_refl). now destruct s. }
  assert (Hwith : forall A g (zero : A) fn w b, doWith (Some c) g zero fn w b s = (Done (zero, Some ErrContextClosed), s)).
  { intros A g zero fn w b. unfold doWith. apply Hrun. unfold bind, ctx_state, is_closed, get. cbn. rewrite Hexec.
    now rewrite bool_decide_eq_true_2. }
  assert (Hjob : forall g o, doJobCtx (Some c) g o s = (Done (Some ErrContextClosed), s)).
  { intros g o. unfold doJobCtx. apply Hrun. unfold bind, ctx_state, is_closed, get. cbn. rewrite Hexec.
    now rewrite bool_decide_eq_true_2. }
  split_and!; [exact Hwith| |exact Hjob| | | | |].
  - intros A g zero fn. unfold doCopyWait, doCopy. apply Hrun. unfold bind, ctx_state, is_closed, get. cbn. rewrite Hexec.
    now rewrite bool_decide_eq_true_2.
  - intros g. unfold Context_Synchronize. apply Hjob.
  - unfold MemInfo, do_, bind. now rewrite Hwith.
  - unfold StreamPriorityRange, do_, bind. now rewrite Hwith.
  - intros T n Hn. unfold Alloc, do_. assert (Hsz : 1 <= sizeof T <= 8) by (destruct T; cbn; lia).
    replace (n <=? 0) with false by (symmetry; apply Z.leb_gt; lia).
    rewrite (uint64_id (sizeof T)) by (unfold is_uint64; lia). rewrite (uint64_id n) by (unfold is_uint64; lia).
    replace (MaxUint64 / sizeof T <? n) with false.
    + unfold bind. now rewrite Hwith.
    + symmetry. apply Z.ltb_ge. apply Z.div_le_lower_bound; [lia|]. unfold MaxUint64. nia.
  - intros Hu Hdev. unfold Context_Close. destruct (cx_device c) as [dv|]; [|done].
    rewrite (with_Lock_run (cx_id c, OpMu) _ s (Done None) (set_env (wlocked (cx_id c, OpMu) (st_env s)) s) Hu);
      [|unfold bind, ctx_state, is_closed, get; cbn; rewrite Hexec; now rewrite bool_decide_eq_true_2|exact I|cbn; set_solver].
    cbn. rewrite wunlocked_wlocked by apply Hu. now destruct s.
Qed.

(** ** Closing *)

Lemma CtxSetCurrent_run d x s :
  drv_bound d F_CuCtxSetCurrent = true ->
  cudaresult.CtxSetCurrent (Some d) x s =
    (Done (check "cuCtxSetCurrent" (call_code (st_env s) (CuCtxSetCurrent x) s)), after_call (st_env s) (CuCtxSetCurrent x) s).
Proof.
  intros Hb. unfold cudaresult.CtxSetCurrent, required, lacks. rewrite Hb. cbn [negb]. unfold bind. rewrite invoke_call by exact Hb. reflexivity.
Qed.

Lemma PrimaryCtxRelease_run d h s :
  drv_bound d F_CuDevicePrimaryCtxRelease = true ->
  cudaresult.PrimaryCtxRelease (Some d) h s =
    (Done (check "cuDevicePrimaryCtxRelease_v2" (call_code (st_env s) (CuDevicePrimaryCtxRelease h) s)),
     after_call (st_env s) (CuDevicePrimaryCtxRelease h) s).
Proof.
  intros Hb. unfold cudaresult.PrimaryCtxRelease, required, lacks. rewrite Hb. cbn [negb]. unfold bind. rewrite invoke_call by exact Hb. reflexivity.
Qed.

(** The world after the closure's three calls, and their results: clear, release, and restore if the release failed. *)
Record close_calls := mkCloseCalls { cc_clear : Z; cc_release : Z; cc_restore : Z; cc_trace : list call; cc_world : World }.

Definition close_outcome (e : loc) (c : Context) (dv : Device) (w : World) : close_calls :=
  let '(r1, w1) := Sys (Some e) (CuCtxSetCurrent 0) w in
  let '(r2, w2) := Sys (Some e) (CuDevicePrimaryCtxRelease (dv_handle dv)) w1 in
  if r2.1 =? 0 then
    mkCloseCalls r1.1 r2.1 0 [CuDevicePrimaryCtxRelease (dv_handle dv); CuCtxSetCurrent 0] w2
  else
    let '(r3, w3) := Sys (Some e) (CuCtxSetCurrent (cx_raw c)) w2 in
    mkCloseCalls r1.1 r2.1 r3.1 [CuCtxSetCurrent (cx_raw c); CuDevicePrimaryCtxRelease (dv_handle dv); CuCtxSetCurrent 0] w3.

Lemma close_commands_run c dv d e s :
  cx_driver c = Some d -> drv_bound d F_CuCtxSetCurrent = true -> drv_bound d F_CuDevicePrimaryCtxRelease = true ->
  env_thread (st_env s) = Some e ->
  let k := close_outcome e c dv (st_world s) in
  close_commands c dv s =
    (Done (check "cuCtxSetCurrent" (cc_clear k), check "cuDevicePrimaryCtxRelease_v2" (cc_release k),
           check "cuCtxSetCurrent" (cc_restore k), None),
     set_world (cc_world k) (set_trace (map (pair (st_env s)) (cc_trace k) ++ st_trace s) s)).
Proof.
  intros Hd Hb1 Hb2 He. unfold close_commands, close_outcome. rewrite Hd.
  unfold bind at 1. rewrite CtxSetCurrent_run by done. unfold call_code, after_call. rewrite He.
  destruct (Sys (Some e) (CuCtxSetCurrent 0) (st_world s)) as [r1 w1]. cbn [fst snd].
  unfold bind at 1. rewrite PrimaryCtxRelease_run by done. unfold call_code, after_call. cbn [st_env set_world set_trace]. rewrite He.
  change (st_world (set_world w1 _)) with w1.
  destruct (Sys (Some e) (CuDevicePrimaryCtxRelease (dv_handle dv)) w1) as [r2 w2]. cbn [fst snd].
  destruct (Z.eqb_spec r2.1 0) as [E2|E2].
  - rewrite E2. rewrite check_success. cbn [is_nil]. reflexivity.
  - assert (Hr : is_nil (check "cuDevicePrimaryCtxRelease_v2" r2.1) = false).
    { destruct (check "cuDevicePrimaryCtxRelease_v2" r2.1) eqn:Hc; [done|]. now apply check_none in Hc. }
    rewrite Hr. unfold bind at 1. rewrite CtxSetCurrent_run by done. unfold call_code, after_call.
    cbn [st_env set_world set_trace]. rewrite He. change (st_world (set_world w2 _)) with w2.
    destruct (Sys (Some e) (CuCtxSetCurrent (cx_raw c)) w2) as [r3 w3]. reflexivity.
Qed.

(** A context whose lanes and copy executor were never needed, whose executor is idle, and whose locks are free. *)
Record quiet (c : Context) (e : loc) (s : state) : Prop := mkQuiet {
  qt_open : open (cx_id c) (st_env s);
  qt_state : st_ctxs s !! cx_id c = Some (mkCtxState (Some e) None [] 0 None);
  qt_idle : idle e s;
  qt_once : ex_once (default zero_exec (st_execs s !! e)) = false;
  qt_exec_lock : unlocked (e, ExecMu) s;
  qt_op_lock : unlocked (cx_id c, OpMu) s;
  qt_sync_lock : unlocked (cx_id c, SyncMu) s;
  qt_copy_lock : unlocked (cx_id c, CopyMu) s
}.

Lemma unlocked_wlocked l l' s : l <> l' -> unlocked l s -> unlocked l (set_env (wlocked l' (st_env s)) s).
Proof. intros Hne [Hw Hr]. split; cbn; [|exact Hr]. intros [->%elem_of_singleton|Hx]%elem_of_union; [now apply Hne|contradiction]. Qed.

(** [with_Lock] around a body that leaves the environment alone. *)
Lemma with_Lock_same {A} l (m : M A) s a s1 :
  unlocked l s -> m (set_env (wlocked l (st_env s)) s) = (Done a, s1) -> st_env s1 = wlocked l (st_env s) ->
  with_Lock l m s = (Done a, set_env (st_env s) s1).
Proof.
  intros Hu Hm He. rewrite (with_Lock_run l m s (Done a) s1 Hu Hm I); [|rewrite He; cbn; set_solver].
  rewrite He. now rewrite wunlocked_wlocked by apply Hu.
Qed.

(** What [Close] does under the lock: nothing to recover, no lanes, no copy executor; then the closure. *)
Lemma close_body_quiet c dv d e s :
  let s0 := set_env (wlocked (cx_id c, OpMu) (st_env s)) s in
  let E := on_thread (Some e) (st_env s0) in
  let k := close_outcome e c dv (st_world s) in
  let s1 := set_env (st_env s0) (set_world (cc_world k) (set_trace (map (pair E) (cc_trace k) ++ st_trace s) s0)) in
  quiet c e s -> cx_driver c = Some d -> drv_bound d F_CuCtxSetCurrent = true -> drv_bound d F_CuDevicePrimaryCtxRelease = true ->
  exists s2, st_env s2 = st_env s1 /\ st_execs s2 = st_execs s /\ st_trace s2 = st_trace s1 /\ st_world s2 = st_world s1 /\
    st_ctxs s2 = <[cx_id c := mkCtxState (Some e) None [] 0 None]> (st_ctxs s) /\
  close_body c dv s0 =
    (if is_nil (check "cuDevicePrimaryCtxRelease_v2" (cc_release k)) then
       set_closed (cx_id c) ;!
       (if is_nil (check "cuCtxSetCurrent" (cc_clear k)) then ret tt else executor.Retire e) ;!
       let! ce := executor.Close e in
       ret (errors_join [None; None; check "cuCtxSetCurrent" (cc_clear k); ce])
     else
       (if is_nil (check "cuCtxSetCurrent" (cc_restore k)) then ret tt
        else
          set_commandErr (cx_id c) (check "cuCtxSetCurrent" (cc_restore k)) ;!
          executor.Retire e ;!
          let! _ := executor.Close e in ret tt) ;!
       ret (errors_join [None; None; check "cuCtxSetCurrent" (cc_clear k);
                         check "cuDevicePrimaryCtxRelease_v2" (cc_release k); check "cuCtxSetCurrent" (cc_restore k)])) s2.
Proof.
  intros s0 E k s1 [Ho Hst Hi Honce Hxl Hol Hsl Hcl] Hd Hb1 Hb2.
  set (cs := mkCtxState (Some e) None [] 0 None) in *.
  set (s0a := set_ctxs (<[cx_id c := cs]> (st_ctxs s0)) s0).
  assert (Hrec : recoverCommandExecutor c s0 = (Done None, s0)).
  { unfold recoverCommandExecutor, bind, ctx_state, get. cbn. now rewrite Hst. }
  assert (Hlanes : closeWaitLanes c s0 = (Done None, s0a)).
  { unfold closeWaitLanes, bind at 1.
    erewrite (with_Lock_same (cx_id c, SyncMu) _ s0);
      [|apply unlocked_wlocked; [congruence|exact Hsl]
       |unfold bind, ctx_state, set_ctx_state, modify, get, ret; cbn; rewrite Hst; cbn; reflexivity|reflexivity].
    reflexivity. }
  assert (Hcopy : closeCopyExecutor c s0a = (Done None, set_ctxs (<[cx_id c := cs]> (st_ctxs s0a)) s0a)).
  { unfold closeCopyExecutor, bind at 1.
    erewrite (with_Lock_same (cx_id c, CopyMu) _ s0a);
      [|apply (unlocked_wlocked _ _ s); [congruence|exact Hcl]
       |unfold bind, ctx_state, set_copyExec, set_ctx_state, modify, get, ret; cbn; rewrite lookup_insert_eq; cbn; reflexivity|reflexivity].
    reflexivity. }
  set (s0b := set_ctxs (<[cx_id c := cs]> (st_ctxs s0a)) s0a) in *.
  exists (set_env (st_env s0) (set_world (cc_world k) (set_trace (map (pair E) (cc_trace k) ++ st_trace s) s0b))).
  split_and!; [done|done|done|done|cbn; now rewrite insert_insert_eq|].
  unfold close_body, bind at 1. rewrite Hrec. unfold bind at 1. rewrite Hlanes. unfold bind at 1. rewrite Hcopy.
  unfold bind at 1, ctx_state at 1, get. cbn [st_ctxs s0b set_ctxs]. rewrite lookup_insert_eq. cbn [default from_option id cs cs_exec deref].
  unfold bind at 1, ret at 1. unfold bind at 1, executor.Do.
  assert (Hib : idle e s0b).
  { destruct Hi as (H1 & H2 & H3 & H4). split_and!; [exact H1|exact H2|exact H3|]. exact (proj1 (unlocked_wlocked (e, ExecMu) (cx_id c, OpMu) s ltac:(congruence) Hxl)). }
  erewrite DoCtx_run; [|exact Hib| |].
  2:{ apply (close_commands_run c dv d e); [exact Hd|exact Hb1|exact Hb2|reflexivity]. }
  2:{ reflexivity. }
  cbn [st_env set_env]. change (st_world (set_env _ s0b)) with (st_world s). fold k. fold E.
  cbn [fst snd]. now destruct (is_nil (check "cuDevicePrimaryCtxRelease_v2" (cc_release k))).
Qed.

(** Retiring, if asked, and closing an executor nobody uses. *)
Lemma finish_run {A} e (clean : bool) (K : err -> M A) s :
  idle e s -> ex_once (default zero_exec (st_execs s !! e)) = false -> unlocked (e, ExecMu) s ->
  ((if clean then ret tt else executor.Retire e) ;! let! ce := executor.Close e in K ce) s =
    K None (set_execs (<[e := mkExec true (if clean then ex_retire (default zero_exec (st_execs s !! e)) else true) true true []]>
                         (st_execs s)) s).
Proof.
  intros Hi Ho Hu. destruct clean.
  - unfold bind at 1, ret at 1. unfold bind at 1. now rewrite Close_idle.
  - unfold bind at 1, executor.Retire, set_exec_state, modify.
    set (x := default zero_exec (st_execs s !! e)) in *.
    set (s1 := set_execs (<[e := mkExec (ex_closed x) true (ex_once x) (ex_done x) (ex_queue x)]> (st_execs s)) s).
    destruct Hi as (H1 & H2 & H3 & H4). unfold bind at 1. rewrite (Close_idle e s1).
    + unfold closed_exec. cbn [s1 st_execs set_execs]. rewrite lookup_insert_eq. cbn. now rewrite insert_insert_eq.
    + unfold idle. cbn [s1 st_execs set_execs]. rewrite lookup_insert_eq. cbn. fold x in H1, H2, H3. auto.
    + cbn [s1 st_execs set_execs]. rewrite lookup_insert_eq. exact Ho.
    + exact Hu.
Qed.

Lemma errors_join_nil_iff es : errors_join es = None <-> Forall (fun e => e = None) es.
Proof.
  unfold errors_join. induction es as [|[e|] es IH]; cbn; [split; [constructor|done]| |].
  - split; [done|]. intros Hf. now inversion Hf.
  - rewrite Forall_cons. rewrite <- IH. intuition.
Qed.

Lemma is_nil_check op code : is_nil (check op code) = (code =? 0).
Proof. unfold check, CUDA_SUCCESS. now destruct (code =? 0). Qed.

(** C38.  Closing a context with an idle executor makes exactly the calls it must, on its command thread and with the context locked for writing: unbind the context, release the primary context, and only if the release
    failed bind it again.  If the release succeeds the context is closed, its executor has shut down (and is retired when the unbinding failed), and the error is nil exactly when the unbinding
    succeeded.  If it fails the context stays open, an error is returned, and either the thread is bound again and everything is ready for another [Close], or the
    executor is retired and the error of the binding kept, to be recovered by the next [Close]. *)
Theorem Context_Close_spec (c : Context) (dv : Device) (d : Driver) (e : loc) (s : state) :
  quiet c e s -> cx_driver c = Some d -> cx_device c = Some dv ->
  drv_bound d F_CuCtxSetCurrent = true -> drv_bound d F_CuDevicePrimaryCtxRelease = true ->
  let k := close_outcome e c dv (st_world s) in
  let E := on_thread (Some e) (wlocked (cx_id c, OpMu) (st_env s)) in
  exists er s', Context_Close (Some c) s = (Done er, s') /\
    st_trace s' = map (pair E) (cc_trace k) ++ st_trace s /\
    (cc_release k = 0 ->
       st_env s' = with_closed (cx_id c) (st_env s) /\ (er = None <-> cc_clear k = 0) /\
       exists r, st_execs s' !! e = Some (mkExec true r true true []) /\ (cc_clear k <> 0 -> r = true)) /\
    (cc_release k <> 0 ->
       st_env s' = st_env s /\ er <> None /\
       (cc_restore k = 0 -> quiet c e s') /\
       (cc_restore k <> 0 ->
          st_ctxs s' !! cx_id c = Some (mkCtxState (Some e) None [] 0 (check "cuCtxSetCurrent" (cc_restore k))) /\
          st_execs s' !! e = Some (mkExec true true true true []))).
Proof.
  intros Hq Hd Hdv Hb1 Hb2 k E. pose proof (close_body_quiet c dv d e s Hq Hd Hb1 Hb2) as Hbody. cbv zeta in Hbody.
  fold k in Hbody. destruct Hbody as (s2 & He2 & Hx2 & Ht2 & Hw2 & Hc2 & Hbody). cbn [st_env set_env st_trace] in He2, Ht2.
  destruct Hq as [Ho Hst (Hi1 & Hi2 & Hi3 & Hi4) Honce Hxl Hol Hsl Hcl].
  assert (Hx : unlocked (e, ExecMu) s2).
  { unfold unlocked. rewrite He2. exact (unlocked_wlocked (e, ExecMu) (cx_id c, OpMu) s ltac:(congruence) Hxl). }
  assert (Hi : idle e s2) by (unfold idle; rewrite Hx2; split_and!; [exact Hi1|exact Hi2|exact Hi3|exact (proj1 Hx)]).
  assert (Ho2 : ex_once (default zero_exec (st_execs s2 !! e)) = false) by now rewrite Hx2.
  assert (Hrun : forall er s1, close_body c dv (set_env (wlocked (cx_id c, OpMu) (st_env s)) s) = (Done er, s1) ->
    (cx_id c, OpMu) ∈ env_locks_w (st_env s1) ->
    Context_Close (Some c) s = (Done er, set_env (wunlocked (cx_id c, OpMu) (st_env s1)) s1)).
  { intros er s1 Hb Hin. unfold Context_Close. rewrite Hdv. apply with_Lock_run; [exact Hol| |exact I|exact Hin].
    unfold bind at 1, ctx_state at 1, get at 1. change (st_ctxs (set_env _ s)) with (st_ctxs s). rewrite Hst.
    cbn [default from_option id cs_exec]. unfold bind at 1. rewrite is_closed_open by exact Ho. exact Hb. }
  rewrite Hbody in Hrun. rewrite !is_nil_check in Hrun. destruct (Z.eqb_spec (cc_release k) 0) as [Hrel|Hrel].
  - unfold bind at 1, set_closed, modify in Hrun. set (s3 := set_env (with_closed _ _) s2) in Hrun.
    rewrite finish_run in Hrun; [|exact Hi|exact Ho2|exact Hx].
    eexists _, _. split; [eapply Hrun; [reflexivity|cbn; rewrite He2; cbn; set_solver]|].
    split_and!; [exact Ht2| |intros Hn; contradiction]. intros _. split_and!.
    + cbn. rewrite He2. unfold wunlocked, with_closed. cbn. f_equal. pose proof (proj1 Hol). set_solver.
    + rewrite errors_join_nil_iff, !Forall_cons, check_none. intuition.
    + eexists. split; [cbn; now rewrite Hx2, lookup_insert_eq|]. destruct (Z.eqb_spec (cc_clear k) 0); [contradiction|done].
  - assert (Henv : wunlocked (cx_id c, OpMu) (st_env s2) = st_env s) by (rewrite He2; now apply wunlocked_wlocked; apply Hol).
    assert (Hin2 : (cx_id c, OpMu) ∈ env_locks_w (st_env s2)) by (rewrite He2; cbn; set_solver).
    assert (Her : forall a b, errors_join [None; None; a; check "cuDevicePrimaryCtxRelease_v2" (cc_release k); b] <> None).
    { intros a b Hj. apply errors_join_nil_iff in Hj. rewrite !Forall_cons, check_none in Hj. tauto. }
    destruct (Z.eqb_spec (cc_restore k) 0) as [Hres|Hres].
    + eexists _, _. split; [eapply Hrun; [reflexivity|exact Hin2]|]. rewrite Henv.
      split_and!; [exact Ht2|intros Hn; contradiction|]. intros _. split_and!; [done|apply Her| |intros Hn; contradiction].
      intros _. split; [exact Ho|cbn; now rewrite Hc2, lookup_insert_eq| |cbn; now rewrite Hx2|exact Hxl|exact Hol|exact Hsl|exact Hcl].
      unfold idle. cbn. rewrite Hx2. auto.
    + set (er := check "cuCtxSetCurrent" (cc_restore k)) in *.
      set (s3 := set_ctxs (<[cx_id c := mkCtxState (Some e) None [] 0 er]> (st_ctxs s2)) s2).
      assert (Hfin : (set_commandErr (cx_id c) er ;! executor.Retire e ;! let! _ := executor.Close e in ret tt) s2 =
        (Done tt, set_execs (<[e := mkExec true true true true []]> (st_execs s3)) s3)).
      { unfold set_commandErr, bind at 1, set_ctx_state, modify. rewrite Hc2, lookup_insert_eq. cbn [default from_option id].
        rewrite <- Hc2. exact (finish_run e false (fun _ => ret tt) s3 Hi Ho2 Hx). }
      unfold bind at 1 in Hrun. rewrite Hfin in Hrun.
      eexists _, _. split; [eapply Hrun; [reflexivity|exact Hin2]|]. cbn [st_env set_execs s3 set_ctxs]. rewrite Henv.
      split_and!; [exact Ht2|intros Hn; contradiction|]. intros _. split_and!; [done|apply Her|intros Hn; contradiction|].
      intros _. split; cbn; now rewrite lookup_insert_eq.
Qed.

(** ** Acquiring *)

(** Identities not yet handed out are neither closed nor locked. *)
Record fresh_ids (s : state) : Prop := mkFresh {
  fr_closed : forall l, l ∈ env_closed (st_env s) -> (l < st_next s)%positive;
  fr_writers : forall l f, (l, f) ∈ env_locks_w (st_env s) -> (l < st_next s)%positive;
  fr_readers : forall l f, is_Some (env_locks_r (st_env s) !! (l, f)) -> (l < st_next s)%positive
}.

Lemma fresh_unlocked s l f : fresh_ids s -> (st_next s <= l)%positive -> unlocked (l, f) s.
Proof.
  intros [_ Hw Hr] Hl. split.
  - intros Hin. apply Hw in Hin. lia.
  - apply eq_None_not_Some. intros Hin. apply Hr in Hin. lia.
Qed.

(** The calls of the closure of [Primary] and the world after them: retain, bind, and release again if binding failed. *)
Record primary_calls := mkPrimaryCalls { pc_retain : Z; pc_raw : Z; pc_bind : Z; pc_release : Z; pc_trace : list call; pc_world : World }.

Definition primary_outcome (e : loc) (h : Z) (w : World) : primary_calls :=
  let '((c1, raw), w1) := Sys (Some e) (CuDevicePrimaryCtxRetain h) w in
  if c1 =? 0 then
    let '(r2, w2) := Sys (Some e) (CuCtxSetCurrent raw) w1 in
    if r2.1 =? 0 then mkPrimaryCalls c1 raw r2.1 0 [CuCtxSetCurrent raw; CuDevicePrimaryCtxRetain h] w2
    else
      let '(r3, w3) := Sys (Some e) (CuDevicePrimaryCtxRelease h) w2 in
      mkPrimaryCalls c1 raw r2.1 r3.1 [CuDevicePrimaryCtxRelease h; CuCtxSetCurrent raw; CuDevicePrimaryCtxRetain h] w3
  else mkPrimaryCalls c1 raw 0 0 [CuDevicePrimaryCtxRetain h] w1.

(** The error the closure returns. *)
Definition primary_error (k : primary_calls) : err :=
  match check "cuDevicePrimaryCtxRetain" (pc_retain k) with
  | Some e => Some e
  | None =>
      match check "cuCtxSetCurrent" (pc_bind k) with
      | Some e => errors_join [Some e; check "cuDevicePrimaryCtxRelease_v2" (pc_release k)]
      | None => None
      end
  end.

Lemma primary_closure_run d h e s :
  drv_bound d F_CuDevicePrimaryCtxRetain = true -> drv_bound d F_CuCtxSetCurrent = true ->
  drv_bound d F_CuDevicePrimaryCtxRelease = true -> env_thread (st_env s) = Some e ->
  let k := primary_outcome e h (st_world s) in
  primary_closure (Some d) h s =
    (Done (if is_nil (primary_error k) then pc_raw k else 0, primary_error k),
     set_world (pc_world k) (set_trace (map (pair (st_env s)) (pc_trace k) ++ st_trace s) s)).
Proof.
  intros Hb1 Hb2 Hb3 He. unfold primary_closure, primary_outcome, primary_error.
  unfold bind at 1, cudaresult.PrimaryCtxRetain, required, lacks. rewrite Hb1. cbn [negb]. unfold bind at 1.
  rewrite invoke_call by exact Hb1. rewrite He. unfold after_call. rewrite He.
  destruct (Sys (Some e) (CuDevicePrimaryCtxRetain h) (st_world s)) as [[c1 raw] w1]. cbn [fst snd]. unfold ret at 1, checked.
  cbn [fst snd]. destruct (Z.eqb_spec c1 0) as [->|Hc1].
  2:{ destruct (check "cuDevicePrimaryCtxRetain" c1) eqn:Hck; [|now apply check_none in Hck].
      cbn [pc_retain]. rewrite Hck. reflexivity. }
  rewrite check_success. cbn [fst snd]. unfold bind at 1. rewrite CtxSetCurrent_run by done. unfold call_code, after_call.
  cbn [st_env set_world set_trace]. rewrite He. change (st_world (set_world w1 _)) with w1.
  destruct (Sys (Some e) (CuCtxSetCurrent raw) w1) as [r2 w2]. cbn [fst snd]. destruct (Z.eqb_spec r2.1 0) as [E2|E2].
  { rewrite E2, check_success. reflexivity. }
  destruct (check "cuCtxSetCurrent" r2.1) as [e2|] eqn:Hck2; [|now apply check_none in Hck2].
  unfold bind at 1. rewrite PrimaryCtxRelease_run by done. unfold call_code, after_call.
  cbn [st_env set_world set_trace]. rewrite He. change (st_world (set_world w2 _)) with w2.
  destruct (Sys (Some e) (CuDevicePrimaryCtxRelease h) w2) as [r3 w3]. cbn [fst snd pc_retain pc_bind pc_release pc_raw pc_trace pc_world].
  rewrite check_success, Hck2. unfold errors_join. now destruct (check "cuDevicePrimaryCtxRelease_v2" r3.1).
Qed.

(** C37.  Acquiring the primary context never leaks it.  [Primary] on an initialised library retains the device's primary context and binds it to a new thread; if
    binding fails it releases what it retained, and in every failure the new executor is shut down and an error returned; if both succeed it returns an open context with the
    driver's handle, ready for work on that thread.  No other driver call is made, and every lock is free again. *)
Theorem Device_Primary_spec (dv : Device) (d : Driver) (s : state) :
  st_driver s = Some d -> unlocked pkg_mu s -> fresh_ids s ->
  drv_bound d F_CuDevicePrimaryCtxRetain = true -> drv_bound d F_CuCtxSetCurrent = true ->
  drv_bound d F_CuDevicePrimaryCtxRelease = true ->
  let e := st_next s in
  let k := primary_outcome e (dv_handle dv) (st_world s) in
  exists r er s', Device_Primary (Some dv) s = (Done (r, er), s') /\ er = primary_error k /\ st_env s' = st_env s /\
    st_trace s' = map (pair (on_thread (Some e) (st_env s))) (pc_trace k) ++ st_trace s /\
    match er with
    | Some _ => r = None /\ st_execs s' !! e = Some (mkExec true false true true []) /\
                (pc_retain k = 0 -> CuDevicePrimaryCtxRelease (dv_handle dv) ∈ pc_trace k)
    | None => r = Some (mkContext (Pos.succ e) (Some dv) (Some d) (pc_raw k)) /\
              ready (mkContext (Pos.succ e) (Some dv) (Some d) (pc_raw k)) e s'
    end.
Proof.
  intros Hdrv Hpkg Hfr Hb1 Hb2 Hb3 e k.
  set (s1 := set_execs (<[e := mkExec false false false false []]> (st_execs s)) (set_next (Pos.succ e) s)).
  assert (Hx : unlocked (e, ExecMu) s1) by (apply (fresh_unlocked s); [exact Hfr|reflexivity]).
  assert (Hi : idle e s1).
  { unfold idle. cbn [s1 st_execs set_execs]. rewrite lookup_insert_eq. split_and!; try reflexivity. exact (proj1 Hx). }
  unfold Device_Primary, bind at 1, currentDriver.
  rewrite (with_Lock_same pkg_mu _ s (st_driver s) (set_env (wlocked pkg_mu (st_env s)) s)); [|exact Hpkg|reflexivity|reflexivity].
  rewrite Hdrv. replace (set_env (st_env s) (set_env (wlocked pkg_mu (st_env s)) s)) with s by now destruct s.
  unfold bind at 1. replace (executor.New s) with (Done e, s1) by reflexivity. cbv iota beta. unfold bind at 1, executor.Do.
  pose proof (primary_closure_run d (dv_handle dv) e (set_env (on_thread (Some e) (st_env s1)) s1) Hb1 Hb2 Hb3 eq_refl) as Hrun.
  cbv zeta in Hrun. change (st_world (set_env _ s1)) with (st_world s) in Hrun. fold k in Hrun.
  erewrite (DoCtx_run e 0 (primary_closure (Some d) (dv_handle dv)) s1); [|exact Hi|exact Hrun|reflexivity].
  cbn [fst snd]. destruct (primary_error k) as [er|] eqn:Her; cbn [is_nil].
  - set (s2 := set_env _ _). assert (Hx2 : unlocked (e, ExecMu) s2) by exact Hx. assert (Hi2 : idle e s2) by exact Hi.
    unfold bind at 1. rewrite Close_idle; [|exact Hi2|cbn; now rewrite lookup_insert_eq|exact Hx2].
    eexists _, _, _. split; [reflexivity|]. split; [done|]. split; [reflexivity|]. split; [reflexivity|].
    split_and!; [done|unfold closed_exec; cbn; rewrite !lookup_insert_eq; reflexivity|]. 
    intros H0. unfold primary_error in Her. subst k. unfold primary_outcome in *. clear Hrun.
    destruct (Sys (Some e) (CuDevicePrimaryCtxRetain (dv_handle dv)) (st_world s)) as [[c1 raw] w1].
    destruct (Z.eqb_spec c1 0) as [->|Hc1]; [|now cbn in H0].
    destruct (Sys (Some e) (CuCtxSetCurrent raw) w1) as [r2 w2]. destruct (Z.eqb_spec r2.1 0) as [E2|E2].
    + cbn [pc_retain pc_bind] in Her. rewrite E2, !check_success in Her. discriminate.
    + destruct (Sys (Some e) (CuDevicePrimaryCtxRelease (dv_handle dv)) w2) as [r3 w3]. left.
  - set (s2 := set_env _ _). unfold bind at 1. replace (new_loc s2) with (Done (Pos.succ e), set_next (Pos.succ (Pos.succ e)) s2) by reflexivity.
    cbv iota beta. eexists _, _, _. split; [reflexivity|]. split; [done|]. split; [reflexivity|]. split; [reflexivity|].
    split; [done|]. split.
    + cbn. intros Hin. apply (fr_closed s Hfr) in Hin. cbn in Hin. lia.
    + exact (proj1 (fresh_unlocked s (Pos.succ e) OpMu Hfr ltac:(lia))).
    + cbn. now rewrite lookup_insert_eq.
    + cbn. now rewrite lookup_insert_eq.
    + exact Hi.
Qed.

End ContextProps.
