(* ===== verification/Completion.v ===== *)
(** * The result handshake of the executor (internal/executor: completion)

    A submission is answered through a [completion]: a channel of capacity one and an atomic state.
    The worker sends the result and calls [delivered]; the caller either receives it and calls
    [received], or gives up and calls [abandon].  Either side can finish first, and the side that
    finds the other's mark gives the completion back to the pool.  Worker and caller are interleaved
    step by step: one step is one channel operation or one atomic swap. *)

From S2P Require Import Prelude.

Module Completion.

Inductive completionState := completionWaiting | completionAbandoned | completionReceived | completionDelivered.

#[export] Instance completionState_eq_dec : EqDecision completionState.
Proof. solve_decision. Defined.

Section Handshake.
Variable V : Type.

(** Where the worker is in [runTask]: before the send, before the swap of [delivered], before its receive,
    returning from [delivered] with a result, and past its use of the completion. *)
Inductive worker := WSend (v : V) | WSwap | WTake | WReturn (recycle : bool) | WDone.

(** Where the caller is in [DoJob]/[DoJobCtx]: waiting, in [received] with the value it took (before the swap, after
    it), in [abandon] (before the swap, before its receive, returning), and returned, with a value or
    with the error of its context. *)
Inductive caller :=
| CWait
| CReceived (v : V)
| CReturn (v : V) (recycle : bool)
| CAbandon
| CTake
| CCancel (recycle : bool)
| CDone (r : option V).

(** [result]: the content of the channel; [pooled]: how often the completion was put back. *)
Record st := mkSt {
  result : option V;
  state : completionState;
  wk : worker;
  cl : caller;
  cancellable : bool;
  pooled : nat
}.

(** [recycleCompletion]. *)
Definition recycleCompletion (s : st) : st :=
  mkSt (result s) completionWaiting (wk s) (cl s) (cancellable s) (S (pooled s)).

Definition set_wk (w : worker) (s : st) : st := mkSt (result s) (state s) w (cl s) (cancellable s) (pooled s).
Definition set_cl (c : caller) (s : st) : st := mkSt (result s) (state s) (wk s) c (cancellable s) (pooled s).

(** [c.state.Swap]. *)
Definition swap (x : completionState) (s : st) : completionState * st :=
  (state s, mkSt (result s) x (wk s) (cl s) (cancellable s) (pooled s)).

Definition set_result (r : option V) (s : st) : st :=
  mkSt r (state s) (wk s) (cl s) (cancellable s) (pooled s).

(** One step of [runTask] after the job has run: send, then [delivered], then maybe [recycleCompletion].
    None: blocked or finished. *)
Definition worker_step (s : st) : option st :=
  match wk s with
  | WSend v => match result s with
               | None => Some (set_wk WSwap (set_result (Some v) s))
               | Some _ => None
               end
  | WSwap =>
      let '(previous, s) := swap completionDelivered s in
      Some (set_wk (if decide (previous = completionAbandoned) then WTake
                    else WReturn (bool_decide (previous <> completionWaiting))) s)
  | WTake => match result s with
             | Some _ => Some (set_wk (WReturn true) (set_result None s))
             | None => None
             end
  | WReturn r => Some (set_wk WDone (if r then recycleCompletion s else s))
  | WDone => None
  end.

(** One step of a waiting caller. *)
Definition caller_step (s : st) : option st :=
  match cl s with
  | CWait => match result s with
             | Some v => Some (set_cl (CReceived v) (set_result None s))
             | None => None
             end
  | CReceived v =>
      let '(previous, s) := swap completionReceived s in
      Some (set_cl (CReturn v (bool_decide (previous = completionDelivered))) s)
  | CReturn v r => Some (set_cl (CDone (Some v)) (if r then recycleCompletion s else s))
  | CAbandon =>
      let '(previous, s) := swap completionAbandoned s in
      Some (set_cl (if decide (previous <> completionDelivered) then CCancel false else CTake) s)
  | CTake => match result s with
             | Some _ => Some (set_cl (CCancel true) (set_result None s))
             | None => None
             end
  | CCancel r => Some (set_cl (CDone None) (if r then recycleCompletion s else s))
  | CDone _ => None
  end.

(** [case <-ctx.Done()]: only [DoJobCtx] has it. *)
Definition cancel_step (s : st) : option st :=
  match cl s with
  | CWait => if cancellable s then Some (set_cl CAbandon s) else None
  | _ => None
  end.

Definition step (s s' : st) : Prop :=
  worker_step s = Some s' \/ caller_step s = Some s' \/ cancel_step s = Some s'.

(** A completion fresh from the pool, a worker about to deliver [v] and a caller waiting. *)
Definition start (v : V) (c : bool) : st := mkSt None completionWaiting (WSend v) CWait c 0.

Definition handshake (v : V) : Machine :=
  {| m_state := st; m_init s := s = start v true \/ s = start v false; m_step := step |}.

(** ** The invariant

    Which combinations of positions, state and channel content can occur: the result is in the channel from the
    send to the one receive, each side's mark is what the other side left, and exactly one side sees
    the other's mark. *)
Definition inv (v : V) (s : st) : Prop :=
  match wk s, cl s with
  | WSend x, CWait => x = v /\ result s = None /\ state s = completionWaiting /\ pooled s = 0%nat
  | WSend x, CAbandon => x = v /\ result s = None /\ state s = completionWaiting /\ pooled s = 0%nat
  | WSend x, (CCancel false | CDone None) => x = v /\ result s = None /\ state s = completionAbandoned /\ pooled s = 0%nat
  | WSwap, (CWait | CAbandon) => result s = Some v /\ state s = completionWaiting /\ pooled s = 0%nat
  | WSwap, CReceived x => x = v /\ result s = None /\ state s = completionWaiting /\ pooled s = 0%nat
  | WSwap, (CReturn x false | CDone (Some x)) => x = v /\ result s = None /\ state s = completionReceived /\ pooled s = 0%nat
  | WSwap, (CCancel false | CDone None) => result s = Some v /\ state s = completionAbandoned /\ pooled s = 0%nat
  | WTake, (CCancel false | CDone None) => result s = Some v /\ state s = completionDelivered /\ pooled s = 0%nat
  | WReturn true, (CCancel false | CDone None) => result s = None /\ state s = completionDelivered /\ pooled s = 0%nat
  | WReturn true, (CReturn x false | CDone (Some x)) => x = v /\ result s = None /\ state s = completionDelivered /\ pooled s = 0%nat
  | (WReturn false | WDone), (CWait | CAbandon | CTake) =>
      result s = Some v /\ pooled s = 0%nat /\
      state s = (match cl s with CTake => completionAbandoned | _ => completionDelivered end)
  | (WReturn false | WDone), CReceived x => x = v /\ result s = None /\ state s = completionDelivered /\ pooled s = 0%nat
  | (WReturn false | WDone), CReturn x true => x = v /\ result s = None /\ state s = completionReceived /\ pooled s = 0%nat
  | (WReturn false | WDone), CCancel true => result s = None /\ state s = completionAbandoned /\ pooled s = 0%nat
  | WDone, (CReturn x false) => x = v /\ result s = None /\ state s = completionWaiting /\ pooled s = 1%nat
  | WDone, (CCancel false) => result s = None /\ state s = completionWaiting /\ pooled s = 1%nat
  | WReturn false, CDone r =>
      result s = None /\ state s = completionWaiting /\ pooled s = 1%nat /\ (r = None \/ r = Some v)
  | WDone, CDone r =>
      result s = None /\ state s = completionWaiting /\ pooled s = 1%nat /\ (r = None \/ r = Some v)
  | _, _ => False
  end.

(** How many steps are left at most. *)
Definition worker_left (w : worker) : nat :=
  match w with WSend _ => 4 | WSwap => 3 | WTake => 2 | WReturn _ => 1 | WDone => 0 end.
Definition caller_left (c : caller) : nat :=
  match c with
  | CWait => 4 | CReceived _ => 2 | CReturn _ _ => 1 | CAbandon => 3 | CTake => 2 | CCancel _ => 1 | CDone _ => 0
  end.
Definition measure (s : st) : nat := (worker_left (wk s) + caller_left (cl s))%nat.

Lemma worker_step_frame s s' :
  worker_step s = Some s' ->
  cl s' = cl s /\ cancellable s' = cancellable s /\ (worker_left (wk s') < worker_left (wk s))%nat.
Proof.
  destruct s as [r x w c k n]. unfold worker_step, swap. cbn. intros Hs.
  destruct w as [?| | |[]|]; try destruct r; try destruct x; simplify_eq/=; split_and!; auto; lia.
Qed.

Lemma caller_step_frame s s' :
  caller_step s = Some s' ->
  wk s' = wk s /\ cancellable s' = cancellable s /\ (caller_left (cl s') < caller_left (cl s))%nat /\
  ((forall x, cl s' <> CDone (Some x)) -> (cl s' = CWait \/ (exists x, cl s' = CReceived x) \/ (exists x y, cl s' = CReturn x y) \/ cl s = CAbandon \/ cl s = CTake \/ exists x, cl s = CCancel x)).
Proof.
  destruct s as [r x w c k n]. unfold caller_step, swap. cbn. intros Hs.
  destruct c as [|?|? []| | |[]|?]; try destruct r; try destruct x; simplify_eq/=; split_and!; eauto 10; try lia;
    intros Hn; destruct (Hn v eq_refl).
Qed.

(** Only a cancellable caller gives up. *)
Definition gave_up (s : st) : Prop :=
  match cl s with
  | CAbandon | CTake | CCancel _ | CDone None => cancellable s = true
  | _ => True
  end.

Lemma handshake_inv_start v c : inv v (start v c).
Proof. repeat split. Qed.

Lemma gave_up_step s s' : gave_up s -> step s s' -> gave_up s'.
Proof.
  unfold step, gave_up. intros Hg [Hs|[Hs|Hs]].
  - destruct (worker_step_frame s s' Hs) as (-> & -> & _). exact Hg.
  - destruct (caller_step_frame s s' Hs) as (_ & -> & _ & Hc).
    destruct (cl s') as [| | | | | |[x|]]; auto; (destruct Hc as [Hc|[[? Hc]|[(? & ? & Hc)|[Hc|[Hc|[? Hc]]]]]];
      [discriminate|try discriminate|try discriminate|try discriminate|now rewrite Hc in Hg..]).
  - unfold cancel_step in Hs. destruct (cl s) eqn:Hc; try discriminate.
    destruct (cancellable s) eqn:Hk; simplify_eq/=. exact Hk.
Qed.

Lemma handshake_inv_step v s s' : inv v s -> step s s' -> inv v s'.
Proof.
  destruct s as [r x w c k n]. unfold step, worker_step, caller_step, cancel_step, inv. cbn.
  intros Hi [Hs|[Hs|Hs]];
    destruct w as [?| | |[]|], c as [|?|? []| | |[]|[?|]]; cbn in *; try done;
    repeat match goal with Hx : _ /\ _ |- _ => destruct Hx end; subst; cbn in *;
    try (destruct k); simplify_eq/=; auto 10.
Qed.

Lemma handshake_inv v s : reachable (handshake v) s -> inv v s.
Proof.
  apply (reachable_invariant (handshake v) (inv v)).
  - intros s0 [->| ->]; apply handshake_inv_start.
  - intros s1 s2. apply handshake_inv_step.
Qed.

Lemma handshake_measure s s' : step s s' -> (measure s' < measure s)%nat.
Proof.
  unfold step, measure. intros [Hs|[Hs|Hs]].
  - destruct (worker_step_frame s s' Hs) as (-> & _ & ?). lia.
  - destruct (caller_step_frame s s' Hs) as (-> & _ & ? & _). lia.
  - unfold cancel_step in Hs. destruct (cl s) eqn:Hc; try discriminate.
    destruct (cancellable s); simplify_eq/=. lia.
Qed.

(** ** Theorems *)

(** A side that will not touch the completion again. *)
Definition worker_idle (w : worker) : Prop :=
  match w with WDone | WReturn false => True | _ => False end.
Definition caller_idle (c : caller) : Prop :=
  match c with CDone _ | CCancel false | CReturn _ false => True | _ => False end.

(** C23.  In every interleaving of a worker delivering [v] with a caller that receives it or gives up,
    the completion is put back in the pool at most once, and when it has been put back its channel is empty,
    its state is [completionWaiting] as if new, and neither side has another operation on it to do (so the next
    submission that takes it from the pool cannot be disturbed). *)
Theorem completion_safe (v : V) (s : st) :
  reachable (handshake v) s ->
  (pooled s <= 1)%nat /\
  (pooled s = 1%nat ->
     result s = None /\ state s = completionWaiting /\ worker_idle (wk s) /\ caller_idle (cl s)).
Proof.
  intros Hr. apply handshake_inv in Hr. destruct s as [r x w c k n]. unfold inv in Hr. cbn in *.
  destruct w as [?| | |[]|], c as [|?|? []| | |[]|[]]; cbn in Hr |- *; try contradiction;
    repeat match goal with Hx : _ /\ _ |- _ => destruct Hx end; subst; (split; [lia|intros Hn]); try discriminate;
    repeat split; assumption || reflexivity.
Qed.

Lemma gave_up_reachable v s : reachable (handshake v) s -> gave_up s.
Proof.
  apply (reachable_invariant (handshake v) gave_up); [intros s0 [->| ->]; exact I|].
  intros s1 s2. apply gave_up_step.
Qed.

(** A reachable state in which one side is not done has a step. *)
Lemma progress v s :
  inv v s -> worker_step s = None -> caller_step s = None -> wk s = WDone /\ exists r, cl s = CDone r.
Proof.
  destruct s as [r x w c k n]. unfold inv, worker_step, caller_step. cbn. intros Hi Hw Hc.
  destruct w as [?| | |[]|], c as [|?|? []| | |[]|[]]; cbn in *; try contradiction; try discriminate;
    repeat match goal with Hx : _ /\ _ |- _ => destruct Hx end; subst; cbn in *; try discriminate; eauto.
Qed.

(** C34.  No interleaving gets stuck and none runs forever: every step makes a measure smaller, and a reachable state
    without a step is one where both sides are done; then the completion has been put back exactly once,
    with an empty channel, and the caller has the worker's value or, only if its context could be cancelled, its
    context's error. *)
Theorem completion_terminates (v : V) (s : st) :
  reachable (handshake v) s ->
  (forall s', step s s' -> (measure s' < measure s)%nat) /\
  ((forall s', ~ step s s') ->
     wk s = WDone /\ pooled s = 1%nat /\ result s = None /\ state s = completionWaiting /\
     (cl s = CDone (Some v) \/ (cl s = CDone None /\ cancellable s = true))).
Proof.
  intros Hr. split; [apply handshake_measure|]. intros Hstuck.
  pose proof (gave_up_reachable v s Hr) as Hg. pose proof (handshake_inv v s Hr) as Hi.
  destruct (progress v s Hi) as [Hw [r Hc]].
  { destruct (worker_step s) as [s'|] eqn:E; [|done]. destruct (Hstuck s'). now left. }
  { destruct (caller_step s) as [s'|] eqn:E; [|done]. destruct (Hstuck s'). right. now left. }
  unfold inv in Hi. unfold gave_up in Hg. rewrite Hw, Hc in *.
  destruct r as [x|]; destruct Hi as (H1 & H2 & H3 & [H4|H4]); split_and!; auto; try discriminate.
  left. congruence.
Qed.

End Handshake.
End Completion.
