(* ===== verification/Executor.v ===== *)
(** * The executor's queue and its close protocol (internal/executor), all interleavings

    Any number of goroutines submit jobs while another closes the executor and the worker runs.  A
    step is one channel operation, one lock operation or one flag access of one of them; the state
    says where each of them is in [submit], [Close], [run], [drain] or [finishThread].  The lock is
    Go's: an announced writer keeps new readers out. *)

From S2P Require Import Prelude.

Module Protocol.

(** ** Spinning (pure) *)

Definition workerSpin : nat := 4096.
Definition callerSpin : nat := 4096.
Definition multiPSpinYieldEvery : Z := 128.

Definition spinYieldEveryFor (procs : Z) : Z :=
  if procs <=? 1 then 1 else multiPSpinYieldEvery.

(** [spins % every] of Go: truncated; a zero divisor panics (None). *)
Definition shouldYield (spins every : Z) : option bool :=
  if 0 <? spins then (if every =? 0 then None else Some (Z.rem spins every =? 0)) else Some false.

Section Executor.
Variable J : Type.

(** [submit]: before [RLock], before the test of [closed], at the select, before [RUnlock] (accepted or not), returned. *)
Inductive sub_pc := SStart | SLocked | SSelect | SUnlock (accepted : bool) | SEnd (accepted : bool).

Record sub := mkSub { sub_job : J; sub_cancellable : bool; sub_at : sub_pc }.

(** [Close]: not called, called, waiting for the lock, holding it (before [closed = true], before [close(quit)],
    before [Unlock]), waiting for [done], returned. *)
Inductive close_pc := KNone | KStart | KWait | KLocked | KFlagged | KQuit | KAwait | KReturned.

(** [run]: polling with some spins left, parked, running a job, in [drain], running a job there, in [finishThread], finished. *)
Inductive worker_pc := WPoll (spin : nat) | WPark | WRun (j : J) | WDrain | WDrainRun (j : J) | WFinish | WDone.

(** The pinned thread: in use, given back, or parked for good. *)
Inductive thread := TLocked | TUnlocked | TQuarantined.

Record st := mkSt {
  subs : list sub;
  closer : close_pc;
  worker : worker_pc;
  tasks : list J;
  closed : bool;
  quit : bool;
  done : bool;
  retire : bool;
  os_thread : thread;
  accepted : list J;
  executed : list J
}.

(** [New], with the goroutines that are going to submit, and one that may close. *)
Definition start (js : list (J * bool)) (closing : bool) : st :=
  mkSt (map (fun j => mkSub j.1 j.2 SStart) js) (if closing then KStart else KNone) (WPoll 0) []
    false false false false TLocked [] [].

(** Holding [mu] for reading. *)
Definition reading (p : sub_pc) : bool :=
  match p with SLocked | SSelect | SUnlock _ => true | _ => false end.

(** [RLock] does not block: no writer holds the lock or waits for it. *)
Definition rlock_free (s : st) : bool :=
  match closer s with KNone | KStart | KAwait | KReturned => true | _ => false end.

Definition no_readers (s : st) : Prop := Forall (fun x => reading (sub_at x) = false) (subs s).

Definition set_sub (i : nat) (x : sub) (p : sub_pc) (s : st) : st :=
  mkSt (<[i := mkSub (sub_job x) (sub_cancellable x) p]> (subs s)) (closer s) (worker s) (tasks s)
    (closed s) (quit s) (done s) (retire s) (os_thread s) (accepted s) (executed s).

Definition set_closer (k : close_pc) (s : st) : st :=
  mkSt (subs s) k (worker s) (tasks s) (closed s) (quit s) (done s) (retire s) (os_thread s) (accepted s) (executed s).

Definition set_worker (w : worker_pc) (q : list J) (ex : list J) (s : st) : st :=
  mkSt (subs s) (closer s) w q (closed s) (quit s) (done s) (retire s) (os_thread s) (accepted s) ex.

(** ** The steps *)

(** [submit]. *)
Inductive sub_step (s : st) : st -> Prop :=
| sub_ctx_err i x :
    subs s !! i = Some x -> sub_at x = SStart -> sub_cancellable x = true ->
    sub_step s (set_sub i x (SEnd false) s)
| sub_rlock i x :
    subs s !! i = Some x -> sub_at x = SStart -> rlock_free s = true ->
    sub_step s (set_sub i x SLocked s)
| sub_closed i x :
    subs s !! i = Some x -> sub_at x = SLocked -> closed s = true ->
    sub_step s (set_sub i x (SUnlock false) s)
| sub_open i x :
    subs s !! i = Some x -> sub_at x = SLocked -> closed s = false ->
    sub_step s (set_sub i x SSelect s)
| sub_send i x :
    subs s !! i = Some x -> sub_at x = SSelect -> tasks s = [] ->
    sub_step s (set_sub i x (SUnlock true)
      (mkSt (subs s) (closer s) (worker s) [sub_job x] (closed s) (quit s) (done s) (retire s) (os_thread s)
        (accepted s ++ [sub_job x]) (executed s)))
| sub_ctx_done i x :
    subs s !! i = Some x -> sub_at x = SSelect -> sub_cancellable x = true ->
    sub_step s (set_sub i x (SUnlock false) s)
| sub_exec_done i x :
    subs s !! i = Some x -> sub_at x = SSelect -> done s = true ->
    sub_step s (set_sub i x (SUnlock false) s)
| sub_runlock i x a :
    subs s !! i = Some x -> sub_at x = SUnlock a ->
    sub_step s (set_sub i x (SEnd a) s).

(** [Close], inside [closeOnce]. *)
Inductive close_step (s : st) : st -> Prop :=
| close_begin : closer s = KStart -> close_step s (set_closer KWait s)
| close_lock : closer s = KWait -> no_readers s -> close_step s (set_closer KLocked s)
| close_flag : closer s = KLocked ->
    close_step s (mkSt (subs s) KFlagged (worker s) (tasks s) true (quit s) (done s) (retire s) (os_thread s) (accepted s) (executed s))
| close_quit : closer s = KFlagged ->
    close_step s (mkSt (subs s) KQuit (worker s) (tasks s) (closed s) true (done s) (retire s) (os_thread s) (accepted s) (executed s))
| close_unlock : closer s = KQuit -> close_step s (set_closer KAwait s)
| close_done : closer s = KAwait -> done s = true -> close_step s (set_closer KReturned s).

(** [run], [drain], [finishThread]; where several cases of a select are ready any of them may be taken. *)
Inductive worker_step (s : st) : st -> Prop :=
| run_take j q n :
    worker s = WPoll n \/ worker s = WPark -> tasks s = j :: q ->
    worker_step s (set_worker (WRun j) q (executed s) s)
| run_quit n :
    worker s = WPoll n \/ worker s = WPark -> quit s = true ->
    worker_step s (set_worker WDrain (tasks s) (executed s) s)
| run_spin n :
    worker s = WPoll (S n) -> tasks s = [] -> quit s = false ->
    worker_step s (set_worker (WPoll n) (tasks s) (executed s) s)
| run_park :
    worker s = WPoll 0 -> tasks s = [] -> quit s = false ->
    worker_step s (set_worker WPark (tasks s) (executed s) s)
| run_ran j :
    worker s = WRun j ->
    worker_step s (set_worker (WPoll workerSpin) (tasks s) (executed s ++ [j]) s)
| drain_take j q :
    worker s = WDrain -> tasks s = j :: q ->
    worker_step s (set_worker (WDrainRun j) q (executed s) s)
| drain_ran j :
    worker s = WDrainRun j ->
    worker_step s (set_worker WDrain (tasks s) (executed s ++ [j]) s)
| drain_empty :
    worker s = WDrain -> tasks s = [] ->
    worker_step s (set_worker WFinish (tasks s) (executed s) s)
| finish_thread :
    worker s = WFinish ->
    worker_step s (mkSt (subs s) (closer s) WDone (tasks s) (closed s) (quit s) true (retire s)
      (if retire s then TQuarantined else TUnlocked) (accepted s) (executed s)).

(** [Retire]. *)
Definition retired (s : st) : st :=
  mkSt (subs s) (closer s) (worker s) (tasks s) (closed s) (quit s) (done s) true (os_thread s) (accepted s) (executed s).

Inductive step (s : st) : st -> Prop :=
| step_sub s' : sub_step s s' -> step s s'
| step_close s' : close_step s s' -> step s s'
| step_worker s' : worker_step s s' -> step s s'
| step_retire : retire s = false -> step s (retired s).

Definition executor (js : list (J * bool)) (closing : bool) : Machine :=
  {| m_state := st; m_init s := s = start js closing; m_step := step |}.

(** ** Invariants *)

Definition running (w : worker_pc) : list J :=
  match w with WRun j | WDrainRun j => [j] | _ => [] end.

(** The jobs whose submission was accepted. *)
Definition got_in (x : sub) : option J :=
  match sub_at x with SUnlock true | SEnd true => Some (sub_job x) | _ => None end.

(** Past the announcement of the close, past the flag, past [quit]. *)
Definition close_flagged (k : close_pc) : bool :=
  match k with KFlagged | KQuit | KAwait | KReturned => true | _ => false end.
Definition close_quitted (k : close_pc) : bool :=
  match k with KQuit | KAwait | KReturned => true | _ => false end.
Definition close_holding (k : close_pc) : bool :=
  match k with KLocked | KFlagged | KQuit => true | _ => false end.
Definition draining (w : worker_pc) : bool :=
  match w with WDrain | WDrainRun _ | WFinish | WDone => true | _ => false end.
Definition finished (w : worker_pc) : bool :=
  match w with WFinish | WDone => true | _ => false end.

Record inv (s : st) : Prop := mkInv {
  inv_fifo : accepted s = executed s ++ running (worker s) ++ tasks s;
  inv_cap : (length (tasks s) <= 1)%nat;
  inv_perm : Permutation (accepted s) (omap got_in (subs s));
  inv_closed : closed s = close_flagged (closer s);
  inv_quit : quit s = close_quitted (closer s);
  inv_excl : close_holding (closer s) = true -> no_readers s;
  inv_select : closed s = true -> Forall (fun x => sub_at x <> SSelect) (subs s);
  inv_drain : draining (worker s) = true -> quit s = true;
  inv_finish : finished (worker s) = true -> tasks s = [];
  inv_done : done s = true <-> worker s = WDone;
  inv_returned : closer s = KReturned -> done s = true;
  inv_thread : os_thread s = TLocked <-> worker s <> WDone
}.

(** A goroutine's place in the list. *)
Lemma sub_split (l : list sub) i x :
  l !! i = Some x -> exists l1 l2, l = l1 ++ x :: l2 /\ forall y, <[i := y]> l = l1 ++ y :: l2.
Proof.
  intros Hi. exists (take i l), (drop (S i) l). split; [symmetry; now apply take_drop_middle|].
  intros y. apply insert_take_drop. now apply lookup_lt_Some with x.
Qed.

Lemma got_in_middle l1 l2 x y :
  got_in x = None -> got_in y = None -> omap got_in (l1 ++ y :: l2) = omap got_in (l1 ++ x :: l2).
Proof. intros Hx Hy. rewrite !omap_app. cbn. now rewrite Hx, Hy. Qed.

Lemma got_in_same l1 l2 x y :
  got_in y = got_in x -> omap got_in (l1 ++ y :: l2) = omap got_in (l1 ++ x :: l2).
Proof. intros Hx. rewrite !omap_app. cbn. now rewrite Hx. Qed.

Ltac split_list :=
  match goal with
  | Hi : subs ?s !! ?i = Some ?x |- _ =>
      let l1 := fresh "l1" in let l2 := fresh "l2" in let Hl := fresh "Hl" in let Hins := fresh "Hins" in
      destruct (sub_split (subs s) i x Hi) as (l1 & l2 & Hl & Hins)
  end.

(** The invariant under a move of one goroutine that changes neither the queue nor the log. *)
Lemma inv_set_sub s i x p :
  inv s -> subs s !! i = Some x ->
  got_in (mkSub (sub_job x) (sub_cancellable x) p) = got_in x ->
  (reading p = true -> reading (sub_at x) = true \/ close_holding (closer s) = false) ->
  (p = SSelect -> closed s = false) ->
  inv (set_sub i x p s).
Proof.
  intros [F C P K Q E S D I N R T] Hi Hg Hr Hs. split_list.
  assert (Hnr : close_holding (closer s) = true -> no_readers (set_sub i x p s)).
  { intros Hk. specialize (E Hk). unfold no_readers, set_sub in *. cbn. rewrite Hins. rewrite Hl in E.
    apply Forall_app in E as [E1 E2]. apply Forall_cons in E2 as [E2 E3].
    apply Forall_app; split; [done|]. apply Forall_cons; split; [|done]. cbn.
    destruct (reading p); [|done]. destruct (Hr eq_refl); congruence. }
  assert (Hsel : closed s = true -> Forall (fun x => sub_at x <> SSelect) (subs (set_sub i x p s))).
  { intros Hk. specialize (S Hk). unfold set_sub. cbn. rewrite Hins. rewrite Hl in S.
    apply Forall_app in S as [E1 E2]. apply Forall_cons in E2 as [E2 E3].
    apply Forall_app; split; [done|]. apply Forall_cons; split; [|done]. cbn. intros ->.
    rewrite (Hs eq_refl) in Hk. discriminate. }
  split; cbn; try assumption. rewrite Hins, (got_in_same l1 l2 x) by exact Hg. now rewrite <- Hl.
Qed.

Lemma holding_free s : rlock_free s = true -> close_holding (closer s) = false.
Proof. unfold rlock_free. now destruct (closer s). Qed.

Lemma inv_sub_step s s' : inv s -> sub_step s s' -> inv s'.
Proof.
  intros HI Hs. destruct Hs as [i x Hi Ha Hc|i x Hi Ha Hf|i x Hi Ha Hc|i x Hi Ha Hc|i x Hi Ha Ht|i x Hi Ha Hc|i x Hi Ha Hd|i x a Hi Ha].
  1-4,6-8: apply inv_set_sub; try assumption; try discriminate;
    try (unfold got_in; cbn; rewrite Ha; now try destruct a); rewrite ?Ha; auto.
  - intros _. right. now apply holding_free.
  - destruct HI as [F C P K Q E S D I N R T].
    assert (Hk : closed s = false).
    { destruct (closed s) eqn:Hc; [|done]. specialize (S eq_refl). split_list. rewrite Hl in S.
      apply Forall_app in S as [_ S]. apply Forall_cons in S as [S _]. contradiction. }
    assert (Hq : quit s = false). { rewrite Q. rewrite K in Hk. now destruct (closer s). }
    assert (Hdr : draining (worker s) = false). { destruct (draining (worker s)); [|done]. specialize (D eq_refl). congruence. }
    split_list. split; cbn; try assumption.
    + rewrite F, Ht, app_nil_r. now rewrite !app_assoc.
    + lia.
    + rewrite Hins. rewrite Hl in P. rewrite omap_app in *. cbn in *.
      assert (Hx : got_in x = None) by (unfold got_in; now rewrite Ha). rewrite Hx in P. rewrite P.
      etransitivity; [symmetry; apply Permutation_cons_append|]. apply Permutation_middle.
    + intros Hh. exfalso. specialize (E Hh). unfold no_readers in E. rewrite Hl in E.
      apply Forall_app in E as [_ E]. apply Forall_cons in E as [E _]. rewrite Ha in E. discriminate.
    + rewrite Hk. discriminate.
    + intros Hfi. destruct (worker s); discriminate.
Qed.

Lemma inv_close_step s s' : inv s -> close_step s s' -> inv s'.
Proof.
  intros [F C P K Q E S D I N R T] Hs. destruct Hs as [Hk|Hk Hn|Hk|Hk|Hk|Hk Hd]; rewrite Hk in *; cbn in *;
    split; cbn; try assumption; try discriminate; auto.
  - intros _. specialize (E eq_refl). unfold no_readers in E. eapply Forall_impl; [exact E|].
    intros y Hy Hys. cbn in Hy. rewrite Hys in Hy. discriminate.
Qed.

Lemma inv_worker_step s s' : inv s -> worker_step s s' -> inv s'.
Proof.
  intros [F C P K Q E S D I N R T] Hs.
  destruct Hs as [j q n Hw Ht|n Hw Hq|n Hw Ht Hq|Hw Ht Hq|j Hw|j q Hw Ht|j Hw|Hw Ht|Hw];
    (split; cbn; try assumption; try discriminate).
  all: try (destruct Hw as [Hw|Hw]).
  all: try rewrite Hw in *; cbn in *; try rewrite Ht in *; cbn in *.
  all: try (rewrite F; rewrite ?app_nil_r, <- ?app_assoc; reflexivity).
  all: try (split; [intros Hx; apply N in Hx; discriminate|discriminate]).
  all: try (split; [discriminate|intros Hx; apply T in Hx; discriminate]).
  all: try (split; [intros _; discriminate|intros _; apply T; discriminate]).
  all: auto; try lia.
  - now split.
  - destruct (retire s); (split; [intros Hx; discriminate Hx|congruence]).
Qed.

Lemma inv_start js c : inv (start js c).
Proof.
  split; cbn; try done; try (now destruct c); try lia.
  - induction js; cbn; [done|]. exact IHjs.
Qed.

Lemma inv_step s s' : inv s -> step s s' -> inv s'.
Proof.
  intros HI [x Hx|x Hx|x Hx|Hr].
  - eauto using inv_sub_step.
  - eauto using inv_close_step.
  - eauto using inv_worker_step.
  - now destruct HI.
Qed.

Lemma inv_reachable js c s : reachable (executor js c) s -> inv s.
Proof.
  apply (reachable_invariant (executor js c) inv); [intros s0 ->; apply inv_start|intros s1 s2; apply inv_step].
Qed.

(** ** Termination and progress *)

(** An upper bound on the steps each part can still make; a job not yet run costs the worker its spins. *)
#[local] Arguments workerSpin : simpl never.

Definition job_cost : nat := (workerSpin + 100)%nat.
#[local] Arguments job_cost : simpl never.

Definition pc_left (p : sub_pc) : nat :=
  match p with
  | SStart => job_cost + 4 | SLocked => job_cost + 3 | SSelect => job_cost + 2 | SUnlock _ => 1 | SEnd _ => 0
  end.
Definition sub_left (x : sub) : nat := pc_left (sub_at x).
Definition close_left (k : close_pc) : nat :=
  match k with
  | KStart => 6 | KWait => 5 | KLocked => 4 | KFlagged => 3 | KQuit => 2 | KAwait => 1 | KNone | KReturned => 0
  end.
Definition worker_left (w : worker_pc) : nat :=
  match w with
  | WRun _ => workerSpin + 10 | WPoll n => n + 6 | WPark => 5 | WDrainRun _ => 4 | WDrain => 3 | WFinish => 2
  | WDone => 0
  end.
Definition measure (s : st) : nat :=
  (sum_list (map sub_left (subs s)) + close_left (closer s) + worker_left (worker s) +
   job_cost * length (tasks s) + (if retire s then 0 else 1))%nat.

Lemma sum_middle l1 l2 x y :
  (sum_list (map sub_left (l1 ++ y :: l2)) + sub_left x = sum_list (map sub_left (l1 ++ x :: l2)) + sub_left y)%nat.
Proof. induction l1; cbn; lia. Qed.

Lemma step_measure s s' : step s s' -> (measure s' < measure s)%nat.
Proof.
  unfold measure. intros [x Hs|x Hs|x Hs|Hr].
  - destruct Hs as [i x Hi Ha Hc|i x Hi Ha Hf|i x Hi Ha Hc|i x Hi Ha Hc|i x Hi Ha Ht|i x Hi Ha Hc|i x Hi Ha Hd|i x a Hi Ha];
      destruct (sub_split (subs s) i x Hi) as (l1 & l2 & Hl & Hins); cbn; rewrite Hins, Hl;
      match goal with |- context [mkSub ?j ?c ?p] =>
        pose proof (sum_middle l1 l2 x (mkSub j c p)) as Hsum;
        change (sub_left (mkSub j c p)) with (pc_left p) in Hsum end;
      change (sub_left x) with (pc_left (sub_at x)) in Hsum; rewrite Ha in Hsum; cbn [pc_left] in Hsum;
      rewrite ?Ht; cbn [length]; unfold job_cost in *; lia.
  - destruct Hs as [Hk|Hk Hn|Hk|Hk|Hk|Hk Hd]; cbn; rewrite Hk; cbn; lia.
  - destruct Hs as [j q n Hw Ht|n Hw Hq|n Hw Ht Hq|Hw Ht Hq|j Hw|j q Hw Ht|j Hw|Hw Ht|Hw];
      try destruct Hw as [Hw|Hw]; cbn; rewrite Hw; cbn; rewrite ?Ht; cbn; unfold job_cost; lia.
  - cbn. rewrite Hr. lia.
Qed.

(** Every goroutine has finished: the submitters have returned, the close (if there is one) has returned, and the
    worker has finished, or is parked with nothing to do when nobody closes. *)
Definition settled (s : st) : Prop :=
  Forall (fun x => exists a, sub_at x = SEnd a) (subs s) /\ tasks s = [] /\
  ((closer s = KNone /\ worker s = WPark) \/ (closer s = KReturned /\ worker s = WDone)).

Section Stuck.
Variable s : st.
Hypothesis HI : inv s.
Hypothesis Hstuck : forall s', ~ step s s'.

Lemma stuck_worker : (worker s = WPark /\ tasks s = [] /\ quit s = false) \/ worker s = WDone.
Proof.
  assert (Hw : forall s', ~ worker_step s s') by (intros s' Hs; exact (Hstuck s' (step_worker s s' Hs))).
  destruct (worker s) as [n| |j| |j| |] eqn:E; [exfalso|left|exfalso..|now right].
  - destruct (tasks s) as [|j q] eqn:Ht; [|eapply Hw, (run_take s j q n); auto].
    destruct (quit s) eqn:Hq; [eapply Hw, (run_quit s n); auto|].
    destruct n; [eapply Hw, run_park; auto|eapply Hw, run_spin; eauto].
  - destruct (tasks s) as [|j q] eqn:Ht; [|exfalso; eapply Hw, (run_take s j q 0); auto].
    destruct (quit s) eqn:Hq; [exfalso; eapply Hw, (run_quit s 0); auto|]. now split_and!.
  - eapply Hw, run_ran; eauto.
  - destruct (tasks s) as [|j q] eqn:Ht; [eapply Hw, drain_empty; auto|eapply Hw, drain_take; eauto].
  - eapply Hw, drain_ran; eauto.
  - eapply Hw, finish_thread; eauto.
Qed.

Lemma stuck_closer :
  closer s = KNone \/ closer s = KReturned \/ (closer s = KWait /\ ~ no_readers s) \/ (closer s = KAwait /\ done s = false).
Proof.
  assert (Hc : forall s', ~ close_step s s') by (intros s' Hs; exact (Hstuck s' (step_close s s' Hs))).
  destruct (closer s) eqn:E; auto.
  - exfalso. eapply Hc, close_begin; auto.
  - right. right. left. split; [done|]. intros Hn. eapply Hc, close_lock; auto.
  - exfalso. eapply Hc, close_flag; auto.
  - exfalso. eapply Hc, close_quit; auto.
  - exfalso. eapply Hc, close_unlock; auto.
  - destruct (done s) eqn:Hd; [exfalso; eapply Hc, close_done; auto|auto].
Qed.

Lemma stuck_sub i x :
  subs s !! i = Some x ->
  (exists a, sub_at x = SEnd a) \/ (sub_at x = SStart /\ rlock_free s = false) \/
  (sub_at x = SSelect /\ tasks s <> [] /\ done s = false).
Proof.
  assert (Hc : forall s', ~ sub_step s s') by (intros s' Hs; exact (Hstuck s' (step_sub s s' Hs))).
  intros Hi. destruct (sub_at x) as [| | |a|a] eqn:E; [| | | |eauto].
  - right. left. split; [done|]. destruct (rlock_free s) eqn:Hr; [|done]. exfalso. eapply Hc, sub_rlock; eauto.
  - exfalso. destruct (closed s) eqn:Hk; [eapply Hc, sub_closed; eauto|eapply Hc, sub_open; eauto].
  - right. right. split; [done|]. split.
    + intros Ht. eapply Hc, sub_send; eauto.
    + destruct (done s) eqn:Hd; [|done]. exfalso. eapply Hc, sub_exec_done; eauto.
  - exfalso. eapply Hc, sub_runlock; eauto.
Qed.

Lemma subs_ended :
  rlock_free s = true -> (tasks s = [] \/ done s = true) -> Forall (fun x => exists a, sub_at x = SEnd a) (subs s).
Proof.
  intros Hr Ht. apply Forall_lookup. intros i x Hi. destruct (stuck_sub i x Hi) as [?|[[_ Hf]|(_ & H1 & H2)]]; auto.
  - congruence.
  - destruct Ht; congruence.
Qed.

Lemma stuck_settled : settled s.
Proof.
  unfold settled. destruct stuck_worker as [(Hw & Ht & Hq)|Hw].
  - assert (Hn : no_readers s).
    { apply Forall_lookup. intros i x Hi. destruct (stuck_sub i x Hi) as [[a ->]|[[-> _]|(_ & H1 & _)]]; congruence || done. }
    pose proof (inv_quit s HI) as Q. rewrite Hq in Q.
    destruct stuck_closer as [Hc|[Hc|[[Hc Hnn]|[Hc _]]]]; rewrite ?Hc in Q; try discriminate; [|contradiction].
    split_and!; auto. apply subs_ended; [unfold rlock_free; now rewrite Hc|auto].
  - assert (Hd : done s = true) by now apply (inv_done s HI).
    assert (Ht : tasks s = []) by (apply (inv_finish s HI); now rewrite Hw).
    assert (Hq : quit s = true) by (apply (inv_drain s HI); now rewrite Hw).
    rewrite (inv_quit s HI) in Hq.
    destruct stuck_closer as [Hc|[Hc|[[Hc _]|[_ Hd']]]]; rewrite ?Hc in Hq; try discriminate; [|congruence].
    split_and!; auto. apply subs_ended; [unfold rlock_free; now rewrite Hc|auto].
Qed.

End Stuck.

(** ** Theorems *)

(** C4.  In every interleaving the worker has run a prefix of the jobs that were accepted, in the order of
    acceptance, each once; at most one more is running and at most one more is in the channel; and the jobs accepted are, as a multiset,
    those of the submitters whose [submit] succeeded.  When [Close] has returned every accepted job has been
    run, and none can be accepted any more. *)
Theorem executor_fifo (js : list (J * bool)) (c : bool) (s : st) :
  reachable (executor js c) s ->
  accepted s = executed s ++ running (worker s) ++ tasks s /\ (length (tasks s) <= 1)%nat /\
  Permutation (accepted s) (omap got_in (subs s)) /\
  (closer s = KReturned ->
     executed s = accepted s /\ Permutation (executed s) (omap got_in (subs s)) /\
     forall s', step s s' -> accepted s' = accepted s).
Proof.
  intros Hr. apply inv_reachable in Hr. pose proof Hr as [F C P K Q E S D I N R T]. split_and!; try assumption.
  intros Hk. assert (Hw : worker s = WDone) by (apply N, R, Hk).
  assert (He : executed s = accepted s).
  { rewrite F, Hw, I by now rewrite Hw. cbn. now rewrite app_nil_r. }
  split_and!; [exact He|now rewrite He|].
  intros s' [x Hs|x Hs|x Hs|_]; [|now destruct Hs|now destruct Hs|done].
  destruct Hs as [| | | |i x Hi Ha Ht| | |]; try reflexivity. exfalso.
  assert (Hcl : closed s = true) by (rewrite K, Hk; reflexivity). specialize (S Hcl).
  rewrite Forall_lookup in S. exact (S i x Hi Ha).
Qed.

(** C29.  The executor cannot deadlock and [Close] returns.  Every step of every interleaving makes a
    measure smaller, so each run is finite; and a reachable state in which nothing can step is one where every
    submitter has returned, nothing is queued, and either [Close] has returned and the worker is finished, or
    nobody closed and the worker is parked idle. *)
Theorem executor_terminates (js : list (J * bool)) (c : bool) (s : st) :
  reachable (executor js c) s ->
  (forall s', step s s' -> (measure s' < measure s)%nat) /\ ((forall s', ~ step s s') -> settled s).
Proof. intros Hr. split; [apply step_measure|]. apply stuck_settled. now apply inv_reachable in Hr. Qed.

(** A retired executor's thread is never given back. *)
Lemma retired_step s s' :
  retire s = true -> os_thread s <> TUnlocked -> step s s' -> retire s' = true /\ os_thread s' <> TUnlocked.
Proof.
  intros Hr Ht [x Hs|x Hs|x Hs|_]; [now destruct Hs|now destruct Hs| |now split].
  destruct Hs; try (now split). cbn. rewrite Hr. now split.
Qed.

(** A thread marked unclean with [Retire] before its worker finished stays locked for the rest of the process: from no such
    state can it be unlocked for reuse, in any interleaving; if its worker finishes, it is quarantined. *)
Theorem retired_thread_quarantined (js : list (J * bool)) (c : bool) (s s' : st) :
  reachable (executor js c) s -> retire s = true -> worker s <> WDone -> rtc step s s' ->
  os_thread s' <> TUnlocked /\ (worker s' = WDone -> os_thread s' = TQuarantined).
Proof.
  intros Hr Hret Hw Hs.
  assert (Ht : os_thread s <> TUnlocked).
  { apply inv_reachable in Hr. apply (inv_thread s Hr) in Hw. congruence. }
  assert (Hr' : reachable (executor js c) s') by (eapply reachable_rtc; eauto).
  assert (Hs' : retire s' = true /\ os_thread s' <> TUnlocked).
  { apply (invariant_rtc step (fun x => retire x = true /\ os_thread x <> TUnlocked)) with s; auto.
    intros x y [H1 H2] Hxy. eauto using retired_step. }
  split; [apply Hs'|]. intros Hd. apply inv_reachable in Hr'. pose proof (inv_thread s' Hr') as T.
  destruct (os_thread s'); [|now destruct Hs'|reflexivity]. destruct (proj1 T eq_refl Hd).
Qed.

(** The spin loops never divide by zero: whatever [GOMAXPROCS] says, the yield interval is positive, so
    [shouldYield] never panics, and with one processor the loop yields at every iteration after the first. *)
Theorem spin_yield (procs spins : Z) :
  let every := spinYieldEveryFor procs in
  (every = 1 \/ every = 128) /\ shouldYield spins every <> None /\
  (procs <= 1 -> shouldYield spins every = Some (0 <? spins)) /\
  (1 < procs -> 0 < spins -> (shouldYield spins every = Some true <-> (128 | spins))).
Proof.
  unfold spinYieldEveryFor, shouldYield, multiPSpinYieldEvery. cbv zeta.
  destruct (Z.leb_spec procs 1); split_and!; auto; try lia; intros;
    destruct (Z.ltb_spec 0 spins); cbn; auto; try discriminate; try lia.
  - now rewrite Z.rem_1_r.
  - split; [intros [= Hx]|intros Hx].
    + apply Z.rem_divide; [lia|]. now apply Z.eqb_eq.
    + f_equal. apply Z.eqb_eq. now apply Z.rem_divide.
Qed.

End Executor.

End Protocol.
