(* ===== verification/ArgPack.v ===== *)
(** * Kernel argument storage (internal/argpack)

    A [Builder] keeps argument values in sixteen inline slots and, beyond them, in an arena that moves
    when it grows; the driver is given an array of pointers into both.  Memory is modelled with
    identities: a pointer is a slot of the builder or an offset in the arena of some generation, and
    only the arena of the current generation can be read, so that a stale pointer is visible as one. *)

From S2P Require Import Prelude Errors.

Module argpack.

Definition inlineArgs : nat := 16.
Definition spillAlign : Z := 8.
Definition minArenaCap : Z := 64.
Definition MaxRetainedSpillBytes : Z := 8192.

(** A [reflect.Type]: its identity.  A byte is a [Z]. *)
Record argMeta := mkMeta { am_offset : Z; am_size : Z; am_typ : option nat }.

Definition zeroMeta : argMeta := mkMeta 0 0 None.

(** A pointer to an argument: into the builder's inline values, or into the arena of a generation. *)
Inductive pointer := PInline (slot : nat) | PArena (generation : nat) (offset : Z).

(** [Builder].  [spill_mem] has the arena's capacity many bytes, of which [spill_len] are the slice [spillBuf];
    [generation] counts the arenas allocated so far (0: [spillBuf] is nil). *)
Record Builder := mkBuilder {
  inlineValues : list (list Z);
  inlinePointers : list (option pointer);
  inlineMeta : list argMeta;
  overflowMeta : list argMeta;
  count : nat;
  spill_mem : list Z;
  spill_len : Z;
  generation : nat;
  spillPointers : list (option pointer);
  hasSpill : bool;
  dirty : bool
}.

(** The zero value of [Builder]. *)
Definition zeroBuilder : Builder :=
  mkBuilder (replicate inlineArgs (replicate 8 0)) (replicate inlineArgs None) (replicate inlineArgs zeroMeta)
    [] 0 [] 0 0 [] false false.

(** [copy(mem[off:], data)]. *)
Definition write_bytes (mem : list Z) (off : nat) (data : list Z) : list Z :=
  take off mem ++ data ++ drop (off + length data) mem.

Definition read_bytes (mem : list Z) (off n : nat) : list Z := take n (drop off mem).

(** [cap(b.spillBuf)]. *)
Definition spill_cap (b : Builder) : Z := Z.of_nat (length (spill_mem b)).

(** [(len + spillAlign - 1) &^ (spillAlign - 1)]. *)
Definition alignUp (len : Z) : Z := Z.ldiff (len + spillAlign - 1) (spillAlign - 1).

Definition set_spill (mem : list Z) (len : Z) (gen : nat) (b : Builder) : Builder :=
  mkBuilder (inlineValues b) (inlinePointers b) (inlineMeta b) (overflowMeta b) (count b) mem len gen
    (spillPointers b) (hasSpill b) (dirty b).

(** [arenaAlloc]: the offset of the new block; a larger arena is a new one, with the old bytes copied. *)
Definition arenaAlloc (b : Builder) (size : Z) : Z * Builder :=
  let off := alignUp (spill_len b) in
  let need := off + size in
  if spill_cap b <? need then
    let grownCap := 2 * spill_cap b in
    let grownCap := if grownCap <? need then need else grownCap in
    let grownCap := if grownCap <? minArenaCap then minArenaCap else grownCap in
    let grown := take (Z.to_nat (spill_len b)) (spill_mem b) ++
                 replicate (Z.to_nat grownCap - Z.to_nat (spill_len b)) 0 in
    (off, set_spill grown need (S (generation b)) b)
  else (off, set_spill (spill_mem b) need (generation b) b).

Definition setMeta (b : Builder) (i : nat) (m : argMeta) : Builder :=
  if (i <? inlineArgs)%nat then
    mkBuilder (inlineValues b) (inlinePointers b) (<[i := m]> (inlineMeta b)) (overflowMeta b) (count b)
      (spill_mem b) (spill_len b) (generation b) (spillPointers b) (hasSpill b) (dirty b)
  else
    mkBuilder (inlineValues b) (inlinePointers b) (inlineMeta b) (overflowMeta b ++ [m]) (count b)
      (spill_mem b) (spill_len b) (generation b) (spillPointers b) (hasSpill b) (dirty b).

(** [meta]: an index past the packed arguments would be out of range; callers stay below [count]. *)
Definition meta (b : Builder) (i : nat) : argMeta :=
  if (i <? inlineArgs)%nat then default zeroMeta (inlineMeta b !! i)
  else default zeroMeta (overflowMeta b !! (i - inlineArgs)%nat).

(** [add]: the tail of the function after the value is stored. *)
Definition counted (h d : bool) (b : Builder) : Builder :=
  mkBuilder (inlineValues b) (inlinePointers b) (inlineMeta b) (overflowMeta b) (S (count b))
    (spill_mem b) (spill_len b) (generation b) (spillPointers b) h d.

Definition add (b : Builder) (data : list Z) (typ : option nat) : Builder :=
  let size := Z.of_nat (length data) in
  if ((count b <? inlineArgs)%nat && (size <=? 8))%bool then
    let slot := write_bytes (replicate 8 0) 0 data in
    let b1 := mkBuilder (<[count b := slot]> (inlineValues b)) (<[count b := Some (PInline (count b))]> (inlinePointers b))
                (inlineMeta b) (overflowMeta b) (count b) (spill_mem b) (spill_len b) (generation b)
                (spillPointers b) (hasSpill b) (dirty b) in
    let b2 := setMeta b1 (count b) (mkMeta (-1) (uint16 size) typ) in
    counted (hasSpill b2) (hasSpill b2) b2
  else
    let '(off, b1) := arenaAlloc b size in
    let b2 := set_spill (write_bytes (spill_mem b1) (Z.to_nat off) data) (spill_len b1) (generation b1) b1 in
    let b3 := setMeta b2 (count b) (mkMeta (int32 off) (uint16 size) typ) in
    counted true true b3.

(** [Add]: the bytes of a value of type [typ]; [AddBytes]: raw bytes. *)
Definition Add (b : Builder) (typ : nat) (v : list Z) : Builder := add b v (Some typ).
Definition AddBytes (b : Builder) (data : list Z) : Builder := add b data None.

(** [write]: over the argument's own storage. *)
Definition write (b : Builder) (m : argMeta) (i : nat) (data : list Z) : Builder :=
  if am_offset m <? 0 then
    mkBuilder (alter (fun slot => write_bytes slot 0 data) i (inlineValues b)) (inlinePointers b) (inlineMeta b)
      (overflowMeta b) (count b) (spill_mem b) (spill_len b) (generation b) (spillPointers b) (hasSpill b) (dirty b)
  else set_spill (write_bytes (spill_mem b) (Z.to_nat (am_offset m)) data) (spill_len b) (generation b) b.

Definition in_range (b : Builder) (i : Z) : bool := negb ((i <? 0) || (Z.of_nat (count b) <=? i))%bool.

(** [Set] (a reserved word here). *)
Definition Set_ (b : Builder) (i : Z) (typ : nat) (v : list Z) : Builder * err :=
  if negb (in_range b i) then (b, Some ErrIndexOutOfRange)
  else
    let m := meta b (Z.to_nat i) in
    if bool_decide (am_typ m = Some typ) then (write b m (Z.to_nat i) v, None)
    else (b, Some ErrTypeMismatch).

Definition SetBytes (b : Builder) (i : Z) (data : list Z) : Builder * err :=
  if negb (in_range b i) then (b, Some ErrIndexOutOfRange)
  else
    let m := meta b (Z.to_nat i) in
    if negb (Z.of_nat (length data) =? am_size m) then (b, Some ErrSizeMismatch)
    else (write b m (Z.to_nat i) data, None).

(** The pointer [Params] puts in the array for argument [i]. *)
Definition param_pointer (b : Builder) (i : nat) : option pointer :=
  let m := meta b i in
  if am_offset m <? 0 then default None (inlinePointers b !! i)
  else Some (PArena (generation b) (am_offset m)).

(** [Params]: nil, or the array of pointers (the inline one, or the spilled one, rebuilt when dirty). *)
Definition Params (b : Builder) : Builder * option (list (option pointer)) :=
  if (count b =? 0)%nat then (b, None)
  else if negb (hasSpill b) then (b, Some (inlinePointers b))
  else
    let b := if dirty b then
        mkBuilder (inlineValues b) (inlinePointers b) (inlineMeta b) (overflowMeta b) (count b) (spill_mem b)
          (spill_len b) (generation b) (map (param_pointer b) (seq 0 (count b))) (hasSpill b) false
      else b in
    (b, Some (spillPointers b)).

Definition Len (b : Builder) : nat := count b.

Definition Reset (b : Builder) : Builder :=
  if MaxRetainedSpillBytes <? spill_cap b then
    mkBuilder (inlineValues b) (inlinePointers b) (inlineMeta b) [] 0 [] 0 (generation b) [] false false
  else
    mkBuilder (inlineValues b) (inlinePointers b) (inlineMeta b) [] 0 (spill_mem b) 0 (generation b) [] false false.

(** ** What the driver sees, and the abstract argument list *)

(** The [n] bytes at a pointer, if it is not stale. *)
Definition read_ptr (b : Builder) (p : pointer) (n : nat) : option (list Z) :=
  match p with
  | PInline i => slot ← inlineValues b !! i; Some (read_bytes slot 0 n)
  | PArena g off => if decide (g = generation b) then Some (read_bytes (spill_mem b) (Z.to_nat off) n) else None
  end.

(** The bytes of argument [i], where [write] would put them. *)
Definition stored (b : Builder) (i : nat) : list Z :=
  let m := meta b i in
  if am_offset m <? 0 then read_bytes (default [] (inlineValues b !! i)) 0 (Z.to_nat (am_size m))
  else read_bytes (spill_mem b) (Z.to_nat (am_offset m)) (Z.to_nat (am_size m)).

(** The specification: a builder stands for a list of arguments, each its bytes and its recorded type. *)
Definition args (b : Builder) : list (list Z * option nat) :=
  map (fun i => (stored b i, am_typ (meta b i))) (seq 0 (count b)).

(** ** Bytes *)

#[local] Arguments Nat.ltb : simpl never.
#[local] Arguments inlineArgs : simpl never.

Lemma lookup_read mem off n k : read_bytes mem off n !! k = if decide (k < n)%nat then mem !! (off + k)%nat else None.
Proof.
  unfold read_bytes. case_decide.
  - now rewrite lookup_take_lt, lookup_drop.
  - rewrite lookup_take_ge; [done|lia].
Qed.

Lemma lookup_write mem off data k :
  (off + length data <= length mem)%nat ->
  write_bytes mem off data !! k =
    if decide (off <= k < off + length data)%nat then data !! (k - off)%nat else mem !! k.
Proof.
  intros Hl. unfold write_bytes. destruct (decide (k < off)%nat).
  - rewrite lookup_app_l by (rewrite length_take; lia). rewrite lookup_take_lt by lia.
    case_decide; [lia|done].
  - rewrite lookup_app_r by (rewrite length_take; lia). rewrite length_take, Nat.min_l by lia.
    case_decide.
    + rewrite lookup_app_l by lia. done.
    + rewrite lookup_app_r by lia. rewrite lookup_drop. f_equal. lia.
Qed.

Lemma length_write mem off data :
  (off + length data <= length mem)%nat -> length (write_bytes mem off data) = length mem.
Proof. intros Hl. unfold write_bytes. rewrite !length_app, length_take, length_drop. lia. Qed.

Lemma read_write_same mem off data :
  (off + length data <= length mem)%nat -> read_bytes (write_bytes mem off data) off (length data) = data.
Proof.
  intros Hl. apply list_eq. intros k. rewrite lookup_read. case_decide.
  - rewrite lookup_write by done. rewrite decide_True by lia. f_equal. lia.
  - symmetry. apply lookup_ge_None. lia.
Qed.

Lemma read_write_other mem off data a n :
  (off + length data <= length mem)%nat -> (a + n <= off \/ off + length data <= a)%nat ->
  read_bytes (write_bytes mem off data) a n = read_bytes mem a n.
Proof.
  intros Hl Hd. apply list_eq. intros k. rewrite !lookup_read. case_decide; [|done].
  rewrite lookup_write by done. rewrite decide_False by lia. done.
Qed.

(** Growing the arena keeps the bytes of the slice. *)
Lemma read_grown mem len extra a n :
  (len <= length mem)%nat -> (a + n <= len)%nat ->
  read_bytes (take len mem ++ replicate extra 0) a n = read_bytes mem a n.
Proof.
  intros Hl Ha. apply list_eq. intros k. rewrite !lookup_read. case_decide; [|done].
  rewrite lookup_app_l by (rewrite length_take; lia). now rewrite lookup_take_lt by lia.
Qed.

Lemma alignUp_spec len : 0 <= len -> len <= alignUp len < len + 8 /\ alignUp len mod 8 = 0.
Proof.
  intros Hl. unfold alignUp, spillAlign. change (8 - 1) with (Z.ones 3).
  rewrite Z.ldiff_ones_r by lia. rewrite Z.shiftl_mul_pow2, Z.shiftr_div_pow2 by lia. change (2 ^ 3) with 8.
  split; [Z.div_mod_to_equations; lia|]. now rewrite Z.mod_mul.
Qed.

(** ** Well-formed builders *)

(** Argument [i] is inline, in its own slot and with its pointer recorded, or in the arena, aligned and inside the
    slice. *)
Definition arg_ok (b : Builder) (i : nat) : Prop :=
  let m := meta b i in
  0 < am_size m /\
  ((am_offset m = -1 /\ (i < inlineArgs)%nat /\ am_size m <= 8 /\ inlinePointers b !! i = Some (Some (PInline i))) \/
   (0 <= am_offset m /\ am_offset m mod 8 = 0 /\ am_offset m + am_size m <= spill_len b /\ hasSpill b = true)).

Record wf (b : Builder) : Prop := mkWf {
  wf_values : length (inlineValues b) = inlineArgs /\ Forall (fun s => length s = 8%nat) (inlineValues b);
  wf_pointers : length (inlinePointers b) = inlineArgs;
  wf_meta : length (inlineMeta b) = inlineArgs /\ length (overflowMeta b) = (count b - inlineArgs)%nat;
  wf_spill : 0 <= spill_len b <= spill_cap b;
  wf_base : spill_cap b = 0 \/ minArenaCap <= spill_cap b;
  wf_args : forall i, (i < count b)%nat -> arg_ok b i;
  wf_disjoint : forall i j, (i < j < count b)%nat -> 0 <= am_offset (meta b i) -> 0 <= am_offset (meta b j) ->
    am_offset (meta b i) + am_size (meta b i) <= am_offset (meta b j);
  wf_pointer_array : hasSpill b = true -> dirty b = false ->
    spillPointers b = map (param_pointer b) (seq 0 (count b))
}.

Lemma wf_zero : wf zeroBuilder.
Proof.
  split; cbn; try done; try (intros; lia); auto.
  split; [done|]. repeat constructor.
Qed.

Lemma meta_setMeta b i j m :
  length (inlineMeta b) = inlineArgs -> (i < inlineArgs \/ length (overflowMeta b) = i - inlineArgs)%nat -> (j <= i)%nat ->
  meta (setMeta b i m) j = if decide (j = i) then m else meta b j.
Proof.
  intros Hl Hi Hj. unfold meta, setMeta. destruct (Nat.ltb_spec i inlineArgs); cbn [inlineMeta overflowMeta].
  - replace (j <? inlineArgs)%nat with true by (symmetry; apply Nat.ltb_lt; lia).
    case_decide as E; [subst j; now rewrite list_lookup_insert_eq by lia|].
    now rewrite list_lookup_insert_ne by congruence.
  - destruct Hi as [Hi|Hi]; [lia|]. destruct (Nat.ltb_spec j inlineArgs).
    + rewrite decide_False by lia. done.
    + case_decide as E.
      * subst j. rewrite lookup_app_r by lia. rewrite Hi, Nat.sub_diag. done.
      * rewrite lookup_app_l by lia. done.
Qed.

(** ** Adding *)

(** A size and total that fit the widths of [argMeta] (the cuda layer accepts at most 4096 bytes per argument). *)
Definition fits (b : Builder) (size : Z) : Prop :=
  0 < size < 2 ^ 16 /\ alignUp (spill_len b) + size < 2 ^ 31.

Lemma args_snoc b b' x :
  count b' = S (count b) ->
  (forall i, (i < count b)%nat -> stored b' i = stored b i /\ am_typ (meta b' i) = am_typ (meta b i)) ->
  (stored b' (count b), am_typ (meta b' (count b))) = x ->
  args b' = args b ++ [x].
Proof.
  intros Hc Hi Hx. unfold args. rewrite Hc, seq_S, map_app. cbn [map]. rewrite Nat.add_0_l, Hx. f_equal.
  apply map_ext_in. intros i Hin. apply in_seq in Hin. destruct (Hi i) as [-> ->]; [lia|done].
Qed.

(** The arena after an allocation: room for the block, the old slice readable, everything else as it was. *)
Lemma arenaAlloc_spec b size :
  wf b -> 0 < size ->
  let '(off, b1) := arenaAlloc b size in
  off = alignUp (spill_len b) /\ spill_len b1 = off + size /\ off + size <= spill_cap b1 /\ minArenaCap <= spill_cap b1 /\
  (forall a n, Z.of_nat (a + n) <= spill_len b -> read_bytes (spill_mem b1) a n = read_bytes (spill_mem b) a n) /\
  exists mem len gen, b1 = set_spill mem len gen b.
Proof.
  intros [_ _ _ Hs Hb _ _ _] Hz. unfold arenaAlloc.
  destruct (alignUp_spec (spill_len b)) as [Ho _]; [lia|].
  destruct (Z.ltb_spec (spill_cap b) (alignUp (spill_len b) + size)) as [Hg|Hg].
  - set (g := if _ <? minArenaCap then _ else _).
    assert (Hg1 : alignUp (spill_len b) + size <= g /\ minArenaCap <= g).
    { subst g. destruct (Z.ltb_spec (2 * spill_cap b) (alignUp (spill_len b) + size));
        match goal with |- context [?x <? minArenaCap] => destruct (Z.ltb_spec x minArenaCap) end; lia. }
    assert (Hc : spill_cap (set_spill (take (Z.to_nat (spill_len b)) (spill_mem b) ++
       replicate (Z.to_nat g - Z.to_nat (spill_len b)) 0) (alignUp (spill_len b) + size) (S (generation b)) b) = g).
    { unfold spill_cap, set_spill in *. cbn. rewrite length_app, length_take, length_replicate. lia. }
    split_and!; try reflexivity; rewrite ?Hc; try lia; [|eauto].
    intros a n Ha. cbn. apply read_grown; unfold spill_cap in *; lia.
  - split_and!; try reflexivity; unfold spill_cap, minArenaCap in *; cbn; try lia; eauto.
Qed.

Lemma meta_set_spill mem len gen b i : meta (set_spill mem len gen b) i = meta b i.
Proof. reflexivity. Qed.

Lemma meta_counted h d b i : meta (counted h d b) i = meta b i.
Proof. reflexivity. Qed.

Lemma count_place b : wf b -> (count b < inlineArgs \/ length (overflowMeta b) = count b - inlineArgs)%nat.
Proof. intros [_ _ [_ Ho] _ _ _ _ _]. auto. Qed.

Lemma overflow_setMeta b n m :
  length (inlineMeta b) = inlineArgs -> length (overflowMeta b) = (n - inlineArgs)%nat ->
  length (inlineMeta (setMeta b n m)) = inlineArgs /\ length (overflowMeta (setMeta b n m)) = (S n - inlineArgs)%nat.
Proof.
  intros Hm Ho. unfold setMeta. destruct (Nat.ltb_spec n inlineArgs); cbn [inlineMeta overflowMeta].
  - rewrite length_insert. split; [done|]. lia.
  - rewrite length_app. cbn [length]. split; [done|]. lia.
Qed.

(** The inline case of [add]. *)
Definition add_inline (b : Builder) (data : list Z) (typ : option nat) : Builder :=
  let b1 := mkBuilder (<[count b := write_bytes (replicate 8 0) 0 data]> (inlineValues b))
              (<[count b := Some (PInline (count b))]> (inlinePointers b))
              (inlineMeta b) (overflowMeta b) (count b) (spill_mem b) (spill_len b) (generation b)
              (spillPointers b) (hasSpill b) (dirty b) in
  let b2 := setMeta b1 (count b) (mkMeta (-1) (uint16 (Z.of_nat (length data))) typ) in
  counted (hasSpill b2) (hasSpill b2) b2.

(** The arena case. *)
Definition add_spill (b : Builder) (data : list Z) (typ : option nat) : Builder :=
  let '(off, b1) := arenaAlloc b (Z.of_nat (length data)) in
  let b2 := set_spill (write_bytes (spill_mem b1) (Z.to_nat off) data) (spill_len b1) (generation b1) b1 in
  let b3 := setMeta b2 (count b) (mkMeta (int32 off) (uint16 (Z.of_nat (length data))) typ) in
  counted true true b3.

Lemma add_cases b data typ :
  ((count b < inlineArgs)%nat /\ Z.of_nat (length data) <= 8 /\ add b data typ = add_inline b data typ) \/
  add b data typ = add_spill b data typ.
Proof.
  unfold add. destruct (Nat.ltb_spec (count b) inlineArgs); cbn [andb]; [|now right].
  destruct (Z.leb_spec (Z.of_nat (length data)) 8); [|now right]. left. auto.
Qed.

Lemma setMeta_fields b i m :
  inlineValues (setMeta b i m) = inlineValues b /\ inlinePointers (setMeta b i m) = inlinePointers b /\
  count (setMeta b i m) = count b /\ spill_mem (setMeta b i m) = spill_mem b /\ spill_len (setMeta b i m) = spill_len b /\
  generation (setMeta b i m) = generation b /\ hasSpill (setMeta b i m) = hasSpill b /\ spillPointers (setMeta b i m) = spillPointers b.
Proof. unfold setMeta. now destruct (i <? inlineArgs)%nat. Qed.

Lemma add_inline_spec b data typ :
  wf b -> fits b (Z.of_nat (length data)) -> (count b < inlineArgs)%nat -> Z.of_nat (length data) <= 8 ->
  wf (add_inline b data typ) /\ args (add_inline b data typ) = args b ++ [(data, typ)].
Proof.
  intros Hwf [Hsz _] Hc H8. pose proof Hwf as [[Hv1 Hv2] Hp [Hm Ho] Hs Hb Ha Hd Hpa].
  unfold add_inline. set (b1 := mkBuilder (<[count b:=_]> (inlineValues b)) _ _ _ _ _ _ _ _ _ _).
  set (m := mkMeta (-1) _ typ). set (b2 := setMeta b1 (count b) m).
  destruct (setMeta_fields b1 (count b) m) as (F1 & F2 & F3 & F4 & F5 & F6 & F7 & F8). fold b2 in F1, F2, F3, F4, F5, F6, F7, F8.
  assert (Hmeta : forall j, (j <= count b)%nat -> meta b2 j = if decide (j = count b) then m else meta b j).
  { intros j Hj. unfold b2. rewrite meta_setMeta; [reflexivity|exact Hm|left; exact Hc|exact Hj]. }
  assert (Hu : uint16 (Z.of_nat (length data)) = Z.of_nat (length data)) by (widths; rewrite Z.mod_small; lia).
  assert (Hold : forall i, (i < count b)%nat -> meta b2 i = meta b i).
  { intros i Hi. rewrite Hmeta by lia. now rewrite decide_False by lia. }
  assert (Hnew : meta b2 (count b) = m) by (rewrite Hmeta by lia; now rewrite decide_True by done).
  split.
  - split; cbn [counted inlineValues inlinePointers inlineMeta overflowMeta count spill_len hasSpill dirty spillPointers].
    + rewrite F1. cbn [inlineValues b1]. rewrite length_insert. split; [done|]. apply Forall_insert; [done|].
      cbv beta. rewrite length_write; rewrite length_replicate; lia.
    + rewrite F2. cbn. now rewrite length_insert.
    + rewrite F3. exact (overflow_setMeta b1 (count b) m Hm Ho).
    + unfold spill_cap in *. cbn. rewrite F4, F5. exact Hs.
    + unfold spill_cap in *. cbn. rewrite F4. exact Hb.
    + intros i Hi. rewrite F3 in Hi. cbn in Hi. unfold arg_ok. cbn [counted inlinePointers spill_len hasSpill].
      rewrite meta_counted, F2, F5, F7. cbn [inlinePointers spill_len hasSpill b1].
      destruct (decide (i = count b)) as [->|Hne].
      * rewrite Hnew. cbn. rewrite Hu. split; [lia|]. left. split_and!; auto.
        apply list_lookup_insert_eq. lia.
      * rewrite Hold by lia. destruct (Ha i) as [Hz Hk]; [lia|]. split; [exact Hz|].
        destruct Hk as [(K1 & K2 & K3 & K4)|K]; [left|right; exact K]. split_and!; auto.
        rewrite list_lookup_insert_ne by congruence. exact K4.
    + intros i j Hij. rewrite F3 in Hij. cbn in Hij. rewrite !meta_counted.
      destruct (decide (j = count b)) as [->|Hne]; [rewrite Hnew; cbn; lia|].
      rewrite !Hold by lia. apply Hd. lia.
    + intros Hh Hdd. cbn in Hh, Hdd. congruence.
  - apply args_snoc; [cbn; now rewrite F3| |].
    + intros i Hi. unfold stored. rewrite meta_counted, Hold by done. split; [|done].
      cbn [counted inlineValues spill_mem]. rewrite F1, F4. cbn [inlineValues spill_mem b1].
      rewrite list_lookup_insert_ne by lia. done.
    + unfold stored. rewrite meta_counted, Hnew. cbn [am_offset am_size am_typ m].
      cbn [counted inlineValues]. rewrite F1. cbn [inlineValues b1]. rewrite list_lookup_insert_eq by lia.
      rewrite Hu, Nat2Z.id.
      change ((read_bytes (write_bytes (replicate 8 0) 0 data) 0 (length data), typ) = (data, typ)).
      rewrite read_write_same; [done|]. rewrite length_replicate. lia.
Qed.

(** What [add] leaves when the argument goes to the arena: it is behind the others, aligned, and they are as before, wherever the arena is now. *)
Lemma add_spill_parts b data typ :
  wf b -> fits b (Z.of_nat (length data)) ->
  let b' := add_spill b data typ in
  exists off,
    (spill_len b <= off /\ off mod 8 = 0 /\ spill_len b' = off + Z.of_nat (length data) /\ spill_len b' <= spill_cap b' /\ minArenaCap <= spill_cap b') /\
    (inlineValues b' = inlineValues b /\ inlinePointers b' = inlinePointers b /\ count b' = S (count b) /\ hasSpill b' = true /\ dirty b' = true) /\
    (length (inlineMeta b') = inlineArgs /\ length (overflowMeta b') = (S (count b) - inlineArgs)%nat) /\
    ((forall i, (i < count b)%nat -> meta b' i = meta b i) /\ meta b' (count b) = mkMeta off (Z.of_nat (length data)) typ) /\
    (forall i, (i < count b)%nat -> stored b' i = stored b i) /\ stored b' (count b) = data.
Proof.
  intros Hwf [Hsz Hfit]. pose proof Hwf as [[Hv1 Hv2] Hp [Hm Ho] Hs Hb Ha Hd Hpa].
  unfold add_spill. pose proof (arenaAlloc_spec b (Z.of_nat (length data)) Hwf ltac:(lia)) as Hal.
  destruct (arenaAlloc b (Z.of_nat (length data))) as [off b1].
  destruct Hal as (Hoff & Hlen & Hcap & Hmin & Hread & mem & len & gen & Hb1).
  destruct (alignUp_spec (spill_len b)) as [Hal Hmod]; [lia|]. rewrite <- Hoff in Hal, Hmod, Hfit. exists off.
  set (b2 := set_spill _ (spill_len b1) (generation b1) b1). set (m := mkMeta _ _ typ).
  set (b3 := setMeta b2 (count b) m).
  assert (E2 : inlineValues b2 = inlineValues b /\ inlinePointers b2 = inlinePointers b /\ inlineMeta b2 = inlineMeta b /\
    overflowMeta b2 = overflowMeta b /\ count b2 = count b) by (subst b1; repeat split).
  destruct E2 as (E1 & E2 & E3 & E4 & E5).
  destruct (setMeta_fields b2 (count b) m) as (F1 & F2 & F3 & F4 & F5 & F6 & F7 & F8). fold b3 in F1, F2, F3, F4, F5, F6, F7, F8.
  assert (Hu : m = mkMeta off (Z.of_nat (length data)) typ) by (unfold m; f_equal; [apply int32_id; unfold MinInt32, MaxInt32; lia|widths; rewrite Z.mod_small; lia]).
  assert (Hmeta : forall j, (j <= count b)%nat -> meta b3 j = if decide (j = count b) then m else meta b j).
  { intros j Hj. unfold b3. rewrite meta_setMeta; [|now rewrite E3|rewrite E4; now apply count_place|exact Hj].
    subst b1. reflexivity. }
  assert (Hold : forall i, (i < count b)%nat -> meta b3 i = meta b i) by (intros i Hi; rewrite Hmeta by lia; now rewrite decide_False by lia).
  assert (Hnew : meta b3 (count b) = m) by (rewrite Hmeta by lia; now rewrite decide_True by done).
  assert (Hroom : (Z.to_nat off + length data <= length (spill_mem b1))%nat) by (unfold spill_cap in Hcap; lia).
  assert (Hmem : length (spill_mem b2) = length (spill_mem b1)) by (cbn; now apply length_write).
  unfold spill_cap in *. cbn [counted inlineValues inlinePointers inlineMeta overflowMeta count spill_len spill_mem hasSpill dirty].
  rewrite F1, F2, F3, F4, F5, E1, E2, E5, Hmem. split_and!; try done; try lia.
  - change (spill_len b2) with (spill_len b1). lia.
  - apply (overflow_setMeta b2 (count b) m); [now rewrite E3|now rewrite E4].
  - apply (overflow_setMeta b2 (count b) m); [now rewrite E3|now rewrite E4].
  - rewrite meta_counted. now rewrite <- Hu.
  - intros i Hi. unfold stored. rewrite meta_counted, Hold by done.
    cbn [counted inlineValues spill_mem]. rewrite F1, F4, E1. destruct (am_offset (meta b i) <? 0) eqn:Hneg; [done|].
    apply Z.ltb_ge in Hneg. destruct (Ha i) as [Hz [(K1 & _)|(_ & _ & K3 & _)]]; [lia|lia|].
    cbn [set_spill spill_mem b2]. rewrite read_write_other; [apply Hread; lia|exact Hroom|left; lia].
  - unfold stored. rewrite meta_counted, Hnew, Hu. cbn [am_offset am_size am_typ].
    rewrite Nat2Z.id. replace (off <? 0) with false by (symmetry; apply Z.ltb_ge; lia).
    cbn [counted spill_mem]. rewrite F4. cbn [set_spill spill_mem b2]. now rewrite read_write_same.
Qed.

Lemma add_spill_spec b data typ :
  wf b -> fits b (Z.of_nat (length data)) ->
  wf (add_spill b data typ) /\ args (add_spill b data typ) = args b ++ [(data, typ)].
Proof.
  intros Hwf Hfit. destruct (add_spill_parts b data typ Hwf Hfit) as (off & (Hoff & Hmod & Hlen & Hcap & Hmin) & (Ev & Ep & Ec & Eh & Ed) & (Em & Eo) & (Hold & Hnew) & Hst & Hst').
  pose proof Hwf as [[Hv1 Hv2] Hp [Hm Ho] Hs Hb Ha Hd Hpa]. destruct Hfit as [Hsz _]. set (b' := add_spill b data typ) in *. split.
  - split.
    + rewrite Ev. now split.
    + now rewrite Ep.
    + rewrite Ec. now split.
    + lia.
    + now right.
    + intros i Hi. rewrite Ec in Hi. unfold arg_ok. rewrite Ep, Eh. destruct (decide (i = count b)) as [->|Hne].
      * rewrite Hnew. cbn [am_size am_offset]. split; [lia|]. right. split_and!; auto; lia.
      * rewrite Hold by lia. destruct (Ha i) as [Hz Hk]; [lia|]. split; [exact Hz|].
        destruct Hk as [K|(K1 & K2 & K3 & K4)]; [left; exact K|right]. split_and!; auto; lia.
    + intros i j Hij. rewrite Ec in Hij. destruct (decide (j = count b)) as [->|Hne].
      * rewrite Hnew, Hold by lia. cbn [am_offset]. intros Hi0 _. destruct (Ha i) as [_ [(K1 & _)|(_ & _ & K3 & _)]]; lia.
      * rewrite !Hold by lia. apply Hd. lia.
    + congruence.
  - apply args_snoc; [exact Ec| |now rewrite Hst', Hnew]. intros i Hi. rewrite Hst, Hold by done. now split.
Qed.

(** ** Updating *)

Lemma args_lookup b i :
  args b !! i = if decide (i < count b)%nat then Some (stored b i, am_typ (meta b i)) else None.
Proof.
  unfold args. rewrite list_lookup_fmap. case_decide.
  - rewrite lookup_seq_lt by lia. done.
  - rewrite lookup_seq_ge by lia. done.
Qed.

Lemma length_args b : length (args b) = count b.
Proof. unfold args. now rewrite length_map, length_seq. Qed.

(** [write] over a whole argument: the argument has the new bytes, every other argument and all metadata are as before. *)
Lemma write_spec b i data :
  wf b -> (i < count b)%nat -> Z.of_nat (length data) = am_size (meta b i) ->
  let b' := write b (meta b i) i data in
  wf b' /\ count b' = count b /\ (forall j, meta b' j = meta b j) /\ stored b' i = data /\
  (forall j, (j < count b)%nat -> j <> i -> stored b' j = stored b j).
Proof.
  intros Hwf Hi Hsz b'. pose proof Hwf as [[Hv1 Hv2] Hp [Hm Ho] Hs Hb Ha Hd Hpa].
  assert (Hmeta : forall j, meta b' j = meta b j) by (intros j; unfold b', write; now destruct (_ <? 0)).
  assert (Hcount : count b' = count b) by (unfold b', write; now destruct (_ <? 0)).
  destruct (Ha i Hi) as [Hz Hk]. subst b'. unfold write in *.
  destruct (am_offset (meta b i) <? 0) eqn:Hneg.
  - apply Z.ltb_lt in Hneg. destruct Hk as [(K1 & K2 & K3 & K4)|(K & _)]; [|lia].
    destruct (lookup_lt_is_Some_2 (inlineValues b) i) as [slot Hslot]; [lia|].
    assert (Hl8 : length slot = 8%nat) by (rewrite Forall_lookup in Hv2; exact (Hv2 i slot Hslot)).
    split_and!; try assumption; try reflexivity.
    + split; try assumption; cbn [inlineValues].
      * rewrite length_alter. split; [done|].
        apply Forall_alter; [done|]. intros s Hs' Hx. rewrite Hslot in Hs'. injection Hs' as <-.
        cbv beta. rewrite length_write; lia.
      * now split.
    + unfold stored. rewrite Hmeta. replace (am_offset (meta b i) <? 0) with true by (symmetry; apply Z.ltb_lt; lia).
      cbn [inlineValues]. rewrite list_lookup_alter_eq, Hslot. cbn [fmap option_fmap option_map default from_option id].
      rewrite <- Hsz, Nat2Z.id. apply read_write_same. lia.
    + intros j Hj Hne. unfold stored. rewrite Hmeta. cbn [inlineValues spill_mem].
      now rewrite list_lookup_alter_ne by congruence.
  - apply Z.ltb_ge in Hneg. destruct Hk as [(K1 & _)|(K1 & K2 & K3 & K4)]; [lia|].
    assert (Hroom : (Z.to_nat (am_offset (meta b i)) + length data <= length (spill_mem b))%nat)
      by (unfold spill_cap in Hs; lia).
    assert (Hmem : length (write_bytes (spill_mem b) (Z.to_nat (am_offset (meta b i))) data) = length (spill_mem b))
      by now apply length_write.
    split_and!; try assumption; try reflexivity.
    + split; try assumption; unfold spill_cap in *; cbn [set_spill spill_mem spill_len]; rewrite ?Hmem; assumption || now split.
    + unfold stored. rewrite Hmeta. replace (am_offset (meta b i) <? 0) with false by (symmetry; apply Z.ltb_ge; lia).
      cbn [set_spill spill_mem]. rewrite <- Hsz, Nat2Z.id. now apply read_write_same.
    + intros j Hj Hne. unfold stored. rewrite Hmeta. cbn [set_spill spill_mem inlineValues].
      destruct (am_offset (meta b j) <? 0) eqn:Hnegj; [done|]. apply Z.ltb_ge in Hnegj.
      destruct (Ha j Hj) as [Hzj _].
      apply read_write_other; [done|]. destruct (decide (j < i)%nat).
      * specialize (Hd j i ltac:(lia) Hnegj Hneg). lia.
      * specialize (Hd i j ltac:(lia) Hneg Hnegj). lia.
Qed.

Lemma write_args b i data :
  wf b -> (i < count b)%nat -> Z.of_nat (length data) = am_size (meta b i) ->
  args (write b (meta b i) i data) = <[i := (data, am_typ (meta b i))]> (args b).
Proof.
  intros Hwf Hi Hsz. destruct (write_spec b i data Hwf Hi Hsz) as (_ & Hc & Hm & Hs & Ho).
  apply list_eq. intros j. rewrite args_lookup, Hc. destruct (decide (j = i)) as [->|Hne].
  - rewrite list_lookup_insert_eq by (rewrite length_args; lia). rewrite decide_True by lia. now rewrite Hs, Hm.
  - rewrite list_lookup_insert_ne by congruence. rewrite args_lookup. case_decide; [|done].
    now rewrite Ho, Hm.
Qed.

(** Recorded sizes are those of the recorded types. *)
Definition typed (size_of : nat -> Z) (b : Builder) : Prop :=
  forall i t, (i < count b)%nat -> am_typ (meta b i) = Some t -> am_size (meta b i) = size_of t.

Lemma add_step b data typ :
  wf b -> fits b (Z.of_nat (length data)) -> wf (add b data typ) /\ args (add b data typ) = args b ++ [(data, typ)].
Proof.
  intros Hwf Hf. destruct (add_cases b data typ) as [(H1 & H2 & ->)| ->].
  - now apply add_inline_spec.
  - now apply add_spill_spec.
Qed.

(** ** Theorems *)

(** Adding an argument appends it: after [Add] or [AddBytes] of data of at least one byte (up to the widths of the metadata) the builder is
    still well formed and stands for the old arguments, none of them disturbed by an arena that had to move, followed by the new one. *)
Theorem add_appends (b : Builder) (data : list Z) (typ : option nat) :
  wf b -> fits b (Z.of_nat (length data)) ->
  wf (add b data typ) /\ args (add b data typ) = args b ++ [(data, typ)].
Proof. apply add_step. Qed.

(** Updating in place is exact: [Set] and [SetBytes] replace the bytes of argument [i] and nothing else, keeping
    the builder well formed and every recorded type; an index out of range, a type other than the packed one (raw bytes match none),
    or a size other than the packed one gives its error and leaves the builder as it was. *)
Theorem set_updates (size_of : nat -> Z) (b : Builder) (i : Z) (typ : nat) (data : list Z) :
  wf b -> typed size_of b ->
  (~ (0 <= i < Z.of_nat (count b)) ->
     Set_ b i typ data = (b, Some ErrIndexOutOfRange) /\ SetBytes b i data = (b, Some ErrIndexOutOfRange)) /\
  (0 <= i < Z.of_nat (count b) ->
     let n := Z.to_nat i in
     (am_typ (meta b n) <> Some typ -> Set_ b i typ data = (b, Some ErrTypeMismatch)) /\
     (am_typ (meta b n) = Some typ -> Z.of_nat (length data) = size_of typ ->
        exists b', Set_ b i typ data = (b', None) /\ wf b' /\ typed size_of b' /\ args b' = <[n := (data, Some typ)]> (args b)) /\
     (Z.of_nat (length data) <> am_size (meta b n) -> SetBytes b i data = (b, Some ErrSizeMismatch)) /\
     (Z.of_nat (length data) = am_size (meta b n) ->
        exists b', SetBytes b i data = (b', None) /\ wf b' /\ typed size_of b' /\
          args b' = <[n := (data, am_typ (meta b n))]> (args b))).
Proof.
  intros Hwf Hty.
  assert (Hr : in_range b i = true <-> 0 <= i < Z.of_nat (count b)).
  { unfold in_range. rewrite negb_true_iff, orb_false_iff, Z.ltb_ge, Z.leb_gt. lia. }
  split.
  - intros Hi. assert (Hf : in_range b i = false) by (destruct (in_range b i); [exfalso; apply Hi, Hr; reflexivity|done]).
    unfold Set_, SetBytes. rewrite Hf. now split.
  - intros Hi n. assert (Hn : (n < count b)%nat) by lia. apply Hr in Hi. unfold Set_, SetBytes. rewrite Hi. cbn [negb]. fold n.
    assert (Hwr : Z.of_nat (length data) = am_size (meta b n) ->
      wf (write b (meta b n) n data) /\ typed size_of (write b (meta b n) n data) /\
      args (write b (meta b n) n data) = <[n := (data, am_typ (meta b n))]> (args b)).
    { intros Hsz. destruct (write_spec b n data Hwf Hn Hsz) as (H1 & H2 & H3 & _). split_and!; [exact H1| |now apply write_args].
      intros j t Hj. rewrite H3. apply Hty. now rewrite <- H2. }
    split_and!.
    + intros Ht. now rewrite bool_decide_eq_false_2.
    + intros Ht Hsz. rewrite bool_decide_eq_true_2 by exact Ht. rewrite <- Ht.
      eexists. split; [reflexivity|]. apply Hwr. rewrite Hsz. symmetry. now apply Hty.
    + intros Hsz. replace (_ =? _) with false by (symmetry; now apply Z.eqb_neq). done.
    + intros Hsz. replace (_ =? _) with true by (symmetry; now apply Z.eqb_eq). cbn [negb].
      eexists. split; [reflexivity|]. now apply Hwr.
Qed.

Lemma param_pointer_reads b i :
  wf b -> (i < count b)%nat ->
  exists p, param_pointer b i = Some p /\ read_ptr b p (Z.to_nat (am_size (meta b i))) = Some (stored b i) /\
    (forall g off, p = PArena g off -> g = generation b /\ off mod 8 = 0).
Proof.
  intros [[Hv1 _] Hp _ _ _ Ha _ _] Hi. destruct (Ha i Hi) as [Hz [(K1 & K2 & K3 & K4)|(K1 & K2 & K3 & K4)]];
    unfold param_pointer, stored.
  - rewrite K1. change (-1 <? 0) with true. cbv iota. rewrite K4. exists (PInline i). cbn [default from_option id].
    split_and!; [done| |intros ??; discriminate]. cbn [read_ptr].
    destruct (lookup_lt_is_Some_2 (inlineValues b) i) as [slot Hs]; [lia|]. now rewrite Hs.
  - replace (am_offset (meta b i) <? 0) with false by (symmetry; apply Z.ltb_ge; lia).
    eexists. split_and!; [reflexivity| |intros g off [= <- <-]; now split].
    cbn [read_ptr]. now rewrite decide_True.
Qed.

Lemma stored_length b i : wf b -> (i < count b)%nat -> Z.of_nat (length (stored b i)) = am_size (meta b i).
Proof.
  intros [[Hv1 Hv2] _ _ Hs Hb Ha _ _] Hlt. unfold stored, read_bytes. destruct (Ha i Hlt) as [Hz [(K1 & K2 & K3 & K4)|(K1 & K2 & K3 & K4)]].
  - rewrite K1. change (-1 <? 0) with true. cbv iota.
    destruct (lookup_lt_is_Some_2 (inlineValues b) i) as [slot Hsl]; [lia|]. rewrite Hsl. cbn [default from_option id].
    rewrite Forall_lookup in Hv2. specialize (Hv2 i slot Hsl). cbv beta in Hv2. rewrite length_take, length_drop. lia.
  - replace (am_offset (meta b i) <? 0) with false by (symmetry; apply Z.ltb_ge; lia).
    rewrite length_take, length_drop. unfold spill_cap in Hs. lia.
Qed.

(** An argument's pointer reads its bytes; in the arena it is aligned, and the arena is past the tiny allocator's sizes. *)
Lemma param_entry b i a :
  wf b -> args b !! i = Some a ->
  exists p, param_pointer b i = Some p /\ read_ptr b p (length a.1) = Some a.1 /\
    (forall g off, p = PArena g off -> g = generation b /\ off mod 8 = 0 /\ minArenaCap <= spill_cap b).
Proof.
  intros Hwf Hi. rewrite args_lookup in Hi. case_decide as Hlt; [|done]. injection Hi as <-. cbn [fst].
  destruct (param_pointer_reads b i Hwf Hlt) as (p & Hp & Hr & Hg). pose proof (stored_length b i Hwf Hlt) as Hlen.
  exists p. rewrite <- Hlen, Nat2Z.id in Hr. split_and!; [exact Hp|exact Hr|]. intros g off ->. destruct (Hg g off eq_refl) as [H1 H2]. split_and!; [exact H1|exact H2|].
  destruct Hwf as [_ _ _ Hs Hb Ha _ _]. destruct (Ha i Hlt) as [Hz [(K1 & K2 & K3 & K4)|(K1 & K2 & K3 & K4)]]; [|destruct Hb; [exfalso; lia|assumption]].
  exfalso. unfold param_pointer in Hp. rewrite K1 in Hp. change (-1 <? 0) with true in Hp. cbv iota in Hp. rewrite K4 in Hp. discriminate.
Qed.

Lemma Params_wf b : wf b -> wf (Params b).1 /\ args (Params b).1 = args b.
Proof.
  intros Hwf. unfold Params. destruct (count b =? 0)%nat; [now split|]. destruct (hasSpill b) eqn:Hsp; cbn [negb]; [|now split].
  destruct (dirty b) eqn:Hd; [|now split]. split; [|reflexivity]. destruct Hwf as [H1 H2 H3 H4 H5 H6 H7 H8].
  split; first [exact H1|exact H2|exact H3|exact H4|exact H5|exact H7|now intros _ _|
    intros j Hj; specialize (H6 j Hj); unfold arg_ok in *; rewrite Hsp in H6; exact H6].
Qed.

(** The array [Params] returns has an entry for every argument. *)
Lemma Params_entries b i a ps :
  wf b -> (Params b).2 = Some ps -> args b !! i = Some a -> ps !! i = Some (param_pointer b i) /\
  (forall p n, read_ptr (Params b).1 p n = read_ptr b p n) /\
  generation (Params b).1 = generation b /\ spill_cap (Params b).1 = spill_cap b.
Proof.
  intros Hwf Hps Hi. unfold Params in *. rewrite args_lookup in Hi. case_decide as Hlt; [|done].
  assert (Hseq : map (param_pointer b) (seq 0 (count b)) !! i = Some (param_pointer b i))
    by now rewrite list_lookup_fmap, lookup_seq_lt by lia.
  destruct (Nat.eqb_spec (count b) 0); [lia|]. destruct (hasSpill b) eqn:Hsp; cbn [negb] in *.
  - destruct (dirty b) eqn:Hd; injection Hps as <-; (split; [|split_and!; reflexivity]); [exact Hseq|].
    now rewrite (wf_pointer_array b Hwf Hsp Hd).
  - injection Hps as <-. split; [|split_and!; reflexivity].
    destruct (wf_args b Hwf i Hlt) as [_ [(K1 & K2 & K3 & K4)|(_ & _ & _ & K4)]]; [|congruence].
    unfold param_pointer. rewrite K1. change (-1 <? 0) with true. cbv iota. now rewrite K4.
Qed.

Lemma Params_nil b : (Params b).2 = None <-> count b = 0%nat.
Proof.
  unfold Params. destruct (Nat.eqb_spec (count b) 0); [done|]. destruct (negb (hasSpill b)); [done|]. now destruct (dirty b).
Qed.

(** C31.  [Params] never hands out a stale pointer: it is nil exactly when there are no arguments; otherwise the array has an entry
    for every argument, and through entry [i] the driver reads exactly the bytes of argument [i] - in the current arena, at an offset that
    is a multiple of eight from a base that is past the tiny allocator's sizes - however the arena has moved since it was added.  The builder
    stays well formed and stands for the same arguments. *)
Theorem params_current (b : Builder) :
  wf b ->
  let '(b', r) := Params b in
  wf b' /\ args b' = args b /\
  match r with
  | None => count b = 0%nat
  | Some ps =>
      (0 < count b)%nat /\
      forall i a, args b !! i = Some a ->
        exists p, ps !! i = Some (Some p) /\ read_ptr b' p (length a.1) = Some a.1 /\
          (forall g off, p = PArena g off -> g = generation b' /\ off mod 8 = 0 /\ minArenaCap <= spill_cap b')
  end.
Proof.
  intros Hwf. pose proof (Params_wf b Hwf) as [Hwf' Hargs]. pose proof (Params_nil b) as Hnil.
  pose proof (Params_entries b) as Hent. destruct (Params b) as [b' r]. cbn [fst snd] in *. split_and!; [done|done|].
  destruct r as [ps|]; [|now apply Hnil]. split; [destruct (count b); [now destruct Hnil as [_ ?]; specialize (H eq_refl)|lia]|].
  intros i a Hi. destruct (param_entry b i a Hwf Hi) as (p & Hp & Hr & Hg).
  destruct (Hent i a ps Hwf eq_refl Hi) as (Hps & Hrd & Hgen & Hcap). exists p. rewrite Hps, Hp, Hrd, Hgen, Hcap. now split_and!.
Qed.

Lemma Reset_ok b : wf b -> wf (Reset b) /\ count (Reset b) = 0%nat /\ spill_len (Reset b) = 0 /\ spill_cap (Reset b) <= MaxRetainedSpillBytes.
Proof.
  intros [H1 H2 [H3 _] H4 H5 _ _ _]. unfold Reset. destruct (Z.ltb_spec MaxRetainedSpillBytes (spill_cap b)) as [Hc|Hc].
  - split; [|now split_and!]. split; cbn; try done; try (intros; lia). now left.
  - split; [|now split_and!]. split; cbn; try done; try (intros; lia). unfold spill_cap in *. cbn. lia.
Qed.

Lemma add_spill_len b data typ : wf b -> (0 < length data)%nat ->
  0 <= spill_len (add b data typ) <= spill_len b + Z.of_nat (length data) + 8.
Proof.
  intros Hwf Hd. pose proof (wf_spill b Hwf) as Hs.
  destruct (add_cases b data typ) as [(_ & _ & ->)| ->]; unfold add_inline, add_spill.
  - cbv zeta. set (b1 := mkBuilder _ _ _ _ _ _ _ _ _ _ _).
    destruct (setMeta_fields b1 (count b) (mkMeta (-1) (uint16 (Z.of_nat (length data))) typ)) as (_ & _ & _ & _ & E & _).
    unfold counted. cbn [spill_len]. rewrite E. cbn [b1 spill_len]. lia.
  - pose proof (arenaAlloc_spec b (Z.of_nat (length data)) Hwf ltac:(lia)) as Ha.
    destruct (arenaAlloc b _) as [off b1]. destruct Ha as (Ho & Hl & _).
    destruct (alignUp_spec (spill_len b)) as [Hu _]; [lia|].
    set (b2 := set_spill _ _ _ _). set (m := mkMeta _ _ _).
    destruct (setMeta_fields b2 (count b) m) as (_ & _ & _ & _ & E & _).
    unfold counted. cbn [spill_len]. rewrite E. cbn [b2 set_spill spill_len]. lia.
Qed.

(** The arena space a list of arguments can take. *)
Definition space (l : list (list Z * option nat)) : Z := foldr (fun a n => Z.of_nat (length a.1) + 8 + n) 0 l.

Definition pack (b : Builder) (l : list (list Z * option nat)) : Builder := fold_left (fun b a => add b a.1 a.2) l b.

Lemma pack_args l : forall b, wf b -> Forall (fun a : list Z * option nat => 0 < Z.of_nat (length a.1) < 2 ^ 16) l ->
  spill_len b + space l + 8 < 2 ^ 31 -> wf (pack b l) /\ args (pack b l) = args b ++ l.
Proof.
  induction l as [|[d t] l IH]; intros b Hwf Hl Hs.
  - cbn [pack fold_left]. now rewrite app_nil_r.
  - apply Forall_cons in Hl as [Hd Hl]. cbn [fst] in Hd. cbn [space foldr fst] in Hs. fold (space l) in Hs.
    assert (Hsp : 0 <= space l) by (clear; induction l; cbn [space foldr]; [lia|fold (space l); lia]).
    destruct (alignUp_spec (spill_len b)) as [Hu _]; [apply wf_spill; done|].
    destruct (add_step b d t Hwf) as [H1 H2]; [split; [exact Hd|lia]|].
    pose proof (add_spill_len b d t Hwf ltac:(lia)) as Hsl.
    cbn [pack fold_left fst snd]. fold (pack (add b d t) l).
    destruct (IH (add b d t) H1 Hl) as [H3 H4]; [lia|]. split; [exact H3|]. rewrite H4, H2, <- app_assoc. done.
Qed.

(** A pooled builder can be reused: [Reset] leaves a well-formed empty builder that retains at most [MaxRetainedSpillBytes] of
    arena, and packing any list of arguments into it - more than the sixteen slots or not, growing the arena or not - leaves a builder that
    stands for exactly that list, nothing of its former use showing. *)
Theorem reset_reuse (b : Builder) (l : list (list Z * option nat)) :
  wf b -> Forall (fun a : list Z * option nat => 0 < Z.of_nat (length a.1) < 2 ^ 16) l -> space l + 8 < 2 ^ 31 ->
  spill_cap (Reset b) <= MaxRetainedSpillBytes /\ Len (Reset b) = 0%nat /\ (Params (Reset b)).2 = None /\
  wf (pack (Reset b) l) /\ args (pack (Reset b) l) = l.
Proof.
  intros Hwf Hl Hs. destruct (Reset_ok b Hwf) as (H1 & H2 & H3 & H4).
  destruct (pack_args l (Reset b) H1 Hl) as [H5 H6]; [lia|].
  split_and!; [exact H4|exact H2|unfold Params; now rewrite H2|exact H5|]. rewrite H6. unfold args. now rewrite H2.
Qed.

End argpack.
