(* ===== verification/HostCb.v ===== *)
(** * Host-function callbacks (internal/hostcb)

    Go closures wait, under a key, in one of thirty-two maps; the driver calls the one trampoline with
    the key.  The sharded registry is shown to be a single map, and every interleaving of registrations,
    failed enqueues and callbacks to run each closure at most once. *)

From S2P Require Import Prelude.

Module hostcb.

Definition registryShardCount : Z := 32.

Section Registry.

(** The closures. *)
Variable Fn : Type.

(** [pending] of a [callbackShard]; None: the nil map. *)
Abbreviation callbackShard := (option (gmap Z Fn)).

(** The package variables; [minted] counts the calls of [purego.NewCallback]. *)
Record st := mkSt {
  registry : list callbackShard;
  nextKey : Z;
  tramp : Z;
  trampOnce : bool;
  minted : nat
}.

Definition init : st := mkSt (replicate (Z.to_nat registryShardCount) None) 0 0 false 0.

Definition shardFor (key : Z) : nat := Z.to_nat (key mod registryShardCount).

Definition pending (s : st) (key : Z) : callbackShard := default None (registry s !! shardFor key).

Definition set_shard (s : st) (key : Z) (p : callbackShard) : st :=
  mkSt (<[shardFor key := p]> (registry s)) (nextKey s) (tramp s) (trampOnce s) (minted s).

(** [Register] up to the lock: [nextKey.Add(1)]. *)
Definition Register_key (s : st) : Z * st :=
  let k := uint64 (nextKey s + 1) in
  (k, mkSt (registry s) k (tramp s) (trampOnce s) (minted s)).

(** [Register] under the lock of the key's shard. *)
Definition Register_store (k : Z) (fn : Fn) (s : st) : st :=
  let m := match pending s k with None => ∅ | Some m => m end in
  set_shard s k (Some (<[k := fn]> m)).

Definition Register (fn : Fn) (s : st) : Z * st :=
  let '(k, s) := Register_key s in (k, Register_store k fn s).

(** [Unregister]: [delete] on a nil map does nothing. *)
Definition Unregister (key : Z) (s : st) : st :=
  match pending s key with
  | None => s
  | Some m => set_shard s key (Some (delete key m))
  end.

(** [Invoke] under the lock: the closure, removed. *)
Definition Invoke_take (key : Z) (s : st) : option Fn * st :=
  match pending s key with
  | None => (None, s)
  | Some m => match m !! key with
              | Some fn => (Some fn, set_shard s key (Some (delete key m)))
              | None => (None, s)
              end
  end.

(** [Invoke]; [run] is what the closure does to the registry (it may register and unregister), with the value of its panic
    if it panics: the panic is swallowed. *)
Definition Invoke (run : Fn -> st -> option string * st) (key : Z) (s : st) : st :=
  let '(fn, s) := Invoke_take key s in
  match fn with
  | None => s
  | Some fn => let '(_, s) := run fn s in s
  end.

(** [callback]: the body of the trampoline, which returns 0 to the driver. *)
Definition callback (run : Fn -> st -> option string * st) (userData : Z) (s : st) : Z * st :=
  (0, Invoke run userData s).

(** [initCallback]; [NewCallback] is the foreign function's result. *)
Definition initCallback (NewCallback : Z) (s : st) : st :=
  mkSt (registry s) (nextKey s) NewCallback (trampOnce s) (S (minted s)).

Definition Callback (NewCallback : Z) (s : st) : Z * st :=
  let s := if trampOnce s then s
           else let s := initCallback NewCallback s in mkSt (registry s) (nextKey s) (tramp s) true (minted s) in
  (tramp s, s).

(** A sequence of calls of [Callback]. *)
Fixpoint Callbacks (cs : list Z) (s : st) : list Z * st :=
  match cs with
  | [] => ([], s)
  | c :: cs => let '(p, s) := Callback c s in let '(ps, s) := Callbacks cs s in (p :: ps, s)
  end.

Definition Pending (key : Z) (s : st) : bool :=
  match pending s key with
  | None => false
  | Some m => bool_decide (is_Some (m !! key))
  end.

(** ** The registry as one map *)

Record wf (s : st) : Prop := mkWf {
  wf_shards : length (registry s) = Z.to_nat registryShardCount;
  wf_keys : forall i m k, registry s !! i = Some (Some m) -> is_Some (m !! k) -> shardFor k = i
}.

(** The specification: the closures that wait, by key. *)
Definition abs (s : st) : gmap Z Fn := ⋃ (map (default ∅) (registry s)).

Lemma shardFor_lt key : (shardFor key < Z.to_nat registryShardCount)%nat.
Proof.
  unfold shardFor, registryShardCount. pose proof (Z.mod_pos_bound key 32 ltac:(lia)). lia.
Qed.

Lemma union_list_lookup (l : list (gmap Z Fn)) (i : nat) m k :
  l !! i = Some m -> (forall j m', l !! j = Some m' -> j <> i -> m' !! k = None) -> (⋃ l) !! k = m !! k.
Proof.
  revert i. induction l as [|x l IH]; intros i Hi Ho; [done|]. cbn [union_list foldr].
  change (foldr (∪) ∅ l) with (⋃ l). destruct i as [|i].
  - injection Hi as ->. rewrite lookup_union_l; [done|].
    assert (Hn : forall j m', l !! j = Some m' -> m' !! k = None) by (intros j m' Hj; now apply (Ho (S j))).
    clear -Hn. induction l as [|y l IH]; [apply lookup_empty|]. cbn [union_list foldr]. change (foldr (∪) ∅ l) with (⋃ l).
    rewrite lookup_union_l by (apply IH; intros j; apply (Hn (S j))). now apply (Hn 0%nat).
  - rewrite lookup_union_r by (now apply (Ho 0%nat)). apply (IH i); [done|]. intros j m' Hj Hne. apply (Ho (S j)); [done|lia].
Qed.

Lemma abs_lookup s k : wf s -> abs s !! k = default ∅ (pending s k) !! k.
Proof.
  intros [Hl Hk]. unfold abs, pending. pose proof (shardFor_lt k) as Hlt.
  destruct (lookup_lt_is_Some_2 (registry s) (shardFor k)) as [p Hp]; [lia|]. rewrite Hp. cbn [default from_option id].
  apply (union_list_lookup _ (shardFor k)).
  - now rewrite list_lookup_fmap, Hp.
  - intros j m' Hj Hne. rewrite list_lookup_fmap in Hj. destruct (registry s !! j) as [[m|]|] eqn:E; cbn in Hj; [|injection Hj as <-; apply lookup_empty|done].
    injection Hj as <-. apply eq_None_not_Some. intros Hs. apply Hne. symmetry. exact (Hk j m k E Hs).
Qed.

Lemma pending_set_shard s key p k :
  wf s -> pending (set_shard s key p) k = if decide (shardFor k = shardFor key) then p else pending s k.
Proof.
  intros [Hl _]. unfold pending, set_shard. cbn [registry]. pose proof (shardFor_lt key).
  case_decide as E.
  - rewrite E, list_lookup_insert_eq by lia. done.
  - now rewrite list_lookup_insert_ne by congruence.
Qed.

Lemma wf_set_shard s key m :
  wf s -> (forall k, is_Some (m !! k) -> shardFor k = shardFor key) -> wf (set_shard s key (Some m)).
Proof.
  intros [Hl Hk] Hm. split; cbn [set_shard registry].
  - now rewrite length_insert.
  - intros i m' k Hi Hs. destruct (decide (i = shardFor key)) as [->|Hne].
    + rewrite list_lookup_insert_eq in Hi by (pose proof (shardFor_lt key); lia). injection Hi as <-. now apply Hm.
    + rewrite list_lookup_insert_ne in Hi by congruence. now apply (Hk i m').
Qed.

Lemma pending_keys s key m k : wf s -> pending s key = Some m -> is_Some (m !! k) -> shardFor k = shardFor key.
Proof.
  intros [_ Hk] Hp Hs. unfold pending in Hp. destruct (registry s !! shardFor key) as [p|] eqn:E; [|done].
  cbn in Hp. subst p. exact (Hk _ _ _ E Hs).
Qed.

(** A shard update is an update of the one map at the keys it changes. *)
Lemma abs_set_shard s key m (M : gmap Z Fn) :
  wf s -> wf (set_shard s key (Some m)) ->
  (forall k, shardFor k = shardFor key -> M !! k = m !! k) ->
  (forall k, shardFor k <> shardFor key -> M !! k = abs s !! k) ->
  abs (set_shard s key (Some m)) = M.
Proof.
  intros Hwf Hwf' He Hn. apply map_eq. intros k. rewrite abs_lookup by done. rewrite pending_set_shard by done.
  case_decide as E; [symmetry; now apply He|]. rewrite Hn by done. now rewrite abs_lookup.
Qed.

Lemma Register_store_spec k fn s :
  wf s -> wf (Register_store k fn s) /\ abs (Register_store k fn s) = <[k := fn]> (abs s).
Proof.
  intros Hwf. unfold Register_store. set (m := match pending s k with None => ∅ | Some m => m end).
  assert (Hm : m = default ∅ (pending s k)) by (subst m; now destruct (pending s k)).
  assert (Hk : forall j, is_Some (m !! j) -> shardFor j = shardFor k).
  { intros j Hj. subst m. destruct (pending s k) as [p|] eqn:E; [exact (pending_keys s k p j Hwf E Hj)|].
    rewrite lookup_empty in Hj. now destruct Hj. }
  assert (Hwf' : wf (set_shard s k (Some (<[k:=fn]> m)))).
  { apply wf_set_shard; [done|]. intros j [x Hj]. destruct (decide (j = k)) as [->|Hne]; [done|].
    rewrite lookup_insert_ne in Hj by congruence. apply Hk. now exists x. }
  split; [exact Hwf'|]. apply abs_set_shard; [done|done| |].
  - intros j Hj. destruct (decide (j = k)) as [->|Hne]; [now rewrite !lookup_insert_eq|].
    rewrite !lookup_insert_ne by congruence. rewrite abs_lookup by done. rewrite Hm. unfold pending. now rewrite Hj.
  - intros j Hj. rewrite lookup_insert_ne; [done|]. intros ->. now apply Hj.
Qed.

Lemma delete_shard_spec key m s :
  wf s -> pending s key = Some m ->
  wf (set_shard s key (Some (delete key m))) /\ abs (set_shard s key (Some (delete key m))) = delete key (abs s).
Proof.
  intros Hwf Hp.
  assert (Hwf' : wf (set_shard s key (Some (delete key m)))).
  { apply wf_set_shard; [done|]. intros j [x Hj]. apply lookup_delete_Some in Hj as [_ Hj].
    exact (pending_keys s key m j Hwf Hp (mk_is_Some _ _ Hj)). }
  split; [exact Hwf'|]. apply abs_set_shard; [done|done| |].
  - intros j Hj. destruct (decide (j = key)) as [->|Hne]; [now rewrite !lookup_delete_eq|].
    rewrite !lookup_delete_ne by congruence. rewrite abs_lookup by done. unfold pending in *. now rewrite Hj, Hp.
  - intros j Hj. rewrite lookup_delete_ne; [done|]. intros ->. now apply Hj.
Qed.

Lemma abs_nil s key : wf s -> pending s key = None -> abs s !! key = None.
Proof. intros Hwf Hp. rewrite abs_lookup by done. rewrite Hp. apply lookup_empty. Qed.

Lemma Unregister_spec key s : wf s -> wf (Unregister key s) /\ abs (Unregister key s) = delete key (abs s).
Proof.
  intros Hwf. unfold Unregister. destruct (pending s key) as [m|] eqn:Hp; [now apply delete_shard_spec|].
  split; [done|]. symmetry. apply delete_id. now apply abs_nil.
Qed.

Lemma Invoke_take_spec key s :
  wf s -> let '(r, s') := Invoke_take key s in wf s' /\ r = abs s !! key /\ abs s' = delete key (abs s).
Proof.
  intros Hwf. unfold Invoke_take. destruct (pending s key) as [m|] eqn:Hp.
  - assert (Ha : abs s !! key = m !! key) by (rewrite abs_lookup by done; now rewrite Hp).
    destruct (m !! key) as [fn|] eqn:Hm.
    + destruct (delete_shard_spec key m s Hwf Hp). auto.
    + split_and!; [done|done|]. symmetry. now apply delete_id.
  - pose proof (abs_nil s key Hwf Hp) as Ha. split_and!; [done|done|]. symmetry. now apply delete_id.
Qed.

Lemma Pending_spec key s : wf s -> Pending key s = bool_decide (is_Some (abs s !! key)).
Proof.
  intros Hwf. unfold Pending. rewrite abs_lookup by done. destruct (pending s key) as [m|]; [done|].
  symmetry. apply bool_decide_eq_false. cbn. rewrite lookup_empty. now intros [].
Qed.

Lemma wf_init : wf init.
Proof.
  split; cbn [init registry]; [apply length_replicate|]. intros i m k Hi. apply lookup_replicate in Hi as [Hi _]. discriminate.
Qed.

(** ** Interleavings

    A step is one critical section (or the atomic addition before it, or the call of a closure after it); any number of
    goroutines and driver threads run them in any order. *)

(** A call that is between two of its steps: a [Register] that has its key, an [Invoke] that took its closure. *)
Inductive call := CStore (k : Z) (fn : Fn) | CRun (k : Z) (fn : Fn).

(** The registry, the calls under way, and what has happened: keys given out, closures run, entries dropped by [Unregister]. *)
Record sys := mkSys {
  reg : st;
  calls : list call;
  issued : list (Z * Fn);
  ran : list (Z * Fn);
  dropped : list (Z * Fn)
}.

Inductive step : sys -> sys -> Prop :=
| SKey s fn k r : Register_key (reg s) = (k, r) ->
    step s (mkSys r (CStore k fn :: calls s) ((k, fn) :: issued s) (ran s) (dropped s))
| SStore s k fn cs : calls s ≡ₚ CStore k fn :: cs ->
    step s (mkSys (Register_store k fn (reg s)) cs (issued s) (ran s) (dropped s))
| SUnregister s k :
    step s (mkSys (Unregister k (reg s)) (calls s) (issued s) (ran s)
              (match abs (reg s) !! k with Some fn => (k, fn) :: dropped s | None => dropped s end))
| STake s k fn r : Invoke_take k (reg s) = (Some fn, r) ->
    step s (mkSys r (CRun k fn :: calls s) (issued s) (ran s) (dropped s))
| SMiss s k r : Invoke_take k (reg s) = (None, r) ->
    step s (mkSys r (calls s) (issued s) (ran s) (dropped s))
| SRun s k fn cs : calls s ≡ₚ CRun k fn :: cs ->
    step s (mkSys (reg s) cs (issued s) ((k, fn) :: ran s) (dropped s)).

Definition machine : Machine :=
  {| m_state := sys; m_init s := s = mkSys init [] [] [] []; m_step := step |}.

Definition entry (c : call) : Z * Fn := match c with CStore k fn | CRun k fn => (k, fn) end.

(** Every key given out is in exactly one place: with a call under way, in the registry, run, or dropped. *)
Definition inv (s : sys) : Prop :=
  wf (reg s) /\
  (Z.of_nat (length (issued s)) < 2 ^ 64 ->
    nextKey (reg s) = Z.of_nat (length (issued s)) /\
    NoDup (issued s).*1 /\
    (forall k, k ∈ (issued s).*1 -> 1 <= k <= nextKey (reg s)) /\
    issued s ≡ₚ map entry (calls s) ++ map_to_list (abs (reg s)) ++ ran s ++ dropped s).

Lemma nextKey_set s k m : nextKey (set_shard s k m) = nextKey s.
Proof. done. Qed.

Lemma nextKey_Invoke_take k s : nextKey (Invoke_take k s).2 = nextKey s.
Proof. unfold Invoke_take. destruct (pending s k) as [m|]; [|done]. now destruct (m !! k). Qed.

Lemma nextKey_Unregister k s : nextKey (Unregister k s) = nextKey s.
Proof. unfold Unregister. now destruct (pending s k). Qed.

(** The closures in the map, one taken out. *)
Lemma map_to_list_take (m : gmap Z Fn) k fn : m !! k = Some fn -> map_to_list m ≡ₚ (k, fn) :: map_to_list (delete k m).
Proof. intros Hk. rewrite <- (map_to_list_delete m k fn Hk). done. Qed.

Lemma registry_inv_step s s' : inv s -> step s s' -> inv s'.
Proof.
  intros [Hwf Hi] Hs. destruct Hs as [s fn k r Hr|s k fn cs Hc|s k|s k fn r Hr|s k r Hr|s k fn cs Hc]; unfold inv; cbn [reg issued calls ran dropped].
  - unfold Register_key in Hr. injection Hr as <- <-. split; [destruct Hwf; now split|]. cbn [length]. intros Hlt.
    destruct Hi as (Hn & Hd & Hk & Hp); [lia|]. cbn [nextKey]. rewrite uint64_id by (rewrite Hn; widths; lia).
    split_and!; [lia| | |].
    + cbn. constructor; [|done]. intros Hin. apply Hk in Hin. lia.
    + cbn. intros j [->|Hj]%elem_of_cons; [lia|]. specialize (Hk j Hj). lia.
    + cbn. apply perm_skip. exact Hp.
  - destruct (Register_store_spec k fn (reg s) Hwf) as [Hw Ha]. split; [exact Hw|]. intros Hlt.
    destruct (Hi Hlt) as (Hn & Hd & Hk & Hp). split_and!; [done|done|done|].
    rewrite Ha. rewrite Hc in Hp. cbn [map entry] in Hp.
    assert (Hnone : abs (reg s) !! k = None).
    { apply eq_None_not_Some. intros [x Hx]. apply elem_of_map_to_list in Hx. rewrite Hp in Hd. cbn in Hd.
      apply NoDup_cons in Hd as [Hd _]. apply Hd. rewrite !fmap_app, !elem_of_app. right; left.
      apply list_elem_of_fmap. now exists (k, x). }
    rewrite map_to_list_insert by exact Hnone. rewrite Hp. cbn. now rewrite <- Permutation_middle.
  - destruct (Unregister_spec k (reg s) Hwf) as [Hw Ha]. split; [exact Hw|]. intros Hlt. rewrite nextKey_Unregister.
    destruct (Hi Hlt) as (Hn & Hd & Hk & Hp). split_and!; [done|done|done|]. rewrite Ha.
    destruct (abs (reg s) !! k) as [fn|] eqn:E; [|now rewrite delete_id].
    rewrite Hp, (map_to_list_take _ _ _ E). cbn. now rewrite <- !Permutation_middle.
  - pose proof (Invoke_take_spec k (reg s) Hwf) as Hx. pose proof (nextKey_Invoke_take k (reg s)) as Hk'. rewrite Hr in Hx, Hk'.
    destruct Hx as (Hw & Hf & Ha). cbn in Hk'. split; [exact Hw|]. intros Hlt. rewrite Hk'.
    destruct (Hi Hlt) as (Hn & Hd & Hk & Hp). split_and!; [done|done|done|].
    rewrite Hp, (map_to_list_take _ _ _ (eq_sym Hf)), Ha. cbn. now rewrite <- Permutation_middle.
  - pose proof (Invoke_take_spec k (reg s) Hwf) as Hx. pose proof (nextKey_Invoke_take k (reg s)) as Hk'. rewrite Hr in Hx, Hk'.
    destruct Hx as (Hw & Hf & Ha). cbn in Hk'. split; [exact Hw|]. intros Hlt. rewrite Hk'.
    destruct (Hi Hlt) as (Hn & Hd & Hk & Hp). split_and!; [done|done|done|]. now rewrite Ha, delete_id by easy.
  - split; [done|]. intros Hlt. destruct (Hi Hlt) as (Hn & Hd & Hk & Hp). split_and!; [done|done|done|].
    rewrite Hp, Hc. cbn. rewrite (app_assoc (map_to_list _)). now rewrite <- !Permutation_middle, <- ?app_assoc.
Qed.

Lemma reachable_inv s : reachable machine s -> inv s.
Proof.
  apply reachable_invariant; [|exact registry_inv_step]. intros s0 ->. split; [exact wf_init|]. intros _.
  cbn [reg issued calls ran dropped]. split_and!; [done|constructor| |].
  - intros k Hk. now apply not_elem_of_nil in Hk.
  - assert (Ha : abs init = ∅) by (vm_compute; reflexivity). rewrite Ha, map_to_list_empty. done.
Qed.

(** ** Theorems *)

(**  The sharded registry is one map from keys to closures: for a well-formed registry, which the initial one is, [Register] stores the closure under the key it
    returns, [Unregister] deletes the key, the critical section of [Invoke] reads and deletes it, [Pending] tests it - nothing else of the
    map changes, whichever shard the key falls in - and every one of them leaves the registry well formed. *)
Theorem registry_refines_map (s : st) :
  wf init /\ abs init = ∅ /\
  (wf s -> forall fn key,
    (let '(k, s') := Register fn s in k = uint64 (nextKey s + 1) /\ wf s' /\ abs s' = <[k := fn]> (abs s)) /\
    (wf (Unregister key s) /\ abs (Unregister key s) = delete key (abs s)) /\
    (let '(r, s') := Invoke_take key s in wf s' /\ r = abs s !! key /\ abs s' = delete key (abs s)) /\
    Pending key s = bool_decide (is_Some (abs s !! key))).
Proof.
  split; [exact wf_init|]. split; [vm_compute; reflexivity|]. intros Hwf fn key. split_and!.
  - unfold Register, Register_key. split; [done|].
    set (s1 := mkSt _ _ _ _ _). assert (Hw1 : wf s1) by (destruct Hwf; now split).
    exact (Register_store_spec (uint64 (nextKey s + 1)) fn s1 Hw1).
  - now apply Unregister_spec.
  - now apply Unregister_spec.
  - now apply Invoke_take_spec.
  - now apply Pending_spec.
Qed.

(** C32.  However [Register], [Unregister] and [Invoke] interleave, on however many goroutines and driver threads, and as long as the 64-bit key counter has
    not wrapped, keys are never reused and every closure that got a key is in exactly one place: with a call under way,
    waiting in the registry, run, or dropped by [Unregister].  So a closure runs at most once, only the closure registered under a key runs
    for it, and one that was dropped never runs. *)
Theorem callback_at_most_once (s : sys) :
  reachable machine s -> Z.of_nat (length (issued s)) < 2 ^ 64 ->
  NoDup (issued s).*1 /\
  issued s ≡ₚ map entry (calls s) ++ map_to_list (abs (reg s)) ++ ran s ++ dropped s /\
  NoDup (ran s).*1 /\
  (forall k fn, (k, fn) ∈ ran s -> (k, fn) ∈ issued s /\ abs (reg s) !! k = None /\ forall fn', (k, fn') ∉ dropped s).
Proof.
  intros Hr Hlt. destruct (reachable_inv s Hr) as [Hwf Hi]. destruct (Hi Hlt) as (Hn & Hd & Hk & Hp).
  split_and!; [done|done| |].
  - rewrite Hp in Hd. rewrite !fmap_app in Hd. now apply NoDup_app in Hd as (_ & _ & [_ [_ [Hd _]%NoDup_app]]%NoDup_app).
  - intros k fn Hin. pose proof Hd as Hd'. rewrite Hp in Hd'. rewrite !fmap_app in Hd'.
    apply NoDup_app in Hd' as (_ & _ & (_ & Hx & (_ & Hy & _)%NoDup_app)%NoDup_app).
    assert (Hk1 : k ∈ (ran s).*1) by (apply list_elem_of_fmap; now exists (k, fn)).
    split_and!.
    + rewrite Hp, !elem_of_app. auto.
    + apply eq_None_not_Some. intros [x Hx']. apply elem_of_map_to_list in Hx'. apply (Hx k).
      * apply list_elem_of_fmap. now exists (k, x).
      * rewrite elem_of_app. now left.
    + intros fn' Hf. apply (Hy k Hk1). apply list_elem_of_fmap. now exists (k, fn').
Qed.

(** The trampoline is minted at most once, however often [Callback] is called, and every call returns the first one's pointer - whatever
    further trampolines would have been. *)
Theorem trampoline_once (c : Z) (cs : list Z) :
  let '(ps, s) := Callbacks (c :: cs) init in ps = map (fun _ => c) (c :: cs) /\ minted s = 1%nat.
Proof.
  cbn [Callbacks Callback init trampOnce initCallback tramp minted registry nextKey].
  set (s := mkSt _ _ _ _ _). assert (Hs : Callbacks cs s = (map (fun _ => c) cs, s)).
  { induction cs as [|c' cs IH]; [done|]. cbn [Callbacks Callback s trampOnce tramp]. fold s. now rewrite IH. }
  now rewrite Hs.
Qed.

End Registry.

End hostcb.
