(* ===== verification/Lanes.v ===== *)
(** * Wait lanes (cuda: Context.acquireWaitLane, releaseWaitLane, syncActive, syncBarrier)

    Cancellable waits run on a small pool of lanes.  A wait claims a lane under [syncMu], creating one under [laneCreateMu] when all are
    busy and there are fewer than [maxWaitLanes]; the lane's [pending] and the context's [syncActive] count
    the waits.  Any number of waits run these steps in any interleaving: one step is one critical section or one atomic operation. *)

From S2P Require Import Prelude CudaSys Errors Runtime CudaResult ExecutorApi Context Dispatch Resource.

Module Lanes.

(** ** Which lane a wait gets *)

(** The choice of [reuseWaitLane]: an idle lane, or at the limit the least loaded one. *)
Definition pick (lanes : gmap loc Lane) (ids : list loc) : option loc :=
  match idleWaitLane lanes ids with
  | Some l => Some l
  | None => if (maxWaitLanes <=? length ids)%nat
            then match ids with [] => None | l :: r => Some (leastLoadedFrom lanes l r) end
            else None
  end.

Definition pending_of (lanes : gmap loc Lane) (l : loc) : Z := ln_pending (default zero_lane (lanes !! l)).

Definition add_pending (n : Z) (l : loc) (lanes : gmap loc Lane) : gmap loc Lane :=
  <[l := mkLane (ln_exec (default zero_lane (lanes !! l))) (pending_of lanes l + n)]> lanes.

Lemma idleWaitLane_spec lanes ids :
  match idleWaitLane lanes ids with
  | Some l => l ∈ ids /\ pending_of lanes l = 0
  | None => Forall (fun l => pending_of lanes l <> 0) ids
  end.
Proof.
  induction ids as [|l ids IH]; cbn [idleWaitLane]; [constructor|]. fold (pending_of lanes l).
  destruct (Z.eqb_spec (pending_of lanes l) 0) as [E|E]; [split; [left|done]|].
  destruct (idleWaitLane lanes ids); [destruct IH; split; [now right|done]|now constructor].
Qed.

Lemma leastLoadedFrom_spec lanes ids : forall chosen,
  let l := leastLoadedFrom lanes chosen ids in
  l ∈ chosen :: ids /\ Forall (fun l' => pending_of lanes l <= pending_of lanes l') (chosen :: ids).
Proof.
  induction ids as [|x ids IH]; intros chosen; cbn [leastLoadedFrom].
  - split; [left|]. constructor; [lia|constructor].
  - fold (pending_of lanes x) (pending_of lanes chosen). destruct (Z.ltb_spec (pending_of lanes x) (pending_of lanes chosen)).
    + destruct (IH x) as [Hin Hle]. apply Forall_cons in Hle as [Hx Hle]. split.
      * apply elem_of_cons in Hin as [->|Hin]; [right; left|right; now right].
      * constructor; [lia|]. now constructor.
    + destruct (IH chosen) as [Hin Hle]. apply Forall_cons in Hle as [Hx Hle]. split.
      * apply elem_of_cons in Hin as [->|Hin]; [left|right; now right].
      * constructor; [lia|]. constructor; [lia|done].
Qed.

Lemma pick_spec lanes ids :
  match pick lanes ids with
  | Some l => l ∈ ids /\ Forall (fun l' => pending_of lanes l <= pending_of lanes l') ids \/
              l ∈ ids /\ pending_of lanes l = 0
  | None => (length ids < maxWaitLanes)%nat /\ Forall (fun l => pending_of lanes l <> 0) ids
  end.
Proof.
  unfold pick. pose proof (idleWaitLane_spec lanes ids) as Hi. destruct (idleWaitLane lanes ids) as [l|]; [now right|].
  destruct (Nat.leb_spec maxWaitLanes (length ids)) as [Hl|Hl]; [|now split].
  destruct ids as [|l r]; [exfalso; unfold maxWaitLanes in Hl; cbn in Hl; lia|]. left. apply leastLoadedFrom_spec.
Qed.

(** ** The machine *)

(** Where a wait is in [doJobCtx]: before the first [reuseWaitLane], before [laneCreateMu], holding it, holding it and creating a lane's
    executor, with a lane, submitted ([syncActive] counts it), recycled as far as the lane, and finished. *)
Inductive wait_pc :=
| WStart | WNeedLane | WLocked | WCreating
| WClaimed (l : loc) | WActive (l : loc) | WReleased | WEnd (ok : bool).

Record st := mkSt {
  lanes : gmap loc Lane;
  ids : list loc;
  fresh : loc;
  createMu : bool;
  syncActive : Z;
  waits : list wait_pc
}.

Definition set_wait (i : nat) (p : wait_pc) (s : st) : st :=
  mkSt (lanes s) (ids s) (fresh s) (createMu s) (syncActive s) (<[i := p]> (waits s)).

Definition set_mu (b : bool) (s : st) : st := mkSt (lanes s) (ids s) (fresh s) b (syncActive s) (waits s).
Definition claim (l : loc) (s : st) : st :=
  mkSt (add_pending 1 l (lanes s)) (ids s) (fresh s) (createMu s) (syncActive s) (waits s).

(** The steps of wait [i]. *)
Inductive wait_step (i : nat) (s : st) : st -> Prop :=
| reuse_lane l : waits s !! i = Some WStart -> pick (lanes s) (ids s) = Some l ->
    wait_step i s (set_wait i (WClaimed l) (claim l s))
| reuse_none : waits s !! i = Some WStart -> pick (lanes s) (ids s) = None ->
    wait_step i s (set_wait i WNeedLane s)
| create_lock : waits s !! i = Some WNeedLane -> createMu s = false ->
    wait_step i s (set_wait i WLocked (set_mu true s))
| recheck_lane l : waits s !! i = Some WLocked -> pick (lanes s) (ids s) = Some l ->
    wait_step i s (set_wait i (WClaimed l) (claim l (set_mu false s)))
| recheck_none : waits s !! i = Some WLocked -> pick (lanes s) (ids s) = None ->
    wait_step i s (set_wait i WCreating s)
| create_failed : waits s !! i = Some WCreating ->
    wait_step i s (set_wait i (WEnd false) (set_mu false s))
| create_lane e : waits s !! i = Some WCreating ->
    wait_step i s (set_wait i (WClaimed (fresh s))
      (mkSt (<[fresh s := mkLane e 1]> (lanes s)) (ids s ++ [fresh s]) (Pos.succ (fresh s)) false (syncActive s) (waits s)))
| count_wait l : waits s !! i = Some (WClaimed l) ->
    wait_step i s (set_wait i (WActive l) (mkSt (lanes s) (ids s) (fresh s) (createMu s) (syncActive s + 1) (waits s)))
| release_lane l : waits s !! i = Some (WActive l) ->
    wait_step i s (set_wait i WReleased (mkSt (add_pending (-1) l (lanes s)) (ids s) (fresh s) (createMu s) (syncActive s) (waits s)))
| uncount_wait : waits s !! i = Some WReleased ->
    wait_step i s (set_wait i (WEnd true) (mkSt (lanes s) (ids s) (fresh s) (createMu s) (syncActive s - 1) (waits s))).

(** One step of the pool is a step of one of its waits. *)
Definition step (s s' : st) : Prop := exists i, wait_step i s s'.

(** The order in which a wait goes through [doJobCtx]. *)
Definition next (w w' : wait_pc) : Prop :=
  match w with
  | WStart => w' = WNeedLane \/ exists l, w' = WClaimed l
  | WNeedLane => w' = WLocked
  | WLocked => w' = WCreating \/ exists l, w' = WClaimed l
  | WCreating => w' = WEnd false \/ exists l, w' = WClaimed l
  | WClaimed l => w' = WActive l
  | WActive _ => w' = WReleased
  | WReleased => w' = WEnd true
  | WEnd _ => False
  end.

(** A step of wait [i] moves that wait only. *)
Lemma wait_step_next i s s' :
  wait_step i s s' -> exists w w', waits s !! i = Some w /\ waits s' = <[i := w']> (waits s) /\ next w w'.
Proof. destruct 1; do 2 eexists; (split; [eassumption|split; [reflexivity|cbn; eauto]]). Qed.

(** A context without lanes, and [n] waits about to start. *)
Definition start (n : nat) : st := mkSt ∅ [] 1 false 0 (replicate n WStart).

Definition pool (n : nat) : Machine := {| m_state := st; m_init s := s = start n; m_step := step |}.

(** ** Counting *)

Definition on_lane (l : loc) (p : wait_pc) : nat :=
  match p with WClaimed l' | WActive l' => if decide (l' = l) then 1 else 0 | _ => 0 end.
Definition counted (p : wait_pc) : nat := match p with WActive _ | WReleased => 1 | _ => 0 end.
Definition in_mu (p : wait_pc) : nat := match p with WLocked | WCreating => 1 | _ => 0 end.
Definition creating (p : wait_pc) : nat := match p with WCreating => 1 | _ => 0 end.

Record inv (s : st) : Prop := mkInv {
  inv_ids : NoDup (ids s);
  inv_fresh : Forall (fun l => (l < fresh s)%positive) (ids s);
  inv_limit : (length (ids s) + sum_list_with creating (waits s) <= maxWaitLanes)%nat;
  inv_mu : sum_list_with in_mu (waits s) = if createMu s then 1%nat else 0%nat;
  inv_pending : forall l, l ∈ ids s -> pending_of (lanes s) l = Z.of_nat (sum_list_with (on_lane l) (waits s));
  inv_lanes : Forall (fun p => match p with WClaimed l | WActive l => l ∈ ids s | _ => True end) (waits s);
  inv_active : syncActive s = Z.of_nat (sum_list_with counted (waits s))
}.

Lemma inv_init n : inv (start n).
Proof.
  assert (Hz : forall f : wait_pc -> nat, f WStart = 0%nat -> sum_list_with f (replicate n WStart) = 0%nat)
    by (intros f Hf; induction n as [|n IH]; cbn; [done|lia]).
  split; cbn [start ids waits lanes fresh createMu syncActive].
  - constructor.
  - constructor.
  - rewrite Hz by done. cbn. unfold maxWaitLanes. lia.
  - now rewrite Hz.
  - intros l Hl. now apply not_elem_of_nil in Hl.
  - apply Forall_replicate. exact I.
  - now rewrite Hz.
Qed.

Lemma pending_add n l l' m :
  pending_of (add_pending n l m) l' = if decide (l = l') then pending_of m l + n else pending_of m l'.
Proof.
  unfold pending_of at 1, add_pending. case_decide as E.
  - subst l'. now rewrite lookup_insert_eq.
  - now rewrite lookup_insert_ne.
Qed.

(** The pool's lanes and counters do not change; only where one wait is. *)
Lemma inv_move s i p p' (mu : bool) :
  inv s -> waits s !! i = Some p ->
  (forall l, on_lane l p' = on_lane l p) -> counted p' = counted p ->
  match p' with WClaimed l | WActive l => l ∈ ids s | _ => True end ->
  (in_mu p' + (if createMu s then 1 else 0) = in_mu p + (if mu then 1 else 0))%nat ->
  (length (ids s) + sum_list_with creating (waits s) + creating p' <= maxWaitLanes + creating p)%nat ->
  inv (set_wait i p' (set_mu mu s)).
Proof.
  intros [Hids Hfr Hlim Hmu Hpend Hl Ha] Hi Hon Hc Hin Hm Hcr.
  split; cbn [set_wait set_mu ids waits lanes fresh createMu syncActive].
  - done.
  - done.
  - pose proof (sum_insert creating _ _ _ p' Hi). lia.
  - pose proof (sum_insert in_mu _ _ _ p' Hi). destruct mu, (createMu s); lia.
  - intros l Hin'. rewrite Hpend by done. pose proof (sum_insert (on_lane l) _ _ _ p' Hi). rewrite Hon in *. lia.
  - now apply Forall_insert.
  - rewrite Ha. pose proof (sum_insert counted _ _ _ p' Hi). lia.
Qed.

(** A wait claims a lane of the pool. *)
Lemma inv_claim s i p l (mu : bool) :
  inv s -> waits s !! i = Some p -> (forall l, on_lane l p = 0%nat) -> counted p = 0%nat -> creating p = 0%nat -> l ∈ ids s ->
  ((if createMu s then 1 else 0) = in_mu p + (if mu then 1 else 0))%nat ->
  inv (set_wait i (WClaimed l) (claim l (set_mu mu s))).
Proof.
  intros [Hids Hfr Hlim Hmu Hpend Hl Ha] Hi Hon Hc Hcr Hin Hm.
  split; cbn [set_wait claim set_mu ids waits lanes fresh createMu syncActive].
  - done.
  - done.
  - pose proof (sum_insert creating _ _ _ (WClaimed l) Hi) as E. cbn [creating] in E. lia.
  - pose proof (sum_insert in_mu _ _ _ (WClaimed l) Hi) as E. cbn [in_mu] in E. destruct mu, (createMu s); lia.
  - intros l' Hl'. rewrite pending_add. pose proof (sum_insert (on_lane l') _ _ _ (WClaimed l) Hi) as E. rewrite Hon in E. cbn [on_lane] in E.
    case_decide; [subst l'; rewrite Hpend by done; lia|rewrite Hpend by done; lia].
  - now apply Forall_insert.
  - rewrite Ha. pose proof (sum_insert counted _ _ _ (WClaimed l) Hi) as E. cbn [counted] in E. lia.
Qed.

Lemma pick_in lanes ids l : pick lanes ids = Some l -> l ∈ ids.
Proof. intros Hp. pose proof (pick_spec lanes ids) as Hs. rewrite Hp in Hs. destruct Hs as [[H _]|[H _]]; exact H. Qed.

Lemma set_mu_same s : set_mu (createMu s) s = s.
Proof. now destruct s. Qed.

Lemma creating_in_mu l : (sum_list_with creating l <= sum_list_with in_mu l)%nat.
Proof. induction l as [|p l IH]; [done|]. cbn [sum_list_with]. assert (creating p <= in_mu p)%nat by (destruct p; cbn; lia). lia. Qed.

(** While a wait rechecks, nobody is creating a lane. *)
Lemma nobody_creating s i : inv s -> waits s !! i = Some WLocked -> sum_list_with creating (waits s) = 0%nat.
Proof.
  intros Hinv Hi. pose proof (inv_mu s Hinv) as Hm. pose proof (creating_in_mu (<[i := WEnd true]> (waits s))) as Hle.
  pose proof (sum_insert in_mu _ _ _ (WEnd true) Hi) as E1. pose proof (sum_insert creating _ _ _ (WEnd true) Hi) as E2.
  cbn [in_mu creating] in E1, E2. destruct (createMu s); lia.
Qed.

Lemma inv_create s i e :
  inv s -> waits s !! i = Some WCreating ->
  inv (set_wait i (WClaimed (fresh s))
    (mkSt (<[fresh s := mkLane e 1]> (lanes s)) (ids s ++ [fresh s]) (Pos.succ (fresh s)) false (syncActive s) (waits s))).
Proof.
  intros [Hids Hfr Hlim Hmu Hpend Hl Ha] Hi.
  assert (Hnew : fresh s ∉ ids s) by (intros Hin; rewrite Forall_forall in Hfr; specialize (Hfr _ Hin); lia).
  assert (Hzero : sum_list_with (on_lane (fresh s)) (waits s) = 0%nat).
  { clear -Hl Hnew. induction Hl as [|p l Hp Hl IH]; [done|]. cbn [sum_list_with]. rewrite IH.
    destruct p; cbn [on_lane]; try done; rewrite decide_False by (intros ->; contradiction); done. }
  split; cbn [set_wait ids waits lanes fresh createMu syncActive].
  - apply NoDup_app. split_and!; [done| |apply NoDup_singleton]. intros x Hx ->%list_elem_of_singleton. contradiction.
  - apply Forall_app. split; [eapply Forall_impl; [exact Hfr|cbn; lia]|repeat constructor; lia].
  - rewrite length_app. cbn [length]. pose proof (sum_insert creating _ _ _ (WClaimed (fresh s)) Hi) as E. cbn [creating] in E. lia.
  - pose proof (sum_insert in_mu _ _ _ (WClaimed (fresh s)) Hi) as E. cbn [in_mu] in E. destruct (createMu s); lia.
  - intros l Hin. pose proof (sum_insert (on_lane l) _ _ _ (WClaimed (fresh s)) Hi) as E. cbn [on_lane] in E.
    unfold pending_of. apply elem_of_app in Hin as [Hin| ->%list_elem_of_singleton].
    + assert (Hne : fresh s <> l) by congruence. rewrite lookup_insert_ne by done. rewrite decide_False in E by done.
      specialize (Hpend l Hin). unfold pending_of in Hpend. rewrite Hpend. lia.
    + rewrite lookup_insert_eq. cbn. rewrite decide_True in E by done. lia.
  - apply Forall_insert; [|apply elem_of_app; right; left].
    eapply Forall_impl; [exact Hl|]. intros [] ; auto; intros; apply elem_of_app; now left.
  - rewrite Ha. pose proof (sum_insert counted _ _ _ (WClaimed (fresh s)) Hi) as E. cbn [counted] in E. lia.
Qed.

Lemma inv_release s i l :
  inv s -> waits s !! i = Some (WActive l) ->
  inv (set_wait i WReleased (mkSt (add_pending (-1) l (lanes s)) (ids s) (fresh s) (createMu s) (syncActive s) (waits s))).
Proof.
  intros [Hids Hfr Hlim Hmu Hpend Hl Ha] Hi.
  split; cbn [set_wait ids waits lanes fresh createMu syncActive].
  - done.
  - done.
  - pose proof (sum_insert creating _ _ _ WReleased Hi) as E. cbn [creating] in E. lia.
  - pose proof (sum_insert in_mu _ _ _ WReleased Hi) as E. cbn [in_mu] in E. lia.
  - intros l' Hl'. rewrite pending_add. pose proof (sum_insert (on_lane l') _ _ _ WReleased Hi) as E. cbn [on_lane] in E.
    case_decide; [subst l'; rewrite Hpend by done; lia|rewrite Hpend by done; lia].
  - now apply Forall_insert.
  - rewrite Ha. pose proof (sum_insert counted _ _ _ WReleased Hi) as E. cbn [counted] in E. lia.
Qed.

(** Counting a wait in or out changes nothing but [syncActive]. *)
Lemma inv_count s i p p' :
  inv s -> waits s !! i = Some p -> (forall l, on_lane l p' = on_lane l p) -> in_mu p' = in_mu p -> creating p' = creating p ->
  match p' with WClaimed l | WActive l => l ∈ ids s | _ => True end ->
  inv (set_wait i p' (mkSt (lanes s) (ids s) (fresh s) (createMu s)
    (syncActive s + Z.of_nat (counted p') - Z.of_nat (counted p)) (waits s))).
Proof.
  intros [Hids Hfr Hlim Hmu Hpend Hl Ha] Hi Hon Hm Hcr Hin.
  split; cbn [set_wait ids waits lanes fresh createMu syncActive].
  - done.
  - done.
  - pose proof (sum_insert creating _ _ _ p' Hi). lia.
  - pose proof (sum_insert in_mu _ _ _ p' Hi). lia.
  - intros l Hl'. rewrite Hpend by done. pose proof (sum_insert (on_lane l) _ _ _ p' Hi). rewrite Hon in *. lia.
  - now apply Forall_insert.
  - rewrite Ha. pose proof (sum_insert counted _ _ _ p' Hi). lia.
Qed.

Lemma lanes_inv_step s s' : inv s -> step s s' -> inv s'.
Proof.
  intros Hinv Hs. pose proof Hinv as [Hids Hfr Hlim Hmu Hpend Hl Ha].
  destruct Hs as [i [l Hi Hp|Hi Hp|Hi Hm|l Hi Hp|Hi Hp|Hi|e Hi|l Hi|l Hi|Hi]].
  - rewrite <- (set_mu_same s). apply (inv_claim s i WStart); eauto using pick_in.
  - rewrite <- (set_mu_same s). apply (inv_move s i WStart); auto. cbn [creating]. lia.
  - apply (inv_move s i WNeedLane); auto; cbn [in_mu creating]; [now rewrite Hm|lia].
  - apply (inv_claim s i WLocked); eauto using pick_in. pose proof (sum_lookup in_mu _ _ _ Hi) as E. cbn in E |- *. destruct (createMu s); lia.
  - rewrite <- (set_mu_same s). apply (inv_move s i WLocked); auto.
    pose proof (pick_spec (lanes s) (ids s)) as Hn. rewrite Hp in Hn. destruct Hn as [Hn _].
    rewrite (nobody_creating s i Hinv Hi). cbn [creating]. lia.
  - apply (inv_move s i WCreating); auto; cbn [in_mu creating]; [|lia]. pose proof (sum_lookup in_mu _ _ _ Hi) as E. cbn in E. destruct (createMu s); lia.
  - now apply inv_create.
  - pose proof (inv_count s i (WClaimed l) (WActive l) Hinv Hi) as Hc. cbn [counted] in Hc.
    replace (syncActive s + 1) with (syncActive s + Z.of_nat 1 - Z.of_nat 0) by lia. apply Hc; auto.
    rewrite Forall_lookup in Hl. exact (Hl i _ Hi).
  - now apply inv_release.
  - pose proof (inv_count s i WReleased (WEnd true) Hinv Hi) as Hc. cbn [counted] in Hc.
    replace (syncActive s - 1) with (syncActive s + Z.of_nat 0 - Z.of_nat 1) by lia. apply Hc; auto.
Qed.

Lemma lanes_inv n s : reachable (pool n) s -> inv s.
Proof. apply reachable_invariant; [|exact lanes_inv_step]. intros s0 ->. apply inv_init. Qed.

(** ** The code takes the choice the machine takes *)

Section Code.
Context `{Foreign}.

(** The lane [leastLoadedWaitLane] returns, when there is one. *)
Lemma reuseWaitLane_run c s :
  unlocked (c, SyncMu) s ->
  let cs := default zero_ctx (st_ctxs s !! c) in
  reuseWaitLane c s =
    match pick (st_lanes s) (cs_waitLanes cs) with
    | Some l => (Done (Some l), set_lanes (add_pending 1 l (st_lanes s)) s)
    | None => (Done None, s)
    end.
Proof.
  intros Hu cs. unfold reuseWaitLane. match goal with |- with_Lock _ ?m _ = _ => set (body := m) end.
  set (s0 := set_env (wlocked (c, SyncMu) (st_env s)) s).
  assert (Hb : body s0 = match pick (st_lanes s) (cs_waitLanes cs) with
                         | Some l => (Done (Some l), set_lanes (add_pending 1 l (st_lanes s)) s0)
                         | None => (Done None, s0)
                         end).
  { unfold body, bind, ctx_state, get, pick. change (st_ctxs s0) with (st_ctxs s). fold cs. change (st_lanes s0) with (st_lanes s).
    destruct (idleWaitLane (st_lanes s) (cs_waitLanes cs)) as [l|]; [reflexivity|].
    destruct (maxWaitLanes <=? length (cs_waitLanes cs))%nat eqn:Hm; [|reflexivity].
    destruct (cs_waitLanes cs) as [|l r]; [discriminate|reflexivity]. }
  assert (Hin : forall m, (c, SyncMu) ∈ env_locks_w (st_env (set_lanes m s0))) by (intros m; cbn; set_solver).
  destruct (pick (st_lanes s) (cs_waitLanes cs)) as [l|].
  - rewrite (with_Lock_run _ body s _ _ Hu Hb I (Hin _)). f_equal. cbn. rewrite wunlocked_wlocked by apply Hu. now destruct s.
  - rewrite (with_Lock_run _ body s _ _ Hu Hb I (Hin (st_lanes s))). f_equal. cbn. rewrite wunlocked_wlocked by apply Hu. now destruct s.
Qed.
End Code.

(** ** Theorems *)

(** C36.  The wait lanes stay consistent in every interleaving of any number of cancellable waits: there are never more than [maxWaitLanes] lanes, they are distinct, each lane's
    [pending] is exactly the number of waits that have claimed it and not been recycled, and [syncActive] the number of submitted waits not
    yet recycled - so neither goes negative, and when a barrier reads zero no submitted wait is left on any lane.  Otherwise every lane with a
    wait is in the list the barrier goes through. *)
Theorem lanes_consistent (n : nat) (s : st) :
  reachable (pool n) s ->
  (length (ids s) <= maxWaitLanes)%nat /\ NoDup (ids s) /\
  (forall l, l ∈ ids s -> pending_of (lanes s) l = Z.of_nat (sum_list_with (on_lane l) (waits s))) /\
  syncActive s = Z.of_nat (sum_list_with counted (waits s)) /\
  (syncActive s = 0 -> forall i l, waits s !! i <> Some (WActive l)) /\
  (forall i l, waits s !! i = Some (WActive l) -> l ∈ ids s).
Proof.
  intros Hr. apply lanes_inv in Hr as [Hids Hfr Hlim Hmu Hpend Hl Ha]. split_and!; [lia|done|done|done| |].
  - intros H0 i l Hi. pose proof (sum_lookup counted _ _ _ Hi) as E. cbn [counted] in E. lia.
  - intros i l Hi. rewrite Forall_lookup in Hl. exact (Hl i _ Hi).
Qed.

(** [reuseWaitLane], when [syncMu] is free, claims an idle lane whenever there is one; with none idle it gives no lane while there are fewer than [maxWaitLanes], and at
    the limit it claims one with the fewest pending waits; claiming adds one to that lane's [pending] and changes nothing else. *)
Theorem reuseWaitLane_spec `{Foreign} (c : loc) (s : state) :
  unlocked (c, SyncMu) s ->
  let ids := cs_waitLanes (default zero_ctx (st_ctxs s !! c)) in
  let load := pending_of (st_lanes s) in
  exists r s', reuseWaitLane c s = (Done r, s') /\
  match r with
  | Some l => l ∈ ids /\ s' = set_lanes (add_pending 1 l (st_lanes s)) s /\
      (load l = 0 \/ ((maxWaitLanes <= length ids)%nat /\ Forall (fun l' => load l' <> 0 /\ load l <= load l') ids))
  | None => s' = s /\ (length ids < maxWaitLanes)%nat /\ Forall (fun l' => load l' <> 0) ids
  end.
Proof.
  intros Hu ids load. rewrite (reuseWaitLane_run c s Hu). fold ids. pose proof (pick_spec (st_lanes s) ids) as Hp.
  unfold pick in *. pose proof (idleWaitLane_spec (st_lanes s) ids) as Hi.
  destruct (idleWaitLane (st_lanes s) ids) as [l|].
  { eexists _, _. split; [reflexivity|]. destruct Hi as [Hin H0]. split_and!; [done|done|now left]. }
  destruct (Nat.leb_spec maxWaitLanes (length ids)) as [Hm|Hm]; [|eexists _, _; split; [reflexivity|]; split_and!; done].
  destruct ids as [|l r]; [exfalso; unfold maxWaitLanes in Hm; cbn in Hm; lia|].
  eexists _, _. split; [reflexivity|]. destruct (leastLoadedFrom_spec (st_lanes s) r l) as [Hin Hle].
  split_and!; [done|done|]. right. split; [done|]. rewrite Forall_forall in *. intros l' Hl'. split; [now apply Hi|now apply Hle].
Qed.
End Lanes.
