(* ===== verification/Drain.v ===== *)
(** * Abandoned waits and destruction (cuda: Context.doJobCtx, trackedSyncJob, syncBarrier, doBarrier, Stream.Close, Event.Close)

    [Stream.Synchronize], [Event.Synchronize] and [Context.Synchronize] run on a wait lane and give up when their context is cancelled, releasing the resource's
    read lock while the driver still waits on the raw handle.  [Close] takes the write lock and drains the lanes with [syncBarrier] before it destroys the handle.
    This file interleaves any number of such waits and closes: the state is the pool of [Lanes.v], what each lane has accepted, and where
    every goroutine is.  A lane runs its tasks in the order it accepted them, as [Executor.v] proves of the executor. *)

From S2P Require Import Prelude CudaSys Errors Runtime CudaResult ExecutorApi Context Dispatch Resource Lanes.

Module Drain.

(** A task of a lane: a wait that is queued or in the driver, one whose [Run] returned and whose [Recycle] has released the lane, a barrier's no-op. *)
Inductive job := JWait (i : nat) | JRecycle (i : nat) | JNoop (k : nat).

(** A waiting goroutine: before the read lock, holding it, its job refused by [submit], its job accepted, returned. *)
Inductive caller_pc := QStart | QHeld | QRefused | QWait | QDone.

(** A closing goroutine: before the lock, in [doBarrier], past [syncActive.Load] which was not zero, with the lanes left to visit, waiting for
    its no-op on a lane, past the barrier, the destroy call done, returned. *)
Inductive closer_pc :=
| CStart | CLocked | CSnapshot | CBarrier (ls : list loc) | CNoop (l : loc) (ls : list loc) | CDestroy | CDestroyed | CEnd.

#[global] Instance job_eq_dec : EqDecision job.
Proof. solve_decision. Defined.
#[global] Instance caller_pc_eq_dec : EqDecision caller_pc.
Proof. solve_decision. Defined.
#[global] Instance closer_pc_eq_dec : EqDecision closer_pc.
Proof. solve_decision. Defined.

Record st := mkSt {
  pool : Lanes.st;
  tasks : gmap loc (list job);
  callers : list caller_pc;
  closers : list closer_pc;
  closed : gset loc;
  destroyed : gset loc
}.

Definition lane_tasks (l : loc) (s : st) : list job := default [] (tasks s !! l).
Definition set_pool (ps : Lanes.st) (s : st) : st := mkSt ps (tasks s) (callers s) (closers s) (closed s) (destroyed s).
Definition set_tasks (l : loc) (q : list job) (s : st) : st :=
  mkSt (pool s) (<[l := q]> (tasks s)) (callers s) (closers s) (closed s) (destroyed s).
Definition set_caller (i : nat) (p : caller_pc) (s : st) : st :=
  mkSt (pool s) (tasks s) (<[i := p]> (callers s)) (closers s) (closed s) (destroyed s).
Definition set_closer (k : nat) (p : closer_pc) (s : st) : st :=
  mkSt (pool s) (tasks s) (callers s) (<[k := p]> (closers s)) (closed s) (destroyed s).
Definition set_closed (r : loc) (s : st) : st := mkSt (pool s) (tasks s) (callers s) (closers s) ({[r]} ∪ closed s) (destroyed s).
Definition set_destroyed (r : loc) (s : st) : st := mkSt (pool s) (tasks s) (callers s) (closers s) (closed s) ({[r]} ∪ destroyed s).
Definition accept (l : loc) (j : job) (s : st) : st := set_tasks l (lane_tasks l s ++ [j]) s.

(** One task running and one in the channel. *)
Definition lane_capacity : nat := 2.

(** The goroutines inside the resource's lock. *)
Definition caller_in (p : caller_pc) : bool := match p with QHeld | QRefused | QWait => true | QStart | QDone => false end.
Definition closer_in (p : closer_pc) : bool := match p with CStart | CEnd => false | _ => true end.
(** The steps of [doJobCtx] before [syncActive.Add(1)] is done. *)
Definition acquiring (w : Lanes.wait_pc) : bool :=
  match w with Lanes.WActive _ | Lanes.WReleased | Lanes.WEnd _ => false | _ => true end.

Section Machine.

(** The stream or event each wait is on ([None] for [Context.Synchronize]), whether its context can be cancelled, and what each close closes. *)
Variable wait_on : nat -> option loc.
Variable cancellable : nat -> bool.
Variable closes : nat -> loc.

Definition rlocked (r : loc) (s : st) : Prop :=
  exists i p, callers s !! i = Some p /\ caller_in p = true /\ wait_on i = Some r.
Definition locked (r : loc) (s : st) : Prop :=
  exists k p, closers s !! k = Some p /\ closer_in p = true /\ closes k = r.

Inductive step (s : st) : st -> Prop :=
| enter i : callers s !! i = Some QStart -> (forall r, wait_on i = Some r -> ~ locked r s /\ r ∉ closed s) ->
    step s (set_caller i QHeld s)
| enter_closed i r : callers s !! i = Some QStart -> wait_on i = Some r -> ~ locked r s -> r ∈ closed s ->
    step s (set_caller i QDone s)
| rejected i : callers s !! i = Some QHeld -> Lanes.waits (pool s) !! i = Some Lanes.WStart ->
    step s (set_caller i QDone s)
| acquire i w ps : callers s !! i = Some QHeld -> Lanes.waits (pool s) !! i = Some w -> acquiring w = true -> Lanes.wait_step i (pool s) ps ->
    step s (set_pool ps s)
| no_lane i : callers s !! i = Some QHeld -> Lanes.waits (pool s) !! i = Some (Lanes.WEnd false) ->
    step s (set_caller i QDone s)
| submit i l : callers s !! i = Some QHeld -> Lanes.waits (pool s) !! i = Some (Lanes.WActive l) ->
    (length (lane_tasks l s) < lane_capacity)%nat ->
    step s (set_caller i QWait (accept l (JWait i) s))
| submit_refused i l : callers s !! i = Some QHeld -> Lanes.waits (pool s) !! i = Some (Lanes.WActive l) ->
    step s (set_caller i QRefused s)
| recycle_refused i ps : callers s !! i = Some QRefused -> Lanes.wait_step i (pool s) ps ->
    step s (set_pool ps s)
| refused_done i : callers s !! i = Some QRefused -> Lanes.waits (pool s) !! i = Some (Lanes.WEnd true) ->
    step s (set_caller i QDone s)
| receive i : callers s !! i = Some QWait -> Lanes.waits (pool s) !! i = Some (Lanes.WEnd true) ->
    step s (set_caller i QDone s)
| abandon i : callers s !! i = Some QWait -> cancellable i = true ->
    step s (set_caller i QDone s)
| run_wait l i q ps : lane_tasks l s = JWait i :: q -> Lanes.wait_step i (pool s) ps ->
    step s (set_tasks l (JRecycle i :: q) (set_pool ps s))
| recycled l i q ps : lane_tasks l s = JRecycle i :: q -> Lanes.wait_step i (pool s) ps ->
    step s (set_tasks l q (set_pool ps s))
| run_noop l k q ls : lane_tasks l s = JNoop k :: q -> closers s !! k = Some (CNoop l ls) ->
    step s (set_closer k (CBarrier ls) (set_tasks l q s))
| lock k : closers s !! k = Some CStart -> ~ locked (closes k) s -> ~ rlocked (closes k) s -> closes k ∉ closed s ->
    step s (set_closer k CLocked s)
| lock_closed k : closers s !! k = Some CStart -> ~ locked (closes k) s -> ~ rlocked (closes k) s -> closes k ∈ closed s ->
    step s (set_closer k CEnd s)
| close_rejected k : closers s !! k = Some CLocked ->
    step s (set_closer k CEnd s)
| check_idle k : closers s !! k = Some CLocked -> Lanes.syncActive (pool s) = 0 ->
    step s (set_closer k CDestroy s)
| check_busy k : closers s !! k = Some CLocked -> Lanes.syncActive (pool s) <> 0 ->
    step s (set_closer k CSnapshot s)
| snapshot k : closers s !! k = Some CSnapshot ->
    step s (set_closer k (CBarrier (Lanes.ids (pool s))) s)
| submit_noop k l ls : closers s !! k = Some (CBarrier (l :: ls)) -> (length (lane_tasks l s) < lane_capacity)%nat ->
    step s (set_closer k (CNoop l ls) (accept l (JNoop k) s))
| barrier_failed k l ls : closers s !! k = Some (CBarrier (l :: ls)) ->
    step s (set_closer k CEnd s)
| barrier_done k : closers s !! k = Some (CBarrier []) ->
    step s (set_closer k CDestroy s)
| destroy k : closers s !! k = Some CDestroy ->
    step s (set_closer k CDestroyed (set_destroyed (closes k) s))
| destroy_failed k : closers s !! k = Some CDestroy ->
    step s (set_closer k CEnd s)
| unlock k : closers s !! k = Some CDestroyed ->
    step s (set_closer k CEnd (set_closed (closes k) s)).

(** [n] waits and [m] closes about to start. *)
Definition start (n m : nat) : st := mkSt (Lanes.start n) ∅ (replicate n QStart) (replicate m CStart) ∅ ∅.

Definition system (n m : nat) : Machine := {| m_state := st; m_init s := s = start n m; m_step := step |}.

(** ** The read-write locks *)

Record lock_inv (s : st) : Prop := mkLockInv {
  inv_excl : forall i p r, callers s !! i = Some p -> caller_in p = true -> wait_on i = Some r -> r ∉ destroyed s /\ ~ locked r s;
  inv_mutex : forall k k' p p', closers s !! k = Some p -> closers s !! k' = Some p' -> closer_in p = true -> closer_in p' = true ->
    closes k = closes k' -> k = k';
  inv_destroyed : forall r, r ∈ destroyed s -> r ∈ closed s \/ exists k, closers s !! k = Some CDestroyed /\ closes k = r;
  inv_fresh : forall k p, closers s !! k = Some p -> closer_in p = true -> p <> CDestroyed -> closes k ∉ destroyed s
}.

Lemma locked_set k p s r :
  locked r (set_closer k p s) -> locked r s \/ (closer_in p = true /\ closes k = r).
Proof.
  intros (j & q & Hj & Hq & Hr). apply list_lookup_insert_Some in Hj as [(<- & <- & _)|[_ Hj]]; [now right|]. left. exists j, q. auto.
Qed.

Lemma locked_intro k p s : closers s !! k = Some p -> closer_in p = true -> locked (closes k) s.
Proof. intros. exists k, p. auto. Qed.

(** A caller outside the lock, or one that stays where the lock is concerned. *)
Lemma lock_inv_caller s i p p' :
  lock_inv s -> callers s !! i = Some p -> (caller_in p' = true -> caller_in p = true) -> lock_inv (set_caller i p' s).
Proof.
  intros [He Hm Hd Hf] Hi Hp. split; try assumption. cbn [callers set_caller].
  intros j q r Hj Hq Hr. apply list_lookup_insert_Some in Hj as [(<- & <- & _)|[_ Hj]]; eauto.
Qed.

(** A closer inside the lock moves on, or one outside stays outside. *)
Lemma lock_inv_closer s k p p' :
  lock_inv s -> closers s !! k = Some p -> (closer_in p' = true -> closer_in p = true) -> p <> CDestroyed -> p' <> CDestroyed -> lock_inv (set_closer k p' s).
Proof.
  intros [He Hm Hd Hf] Hk Hp Hne Hne'. split; cbn [callers closers closed destroyed set_closer].
  - intros j q r Hj Hq Hr. destruct (He _ _ _ Hj Hq Hr) as [H1 H2]. split; [done|]. intros Hl.
    apply locked_set in Hl as [Hl|[Hin <-]]; [done|]. apply H2. apply locked_intro with p; auto.
  - intros k1 k2 p1 p2 H1 H2 Hi1 Hi2 E.
    apply list_lookup_insert_Some in H1 as [(<- & <- & _)|[_ H1]]; apply list_lookup_insert_Some in H2 as [(<- & <- & _)|[_ H2]]; eauto.
  - intros r Hr. destruct (Hd r Hr) as [Hc|(j & Hj & E)]; [now left|]. right. exists j. split; [|done].
    rewrite list_lookup_insert_ne; [done|]. intros ->. congruence.
  - intros j q Hj Hq Hn. apply list_lookup_insert_Some in Hj as [(<- & <- & _)|[_ Hj]]; eauto.
Qed.

Lemma lock_inv_lock s k :
  lock_inv s -> closers s !! k = Some CStart -> ~ locked (closes k) s -> ~ rlocked (closes k) s -> closes k ∉ closed s -> lock_inv (set_closer k CLocked s).
Proof.
  intros Hinv H H0 H1 H2. pose proof Hinv as [He Hm Hd Hf].
  split; cbn [callers closers closed destroyed set_closer].
  - intros j q r Hj Hq Hr. destruct (He _ _ _ Hj Hq Hr) as [H3 H4]. split; [done|]. intros Hl.
    apply locked_set in Hl as [Hl|[_ <-]]; [done|]. apply H1. exists j, q. auto.
  - assert (Hnew : forall j q, closers s !! j = Some q -> closer_in q = true -> closes j <> closes k)
      by (intros j q Hj Hq E; apply H0; rewrite <- E; now apply locked_intro with q).
    intros k1 k2 p1 p2 H3 H4 Hi1 Hi2 E.
    apply list_lookup_insert_Some in H3 as [(<- & <- & _)|[_ H3]]; apply list_lookup_insert_Some in H4 as [(<- & <- & _)|[_ H4]]; eauto;
      exfalso; [apply (Hnew k2 p2)|apply (Hnew k1 p1)]; auto.
  - intros r Hr. destruct (Hd r Hr) as [Hc|(j & Hj & E)]; [now left|]. right. exists j. split; [|done].
    rewrite list_lookup_insert_ne; [done|]. intros ->. congruence.
  - intros j q Hj Hq Hn. apply list_lookup_insert_Some in Hj as [(<- & <- & _)|[_ Hj]]; [|eauto].
    intros Hin. destruct (Hd _ Hin) as [?|(k' & Hk' & E)]; [done|]. apply H0. rewrite <- E. now apply locked_intro with CDestroyed.
Qed.

Lemma lock_inv_destroy s k :
  lock_inv s -> closers s !! k = Some CDestroy -> lock_inv (set_closer k CDestroyed (set_destroyed (closes k) s)).
Proof.
  intros Hinv H. pose proof Hinv as [He Hm Hd Hf].
  split; cbn [callers closers closed destroyed set_closer set_destroyed].
  - intros j q r Hj Hq Hr. destruct (He _ _ _ Hj Hq Hr) as [H3 H4]. split.
    + intros Hin. apply elem_of_union in Hin as [Hin%elem_of_singleton|Hin]; [|done]. subst r. apply H4. now apply locked_intro with CDestroy.
    + intros Hl. apply H4. destruct Hl as (j' & q' & Hj' & Hq' & E). apply list_lookup_insert_Some in Hj' as [(<- & <- & _)|[_ Hj']].
      -- exists k, CDestroy. auto.
      -- exists j', q'. auto.
  - intros k1 k2 p1 p2 H3 H4 Hi1 Hi2 E.
    apply list_lookup_insert_Some in H3 as [(<- & <- & _)|[_ H3]]; apply list_lookup_insert_Some in H4 as [(<- & <- & _)|[_ H4]]; eauto.
  - intros r Hin. apply elem_of_union in Hin as [Hin%elem_of_singleton|Hin].
    + right. exists k. split; [|done]. apply list_lookup_insert_eq. eapply lookup_lt_Some; eassumption.
    + destruct (Hd r Hin) as [Hc|(j & Hj & E)]; [now left|]. right. exists j. split; [|done].
      rewrite list_lookup_insert_ne; [done|]. intros ->. congruence.
  - intros j q Hj Hq Hn. apply list_lookup_insert_Some in Hj as [(<- & <- & _)|[Hne Hj]]; [done|].
    intros Hin. apply elem_of_union in Hin as [Hin%elem_of_singleton|Hin]; [|now apply (Hf j q)].
    apply Hne. symmetry. now apply (Hm j k q CDestroy).
Qed.

Lemma lock_inv_unlock s k :
  lock_inv s -> closers s !! k = Some CDestroyed -> lock_inv (set_closer k CEnd (set_closed (closes k) s)).
Proof.
  intros Hinv H. pose proof Hinv as [He Hm Hd Hf].
  split; cbn [callers closers closed destroyed set_closer set_closed].
  - intros j q r Hj Hq Hr. destruct (He _ _ _ Hj Hq Hr) as [H3 H4]. split; [done|]. intros Hl.
    apply H4. destruct Hl as (j' & q' & Hj' & Hq' & E). apply list_lookup_insert_Some in Hj' as [(<- & <- & _)|[_ Hj']]; [done|].
    exists j', q'. auto.
  - intros k1 k2 p1 p2 H3 H4 Hi1 Hi2 E.
    apply list_lookup_insert_Some in H3 as [(<- & <- & _)|[_ H3]]; apply list_lookup_insert_Some in H4 as [(<- & <- & _)|[_ H4]]; eauto; done.
  - intros r Hr. destruct (Hd r Hr) as [Hc|(j & Hj & E)]; [set_solver|]. destruct (decide (j = k)) as [->|Hne]; [set_solver|].
    right. exists j. split; [|done]. now rewrite list_lookup_insert_ne.
  - intros j q Hj Hq Hn. apply list_lookup_insert_Some in Hj as [(<- & <- & _)|[_ Hj]]; eauto.
Qed.

Lemma lock_inv_step s s' : lock_inv s -> step s s' -> lock_inv s'.
Proof.
  intros Hinv Hs. pose proof Hinv as [He Hm Hd Hf].
  destruct Hs; try (eapply lock_inv_caller; [exact Hinv|eassumption|cbn; congruence]);
    try (eapply (lock_inv_closer s); [exact Hinv|eassumption|done..]); try (split; assumption).
  - (* enter *) split; try assumption. cbn [callers set_caller]. intros j q r Hj Hq Hr.
    apply list_lookup_insert_Some in Hj as [(<- & <- & _)|[_ Hj]]; [|eauto]. destruct (H0 r Hr) as [Hl Hc]. split; [|done].
    intros Hin. destruct (Hd r Hin) as [?|(k & Hk & <-)]; [done|]. apply Hl. now apply locked_intro with CDestroyed.
  - (* submit *) apply (lock_inv_caller _ _ QHeld); [split; assumption|assumption|done].
  - (* run_noop *) apply (lock_inv_closer _ _ (CNoop l ls)); [split; assumption|assumption|done..].
  - now apply lock_inv_lock.
  - (* submit_noop *) apply (lock_inv_closer _ _ (CBarrier (l :: ls))); [split; assumption|assumption|done..].
  - now apply lock_inv_destroy.
  - now apply lock_inv_unlock.
Qed.
(** ** What a lane has and where its waits are *)

(** Where a wait may be in [doJobCtx], for each phase of its goroutine. *)
Definition ok_pair (p : caller_pc) (w : Lanes.wait_pc) : bool :=
  match p, w with
  | QStart, Lanes.WStart => true
  | QStart, _ => false
  | QHeld, (Lanes.WReleased | Lanes.WEnd true) => false
  | QHeld, _ => true
  | (QRefused | QWait), (Lanes.WActive _ | Lanes.WReleased | Lanes.WEnd true) => true
  | (QRefused | QWait), _ => false
  | QDone, (Lanes.WStart | Lanes.WActive _ | Lanes.WReleased | Lanes.WEnd _) => true
  | QDone, _ => false
  end.

(** The goroutine no longer owns its job: a lane accepted it, or it is over. *)
Definition handed_over (p : caller_pc) : bool := match p with QWait | QDone => true | _ => false end.
Definition on_lane (w : Lanes.wait_pc) : bool := match w with Lanes.WActive _ | Lanes.WReleased => true | _ => false end.

Record job_inv (s : st) : Prop := mkJobInv {
  ji_len : length (Lanes.waits (pool s)) = length (callers s);
  ji_pair : forall i p w, callers s !! i = Some p -> Lanes.waits (pool s) !! i = Some w -> ok_pair p w = true;
  ji_wait : forall l i, JWait i ∈ lane_tasks l s ->
    Lanes.waits (pool s) !! i = Some (Lanes.WActive l) /\ exists p, callers s !! i = Some p /\ handed_over p = true;
  ji_rec : forall l i, JRecycle i ∈ lane_tasks l s ->
    Lanes.waits (pool s) !! i = Some Lanes.WReleased /\ exists p, callers s !! i = Some p /\ handed_over p = true;
  ji_rec_lane : forall l l' i, JRecycle i ∈ lane_tasks l s -> JRecycle i ∈ lane_tasks l' s -> l = l';
  ji_nodup : forall l, NoDup (lane_tasks l s);
  ji_noop : forall l k, JNoop k ∈ lane_tasks l s <-> exists ls, closers s !! k = Some (CNoop l ls);
  ji_active : forall i p l, callers s !! i = Some p -> handed_over p = true -> Lanes.waits (pool s) !! i = Some (Lanes.WActive l) ->
    JWait i ∈ lane_tasks l s;
  ji_released : forall i p, callers s !! i = Some p -> handed_over p = true -> Lanes.waits (pool s) !! i = Some Lanes.WReleased ->
    exists l, JRecycle i ∈ lane_tasks l s
}.

Lemma lane_tasks_set l l' q s : lane_tasks l' (set_tasks l q s) = if decide (l = l') then q else lane_tasks l' s.
Proof.
  unfold lane_tasks, set_tasks. cbn [tasks]. case_decide as E; [subst l'; now rewrite lookup_insert_eq|now rewrite lookup_insert_ne].
Qed.

(** The goroutine of a wait moves on; the lanes and the pool do not. *)
Lemma job_inv_caller s i p p' w :
  job_inv s -> callers s !! i = Some p -> Lanes.waits (pool s) !! i = Some w -> ok_pair p' w = true ->
  (handed_over p = true -> handed_over p' = true) -> (handed_over p' = true -> handed_over p = true \/ on_lane w = false) ->
  job_inv (set_caller i p' s).
Proof.
  intros [Hlen Hp Hw Hr Hrl Hnd Hn Ha Hre] Hi Hwi Hok Ho Ho'. pose proof (lookup_lt_Some _ _ _ Hi) as Hlt.
  assert (Hgone : forall j, (exists q, callers s !! j = Some q /\ handed_over q = true) ->
                            exists q, <[i := p']> (callers s) !! j = Some q /\ handed_over q = true).
  { intros j (q & Hj & Hq). destruct (decide (i = j)) as [<-|Hne].
    - exists p'. rewrite list_lookup_insert_eq by done. split; [done|]. apply Ho. congruence.
    - exists q. now rewrite list_lookup_insert_ne. }
  split; cbn [pool callers closers set_caller]; try assumption.
  - now rewrite length_insert.
  - intros j q v Hj Hv. apply list_lookup_insert_Some in Hj as [(<- & <- & _)|[_ Hj]]; [congruence|eauto].
  - intros l j Hj. destruct (Hw l j Hj). auto.
  - intros l j Hj. destruct (Hr l j Hj). auto.
  - intros j q l Hj Hq Hv. apply list_lookup_insert_Some in Hj as [(<- & <- & _)|[_ Hj]]; [|eauto].
    destruct (Ho' Hq) as [Hq'|Hq']; [eauto|]. rewrite Hwi in Hv. now injection Hv as ->.
  - intros j q Hj Hq Hv. apply list_lookup_insert_Some in Hj as [(<- & <- & _)|[_ Hj]]; [|eauto].
    destruct (Ho' Hq) as [Hq'|Hq']; [eauto|]. rewrite Hwi in Hv. now injection Hv as ->.
Qed.

Definition not_noop (p : closer_pc) : bool := match p with CNoop _ _ => false | _ => true end.

Lemma noop_kept s k p p' l j :
  closers s !! k = Some p -> not_noop p = true -> not_noop p' = true ->
  ((exists ls, closers s !! j = Some (CNoop l ls)) <-> exists ls, <[k := p']> (closers s) !! j = Some (CNoop l ls)).
Proof.
  intros Hk Hp Hp'. split; intros [ls Hj]; exists ls.
  - rewrite list_lookup_insert_ne; [done|]. intros ->. rewrite Hk in Hj. now injection Hj as ->.
  - apply list_lookup_insert_Some in Hj as [(_ & -> & _)|[_ Hj]]; [done|assumption].
Qed.

(** A closer moves on between two points where it waits for no lane. *)
Lemma job_inv_closer s k p p' :
  job_inv s -> closers s !! k = Some p -> not_noop p = true -> not_noop p' = true -> job_inv (set_closer k p' s).
Proof.
  intros [Hlen Hp Hw Hr Hrl Hnd Hn Ha Hre] Hk Hq Hq'. split; cbn [pool callers closers set_closer]; try assumption.
  intros l j. rewrite <- (noop_kept s k p p' l j Hk Hq Hq'). apply Hn.
Qed.

(** A step of the pool by a wait whose job no lane has. *)
Lemma job_inv_pool s i p ps w w' :
  job_inv s -> callers s !! i = Some p -> handed_over p = false ->
  Lanes.waits (pool s) !! i = Some w -> Lanes.waits ps = <[i := w']> (Lanes.waits (pool s)) -> ok_pair p w' = true -> job_inv (set_pool ps s).
Proof.
  intros [Hlen Hp Hw Hr Hrl Hnd Hn Ha Hre] Hi Ho Hwi Hps Hok.
  assert (Hne : forall j, (exists q, callers s !! j = Some q /\ handed_over q = true) -> i <> j).
  { intros j (q & Hj & Hq) <-. congruence. }
  split; cbn [pool callers closers set_pool]; rewrite ?Hps; try assumption.
  - now rewrite length_insert.
  - intros j q v Hj Hv. apply list_lookup_insert_Some in Hv as [(<- & <- & _)|[_ Hv]]; [congruence|eauto].
  - intros l j Hj. destruct (Hw l j Hj) as [Hv Hg]. rewrite list_lookup_insert_ne by auto. auto.
  - intros l j Hj. destruct (Hr l j Hj) as [Hv Hg]. rewrite list_lookup_insert_ne by auto. auto.
  - intros j q l Hj Hq. rewrite list_lookup_insert_ne by (apply Hne; eauto). eauto.
  - intros j q Hj Hq. rewrite list_lookup_insert_ne by (apply Hne; eauto). eauto.
Qed.

(** The task at the head of a lane ends or is replaced, and its wait goes on with it: [Run] returned and [Recycle] released the lane, or [Recycle] is over. *)
Section Head.
Context (s : st) (l : loc) (i : nat) (j : job) (q q' : list job) (ps : Lanes.st) (w w' : Lanes.wait_pc).
Hypothesis (Hinv : job_inv s) (Hl : lane_tasks l s = j :: q).
Hypothesis (Hwi : Lanes.waits (pool s) !! i = Some w) (Hps : Lanes.waits ps = <[i := w']> (Lanes.waits (pool s))).
Hypothesis Hcase :
  (j = JWait i /\ w = Lanes.WActive l /\ w' = Lanes.WReleased /\ q' = JRecycle i :: q) \/
  (j = JRecycle i /\ w = Lanes.WReleased /\ w' = Lanes.WEnd true /\ q' = q).

Lemma head_owner : exists p, callers s !! i = Some p /\ handed_over p = true.
Proof. pose proof Hcase as [(-> & _)|(-> & _)]; [apply (ji_wait s Hinv l i)|apply (ji_rec s Hinv l i)]; rewrite Hl; left. Qed.

Lemma head_unique : j ∉ q /\ NoDup q.
Proof. pose proof (ji_nodup s Hinv l) as Hnd. rewrite Hl in Hnd. now apply NoDup_cons in Hnd. Qed.

Lemma head_wait l' : JWait i ∈ lane_tasks l' s -> l' = l /\ w = Lanes.WActive l.
Proof.
  intros Hin. destruct (ji_wait s Hinv l' i Hin) as [E _]. rewrite Hwi in E. pose proof Hcase as [(_ & -> & _)|(_ & -> & _)]; [|done].
  now injection E as ->.
Qed.

Lemma head_recycle l' : JRecycle i ∈ lane_tasks l' s -> w = Lanes.WReleased /\ l' = l.
Proof.
  intros Hin. destruct (ji_rec s Hinv l' i Hin) as [E _]. rewrite Hwi in E. injection E as ->. split; [done|].
  pose proof Hcase as [(_ & E & _)|(-> & _)]; [done|]. apply (ji_rec_lane s Hinv _ _ i Hin). rewrite Hl. left.
Qed.

Lemma head_is : j = JWait i \/ j = JRecycle i.
Proof. pose proof Hcase as [(-> & _)|(-> & _)]; auto. Qed.

(** Where the tasks after the step come from, and which stay. *)
Lemma head_tasks x l' : x ∈ lane_tasks l' (set_tasks l q' (set_pool ps s)) ->
  (x ∈ lane_tasks l' s /\ (l' = l -> x ∈ q)) \/ (x = JRecycle i /\ l' = l /\ w = Lanes.WActive l).
Proof.
  rewrite lane_tasks_set. case_decide as E; [subst l'|left; split; [done|congruence]].
  intros Hx. assert (Hin : x ∈ q -> x ∈ lane_tasks l s /\ (l = l -> x ∈ q)) by (intros; rewrite Hl; split; [now right|done]).
  pose proof Hcase as [(_ & -> & _ & ->)|(_ & _ & _ & ->)]; [|left; auto]. apply elem_of_cons in Hx as [->|Hx]; auto.
Qed.

Lemma head_kept x l' : x <> j -> x ∈ lane_tasks l' s -> x ∈ lane_tasks l' (set_tasks l q' (set_pool ps s)).
Proof.
  intros Hx Hin. rewrite lane_tasks_set. case_decide; [subst l'|exact Hin]. rewrite Hl in Hin. apply elem_of_cons in Hin as [->|Hin]; [done|].
  pose proof Hcase as [(_ & _ & _ & ->)|(_ & _ & _ & ->)]; [now right|done].
Qed.

Lemma job_inv_head : job_inv (set_tasks l q' (set_pool ps s)).
Proof.
  pose proof Hinv as [Hlen Hp Hw Hr Hrl Hnd Hn Ha Hre]. destruct head_owner as (p & Hpi & Hpo). destruct head_unique as [Hjq Hndq]. pose proof head_is as Hjw.
  split; cbn [pool callers closers set_pool set_tasks]; rewrite ?Hps.
  - now rewrite length_insert.
  - intros k r v Hk Hv. apply list_lookup_insert_Some in Hv as [(<- & <- & _)|[_ Hv]]; [|eauto].
    rewrite Hpi in Hk. injection Hk as <-. pose proof Hcase as [(_ & _ & -> & _)|(_ & _ & -> & _)]; now destruct p.
  - intros l' k Hk. destruct (head_tasks _ _ Hk) as [[Hin Hq]|(E & _)]; [|done]. destruct (Hw l' k Hin) as [E Hg]. split; [|done].
    rewrite list_lookup_insert_ne; [done|]. intros <-. destruct (head_wait l' Hin) as [-> Ew]. apply Hjq.
    pose proof Hcase as [(-> & _)|(_ & -> & _)]; [now apply Hq|done].
  - intros l' k Hk. destruct (head_tasks _ _ Hk) as [[Hin Hq]|(E & -> & Ew)].
    + destruct (Hr l' k Hin) as [E Hg]. split; [|done]. rewrite list_lookup_insert_ne; [done|]. intros <-. destruct (head_recycle l' Hin) as [Ew ->].
      apply Hjq. pose proof Hcase as [(_ & -> & _)|(-> & _)]; [done|now apply Hq].
    + injection E as ->. split; [|eauto]. rewrite list_lookup_insert_eq by (eapply lookup_lt_Some; eassumption).
      pose proof Hcase as [(_ & _ & -> & _)|(_ & -> & _)]; done.
  - intros l1 l2 k H1 H2. destruct (head_tasks _ _ H1) as [[Hin1 _]|(E1 & -> & Ew1)]; destruct (head_tasks _ _ H2) as [[Hin2 _]|(E2 & -> & Ew2)]; eauto.
    + injection E2 as ->. apply head_recycle in Hin1 as [Ew1 _]. congruence.
    + injection E1 as ->. apply head_recycle in Hin2 as [Ew2 _]. congruence.
  - intros l'. rewrite lane_tasks_set. case_decide; [|apply Hnd]. pose proof (head_recycle l) as Hrec. pose proof Hcase as [(_ & E & _ & ->)|(_ & _ & _ & ->)]; [|done].
    constructor; [|done]. intros Hin. destruct Hrec as [E' _]; [rewrite Hl; now right|congruence].
  - intros l' k. rewrite <- Hn. split; intros Hin.
    + destruct (head_tasks _ _ Hin) as [[? _]|(E & _)]; done.
    + apply head_kept; [|done]. intros <-. destruct Hjw; done.
  - intros k r l' Hk Hro Hv. apply list_lookup_insert_Some in Hv as [(_ & E & _)|[Hne Hv]].
    + pose proof Hcase as [(_ & _ & E' & _)|(_ & _ & E' & _)]; congruence.
    + apply head_kept; [|eauto]. intros <-. destruct Hjw as [E|E]; [injection E as ->|]; done.
  - intros k r Hk Hro Hv. apply list_lookup_insert_Some in Hv as [(<- & E & _)|[Hne Hv]].
    + exists l. rewrite lane_tasks_set, decide_True by done. pose proof Hcase as [(_ & _ & _ & ->)|(_ & _ & E' & _)]; [left|congruence].
    + destruct (Hre k r Hk Hro Hv) as [l' Hin]. exists l'. apply head_kept; [|done]. intros <-. destruct Hjw as [E|E]; [|injection E as ->]; done.
Qed.
End Head.

Lemma accept_in l j s l' x : x ∈ lane_tasks l' (accept l j s) <-> x ∈ lane_tasks l' s \/ (x = j /\ l' = l).
Proof.
  unfold accept. rewrite lane_tasks_set. case_decide as E.
  - subst l'. rewrite elem_of_app, list_elem_of_singleton. tauto.
  - split; [now left|]. intros [?|[_ ->]]; [done|congruence].
Qed.

Lemma accept_nodup l j s l' : (forall l, NoDup (lane_tasks l s)) -> j ∉ lane_tasks l s -> NoDup (lane_tasks l' (accept l j s)).
Proof.
  intros Hnd Hj. unfold accept. rewrite lane_tasks_set. case_decide as E; [|done]. apply NoDup_app. split_and!; [done| |apply NoDup_singleton].
  now intros x Hx ->%list_elem_of_singleton.
Qed.

Lemma job_inv_submit s i l :
  job_inv s -> callers s !! i = Some QHeld -> Lanes.waits (pool s) !! i = Some (Lanes.WActive l) ->
  job_inv (set_caller i QWait (accept l (JWait i) s)).
Proof.
  intros [Hlen Hp Hw Hr Hrl Hnd Hn Ha Hre] Hi Hwi. pose proof (lookup_lt_Some _ _ _ Hi) as Hlt.
  assert (Hno : forall j, (exists q, callers s !! j = Some q /\ handed_over q = true) -> j <> i).
  { intros j (q & Hj & Hq) ->. rewrite Hi in Hj. injection Hj as <-. done. }
  assert (Hin : forall l' x, x ∈ lane_tasks l' (set_caller i QWait (accept l (JWait i) s)) <-> x ∈ lane_tasks l' s \/ (x = JWait i /\ l' = l))
    by (intros l' x; apply (accept_in l (JWait i) s)).
  split; cbn [pool callers closers set_caller accept set_tasks].
  - now rewrite length_insert.
  - intros j q v Hj Hv. apply list_lookup_insert_Some in Hj as [(<- & <- & _)|[_ Hj]]; [|eauto]. rewrite Hwi in Hv. now injection Hv as <-.
  - intros l' j Hj. apply Hin in Hj as [Hj|[E ->]].
    + destruct (Hw l' j Hj) as [Hv Hg]. split; [done|]. rewrite list_lookup_insert_ne; [done|]. intros <-. now apply (Hno i).
    + injection E as ->. split; [done|]. exists QWait. rewrite list_lookup_insert_eq by done. done.
  - intros l' j Hj. apply Hin in Hj as [Hj|[E _]]; [|done]. destruct (Hr l' j Hj) as [Hv Hg]. split; [done|].
    rewrite list_lookup_insert_ne; [done|]. intros <-. now apply (Hno i).
  - intros l1 l2 j H1 H2. apply Hin in H1 as [H1|[E _]]; [|done]. apply Hin in H2 as [H2|[E _]]; [eauto|done].
  - intros l'. apply (accept_nodup l (JWait i) s l' Hnd). intros Hj. now apply (Hno i (proj2 (Hw _ _ Hj))).
  - intros l' k. rewrite Hin. rewrite <- Hn. split; [intros [?|[E _]]; done|now left].
  - intros j q l' Hj Hq Hv. apply Hin. apply list_lookup_insert_Some in Hj as [(<- & <- & _)|[_ Hj]]; [|left; eauto].
    right. rewrite Hwi in Hv. now injection Hv as ->.
  - intros j q Hj Hq Hv. apply list_lookup_insert_Some in Hj as [(<- & <- & _)|[_ Hj]]; [congruence|].
    destruct (Hre j q Hj Hq Hv) as [l' Hl']. exists l'. apply Hin. now left.
Qed.

(** The invariant without the closers' part, which [job_inv_noops] adds when no-ops come and go. *)
Lemma job_inv_noops s l k p' q :
  job_inv s -> (forall l' x, (forall k', x <> JNoop k') -> x ∈ lane_tasks l' (set_tasks l q s) <-> x ∈ lane_tasks l' s) -> NoDup q ->
  (forall l' j, JNoop j ∈ lane_tasks l' (set_tasks l q s) <-> exists ls, <[k := p']> (closers s) !! j = Some (CNoop l' ls)) ->
  job_inv (set_closer k p' (set_tasks l q s)).
Proof.
  intros [Hlen Hp Hw Hr Hrl Hnd Hn Ha Hre] Hin Hq Hnoop.
  split; cbn [pool callers closers set_closer set_tasks]; try assumption; change (lane_tasks ?l (set_closer _ _ ?s)) with (lane_tasks l s).
  - intros l' i Hi. change (JWait i ∈ lane_tasks l' (set_tasks l q s)) in Hi. apply Hin in Hi; [eauto|done].
  - intros l' i Hi. change (JRecycle i ∈ lane_tasks l' (set_tasks l q s)) in Hi. apply Hin in Hi; [eauto|done].
  - intros l1 l2 i H1 H2. change (JRecycle i ∈ lane_tasks l1 (set_tasks l q s)) in H1. change (JRecycle i ∈ lane_tasks l2 (set_tasks l q s)) in H2.
    apply Hin in H1; [|done]. apply Hin in H2; [eauto|done].
  - intros l'. change (NoDup (lane_tasks l' (set_tasks l q s))). rewrite lane_tasks_set. case_decide; [done|apply Hnd].
  - intros i p l' Hi Hpo Hv. change (JWait i ∈ lane_tasks l' (set_tasks l q s)). apply Hin; [done|eauto].
  - intros i p Hi Hpo Hv. destruct (Hre i p Hi Hpo Hv) as [l' Hl']. exists l'. change (JRecycle i ∈ lane_tasks l' (set_tasks l q s)). now apply Hin.
Qed.

Lemma job_inv_submit_noop s k l ls :
  job_inv s -> closers s !! k = Some (CBarrier (l :: ls)) -> job_inv (set_closer k (CNoop l ls) (accept l (JNoop k) s)).
Proof.
  intros Hinv Hk. pose proof Hinv as [_ _ _ _ _ Hnd Hn _ _]. pose proof (lookup_lt_Some _ _ _ Hk) as Hlt. apply job_inv_noops; [done| | |].
  - intros l' x Hx. change (set_tasks l _ s) with (accept l (JNoop k) s). rewrite accept_in. split; [|now left]. intros [?|[-> _]]; [done|now destruct (Hx k)].
  - apply NoDup_app. split_and!; [apply Hnd| |apply NoDup_singleton]. intros x Hx ->%list_elem_of_singleton.
    apply Hn in Hx as [ls' E]. congruence.
  - intros l' j. change (set_tasks l _ s) with (accept l (JNoop k) s). rewrite accept_in, Hn. split.
    + intros [[ls' Hj]|[E ->]].
      * exists ls'. rewrite list_lookup_insert_ne; [done|]. intros <-. congruence.
      * injection E as ->. exists ls. now rewrite list_lookup_insert_eq.
    + intros [ls' Hj]. apply list_lookup_insert_Some in Hj as [(<- & E & _)|[_ Hj]]; [|left; eauto]. injection E as -> ->. now right.
Qed.

Lemma job_inv_run_noop s k l q ls :
  job_inv s -> lane_tasks l s = JNoop k :: q -> closers s !! k = Some (CNoop l ls) -> job_inv (set_closer k (CBarrier ls) (set_tasks l q s)).
Proof.
  intros Hinv Hl Hk. pose proof Hinv as [_ _ _ _ _ Hnd Hn _ _]. pose proof (lookup_lt_Some _ _ _ Hk) as Hlt.
  pose proof (Hnd l) as Hq. rewrite Hl in Hq. apply NoDup_cons in Hq as [Hkq Hq]. apply job_inv_noops; [done| |done|].
  - intros l' x Hx. rewrite lane_tasks_set. case_decide; [subst l'|done]. rewrite Hl, elem_of_cons. split; [now right|].
    intros [->|?]; [now destruct (Hx k)|done].
  - intros l' j. rewrite lane_tasks_set. split.
    + intros Hj. assert (Hin : JNoop j ∈ lane_tasks l' s) by (case_decide; [subst l'; rewrite Hl; now right|done]).
      apply Hn in Hin as [ls' E]. exists ls'. rewrite list_lookup_insert_ne; [done|]. intros <-.
      rewrite Hk in E. injection E as -> ->. rewrite decide_True in Hj by done. done.
    + intros [ls' Hj]. apply list_lookup_insert_Some in Hj as [(_ & E & _)|[Hne Hj]]; [done|].
      assert (Hin : JNoop j ∈ lane_tasks l' s) by (apply Hn; eauto). case_decide; [subst l'|done].
      rewrite Hl in Hin. apply elem_of_cons in Hin as [E|Hin]; [|done]. injection E as ->. done.
Qed.

Lemma job_inv_step s s' : job_inv s -> step s s' -> job_inv s'.
Proof.
  intros Hinv Hs. pose proof (ji_pair s Hinv) as Hp. pose proof (ji_len s Hinv) as Hlen.
  assert (Hwait : forall i p, callers s !! i = Some p -> exists w, Lanes.waits (pool s) !! i = Some w /\ ok_pair p w = true).
  { intros i p Hi. destruct (lookup_lt_is_Some_2 (Lanes.waits (pool s)) i) as [w Hw];
      [rewrite Hlen; eapply lookup_lt_Some; eassumption|]. exists w. split; [done|eauto]. }
  destruct Hs; try (eapply job_inv_closer; [exact Hinv|eassumption|done..]).
  - destruct (Hwait _ _ H) as (w & Hw & Hok). apply (job_inv_caller _ _ QStart _ w Hinv); try done. now destruct w.
  - destruct (Hwait _ _ H) as (w & Hw & Hok). apply (job_inv_caller _ _ QStart _ w Hinv); try done; destruct w; auto.
  - apply (job_inv_caller _ _ QHeld _ Lanes.WStart Hinv); auto.
  - destruct (Lanes.wait_step_next _ _ _ H2) as (w' & w'' & Hw & Hps & Hnx). rewrite H0 in Hw. injection Hw as <-.
    apply (job_inv_pool s i QHeld ps w w'' Hinv); try done. destruct w; try done; cbn in Hnx; try (destruct Hnx as [Hnx|[l Hnx]]); now subst.
  - apply (job_inv_caller _ _ QHeld _ (Lanes.WEnd false) Hinv); auto.
  - now apply job_inv_submit.
  - apply (job_inv_caller _ _ QHeld _ (Lanes.WActive l) Hinv); auto.
  - destruct (Lanes.wait_step_next _ _ _ H0) as (w & w' & Hw & Hps & Hnx). pose proof (Hp _ _ _ H Hw) as Hok.
    apply (job_inv_pool s i QRefused ps w w' Hinv); try done. destruct w; try done; cbn in Hnx; now subst.
  - apply (job_inv_caller _ _ QRefused _ (Lanes.WEnd true) Hinv); auto.
  - apply (job_inv_caller _ _ QWait _ (Lanes.WEnd true) Hinv); auto.
  - destruct (Hwait _ _ H) as (w & Hw & Hok). apply (job_inv_caller _ _ QWait _ w Hinv); auto. now destruct w.
  - destruct (Lanes.wait_step_next _ _ _ H0) as (w & w' & Hw & Hps & Hnx).
    assert (Hwl : w = Lanes.WActive l). { destruct (ji_wait s Hinv l i) as [E _]; [rewrite H; left|]. rewrite Hw in E. now injection E. }
    subst w. cbn in Hnx. subst w'. eapply job_inv_head; eauto 8.
  - destruct (Lanes.wait_step_next _ _ _ H0) as (w & w' & Hw & Hps & Hnx).
    assert (Hwl : w = Lanes.WReleased). { destruct (ji_rec s Hinv l i) as [E _]; [rewrite H; left|]. rewrite Hw in E. now injection E. }
    subst w. cbn in Hnx. subst w'. eapply job_inv_head; eauto 8.
  - now apply job_inv_run_noop.
  - now apply job_inv_submit_noop.
  - apply (job_inv_closer (set_destroyed (closes k) s) k CDestroy); try done. now destruct Hinv.
  - apply (job_inv_closer (set_closed (closes k) s) k CDestroyed); try done. now destruct Hinv.
Qed.
(** ** What the barrier has left to drain *)

(** Where a job on the resource being closed may still be when its closer is at [p]: on a lane the barrier has to visit or is visiting. *)
Definition may_be_on (p : closer_pc) (l : loc) : Prop :=
  match p with
  | CBarrier ls => l ∈ ls
  | CNoop l' ls => l ∈ ls \/ l = l'
  | CDestroy | CDestroyed => False
  | _ => True
  end.

Record drain_inv (s : st) : Prop := mkDrainInv {
  di_left : forall k p l i, closers s !! k = Some p -> JWait i ∈ lane_tasks l s -> wait_on i = Some (closes k) -> may_be_on p l;
  di_order : forall k l ls x y i, closers s !! k = Some (CNoop l ls) -> lane_tasks l s !! x = Some (JNoop k) ->
    lane_tasks l s !! y = Some (JWait i) -> wait_on i = Some (closes k) -> (y < x)%nat;
  di_dead : forall l i r, JWait i ∈ lane_tasks l s -> wait_on i = Some r -> r ∉ destroyed s
}.

(** A closer that submits nothing moves on. *)
Lemma drain_inv_closer s k p' :
  drain_inv s -> not_noop p' = true ->
  (forall l i, JWait i ∈ lane_tasks l s -> wait_on i = Some (closes k) -> may_be_on p' l) -> drain_inv (set_closer k p' s).
Proof.
  intros [Hl Ho Hd] Hn Hp'. split; cbn [closers destroyed set_closer]; [| |exact Hd].
  - intros j q l i Hj Hi Hon. apply list_lookup_insert_Some in Hj as [(<- & <- & _)|[_ Hj]]; [exact (Hp' l i Hi Hon)|exact (Hl _ _ _ _ Hj Hi Hon)].
  - intros j l ls x y i Hj. apply list_lookup_insert_Some in Hj as [(_ & -> & _)|[_ Hj]]; [done|]. exact (Ho _ _ _ _ _ _ Hj).
Qed.

(** The head of a lane goes, or becomes one that is not a wait's. *)
Lemma drain_inv_pop s l j q q' :
  drain_inv s -> lane_tasks l s = j :: q -> (forall k, j <> JNoop k \/ forall ls, closers s !! k <> Some (CNoop l ls)) ->
  q' = q \/ (exists i, q' = JRecycle i :: q) -> drain_inv (set_tasks l q' s).
Proof.
  intros [Hle Ho Hd] Hl Hj Hq.
  assert (Hin : forall l' i, JWait i ∈ lane_tasks l' (set_tasks l q' s) -> JWait i ∈ lane_tasks l' s).
  { intros l' i. rewrite lane_tasks_set. case_decide; [subst l'|done]. rewrite Hl. destruct Hq as [->|[i' ->]]; [now right|].
    intros [E|Hi]%elem_of_cons; [done|now right]. }
  split; cbn [closers destroyed set_tasks].
  - intros k p l' i Hk Hi. apply (Hle _ _ _ _ Hk). now apply Hin.
  - intros k l' ls x y i Hk. rewrite lane_tasks_set. case_decide; [subst l'|apply (Ho _ _ _ _ _ _ Hk)]. intros Hx Hy Hon.
    destruct Hq as [->|[i' ->]].
    + specialize (Ho k l ls (S x) (S y) i Hk). rewrite Hl in Ho. specialize (Ho Hx Hy Hon). lia.
    + destruct x as [|x]; [done|]. destruct y as [|y]; [done|]. specialize (Ho k l ls (S x) (S y) i Hk). rewrite Hl in Ho. apply Ho; assumption.
  - intros l' i r Hi. apply (Hd l'). now apply Hin.
Qed.

Lemma drain_inv_submit s i l :
  drain_inv s -> lock_inv s -> callers s !! i = Some QHeld -> drain_inv (set_caller i QWait (accept l (JWait i) s)).
Proof.
  intros [Hle Ho Hd] Hlock Hi.
  assert (Hfree : forall k p, closers s !! k = Some p -> wait_on i = Some (closes k) -> closer_in p = false).
  { intros k p Hk Hon. destruct (closer_in p) eqn:E; [|done]. destruct (inv_excl s Hlock _ _ _ Hi eq_refl Hon) as [_ Hn].
    destruct Hn. now apply locked_intro with p. }
  split; cbn [closers destroyed set_caller accept set_tasks].
  - intros k p l' j Hk Hj Hon. apply (accept_in l (JWait i) s l') in Hj as [Hj|[E ->]]; [exact (Hle _ _ _ _ Hk Hj Hon)|].
    injection E as ->. specialize (Hfree _ _ Hk Hon). destruct p; done.
  - intros k l' ls x y j Hk Hx Hy Hon. change (lane_tasks l' (accept l (JWait i) s) !! x = Some (JNoop k)) in Hx.
    change (lane_tasks l' (accept l (JWait i) s) !! y = Some (JWait j)) in Hy. unfold accept in Hx, Hy. rewrite lane_tasks_set in Hx, Hy.
    case_decide; [subst l'|exact (Ho _ _ _ _ _ _ Hk Hx Hy Hon)].
    apply lookup_app_Some in Hy as [Hy|[Hle' Hy]]; apply lookup_app_Some in Hx as [Hx|[Hlx Hx]].
    + exact (Ho _ _ _ _ _ _ Hk Hx Hy Hon).
    + apply lookup_lt_Some in Hy. lia.
    + apply list_lookup_singleton_Some in Hy as [_ E]. injection E as ->. now specialize (Hfree _ _ Hk Hon).
    + apply list_lookup_singleton_Some in Hx as [_ E]. done.
  - intros l' j r Hj Hon. apply (accept_in l (JWait i) s l') in Hj as [Hj|[E _]]; [exact (Hd _ _ _ Hj Hon)|].
    injection E as ->. exact (proj1 (inv_excl s Hlock _ _ _ Hi eq_refl Hon)).
Qed.

Lemma drain_inv_submit_noop s k l ls :
  drain_inv s -> job_inv s -> closers s !! k = Some (CBarrier (l :: ls)) -> drain_inv (set_closer k (CNoop l ls) (accept l (JNoop k) s)).
Proof.
  intros [Hle Ho Hd] Hjob Hk.
  assert (Hin : forall l' i, JWait i ∈ lane_tasks l' (accept l (JNoop k) s) -> JWait i ∈ lane_tasks l' s)
    by (intros l' i Hi; apply accept_in in Hi as [Hi|[E _]]; done).
  split; cbn [closers destroyed set_closer accept set_tasks].
  - intros j p l' i Hj Hi Hon. apply Hin in Hi. apply list_lookup_insert_Some in Hj as [(<- & <- & _)|[_ Hj]]; [|exact (Hle _ _ _ _ Hj Hi Hon)].
    specialize (Hle _ _ _ _ Hk Hi Hon). cbn [may_be_on] in *. apply elem_of_cons in Hle as [->|?]; auto.
  - intros j l' ls' x y i Hj Hx Hy Hon. change (lane_tasks l' (accept l (JNoop k) s) !! x = Some (JNoop j)) in Hx.
    change (lane_tasks l' (accept l (JNoop k) s) !! y = Some (JWait i)) in Hy. unfold accept in Hx, Hy. rewrite lane_tasks_set in Hx, Hy.
    apply list_lookup_insert_Some in Hj as [(<- & E & _)|[_ Hj]].
    + injection E as -> ->. rewrite decide_True in Hx, Hy by done.
      apply lookup_app_Some in Hy as [Hy|[_ Hy]]; [|now apply list_lookup_singleton_Some in Hy as [_ E']].
      apply lookup_app_Some in Hx as [Hx|[Hlx Hx]]; [|apply lookup_lt_Some in Hy; lia].
      apply list_elem_of_lookup_2, (ji_noop s Hjob) in Hx as [ls2 E']. congruence.
    + case_decide; [subst l'|exact (Ho _ _ _ _ _ _ Hj Hx Hy Hon)].
      apply lookup_app_Some in Hy as [Hy|[_ Hy]]; [|now apply list_lookup_singleton_Some in Hy as [_ E']].
      apply lookup_app_Some in Hx as [Hx|[Hlx Hx]]; [exact (Ho _ _ _ _ _ _ Hj Hx Hy Hon)|apply lookup_lt_Some in Hy; lia].
  - intros l' i r Hi. apply (Hd l'). now apply Hin.
Qed.

(** The no-op at the head of a lane: every job on the resource being closed is gone from this lane. *)
Lemma drain_inv_run_noop s k l q ls :
  drain_inv s -> lane_tasks l s = JNoop k :: q -> closers s !! k = Some (CNoop l ls) -> drain_inv (set_closer k (CBarrier ls) (set_tasks l q s)).
Proof.
  intros [Hle Ho Hd] Hl Hk.
  assert (Hin : forall l' i, JWait i ∈ lane_tasks l' (set_tasks l q s) -> JWait i ∈ lane_tasks l' s)
    by (intros l' i; rewrite lane_tasks_set; case_decide; [subst l'; rewrite Hl; now right|done]).
  split; cbn [closers destroyed set_closer set_tasks].
  - intros j p l' i Hj Hi Hon. pose proof (Hin l' i Hi) as Hi'.
    apply list_lookup_insert_Some in Hj as [(<- & <- & _)|[_ Hj]]; [|exact (Hle _ _ _ _ Hj Hi' Hon)].
    cbn [may_be_on]. destruct (Hle _ _ _ _ Hk Hi' Hon) as [?| ->]; [done|]. exfalso.
    change (JWait i ∈ lane_tasks l (set_tasks l q s)) in Hi. rewrite lane_tasks_set, decide_True in Hi by done.
    apply list_elem_of_lookup_1 in Hi as [y Hy]. specialize (Ho k l ls 0%nat (S y) i Hk). rewrite Hl in Ho. specialize (Ho eq_refl Hy Hon). lia.
  - intros j l' ls' x y i Hj. apply list_lookup_insert_Some in Hj as [(_ & E & _)|[_ Hj]]; [done|].
    change (lane_tasks l' (set_closer k (CBarrier ls) (set_tasks l q s))) with (lane_tasks l' (set_tasks l q s)). rewrite lane_tasks_set.
    case_decide; [subst l'|exact (Ho _ _ _ _ _ _ Hj)]. intros Hx Hy Hon.
    specialize (Ho j l ls' (S x) (S y) i Hj). rewrite Hl in Ho. specialize (Ho Hx Hy Hon). lia.
  - intros l' i r Hi. apply (Hd l'). now apply Hin.
Qed.

Lemma drain_inv_destroy s k :
  drain_inv s -> closers s !! k = Some CDestroy -> drain_inv (set_closer k CDestroyed (set_destroyed (closes k) s)).
Proof.
  intros Hinv Hk. pose proof (di_left s Hinv k CDestroy) as Hno. apply (drain_inv_closer (set_destroyed (closes k) s)); [|done|].
  - destruct Hinv as [Hle Ho Hd]. split; try assumption. cbn [destroyed set_destroyed]. intros l i r Hi Hon [E%elem_of_singleton|Hin]%elem_of_union.
    + subst r. exact (Hno l i Hk Hi Hon).
    + exact (Hd l i r Hi Hon Hin).
  - intros l i Hi Hon. exact (Hno l i Hk Hi Hon).
Qed.

Lemma drain_inv_step s s' : Lanes.inv (pool s) -> lock_inv s -> job_inv s -> drain_inv s -> step s s' -> drain_inv s'.
Proof.
  intros Hpool Hlock Hjob Hinv Hs. pose proof Hinv as [Hle Ho Hd].
  destruct Hs; try (split; assumption); try (apply drain_inv_closer; [exact Hinv|done|done]).
  - now apply drain_inv_submit.
  - apply (drain_inv_pop (set_pool ps s) l (JWait i) q); [split; assumption|done|now left|eauto].
  - apply (drain_inv_pop (set_pool ps s) l (JRecycle i) q); [split; assumption|done|now left|eauto].
  - now apply drain_inv_run_noop.
  - apply drain_inv_closer; [done|done|]. intros l i Hi _. destruct (ji_wait s Hjob l i Hi) as [Hw _].
    pose proof (Lanes.inv_active _ Hpool) as Ha. pose proof (sum_lookup Lanes.counted _ _ _ Hw) as E. cbn [Lanes.counted] in E. lia.
  - apply drain_inv_closer; [done|done|]. intros l i Hi _. destruct (ji_wait s Hjob l i Hi) as [Hw _].
    pose proof (Lanes.inv_lanes _ Hpool) as Hl. rewrite Forall_lookup in Hl. exact (Hl i _ Hw).
  - now apply drain_inv_submit_noop.
  - apply drain_inv_closer; [done|done|]. intros l i Hi Hon. specialize (Hle _ _ _ _ H Hi Hon). now apply not_elem_of_nil in Hle.
  - now apply drain_inv_destroy.
  - apply (drain_inv_closer (set_closed (closes k) s)); [split; assumption|done|done].
Qed.

Lemma drain_pool_step s s' : Lanes.inv (pool s) -> step s s' -> Lanes.inv (pool s').
Proof. intros Hinv Hs. destruct Hs; cbn; try exact Hinv; eapply Lanes.lanes_inv_step; eauto; eexists; eassumption. Qed.

Record inv (s : st) : Prop := mkInv {
  inv_pool : Lanes.inv (pool s);
  inv_lock : lock_inv s;
  inv_job : job_inv s;
  inv_drain : drain_inv s
}.

Lemma drain_inv_start n m : inv (start n m).
Proof.
  assert (Hc : forall i p, callers (start n m) !! i = Some p -> p = QStart) by (intros i p Hi; now apply lookup_replicate in Hi as [-> _]).
  assert (Hk : forall k p, closers (start n m) !! k = Some p -> p = CStart) by (intros k p Hi; now apply lookup_replicate in Hi as [-> _]).
  assert (Hw : forall i w, Lanes.waits (pool (start n m)) !! i = Some w -> w = Lanes.WStart) by (intros i w Hi; now apply lookup_replicate in Hi as [-> _]).
  assert (Hq : forall l, lane_tasks l (start n m) = []) by (intros l; unfold lane_tasks; cbn [tasks start]; now rewrite lookup_empty).
  split.
  - apply Lanes.inv_init.
  - split.
    + intros i p r Hi Hin. apply Hc in Hi as ->. done.
    + intros k k' p p' H1 _ Hin. apply Hk in H1 as ->. done.
    + intros r Hr. now apply not_elem_of_empty in Hr.
    + intros k p H1 Hin. apply Hk in H1 as ->. done.
  - split.
    + cbn. now rewrite !length_replicate.
    + intros i p w Hi Hv. apply Hc in Hi as ->. apply Hw in Hv as ->. done.
    + intros l i Hi. rewrite Hq in Hi. now apply not_elem_of_nil in Hi.
    + intros l i Hi. rewrite Hq in Hi. now apply not_elem_of_nil in Hi.
    + intros l l' i Hi. rewrite Hq in Hi. now apply not_elem_of_nil in Hi.
    + intros l. rewrite Hq. constructor.
    + intros l k. rewrite Hq. split; [intros Hi; now apply not_elem_of_nil in Hi|]. intros [ls E]. now apply Hk in E.
    + intros i p l Hi Ho E. now apply Hw in E.
    + intros i p Hi Ho E. now apply Hw in E.
  - split.
    + intros k p l i _ Hi. rewrite Hq in Hi. now apply not_elem_of_nil in Hi.
    + intros k l ls x y i Hi. now apply Hk in Hi.
    + intros l i r Hi. rewrite Hq in Hi. now apply not_elem_of_nil in Hi.
Qed.

Lemma drain_reachable_inv n m s : reachable (system n m) s -> inv s.
Proof.
  apply (reachable_invariant (system n m) inv).
  - intros s0 ->. apply drain_inv_start.
  - intros s1 s2 [Hp Hl Hj Hd] Hs. split; [eapply drain_pool_step|eapply lock_inv_step|eapply job_inv_step|eapply drain_inv_step]; eassumption.
Qed.

(** ** Nothing gets stuck, nothing runs forever *)

(** The goroutines whose next step takes the context's [opMu], in [doJobCtx] and in [doWith]. *)
Definition gate_caller (i : nat) (s : st) : Prop := callers s !! i = Some QHeld /\ Lanes.waits (pool s) !! i = Some Lanes.WStart.
Definition gate_closer (k : nat) (s : st) : Prop := closers s !! k = Some CLocked.

(** None of them goes on. *)
Definition keeps_gates (s s' : st) : Prop :=
  (forall i, gate_caller i s -> gate_caller i s') /\ (forall k, gate_closer k s -> gate_closer k s').

Lemma keeps_caller s t i p : keeps_gates s t -> ~ gate_caller i s -> keeps_gates s (set_caller i p t).
Proof.
  intros [Hc Hk] Hi. split; [|exact Hk]. intros j Hj. destruct (Hc j Hj) as [H1 H2]. split; [|exact H2]. cbn [callers set_caller].
  rewrite list_lookup_insert_ne; [exact H1|]. intros ->. contradiction.
Qed.

Lemma keeps_closer s t k p : keeps_gates s t -> ~ gate_closer k s -> keeps_gates s (set_closer k p t).
Proof.
  intros [Hc Hk] Hn. split; [exact Hc|]. intros j Hj. unfold gate_closer. cbn [closers set_closer].
  rewrite list_lookup_insert_ne; [exact (Hk j Hj)|]. intros ->. contradiction.
Qed.

Lemma keeps_pool s i ps : Lanes.wait_step i (pool s) ps -> ~ gate_caller i s -> keeps_gates s (set_pool ps s).
Proof.
  intros Hs Hi. apply Lanes.wait_step_next in Hs as (w & w' & Hw & E & _). split; [|done]. intros j [H1 H2]. split; [exact H1|].
  cbn [pool set_pool]. rewrite E, list_lookup_insert_ne; [exact H2|]. intros ->. now apply Hi.
Qed.

Lemma keeps_tasks s t l q : keeps_gates s t -> keeps_gates s (set_tasks l q t).
Proof. exact id. Qed.

Lemma keeps_same s t : callers t = callers s -> closers t = closers s -> pool t = pool s -> keeps_gates s t.
Proof. intros Hc Hk Hp. split; [intros i|intros k]; unfold gate_caller, gate_closer; now rewrite ?Hc, ?Hk, ?Hp. Qed.

Lemma not_gate_caller i p s : callers s !! i = Some p -> p <> QHeld -> ~ gate_caller i s.
Proof. intros Hi Hp [E _]. congruence. Qed.
Lemma not_gate_wait i w s : Lanes.waits (pool s) !! i = Some w -> w <> Lanes.WStart -> ~ gate_caller i s.
Proof. intros Hi Hw [_ E]. congruence. Qed.
Lemma not_gate_closer k p s : closers s !! k = Some p -> p <> CLocked -> ~ gate_closer k s.
Proof. unfold gate_closer. congruence. Qed.

Lemma in_mu_exists (ws : list Lanes.wait_pc) :
  sum_list_with Lanes.in_mu ws = 1%nat -> exists i w, ws !! i = Some w /\ Lanes.in_mu w = 1%nat.
Proof.
  induction ws as [|w ws IH]; [done|]. cbn [sum_list_with]. intros E. destruct (Lanes.in_mu w) as [|n] eqn:Hw.
  - destruct IH as (i & v & Hi & Hv); [lia|]. exists (S i), v. auto.
  - exists 0%nat, w. split; [done|]. lia.
Qed.

(** A wait that holds [laneCreateMu] can go on. *)
Lemma in_mu_moves s i w : inv s -> Lanes.waits (pool s) !! i = Some w -> Lanes.in_mu w = 1%nat -> exists s', step s s' /\ keeps_gates s s'.
Proof.
  intros [Hpool Hlock Hjob Hdrain] Hw Hmu.
  destruct (lookup_lt_is_Some_2 (callers s) i) as [p Hi]; [rewrite <- (ji_len s Hjob); eapply lookup_lt_Some; eassumption|].
  pose proof (ji_pair s Hjob _ _ _ Hi Hw) as Hok. assert (p = QHeld) as -> by (destruct p, w; cbn in Hok, Hmu; congruence).
  assert (Hstep : forall ps, Lanes.wait_step i (pool s) ps -> acquiring w = true -> exists s', step s s' /\ keeps_gates s s').
  { intros ps Hs Ha. exists (set_pool ps s). split; [now apply (acquire s i w)|]. apply (keeps_pool s i ps Hs). apply (not_gate_wait i w s Hw). now intros ->. }
  destruct w; try done.
  - destruct (Lanes.pick (Lanes.lanes (pool s)) (Lanes.ids (pool s))) as [l|] eqn:Hpick.
    + eapply Hstep; [now apply (Lanes.recheck_lane i _ l)|done].
    + eapply Hstep; [now apply (Lanes.recheck_none i)|done].
  - eapply Hstep; [now apply Lanes.create_failed|done].
Qed.

(** A lane that has accepted something can go on. *)
Lemma lane_moves s l j q : inv s -> lane_tasks l s = j :: q -> exists s', step s s' /\ keeps_gates s s'.
Proof.
  intros [Hpool Hlock Hjob Hdrain] Hl. destruct j as [i|i|k].
  - destruct (ji_wait s Hjob l i) as [Hw _]; [rewrite Hl; left|]. eexists. split; [eapply run_wait; [done|]; eapply Lanes.release_lane; eassumption|].
    apply keeps_tasks, (keeps_pool s i); [eapply Lanes.release_lane; eassumption|]. now apply (not_gate_wait i (Lanes.WActive l)).
  - destruct (ji_rec s Hjob l i) as [Hw _]; [rewrite Hl; left|]. eexists. split; [eapply recycled; [done|]; eapply Lanes.uncount_wait; eassumption|].
    apply keeps_tasks, (keeps_pool s i); [eapply Lanes.uncount_wait; eassumption|]. now apply (not_gate_wait i Lanes.WReleased).
  - destruct (proj1 (ji_noop s Hjob l k)) as [ls Hk]; [rewrite Hl; left|]. eexists. split; [eapply run_noop; eassumption|].
    apply keeps_closer; [now apply keeps_same|]. now apply (not_gate_closer k (CNoop l ls)).
Qed.

(** With every lane idle, a goroutine inside its resource's lock can go on, and takes [opMu] only if it is about to. *)
Lemma caller_moves s i p :
  inv s -> (forall l, lane_tasks l s = []) -> callers s !! i = Some p -> caller_in p = true ->
  exists s', step s s' /\ (gate_caller i s \/ keeps_gates s s').
Proof.
  intros Hinv Hidle Hi Hin. pose proof Hinv as [Hpool Hlock Hjob Hdrain].
  destruct (lookup_lt_is_Some_2 (Lanes.waits (pool s)) i) as [w Hw]; [rewrite (ji_len s Hjob); eapply lookup_lt_Some; eassumption|].
  pose proof (ji_pair s Hjob _ _ _ Hi Hw) as Hok.
  assert (Hroom : forall l, (length (lane_tasks l s) < lane_capacity)%nat) by (intros l; rewrite Hidle; cbn; unfold lane_capacity; lia).
  assert (Hmu : forall j v, Lanes.waits (pool s) !! j = Some v -> Lanes.in_mu v = 1%nat -> exists s', step s s' /\ (gate_caller i s \/ keeps_gates s s')).
  { intros j v Hj Hv. destruct (in_mu_moves s j v Hinv Hj Hv) as (s' & Hs & Hg). eauto. }
  assert (Hset : forall t p', keeps_gates s t -> step s (set_caller i p' t) -> w <> Lanes.WStart -> exists s', step s s' /\ (gate_caller i s \/ keeps_gates s s')).
  { intros t p' Ht Hs Hne. exists (set_caller i p' t). split; [exact Hs|]. right. apply (keeps_caller s t i p' Ht). now apply (not_gate_wait i w). }
  assert (Hps : forall ps, Lanes.wait_step i (pool s) ps -> step s (set_pool ps s) -> w <> Lanes.WStart -> exists s', step s s' /\ (gate_caller i s \/ keeps_gates s s')).
  { intros ps Hs Hs' Hne. exists (set_pool ps s). split; [exact Hs'|]. right. apply (keeps_pool s i ps Hs). now apply (not_gate_wait i w). }
  pose proof (keeps_same s s eq_refl eq_refl eq_refl) as Hsame.
  destruct p; try done.
  - destruct w as [| | | |l|l| |[]]; try done.
    + exists (set_caller i QDone s). split; [now apply rejected|now left].
    + destruct (Lanes.createMu (pool s)) eqn:Hm0.
      * pose proof (Lanes.inv_mu _ Hpool) as Hm. rewrite Hm0 in Hm. destruct (in_mu_exists _ Hm) as (j & v & Hj & Hv). exact (Hmu j v Hj Hv).
      * pose proof (Lanes.create_lock i _ Hw Hm0) as Hs. apply (Hps _ Hs); [exact (acquire s i _ _ Hi Hw eq_refl Hs)|done].
    + exact (Hmu i _ Hw eq_refl).
    + exact (Hmu i _ Hw eq_refl).
    + pose proof (Lanes.count_wait i _ l Hw) as Hs. apply (Hps _ Hs); [exact (acquire s i _ _ Hi Hw eq_refl Hs)|done].
    + apply (Hset (accept l (JWait i) s) QWait); [now apply keeps_tasks|now apply submit|done].
    + apply (Hset s QDone Hsame); [now apply no_lane|done].
  - destruct w as [| | | |l|l| |[]]; try done.
    + pose proof (Lanes.release_lane i _ l Hw) as Hs. apply (Hps _ Hs); [now apply (recycle_refused s i)|done].
    + pose proof (Lanes.uncount_wait i _ Hw) as Hs. apply (Hps _ Hs); [now apply (recycle_refused s i)|done].
    + apply (Hset s QDone Hsame); [now apply refused_done|done].
  - destruct w as [| | | |l|l| |[]]; try done.
    + pose proof (ji_active s Hjob _ _ l Hi eq_refl Hw) as Hl. rewrite Hidle in Hl. now apply not_elem_of_nil in Hl.
    + destruct (ji_released s Hjob _ _ Hi eq_refl Hw) as [l Hl]. rewrite Hidle in Hl. now apply not_elem_of_nil in Hl.
    + apply (Hset s QDone Hsame); [now apply receive|done].
Qed.

Lemma closer_moves s k p :
  inv s -> (forall l, lane_tasks l s = []) -> closers s !! k = Some p -> closer_in p = true ->
  exists s', step s s' /\ (gate_closer k s \/ keeps_gates s s').
Proof.
  intros [Hpool Hlock Hjob Hdrain] Hidle Hk Hin.
  assert (Hset : forall t p', keeps_gates s t -> step s (set_closer k p' t) -> p <> CLocked -> exists s', step s s' /\ (gate_closer k s \/ keeps_gates s s')).
  { intros t p' Ht Hs Hne. exists (set_closer k p' t). split; [exact Hs|]. right. apply (keeps_closer s t k p' Ht). now apply (not_gate_closer k p). }
  pose proof (keeps_same s s eq_refl eq_refl eq_refl) as Hsame.
  destruct p as [| | |[|l ls]|l ls| | |]; try done.
  - destruct (decide (Lanes.syncActive (pool s) = 0)); eexists; (split; [|left; exact Hk]); [eapply check_idle; eassumption|eapply check_busy; eassumption].
  - apply (Hset s (CBarrier (Lanes.ids (pool s))) Hsame); [now apply snapshot|done].
  - apply (Hset s CDestroy Hsame); [now apply barrier_done|done].
  - apply (Hset (accept l (JNoop k) s) (CNoop l ls)); [now apply keeps_tasks|apply submit_noop; [done|]|done].
    rewrite Hidle. cbn. unfold lane_capacity. lia.
  - assert (Hl : JNoop k ∈ lane_tasks l s) by (apply (ji_noop s Hjob); eauto). rewrite Hidle in Hl. now apply not_elem_of_nil in Hl.
  - apply (Hset (set_destroyed (closes k) s) CDestroyed); [now apply keeps_same|now apply destroy|done].
  - apply (Hset (set_closed (closes k) s) CEnd); [now apply keeps_same|now apply unlock|done].
Qed.

Definition finished (s : st) : Prop := Forall (fun p => p = QDone) (callers s) /\ Forall (fun p => p = CEnd) (closers s).

Lemma outside_moves s :
  (forall r, ~ locked r s) -> (forall r, ~ rlocked r s) -> Forall (fun p => caller_in p = false) (callers s) -> Forall (fun p => closer_in p = false) (closers s) ->
  finished s \/ exists s', step s s'.
Proof.
  intros Hl Hr Hc Hk.
  destruct (decide (Forall (fun p => p <> QStart) (callers s))) as [Hq|Hq].
  - destruct (decide (Forall (fun p => p <> CStart) (closers s))) as [Hs|Hs].
    + left. split; apply Forall_forall; intros p Hp.
      * rewrite Forall_forall in Hc, Hq. specialize (Hc p Hp). specialize (Hq p Hp). destruct p; done.
      * rewrite Forall_forall in Hk, Hs. specialize (Hk p Hp). specialize (Hs p Hp). destruct p; done.
    + right. apply not_Forall_Exists in Hs; [|intros p; apply _]. apply Exists_exists in Hs as (p & Hp & E).
      apply list_elem_of_lookup_1 in Hp as [k Hp]. assert (p = CStart) as -> by (destruct p; try done; now destruct E).
      destruct (decide (closes k ∈ closed s)); eexists; [eapply lock_closed; eauto|eapply lock; eauto].
  - right. apply not_Forall_Exists in Hq; [|intros p; apply _]. apply Exists_exists in Hq as (p & Hp & E).
    apply list_elem_of_lookup_1 in Hp as [i Hp]. assert (p = QStart) as -> by (destruct p; try done; now destruct E).
    destruct (wait_on i) as [r|] eqn:Hon.
    + destruct (decide (r ∈ closed s)); eexists; [eapply enter_closed; eauto|]. eapply enter; [done|]. intros r' E'. assert (r' = r) as -> by congruence. auto.
    + eexists. eapply enter; [done|]. congruence.
Qed.

Lemma drain_progress s : inv s -> finished s \/ exists s', step s s'.
Proof.
  intros Hinv.
  destruct (decide (map_Forall (fun _ q => q = []) (tasks s))) as [Hidle|Hbusy].
  2:{ right. apply map_not_Forall in Hbusy; [|apply _]. destruct Hbusy as (l & q & Hl & Hq). destruct q as [|j q]; [done|].
      destruct (lane_moves s l j q Hinv) as (s' & Hs & _); [unfold lane_tasks; now rewrite Hl|eauto]. }
  assert (He : forall l, lane_tasks l s = []).
  { intros l. unfold lane_tasks. destruct (tasks s !! l) as [q|] eqn:Hl; [exact (Hidle l q Hl)|done]. }
  destruct (decide (Forall (fun p => caller_in p = false) (callers s))) as [Hc|Hc].
  2:{ right. apply not_Forall_Exists in Hc; [|intros p; apply _]. apply Exists_exists in Hc as (p & Hp & E). apply list_elem_of_lookup_1 in Hp as [i Hp].
      destruct (caller_moves s i p Hinv He Hp) as (s' & Hs & _); [now apply not_false_iff_true|eauto]. }
  destruct (decide (Forall (fun p => closer_in p = false) (closers s))) as [Hk|Hk].
  2:{ right. apply not_Forall_Exists in Hk; [|intros p; apply _]. apply Exists_exists in Hk as (p & Hp & E). apply list_elem_of_lookup_1 in Hp as [k Hp].
      destruct (closer_moves s k p Hinv He Hp) as (s' & Hs & _); [now apply not_false_iff_true|eauto]. }
  apply outside_moves; [| |done|done].
  - intros r (k & p & Hp & Hin & _). rewrite Forall_lookup in Hk. specialize (Hk k p Hp). cbn in Hk. congruence.
  - intros r (i & p & Hp & Hin & _). rewrite Forall_lookup in Hc. specialize (Hc i p Hp). cbn in Hc. congruence.
Qed.

(** The steps each party may still take. *)
Definition wait_left (w : Lanes.wait_pc) : nat :=
  match w with
  | Lanes.WStart => 7 | Lanes.WNeedLane => 6 | Lanes.WLocked => 5 | Lanes.WCreating => 4
  | Lanes.WClaimed _ => 3 | Lanes.WActive _ => 2 | Lanes.WReleased => 1 | Lanes.WEnd _ => 0
  end.
Definition caller_left (p : caller_pc) : nat := match p with QStart => 3 | QHeld => 2 | QRefused | QWait => 1 | QDone => 0 end.
Definition closer_left (p : closer_pc) : nat :=
  match p with
  | CStart => 2 * maxWaitLanes + 6 | CLocked => 2 * maxWaitLanes + 5 | CSnapshot => 2 * maxWaitLanes + 4
  | CBarrier ls => 2 * length ls + 3 | CNoop _ ls => 2 * length ls + 4
  | CDestroy => 2 | CDestroyed => 1 | CEnd => 0
  end.
Definition measure (s : st) : nat :=
  (sum_list_with wait_left (Lanes.waits (pool s)) + sum_list_with caller_left (callers s) + sum_list_with closer_left (closers s))%nat.

Lemma wait_step_left i ps ps' :
  Lanes.wait_step i ps ps' -> (sum_list_with wait_left (Lanes.waits ps') < sum_list_with wait_left (Lanes.waits ps))%nat.
Proof.
  intros Hs. apply Lanes.wait_step_next in Hs as (w & w' & Hw & -> & Hn). pose proof (sum_insert wait_left _ _ _ w' Hw) as E.
  enough (wait_left w' < wait_left w)%nat by lia.
  destruct w; cbn in Hn; try done; try (destruct Hn as [Hn|[l Hn]]); subst w'; cbn; lia.
Qed.

Lemma step_left s s' : inv s -> step s s' -> (measure s' < measure s)%nat.
Proof.
  intros Hinv Hs. unfold measure.
  destruct Hs; cbn [pool callers closers set_pool set_tasks set_caller set_closer set_closed set_destroyed accept];
    try match goal with H : Lanes.wait_step _ _ _ |- _ => apply wait_step_left in H end;
    try match goal with |- context [<[?i := ?p]> (callers s)] => match goal with H : callers s !! i = Some ?q |- _ =>
      pose proof (sum_insert caller_left _ _ _ p H) as E; cbn [caller_left] in E end end;
    try match goal with |- context [<[?k := ?p]> (closers s)] => match goal with H : closers s !! k = Some ?q |- _ =>
      pose proof (sum_insert closer_left _ _ _ p H) as E; cbn [closer_left length] in E end end; try lia.
  pose proof (Lanes.inv_limit _ (inv_pool s Hinv)). lia.
Qed.

Lemma nsteps_left k s s' : inv s -> nsteps step k s s' -> (k + measure s' <= measure s)%nat.
Proof.
  intros Hinv Hn. induction Hn as [s|k s1 s2 s3 Hs Hn IH]; [lia|]. pose proof (step_left _ _ Hinv Hs).
  assert (inv s2) as H2; [|specialize (IH H2); lia].
  destruct Hinv. split; [eapply drain_pool_step|eapply lock_inv_step|eapply job_inv_step|eapply drain_inv_step]; eassumption.
Qed.

(** Once every goroutine has returned and no lane can run, the lanes are idle and no wait is counted. *)
Lemma drain_stuck s : inv s -> (forall s', ~ step s s') -> finished s /\ (forall l, lane_tasks l s = []) /\ Lanes.syncActive (pool s) = 0.
Proof.
  intros Hinv Hstuck. destruct (drain_progress s Hinv) as [Hfin|[s' Hs]]; [|now destruct (Hstuck s')].
  assert (Hidle : forall l, lane_tasks l s = []).
  { intros l. destruct (lane_tasks l s) as [|j q] eqn:Hl; [done|]. destruct (lane_moves s l j q Hinv Hl) as (s' & Hs & _). now destruct (Hstuck s'). }
  split_and!; [done|done|]. rewrite (Lanes.inv_active _ (inv_pool s Hinv)).
  enough (sum_list_with Lanes.counted (Lanes.waits (pool s)) = 0%nat) as -> by done.
  assert (Hz : Forall (fun w => Lanes.counted w = 0%nat) (Lanes.waits (pool s))).
  2:{ induction Hz as [|w ws Hw Hz IH]; [done|]. cbn [sum_list_with]. now rewrite Hw, IH. }
  pose proof (inv_job s Hinv) as Hjob. apply Forall_lookup. intros i w Hw.
  destruct (lookup_lt_is_Some_2 (callers s) i) as [p Hi]; [rewrite <- (ji_len s Hjob); eapply lookup_lt_Some; eassumption|].
  destruct Hfin as [Hf _]. rewrite Forall_lookup in Hf. specialize (Hf i p Hi). cbn in Hf. subst p. destruct w; try done.
  - pose proof (ji_active s Hjob _ _ l Hi eq_refl Hw) as Hl. rewrite Hidle in Hl. now apply not_elem_of_nil in Hl.
  - destruct (ji_released s Hjob _ _ Hi eq_refl Hw) as [l Hl]. rewrite Hidle in Hl. now apply not_elem_of_nil in Hl.
Qed.

(** ** Theorems *)

(** C5.  In every interleaving of any number of cancellable waits and of closes, on any streams and events of a context: a wait that is queued on a lane or
    in the driver is never on a destroyed handle, even when its caller has given up and returned; when a close is about to destroy its handle, no lane has a wait on
    it, no goroutine is inside the resource's lock, and the handle has not been destroyed before; and a goroutine inside the lock has a live handle. *)
Theorem drain_safe (n m : nat) (s : st) :
  reachable (system n m) s ->
  (forall l i r, JWait i ∈ lane_tasks l s -> wait_on i = Some r -> r ∉ destroyed s) /\
  (forall k, closers s !! k = Some CDestroy ->
     closes k ∉ destroyed s /\ ~ rlocked (closes k) s /\ (forall l i, wait_on i = Some (closes k) -> JWait i ∉ lane_tasks l s)) /\
  (forall r, rlocked r s -> r ∉ destroyed s).
Proof.
  intros Hr. apply drain_reachable_inv in Hr as [Hpool Hlock Hjob Hdrain]. split_and!.
  - intros l i r. apply (di_dead s Hdrain).
  - intros k Hk. split_and!.
    + now apply (inv_fresh s Hlock k CDestroy).
    + intros (i & p & Hi & Hin & Hon). destruct (inv_excl s Hlock _ _ _ Hi Hin Hon) as [_ Hn]. apply Hn. now apply locked_intro with CDestroy.
    + intros l i Hon Hin. exact (di_left s Hdrain _ _ _ _ Hk Hin Hon).
  - intros r (i & p & Hi & Hin & Hon). exact (proj1 (inv_excl s Hlock _ _ _ Hi Hin Hon)).
Qed.

(** The barrier never deadlocks with the waits it drains: when every driver wait eventually returns, each run from a reachable state takes at most
    [measure] further steps, and one that cannot go on has every goroutine returned - the closes and the waits, cancelled or not -, every lane idle
    and [syncActive] back to zero. *)
Theorem drain_terminates (n m : nat) (s : st) :
  reachable (system n m) s ->
  (forall k s', nsteps step k s s' -> (k <= measure s)%nat) /\
  (forall s', rtc step s s' -> (forall s'', ~ step s' s'') -> finished s' /\ (forall l, lane_tasks l s' = []) /\ Lanes.syncActive (pool s') = 0).
Proof.
  intros Hr. split.
  - intros k s' Hk. apply drain_reachable_inv in Hr. pose proof (nsteps_left k s s' Hr Hk). lia.
  - intros s' Hs. apply drain_stuck. apply (drain_reachable_inv n m). exact (reachable_rtc (system n m) s s' Hr Hs).
Qed.
End Machine.
End Drain.
