(* ===== verification/Teardown.v ===== *)
(** * Closing a context under its operations (cuda: Context.Close, closeWaitLanes, closeExecutor, doWith, doJobCtx; opMu)

    Every operation of a context holds [opMu] for reading; [Close] takes it for writing, drains and stops the wait lanes, and releases the primary context on the
    command thread.  A cancelled operation gives its read lock back while its job is still on an executor, so the lock alone does not protect the driver's context.
    This file puts the waits and closes of [Drain.v], commands that may be abandoned, and any number of [Close] calls on one context in one machine.
    A goroutine takes [opMu] in the same step as the first thing it does under it; a [Lock] that waits for readers keeps new readers out, as [sync.RWMutex] does. *)

From S2P Require Import Prelude CudaSys Errors Runtime CudaResult ExecutorApi Context Dispatch Resource Lanes Drain.

Module Teardown.

(** [Context.do]: before [opMu], holding it, its closure accepted by the command executor, returned. *)
Inductive op_pc := OStart | OHeld | OWait | ODone.

(** A job of the command executor: the closure of an operation, or the one of [Close] that releases the primary context. *)
Inductive cmd_job := COp (i : nat) | CRelease.

(** [Context.Close]: before [opMu.Lock], waiting for the readers, holding it, closing the lanes it took, the lanes closed, its closure accepted, the context
    released, returned. *)
Inductive x_pc := XStart | XPending | XLocked | XLanes | XCommand | XRelease | XReleased | XEnd.

#[global] Instance op_pc_eq_dec : EqDecision op_pc.
Proof. solve_decision. Defined.
#[global] Instance cmd_job_eq_dec : EqDecision cmd_job.
Proof. solve_decision. Defined.
#[global] Instance x_pc_eq_dec : EqDecision x_pc.
Proof. solve_decision. Defined.

(** [taken] is the local [lanes] of the [closeWaitLanes] that is running, as far as its loop has not closed them; [released] counts the successful
    [PrimaryCtxRelease] calls. *)
Record st := mkSt {
  drain : Drain.st;
  ops : list op_pc;
  cmd : list cmd_job;
  xs : list x_pc;
  taken : list loc;
  closed : bool;
  commandErr : bool;
  released : nat
}.

Definition set_drain (d : Drain.st) (s : st) : st := mkSt d (ops s) (cmd s) (xs s) (taken s) (closed s) (commandErr s) (released s).
Definition set_op (i : nat) (p : op_pc) (s : st) : st := mkSt (drain s) (<[i := p]> (ops s)) (cmd s) (xs s) (taken s) (closed s) (commandErr s) (released s).
Definition set_cmd (q : list cmd_job) (s : st) : st := mkSt (drain s) (ops s) q (xs s) (taken s) (closed s) (commandErr s) (released s).
Definition set_x (x : nat) (p : x_pc) (s : st) : st := mkSt (drain s) (ops s) (cmd s) (<[x := p]> (xs s)) (taken s) (closed s) (commandErr s) (released s).
Definition set_taken (ls : list loc) (s : st) : st := mkSt (drain s) (ops s) (cmd s) (xs s) ls (closed s) (commandErr s) (released s).
Definition set_closed (s : st) : st := mkSt (drain s) (ops s) (cmd s) (xs s) (taken s) true (commandErr s) (released s).
Definition set_commandErr (b : bool) (s : st) : st := mkSt (drain s) (ops s) (cmd s) (xs s) (taken s) (closed s) b (released s).
Definition count_release (s : st) : st := mkSt (drain s) (ops s) (cmd s) (xs s) (taken s) (closed s) (commandErr s) (S (released s)).

(** The context's [waitLanes] replaced. *)
Definition pool_ids (ls : list loc) (p : Lanes.st) : Lanes.st :=
  Lanes.mkSt (Lanes.lanes p) ls (Lanes.fresh p) (Lanes.createMu p) (Lanes.syncActive p) (Lanes.waits p).
Definition with_ids (ls : list loc) (d : Drain.st) : Drain.st := Drain.set_pool (pool_ids ls (Drain.pool d)) d.

Definition lane_ids (s : st) : list loc := Lanes.ids (Drain.pool (drain s)).

(** ** Who holds [opMu] *)

Definition past_start (w : Lanes.wait_pc) : bool := match w with Lanes.WStart => false | _ => true end.

Definition reading_caller (i : nat) (d : Drain.st) : bool :=
  match Drain.callers d !! i, Lanes.waits (Drain.pool d) !! i with
  | Some Drain.QHeld, Some w => past_start w
  | Some (Drain.QRefused | Drain.QWait), _ => true
  | _, _ => false
  end.

Definition reading_closer (k : nat) (d : Drain.st) : bool :=
  match Drain.closers d !! k with
  | Some (Drain.CSnapshot | Drain.CBarrier _ | Drain.CNoop _ _ | Drain.CDestroy) => true
  | _ => false
  end.

Definition reading_op (p : op_pc) : bool := match p with OHeld | OWait => true | OStart | ODone => false end.

(** A [Lock] that waits for the readers, or has been granted. *)
Definition announced (p : x_pc) : bool := match p with XStart | XEnd => false | _ => true end.
Definition holds (p : x_pc) : bool := match p with XStart | XPending | XEnd => false | _ => true end.
Definition past_take (p : x_pc) : bool := match p with XLanes | XCommand | XRelease | XReleased => true | _ => false end.

Definition writer (s : st) : Prop := exists x p, xs s !! x = Some p /\ announced p = true.

(** Nobody reads. *)
Definition drain_quiet (d : Drain.st) : Prop := (forall i, reading_caller i d = false) /\ (forall k, reading_closer k d = false).
Definition quiet (s : st) : Prop := drain_quiet (drain s) /\ forall i p, ops s !! i = Some p -> reading_op p = false.

(** No goroutine becomes a reader. *)
Definition no_new_reader (d d' : Drain.st) : Prop :=
  (forall i, reading_caller i d' = true -> reading_caller i d = true) /\ (forall k, reading_closer k d' = true -> reading_closer k d = true).

Section Machine.

Variable wait_on : nat -> option loc.
Variable cancellable : nat -> bool.
Variable closes : nat -> loc.
(** Whether the context given to an operation can be cancelled. *)
Variable op_cancellable : nat -> bool.

Notation dstep := (Drain.step wait_on cancellable closes).
Notation dinv := (Drain.inv wait_on closes).

Inductive step (s : st) : st -> Prop :=
| inner d : dstep (drain s) d -> (writer s -> Drain.keeps_gates (drain s) d) -> (closed s || commandErr s = true -> no_new_reader (drain s) d) ->
    step s (set_drain d s)
| op_lock i : ops s !! i = Some OStart -> ~ writer s -> closed s || commandErr s = false ->
    step s (set_op i OHeld s)
| op_rejected i : ops s !! i = Some OStart -> ~ writer s ->
    step s (set_op i ODone s)
| op_submit i : ops s !! i = Some OHeld -> (length (cmd s) < Drain.lane_capacity)%nat ->
    step s (set_op i OWait (set_cmd (cmd s ++ [COp i]) s))
| op_not_sent i : ops s !! i = Some OHeld -> op_cancellable i = true ->
    step s (set_op i ODone s)
| op_run i q : cmd s = COp i :: q ->
    step s (set_cmd q s)
| op_receive i : ops s !! i = Some OWait -> COp i ∉ cmd s ->
    step s (set_op i ODone s)
| op_abandon i : ops s !! i = Some OWait -> op_cancellable i = true ->
    step s (set_op i ODone s)
| x_pending x : xs s !! x = Some XStart -> ~ writer s ->
    step s (set_x x XPending s)
| x_lock x : xs s !! x = Some XPending -> quiet s ->
    step s (set_x x XLocked s)
| x_closed x : xs s !! x = Some XLocked -> closed s = true ->
    step s (set_x x XEnd s)
| x_not_recovered x : xs s !! x = Some XLocked -> closed s = false -> commandErr s = true ->
    step s (set_x x XEnd s)
| x_take x : xs s !! x = Some XLocked -> closed s = false ->
    step s (set_x x XLanes (set_taken (lane_ids s) (set_commandErr false (set_drain (with_ids [] (drain s)) s))))
| x_lane x l ls : xs s !! x = Some XLanes -> taken s = l :: ls -> Drain.lane_tasks l (drain s) = [] ->
    step s (set_taken ls s)
| x_lanes_done x : xs s !! x = Some XLanes -> taken s = [] ->
    step s (set_x x XCommand s)
| x_submit x : xs s !! x = Some XCommand -> (length (cmd s) < Drain.lane_capacity)%nat ->
    step s (set_x x XRelease (set_cmd (cmd s ++ [CRelease]) s))
| x_refused x : xs s !! x = Some XCommand ->
    step s (set_x x XEnd s)
| release x q : cmd s = CRelease :: q -> xs s !! x = Some XRelease ->
    step s (set_x x XReleased (set_cmd q (count_release s)))
| release_failed x q b : cmd s = CRelease :: q -> xs s !! x = Some XRelease ->
    step s (set_x x XEnd (set_cmd q (set_commandErr b s)))
| x_finish x : xs s !! x = Some XReleased ->
    step s (set_x x XEnd (set_closed s)).

(** [n] waits, [m] closes of streams and events, [o] operations and [c] calls of [Context.Close] about to start. *)
Definition start (n m o c : nat) : st := mkSt (Drain.start n m) (replicate o OStart) [] (replicate c XStart) [] false false 0.

Definition system (n m o c : nat) : Machine := {| m_state := st; m_init s := s = start n m o c; m_step := step |}.

(** ** The waits and closes, seen through the lock *)

Lemma reading_caller_spec i d :
  reading_caller i d = true <->
  (Drain.callers d !! i = Some Drain.QHeld /\ exists w, Lanes.waits (Drain.pool d) !! i = Some w /\ w <> Lanes.WStart) \/
  Drain.callers d !! i = Some Drain.QRefused \/ Drain.callers d !! i = Some Drain.QWait.
Proof.
  unfold reading_caller. destruct (Drain.callers d !! i) as [[]|]; split; try done; auto;
    try (intros [[E _]|[E|E]]; discriminate E).
  - destruct (Lanes.waits (Drain.pool d) !! i) as [w|]; [|done]. intros Hw. left. split; [done|]. exists w. split; [done|]. now intros ->.
  - intros [[_ (w & -> & Hne)]|[?|?]]; [|done..]. now destruct w.
Qed.

(** A wait that has left [WStart] and whose goroutine has its resource is under [opMu]. *)
Lemma reading_held i w d :
  Drain.callers d !! i = Some Drain.QHeld -> Lanes.waits (Drain.pool d) !! i = Some w -> w <> Lanes.WStart -> reading_caller i d = true.
Proof. intros Hi Hw Hne. apply reading_caller_spec. left. eauto. Qed.

Lemma reading_not_gate i d : reading_caller i d = true -> ~ Drain.gate_caller i d.
Proof. rewrite reading_caller_spec. intros H [E1 E2]. destruct H as [[_ (w & Hw & Hne)]|[E|E]]; congruence. Qed.

Lemma reading_closer_not_gate k d : reading_closer k d = true -> ~ Drain.gate_closer k d.
Proof. unfold reading_closer, Drain.gate_closer. intros H E. now rewrite E in H. Qed.

(** Changing one goroutine, or one wait of the pool. *)
Lemma reading_set_caller i p j d : reading_caller j (Drain.set_caller i p d) = true ->
  (i <> j /\ reading_caller j d = true) \/ (i = j /\ (p = Drain.QRefused \/ p = Drain.QWait \/
    (p = Drain.QHeld /\ exists w, Lanes.waits (Drain.pool d) !! i = Some w /\ w <> Lanes.WStart))).
Proof.
  rewrite !reading_caller_spec. cbn [Drain.callers Drain.pool Drain.set_caller]. destruct (decide (i = j)) as [<-|Hne].
  - intros H. right. split; [done|].
    destruct H as [[H Hw]|[H|H]]; apply list_lookup_insert_Some in H as [(_ & E & _)|[? _]]; try done; subst p; auto.
  - rewrite list_lookup_insert_ne by done. auto.
Qed.

Lemma reading_set_pool i ps j d :
  Lanes.wait_step i (Drain.pool d) ps -> reading_caller j (Drain.set_pool ps d) = true ->
  reading_caller j d = true \/ Drain.gate_caller j d.
Proof.
  intros Hs. apply Lanes.wait_step_next in Hs as (w & w' & Hw & E & _). rewrite !reading_caller_spec. cbn [Drain.callers Drain.pool Drain.set_pool].
  intros [[Hj (v & Hv & Hne)]|H]; [|left; right; exact H]. rewrite E in Hv.
  apply list_lookup_insert_Some in Hv as [(<- & <- & _)|[Hij Hv]]; [|left; left; eauto].
  destruct (past_start w) eqn:Hp; [left; left; split; [exact Hj|]; exists w; split; [exact Hw|]; now intros ->|].
  right. split; [exact Hj|]. rewrite Hw. now destruct w.
Qed.

(** A new reader was about to take the lock. *)
Lemma reader_was_there d d' i : Drain.job_inv d -> dstep d d' -> reading_caller i d' = true -> reading_caller i d = true \/ Drain.gate_caller i d.
Proof.
  intros Hjob Hs Hi.
  destruct Hs; cbn [Drain.accept] in Hi;
    try (apply reading_set_caller in Hi as [[_ Hi]|(<- & [E|[E|(E & w & Hw & Hne)]])]; [left; exact Hi|try discriminate E..]);
    try (left; exact Hi); try (eapply reading_set_pool; eassumption).
  - exfalso. destruct w; try done; pose proof (Drain.ji_pair _ Hjob _ _ _ H Hw) as Hok; done.
  - left. eapply reading_held; [eassumption..|done].
  - left. eapply reading_held; [eassumption..|done].
Qed.

Lemma closer_was_there d d' k : dstep d d' -> reading_closer k d' = true -> reading_closer k d = true \/ Drain.gate_closer k d.
Proof.
  intros Hs. unfold reading_closer, Drain.gate_closer.
  destruct Hs; cbn [Drain.closers Drain.set_caller Drain.set_pool Drain.set_tasks Drain.accept Drain.set_closer Drain.set_closed Drain.set_destroyed];
    try (intros Hk; left; exact Hk);
    match goal with |- context [<[?j := _]> _] => destruct (decide (j = k)) as [<-|Hne];
      [rewrite list_lookup_insert_eq by (eapply lookup_lt_Some; eassumption); try discriminate|rewrite list_lookup_insert_ne by exact Hne; intros Hk; left; exact Hk] end;
    intros _; match goal with H : Drain.closers _ !! _ = Some _ |- _ => rewrite H end; auto.
Qed.

(** A step that lets nobody through the gate makes no reader. *)
Lemma keeps_no_new_reader d d' : Drain.job_inv d -> dstep d d' -> Drain.keeps_gates d d' -> no_new_reader d d'.
Proof.
  intros Hinv Hs [Hc Hk]. split.
  - intros i Hi. destruct (reader_was_there d d' i Hinv Hs Hi) as [?|Hg]; [done|]. destruct (reading_not_gate i d' Hi (Hc i Hg)).
  - intros k Hi. destruct (closer_was_there d d' k Hs Hi) as [?|Hg]; [done|]. destruct (reading_closer_not_gate k d' Hi (Hk k Hg)).
Qed.

Lemma no_new_reader_quiet d d' : no_new_reader d d' -> drain_quiet d -> drain_quiet d'.
Proof.
  intros [Hc Hk] [Qc Qk]. split; intros i.
  - specialize (Hc i). specialize (Qc i). destruct (reading_caller i d'); [|done]. rewrite Hc in Qc by done. done.
  - specialize (Hk i). specialize (Qk i). destruct (reading_closer i d'); [|done]. rewrite Hk in Qk by done. done.
Qed.

(** ** The lanes a [Close] has taken *)

Notation dids d := (Lanes.ids (Drain.pool d)).

(** The waits and closes do not see the lanes that [closeWaitLanes] took away: with them put back, [Drain.v]'s invariant holds. *)
Definition view (s : st) : Drain.st := with_ids (lane_ids s ++ taken s) (drain s).

Lemma with_ids_same d : with_ids (dids d) d = d.
Proof. destruct d as [[] ? ? ? ? ?]. reflexivity. Qed.

Lemma view_untaken s : taken s = [] -> view s = drain s.
Proof. intros E. unfold view, lane_ids. rewrite E, app_nil_r. apply with_ids_same. Qed.

Lemma wait_step_ids i p p' :
  Lanes.wait_step i p p' -> Lanes.ids p' = Lanes.ids p \/ Lanes.waits p !! i = Some Lanes.WCreating /\ exists l, Lanes.ids p' = Lanes.ids p ++ [l].
Proof. destruct 1; try (left; reflexivity). right. eauto. Qed.

(** The pool grows only, and only by a wait under [opMu]. *)
Lemma step_ids d d' : Drain.job_inv d -> dstep d d' -> dids d' = dids d \/ ~ drain_quiet d /\ exists l, dids d' = dids d ++ [l].
Proof.
  intros Hjob Hs.
  destruct Hs; try (left; reflexivity); cbn [Drain.pool Drain.set_pool Drain.set_tasks];
    match goal with H : Lanes.wait_step _ _ _ |- _ => apply wait_step_ids in H as [E|[Hw E]]; [left; exact E|] end.
  - right. split; [|exact E]. intros [Qc _]. specialize (Qc i). now rewrite (reading_held i Lanes.WCreating d) in Qc.
  - pose proof (Drain.ji_pair d Hjob _ _ _ H Hw). done.
  - destruct (Drain.ji_wait d Hjob l i) as [Hw' _]; [rewrite H; left|congruence].
  - destruct (Drain.ji_rec d Hjob l i) as [Hw' _]; [rewrite H; left|congruence].
Qed.

Lemma step_ids_quiet d d' : Drain.job_inv d -> drain_quiet d -> dstep d d' -> dids d' = dids d.
Proof. intros Hjob Hq Hs. now destruct (step_ids d d' Hjob Hs) as [E|[Hn _]]. Qed.

Lemma step_ids_mono d d' l : Drain.job_inv d -> dstep d d' -> l ∈ dids d -> l ∈ dids d'.
Proof. intros Hjob Hs Hl. destruct (step_ids d d' Hjob Hs) as [->|(_ & l' & ->)]; set_solver. Qed.

(** The end of a wait does not look at the pool's lanes. *)
Lemma wait_step_with_ids L i p p' w :
  Lanes.wait_step i p p' -> Lanes.waits p !! i = Some w -> (exists l, w = Lanes.WActive l) \/ w = Lanes.WReleased ->
  Lanes.wait_step i (pool_ids L p) (pool_ids L p').
Proof.
  intros Hs Hw Hc. destruct Hs as [l H|H|H|l H|H|H|e H|l H|l H|H]; rewrite Hw in H; injection H as ->; try (now destruct Hc as [[? ?]|?]);
    [exact (Lanes.release_lane i (pool_ids L p) l Hw)|exact (Lanes.uncount_wait i (pool_ids L p) Hw)].
Qed.

(** Neither does any step when nobody reads and nobody starts to. *)
Lemma step_with_ids L d d' :
  Drain.job_inv d -> drain_quiet d -> Drain.keeps_gates d d' -> dstep d d' -> dstep (with_ids L d) (with_ids L d').
Proof.
  intros Hjob [Qc Qk] [Gc Gk] Hs. pose (c := with_ids L d).
  destruct Hs; try match goal with H : Drain.callers _ !! ?i = Some _ |- _ => pose proof (Qc i) as Q; unfold reading_caller in Q; rewrite H in Q end;
    try match goal with H : Drain.closers _ !! ?k = Some _ |- _ => pose proof (Qk k) as Q; unfold reading_closer in Q; rewrite H in Q; cbn in Q end; try discriminate Q;
    try (match goal with H : Lanes.waits _ !! _ = Some _ |- _ => rewrite H in Q end; discriminate Q).
  - exact (Drain.enter wait_on cancellable closes c i H H0).
  - exact (Drain.enter_closed wait_on cancellable closes c i r H H0 H1 H2).
  - exact (Drain.rejected wait_on cancellable closes c i H H0).
  - rewrite H0 in Q. assert (w = Lanes.WStart) as -> by (now destruct w). destruct (Gc i (conj H H0)) as [_ E]. cbn in E.
    apply Lanes.wait_step_next in H2 as (w & w' & Hw & E' & Hn). rewrite E', list_lookup_insert_eq in E by (eapply lookup_lt_Some; eassumption).
    injection E as ->. rewrite H0 in Hw. injection Hw as <-. now destruct Hn as [?|[? ?]].
  - destruct (Drain.ji_wait d Hjob l i) as [Hw _]; [rewrite H; left|].
    exact (Drain.run_wait wait_on cancellable closes c l i q (pool_ids L ps) H (wait_step_with_ids L i _ _ _ H0 Hw (or_introl (ex_intro _ l eq_refl)))).
  - destruct (Drain.ji_rec d Hjob l i) as [Hw _]; [rewrite H; left|].
    exact (Drain.recycled wait_on cancellable closes c l i q (pool_ids L ps) H (wait_step_with_ids L i _ _ _ H0 Hw (or_intror eq_refl))).
  - exact (Drain.lock wait_on cancellable closes c k H H0 H1 H2).
  - exact (Drain.lock_closed wait_on cancellable closes c k H H0 H1 H2).
  - exact (Drain.close_rejected wait_on cancellable closes c k H).
  - specialize (Gk k H). unfold Drain.gate_closer in Gk. cbn in Gk. rewrite list_lookup_insert_eq in Gk by (eapply lookup_lt_Some; eassumption). discriminate Gk.
  - specialize (Gk k H). unfold Drain.gate_closer in Gk. cbn in Gk. rewrite list_lookup_insert_eq in Gk by (eapply lookup_lt_Some; eassumption). discriminate Gk.
  - exact (Drain.unlock wait_on cancellable closes c k H).
Qed.

(** Only the pool's own invariant is about its lanes. *)
Lemma job_with_ids L d : Drain.job_inv d -> Drain.job_inv (with_ids L d).
Proof. intros []. split; assumption. Qed.

Lemma inv_with_ids L L' d : dinv (with_ids L d) -> Lanes.inv (pool_ids L' (Drain.pool d)) -> dinv (with_ids L' d).
Proof. intros [_ [] [] []] Hp. split; [exact Hp|split; assumption..]. Qed.

(** A lane that is idle can go from the pool when nobody reads: no wait has it. *)
Lemma drop_lane l ls d :
  dinv (with_ids (l :: ls) d) -> drain_quiet d -> Drain.lane_tasks l d = [] -> dinv (with_ids ls d).
Proof.
  intros Hinv [Qc _] Hl. apply (inv_with_ids _ ls d Hinv). destruct Hinv as [Hpool _ Hjob _].
  destruct Hpool as [Hnd Hfr Hlim Hmu Hpe Hla Hac]. cbn in Hnd, Hfr, Hlim, Hmu, Hpe, Hla, Hac. apply NoDup_cons in Hnd as [_ Hnd]. apply Forall_cons in Hfr as [_ Hfr].
  split; cbn; try assumption; [lia|intros; apply Hpe; now right|].
  rewrite Forall_lookup in Hla |- *. intros i w Hw. specialize (Hla i w Hw).
  destruct (lookup_lt_is_Some_2 (Drain.callers d) i) as [p Hi];
    [replace (length (Drain.callers d)) with (length (Lanes.waits (Drain.pool d))) by exact (Drain.ji_len _ Hjob); eapply lookup_lt_Some; eassumption|].
  pose proof (Drain.ji_pair _ Hjob i p w Hi Hw) as Hok. specialize (Qc i). unfold reading_caller in Qc. rewrite Hi, Hw in Qc.
  destruct w as [| | | |l'|l'| |]; try done; destruct p; try done.
  apply elem_of_cons in Hla as [->|Hla]; [|done]. pose proof (Drain.ji_active _ Hjob i _ l Hi eq_refl Hw) as Hin.
  change (Drain.JWait i ∈ Drain.lane_tasks l d) in Hin. rewrite Hl in Hin. now apply not_elem_of_nil in Hin.
Qed.

(** ** The invariant *)

(** The lanes a closer's barrier has still to visit. *)
Definition barrier_lanes (p : Drain.closer_pc) : list loc :=
  match p with Drain.CBarrier ls => ls | Drain.CNoop l ls => l :: ls | _ => [] end.

Record inv (s : st) : Prop := mkInv {
  ti_view : dinv (view s);
  ti_tasks : forall l, Drain.lane_tasks l (drain s) <> [] -> l ∈ lane_ids s ++ taken s;
  ti_barrier : forall k p, Drain.closers (drain s) !! k = Some p -> barrier_lanes p ⊆ lane_ids s;
  ti_one : forall x y p q, xs s !! x = Some p -> xs s !! y = Some q -> announced p = true -> announced q = true -> x = y;
  ti_excl : forall x p, xs s !! x = Some p -> holds p = true -> quiet s;
  ti_shut : closed s || commandErr s = true -> quiet s;
  ti_taken : taken s <> [] -> exists x, xs s !! x = Some XLanes;
  ti_past : forall x p, xs s !! x = Some p -> past_take p = true -> lane_ids s = [] /\ closed s = false /\ commandErr s = false;
  ti_closed : closed s = true -> lane_ids s = [] /\ cmd s = [] /\ released s = 1%nat;
  ti_release : forall x, xs s !! x = Some XRelease -> exists q, cmd s = q ++ [CRelease] /\ CRelease ∉ q;
  ti_no_release : CRelease ∈ cmd s -> exists x, xs s !! x = Some XRelease;
  ti_released : forall x, xs s !! x = Some XReleased -> cmd s = [] /\ released s = 1%nat;
  ti_open : closed s = false -> (forall x, xs s !! x <> Some XReleased) -> released s = 0%nat
}.

Lemma ti_job s : inv s -> Drain.job_inv (drain s).
Proof.
  intros Hinv. rewrite <- (with_ids_same (drain s)). change (Drain.job_inv (with_ids (dids (drain s)) (view s))).
  apply job_with_ids, (Drain.inv_job _ _ _ (ti_view s Hinv)).
Qed.

Lemma announced_holds p : holds p = true -> announced p = true.
Proof. now destruct p. Qed.
Lemma holds_past p : past_take p = true -> holds p = true.
Proof. now destruct p. Qed.

(** Where the lanes taken are not all closed, nobody reads. *)
Lemma taken_quiet s : inv s -> taken s <> [] -> quiet s.
Proof. intros Hinv Ht. destruct (ti_taken s Hinv Ht) as [x Hx]. now apply (ti_excl s Hinv x XLanes Hx). Qed.

(** ** One step of a wait or of a close of a stream or event *)

Lemma inner_view s d :
  inv s -> dstep (drain s) d -> (writer s -> Drain.keeps_gates (drain s) d) -> dstep (view s) (with_ids (dids d ++ taken s) d).
Proof.
  intros Hinv Hs Hk. destruct (taken s) as [|l ls] eqn:Ht.
  - rewrite view_untaken by exact Ht. rewrite app_nil_r, with_ids_same. exact Hs.
  - assert (Hq : quiet s) by (apply taken_quiet; [done|congruence]). destruct Hq as [Hq _].
    destruct (ti_taken s Hinv) as [x Hx]; [congruence|].
    rewrite (step_ids_quiet _ _ (ti_job s Hinv) Hq Hs). unfold view, lane_ids. rewrite Ht. apply step_with_ids; try done; [exact (ti_job s Hinv)|].
    apply Hk. now exists x, XLanes.
Qed.

(** What a lane has accepted comes from a wait with that lane or from a barrier. *)
Lemma step_tasks d d' l : dstep d d' -> Drain.lane_tasks l d' <> [] ->
  Drain.lane_tasks l d <> [] \/ (exists i, Lanes.waits (Drain.pool d) !! i = Some (Lanes.WActive l)) \/
  exists k ls, Drain.closers d !! k = Some (Drain.CBarrier (l :: ls)).
Proof.
  intros Hs. destruct Hs; try (intros Hl; left; exact Hl).
  - intros Hl. change (Drain.lane_tasks l (Drain.accept l0 (Drain.JWait i) d) <> []) in Hl. revert Hl. unfold Drain.accept. rewrite Drain.lane_tasks_set.
    case_decide; [subst l0; eauto|auto].
  - rewrite Drain.lane_tasks_set. case_decide; [subst l0; left; congruence|auto].
  - rewrite Drain.lane_tasks_set. case_decide; [subst l0; left; congruence|auto].
  - intros Hl. change (Drain.lane_tasks l (Drain.set_tasks l0 q d) <> []) in Hl. revert Hl. rewrite Drain.lane_tasks_set.
    case_decide; [subst l0; left; congruence|auto].
  - intros Hl. change (Drain.lane_tasks l (Drain.accept l0 (Drain.JNoop k) d) <> []) in Hl. revert Hl. unfold Drain.accept. rewrite Drain.lane_tasks_set.
    case_decide; [subst l0; eauto|auto].
Qed.

Lemma step_barrier d d' : Drain.job_inv d -> dstep d d' ->
  (forall k p, Drain.closers d !! k = Some p -> barrier_lanes p ⊆ dids d) -> forall k p, Drain.closers d' !! k = Some p -> barrier_lanes p ⊆ dids d'.
Proof.
  intros Hjob Hs Hb k p Hk. intros l Hl. apply (step_ids_mono d d' l Hjob Hs). revert Hl.
  enough (barrier_lanes p ⊆ dids d) by auto.
  destruct Hs; try exact (Hb k p Hk);
    (apply list_lookup_insert_Some in Hk as [(<- & <- & _)|[_ Hk]]; [|exact (Hb k p Hk)]);
    match goal with H : Drain.closers _ !! _ = Some _ |- _ => specialize (Hb _ _ H) end; cbn [barrier_lanes] in *; set_solver.
Qed.

Lemma inv_inner s d :
  inv s -> dstep (drain s) d -> (writer s -> Drain.keeps_gates (drain s) d) -> (closed s || commandErr s = true -> no_new_reader (drain s) d) ->
  inv (set_drain d s).
Proof.
  intros Hinv Hs Hk Hn. pose proof (ti_job s Hinv) as Hjob. pose proof (inner_view s d Hinv Hs Hk) as Hv.
  assert (Hq : forall x p, xs s !! x = Some p -> holds p = true -> drain_quiet d).
  { intros x p Hx Hp. apply (no_new_reader_quiet (drain s)); [|apply (ti_excl s Hinv x p Hx Hp)].
    apply keeps_no_new_reader; [done..|]. apply Hk. exists x, p. split; [done|now apply announced_holds]. }
  assert (Hids : forall l, l ∈ lane_ids s ++ taken s -> l ∈ dids d ++ taken s).
  { intros l. rewrite !elem_of_app. intros [Hl|Hl]; [left|now right]. exact (step_ids_mono _ _ l Hjob Hs Hl). }
  split; cbn [drain ops cmd xs taken closed commandErr released set_drain]; try apply Hinv.
  - change (view (set_drain d s)) with (with_ids (dids d ++ taken s) d).
    destruct (ti_view s Hinv) as [Hp Hl Hj Hd].
    split; [eapply Drain.drain_pool_step|eapply Drain.lock_inv_step|eapply Drain.job_inv_step|eapply Drain.drain_inv_step]; eassumption.
  - intros l Hl. apply Hids. destruct (step_tasks _ _ l Hs Hl) as [?|[[i Hi]|(k & ls & Hb)]].
    + now apply (ti_tasks s Hinv).
    + pose proof (Lanes.inv_lanes _ (Drain.inv_pool _ _ _ (ti_view s Hinv))) as Hla. rewrite Forall_lookup in Hla. exact (Hla i _ Hi).
    + apply elem_of_app. left. apply (ti_barrier s Hinv k _ Hb). left.
  - apply (step_barrier _ _ Hjob Hs (ti_barrier s Hinv)).
  - intros x p Hx Hp. split; [exact (Hq x p Hx Hp)|]. exact (proj2 (ti_excl s Hinv x p Hx Hp)).
  - intros Hc. destruct (ti_shut s Hinv Hc) as [Hd Ho]. split; [exact (no_new_reader_quiet _ _ (Hn Hc) Hd)|exact Ho].
  - intros x p Hx Hp. destruct (ti_past s Hinv x p Hx Hp) as [E H]. split; [|exact H]. unfold lane_ids in *. cbn.
    rewrite (step_ids_quiet (drain s) d Hjob); [exact E| |done]. apply (ti_excl s Hinv x p Hx). now apply holds_past.
  - intros Hc. destruct (ti_closed s Hinv Hc) as [E H]. split; [|exact H]. unfold lane_ids in *. cbn.
    rewrite (step_ids_quiet (drain s) d Hjob); [exact E| |done]. apply (ti_shut s Hinv). now rewrite Hc.
Qed.

(** ** One step of an operation *)

Lemma inv_set_op s i p p' :
  inv s -> ops s !! i = Some p -> (reading_op p' = true -> reading_op p = true \/ ~ writer s /\ closed s || commandErr s = false) -> inv (set_op i p' s).
Proof.
  intros Hinv Hi Hp.
  assert (Hq : quiet s -> (reading_op p' = true -> reading_op p = true) -> quiet (set_op i p' s)).
  { intros [Hd Ho] Hpp. split; [exact Hd|]. intros j q Hj. cbn in Hj. apply list_lookup_insert_Some in Hj as [(<- & <- & _)|[_ Hj]]; [|exact (Ho j q Hj)].
    specialize (Ho i p Hi). destruct (reading_op p'); [|done]. now rewrite Hpp in Ho. }
  split; cbn [drain ops cmd xs taken closed commandErr released set_op]; try apply Hinv.
  - intros x q Hx Hh. apply Hq; [exact (ti_excl s Hinv x q Hx Hh)|]. intros Hr. destruct (Hp Hr) as [?|[Hw _]]; [done|].
    destruct Hw. exists x, q. split; [done|now apply announced_holds].
  - intros Hc. apply Hq; [exact (ti_shut s Hinv Hc)|]. intros Hr. destruct (Hp Hr) as [?|[_ E]]; [done|congruence].
Qed.

(** An operation that holds [opMu] keeps every [Close] out. *)
Lemma reader_no_holder s x p : inv s -> ~ quiet s -> xs s !! x = Some p -> holds p = false.
Proof. intros Hinv Hq Hx. destruct (holds p) eqn:Hp; [|done]. destruct (Hq (ti_excl s Hinv x p Hx Hp)). Qed.

Lemma inv_submit_op s i : inv s -> ~ quiet s -> inv (set_cmd (cmd s ++ [COp i]) s).
Proof.
  intros Hinv Hq. pose proof (reader_no_holder s) as Hh.
  split; cbn [drain ops cmd xs taken closed commandErr released set_cmd]; try apply Hinv.
  - intros Hc. destruct Hq. apply (ti_shut s Hinv). now rewrite Hc.
  - intros x Hx. now specialize (Hh x _ Hinv Hq Hx).
  - intros [Hin|E%list_elem_of_singleton]%elem_of_app; [exact (ti_no_release s Hinv Hin)|done].
  - intros x Hx. now specialize (Hh x _ Hinv Hq Hx).
Qed.

Lemma inv_run_op s i q : inv s -> cmd s = COp i :: q -> inv (set_cmd q s).
Proof.
  intros Hinv Hc. split; cbn [drain ops cmd xs taken closed commandErr released set_cmd]; try apply Hinv.
  - intros Hcl. destruct (ti_closed s Hinv Hcl) as (_ & E & _). congruence.
  - intros x Hx. destruct (ti_release s Hinv x Hx) as (r & E & Hr). rewrite Hc in E. destruct r as [|j r]; [done|].
    injection E as <- ->. exists r. split; [done|]. intros Hin. apply Hr. now right.
  - intros Hin. apply (ti_no_release s Hinv). rewrite Hc. now right.
  - intros x Hx. destruct (ti_released s Hinv x Hx) as [E _]. congruence.
Qed.

(** ** One step of a [Close] *)

(** The goroutine that announced its [Lock], or announces it when nobody else has, is the only one. *)
Lemma set_x_only s x p p' y q :
  inv s -> xs s !! x = Some p -> announced p = true \/ ~ writer s -> <[x := p']> (xs s) !! y = Some q -> announced q = true -> y = x /\ q = p'.
Proof.
  intros Hinv Hx Hp Hy Hq. apply list_lookup_insert_Some in Hy as [(<- & <- & _)|[Hne Hy]]; [done|]. exfalso. destruct Hp as [Hp|Hw].
  - apply Hne. exact (ti_one s Hinv x y p q Hx Hy Hp Hq).
  - apply Hw. exists y, q. auto.
Qed.

Lemma inv_set_x s t x p p' :
  inv s -> xs t = xs s -> xs s !! x = Some p -> announced p = true \/ ~ writer s ->
  dinv (view t) -> (forall l, Drain.lane_tasks l (drain t) <> [] -> l ∈ lane_ids t ++ taken t) ->
  (forall k p, Drain.closers (drain t) !! k = Some p -> barrier_lanes p ⊆ lane_ids t) ->
  (holds p' = true -> quiet t) -> (closed t || commandErr t = true -> quiet t) -> (taken t <> [] -> p' = XLanes) ->
  (past_take p' = true -> lane_ids t = [] /\ closed t = false /\ commandErr t = false) ->
  (closed t = true -> lane_ids t = [] /\ cmd t = [] /\ released t = 1%nat) ->
  (p' = XRelease -> exists q, cmd t = q ++ [CRelease] /\ CRelease ∉ q) -> (CRelease ∈ cmd t -> p' = XRelease) ->
  (p' = XReleased -> cmd t = [] /\ released t = 1%nat) -> (closed t = false -> p' <> XReleased -> released t = 0%nat) ->
  inv (set_x x p' t).
Proof.
  intros Hinv Hxs Hx Hp Hv Hta Hb Hh Hsh Htk Hpa Hc Hr Hnr Hrd Ho.
  assert (Hself : xs (set_x x p' t) !! x = Some p') by (cbn; rewrite Hxs; apply list_lookup_insert_eq; eapply lookup_lt_Some; eassumption).
  assert (Honly : forall y q, xs (set_x x p' t) !! y = Some q -> announced q = true -> y = x /\ q = p').
  { intros y q Hy. cbn in Hy. rewrite Hxs in Hy. exact (set_x_only s x p p' y q Hinv Hx Hp Hy). }
  split; try assumption; cbn [drain ops cmd taken closed commandErr released set_x].
  - intros y z q r Hy Hz Hq Hr'. destruct (Honly y q Hy Hq) as [-> _]. now destruct (Honly z r Hz Hr') as [-> _].
  - intros y q Hy Hq. destruct (Honly y q Hy) as [_ ->]; [now apply announced_holds|]. exact (Hh Hq).
  - intros E. exists x. rewrite Hself. now rewrite (Htk E).
  - intros y q Hy Hq. destruct (Honly y q Hy) as [_ ->]; [now apply announced_holds, holds_past|]. exact (Hpa Hq).
  - intros y Hy. destruct (Honly y _ Hy eq_refl) as [_ E]. now apply Hr.
  - intros E. exists x. rewrite Hself. now rewrite (Hnr E).
  - intros y Hy. destruct (Honly y _ Hy eq_refl) as [_ E]. now apply Hrd.
  - intros E Hy. apply (Ho E). intros ->. now apply (Hy x).
Qed.

(** Where the sole [Close] is decides what is left of its work. *)
Lemma sole_taken s x p : inv s -> xs s !! x = Some p -> announced p = true -> taken s <> [] -> p = XLanes.
Proof. intros Hinv Hx Hp Ht. destruct (ti_taken s Hinv Ht) as [y Hy]. assert (x = y) as <- by exact (ti_one s Hinv x y _ _ Hx Hy Hp eq_refl). congruence. Qed.

Lemma sole_release s x p : inv s -> xs s !! x = Some p -> announced p = true -> CRelease ∈ cmd s -> p = XRelease.
Proof. intros Hinv Hx Hp Ht. destruct (ti_no_release s Hinv Ht) as [y Hy]. assert (x = y) as <- by exact (ti_one s Hinv x y _ _ Hx Hy Hp eq_refl). congruence. Qed.

Lemma sole_open s x p : inv s -> xs s !! x = Some p -> announced p = true -> p <> XReleased -> closed s = false -> released s = 0%nat.
Proof.
  intros Hinv Hx Hp Hne Hc. apply (ti_open s Hinv Hc). intros y Hy. assert (x = y) as <- by exact (ti_one s Hinv x y _ _ Hx Hy Hp eq_refl). congruence.
Qed.

(** The queue behind the closure of [Close] is empty, and so is the one before it when it runs. *)
Lemma release_alone s x q : inv s -> xs s !! x = Some XRelease -> cmd s = CRelease :: q -> q = [].
Proof.
  intros Hinv Hx Hc. destruct (ti_release s Hinv x Hx) as (r & E & Hr). rewrite Hc in E. destruct r as [|j r]; [now injection E|].
  injection E as <- _. destruct Hr. left.
Qed.

Lemma view_take s : taken s = [] -> view (set_taken (lane_ids s) (set_commandErr false (set_drain (with_ids [] (drain s)) s))) = view s.
Proof. intros E. unfold view. now rewrite E, app_nil_r. Qed.

Lemma inv_x_pending s x : inv s -> xs s !! x = Some XStart -> ~ writer s -> inv (set_x x XPending s).
Proof.
  intros Hinv Hx Hw. apply (inv_set_x s s x XStart XPending Hinv eq_refl Hx (or_intror Hw)); try apply Hinv; try done.
  - intros Ht. destruct (ti_taken s Hinv Ht) as [y Hy]. destruct Hw. now exists y, XLanes.
  - intros Ht. destruct (ti_no_release s Hinv Ht) as [y Hy]. destruct Hw. now exists y, XRelease.
  - intros Hc _. apply (ti_open s Hinv Hc). intros y Hy. destruct Hw. now exists y, XReleased.
Qed.

(** A [Close] that only goes on, or returns before it has taken the lanes. *)
Lemma inv_x_move s x p p' :
  inv s -> xs s !! x = Some p -> announced p = true -> (holds p' = true -> holds p = true \/ quiet s) -> (past_take p' = true -> past_take p = true) ->
  p <> XRelease -> p' <> XRelease -> p <> XReleased -> p' <> XReleased -> (p = XLanes -> taken s = []) -> inv (set_x x p' s).
Proof.
  intros Hinv Hx Hp Hh Hpa H1 H2 H3 H4 Ht. apply (inv_set_x s s x p p' Hinv eq_refl Hx (or_introl Hp)); try apply Hinv; try done.
  - intros Hq. destruct (Hh Hq) as [Hq'|Hq']; [exact (ti_excl s Hinv x p Hx Hq')|exact Hq'].
  - intros Htk. specialize (sole_taken s x p Hinv Hx Hp Htk) as E. now destruct Htk; apply Ht.
  - intros Hq. apply (ti_past s Hinv x p Hx). auto.
  - intros Hr. now destruct H1; apply (sole_release s x p Hinv Hx Hp).
  - intros Hc _. exact (sole_open s x p Hinv Hx Hp H3 Hc).
Qed.

Lemma inv_x_take s x :
  inv s -> xs s !! x = Some XLocked -> closed s = false ->
  inv (set_x x XLanes (set_taken (lane_ids s) (set_commandErr false (set_drain (with_ids [] (drain s)) s)))).
Proof.
  intros Hinv Hx Hc. assert (Ht : taken s = []).
  { destruct (taken s) eqn:E; [done|]. assert (XLocked = XLanes); [|done]. apply (sole_taken s x _ Hinv Hx eq_refl). congruence. }
  set (t := set_taken _ _). pose proof (view_take s Ht) as Hv. fold t in Hv.
  assert (Hq : quiet t) by exact (ti_excl s Hinv x XLocked Hx eq_refl).
  apply (inv_set_x s t x XLocked XLanes Hinv eq_refl Hx (or_introl eq_refl)); try done.
  - rewrite Hv. apply Hinv.
  - intros l Hl. change (lane_ids t ++ taken t) with (lane_ids s). pose proof (ti_tasks s Hinv l Hl) as H. now rewrite Ht, app_nil_r in H.
  - intros k p Hk. pose proof (proj2 (proj1 Hq) k) as E. unfold reading_closer in E. rewrite Hk in E. destruct p; try done; cbn; set_solver.
  - change (closed t) with (closed s). congruence.
  - intros Hin. now specialize (sole_release s x _ Hinv Hx eq_refl Hin).
  - intros _ _. exact (sole_open s x _ Hinv Hx eq_refl ltac:(discriminate) Hc).
Qed.

Lemma inv_x_lane s x l ls :
  inv s -> xs s !! x = Some XLanes -> taken s = l :: ls -> Drain.lane_tasks l (drain s) = [] -> inv (set_taken ls s).
Proof.
  intros Hinv Hx Ht Hl. destruct (ti_past s Hinv x _ Hx eq_refl) as (Hids & Hc & He). destruct (ti_excl s Hinv x _ Hx eq_refl) as [Hq _].
  split; cbn [drain ops cmd xs taken closed commandErr released set_taken]; try apply Hinv.
  - pose proof (ti_view s Hinv) as Hv. unfold view, lane_ids in *. cbn. rewrite Hids, Ht in *. exact (drop_lane l ls (drain s) Hv Hq Hl).
  - intros l' Hl'. pose proof (ti_tasks s Hinv l' Hl') as H. unfold lane_ids in *. cbn. rewrite Hids, Ht in *. apply elem_of_cons in H as [->|H]; done.
  - intros _. eauto.
Qed.

Lemma inv_x_submit s x : inv s -> xs s !! x = Some XCommand -> inv (set_x x XRelease (set_cmd (cmd s ++ [CRelease]) s)).
Proof.
  intros Hinv Hx. destruct (ti_past s Hinv x _ Hx eq_refl) as (Hids & Hc & He). pose proof (ti_excl s Hinv x _ Hx eq_refl) as Hq.
  apply (inv_set_x s (set_cmd (cmd s ++ [CRelease]) s) x XCommand XRelease Hinv eq_refl Hx (or_introl eq_refl)); try apply Hinv; try done.
  - intros Ht. now specialize (sole_taken s x _ Hinv Hx eq_refl Ht).
  - cbn. congruence.
  - intros _. exists (cmd s). split; [done|]. intros Hin. now specialize (sole_release s x _ Hinv Hx eq_refl Hin).
  - intros _ _. exact (sole_open s x _ Hinv Hx eq_refl ltac:(discriminate) Hc).
Qed.

Lemma inv_x_release s x q : inv s -> cmd s = CRelease :: q -> xs s !! x = Some XRelease -> inv (set_x x XReleased (set_cmd q (count_release s))).
Proof.
  intros Hinv Hcmd Hx. destruct (ti_past s Hinv x _ Hx eq_refl) as (Hids & Hc & He). pose proof (ti_excl s Hinv x _ Hx eq_refl) as Hq.
  pose proof (release_alone s x q Hinv Hx Hcmd) as ->.
  assert (Hr : released s = 0%nat) by exact (sole_open s x _ Hinv Hx eq_refl ltac:(discriminate) Hc).
  apply (inv_set_x s (set_cmd [] (count_release s)) x XRelease XReleased Hinv eq_refl Hx (or_introl eq_refl)); try apply Hinv; try done.
  - intros Ht. now specialize (sole_taken s x _ Hinv Hx eq_refl Ht).
  - cbn. congruence.
  - intros Hin. now apply not_elem_of_nil in Hin.
  - intros _. split; [done|]. cbn. now rewrite Hr.
Qed.

Lemma inv_release_failed s x q b : inv s -> cmd s = CRelease :: q -> xs s !! x = Some XRelease -> inv (set_x x XEnd (set_cmd q (set_commandErr b s))).
Proof.
  intros Hinv Hcmd Hx. destruct (ti_past s Hinv x _ Hx eq_refl) as (Hids & Hc & He). pose proof (ti_excl s Hinv x _ Hx eq_refl) as Hq.
  pose proof (release_alone s x q Hinv Hx Hcmd) as ->.
  apply (inv_set_x s (set_cmd [] (set_commandErr b s)) x XRelease XEnd Hinv eq_refl Hx (or_introl eq_refl)); try apply Hinv; try done.
  - intros Ht. now specialize (sole_taken s x _ Hinv Hx eq_refl Ht).
  - cbn. congruence.
  - intros Hin. now apply not_elem_of_nil in Hin.
  - intros _ _. exact (sole_open s x _ Hinv Hx eq_refl ltac:(discriminate) Hc).
Qed.

Lemma inv_x_finish s x : inv s -> xs s !! x = Some XReleased -> inv (set_x x XEnd (set_closed s)).
Proof.
  intros Hinv Hx. destruct (ti_past s Hinv x _ Hx eq_refl) as (Hids & Hc & He). pose proof (ti_excl s Hinv x _ Hx eq_refl) as Hq.
  destruct (ti_released s Hinv x Hx) as [Hcmd Hr].
  apply (inv_set_x s (set_closed s) x XReleased XEnd Hinv eq_refl Hx (or_introl eq_refl)); try apply Hinv; try done.
  - intros Ht. now specialize (sole_taken s x _ Hinv Hx eq_refl Ht).
  - intros Hin. now specialize (sole_release s x _ Hinv Hx eq_refl Hin).
Qed.

Lemma teardown_inv_step s s' : inv s -> step s s' -> inv s'.
Proof.
  intros Hinv Hs.
  assert (Hno : forall i p, ops s !! i = Some p -> reading_op p = true -> ~ quiet s) by (intros i p Hi Hp [_ Q]; specialize (Q i p Hi); congruence).
  destruct Hs.
  - now apply inv_inner.
  - apply (inv_set_op s i OStart); auto.
  - now apply (inv_set_op s i OStart).
  - apply (inv_set_op (set_cmd (cmd s ++ [COp i]) s) i OHeld); [apply inv_submit_op; [done|now apply (Hno i OHeld)]|done|now left].
  - now apply (inv_set_op s i OHeld).
  - now apply (inv_run_op s i).
  - now apply (inv_set_op s i OWait).
  - now apply (inv_set_op s i OWait).
  - now apply inv_x_pending.
  - apply (inv_x_move s x XPending); auto; done.
  - apply (inv_x_move s x XLocked); auto; done.
  - apply (inv_x_move s x XLocked); auto; done.
  - now apply inv_x_take.
  - now apply (inv_x_lane s x l).
  - apply (inv_x_move s x XLanes); auto; done.
  - now apply inv_x_submit.
  - apply (inv_x_move s x XCommand); auto; done.
  - now apply inv_x_release.
  - now apply inv_release_failed.
  - now apply inv_x_finish.
Qed.

Lemma teardown_inv_start n m o c : inv (start n m o c).
Proof.
  assert (Hx : forall x p, xs (start n m o c) !! x = Some p -> p = XStart) by (intros x p Hx; now apply lookup_replicate in Hx as [-> _]).
  assert (Hk : forall k p, Drain.closers (drain (start n m o c)) !! k = Some p -> p = Drain.CStart) by (intros k p Hk; now apply lookup_replicate in Hk as [-> _]).
  split; try done.
  - apply Drain.drain_inv_start.
  - intros k p E. apply Hk in E as ->. cbn. set_solver.
  - intros x y p q E1 E2 Hp. now apply Hx in E1 as ->.
  - intros x p E Hp. now apply Hx in E as ->.
  - intros x E. now apply Hx in E.
  - intros E. now apply not_elem_of_nil in E.
  - intros x E. now apply Hx in E.
Qed.

Lemma teardown_reachable_inv n m o c s : reachable (system n m o c) s -> inv s.
Proof. apply (reachable_invariant (system n m o c) inv); [intros s0 ->; apply teardown_inv_start|exact teardown_inv_step]. Qed.

(** ** Nothing gets stuck, nothing runs forever *)

Definition finished (s : st) : Prop :=
  Drain.finished (drain s) /\ Forall (fun p => p = ODone) (ops s) /\ Forall (fun p => p = XEnd) (xs s).

(** A step of the waits and closes that lets nobody through the gate is a step of the whole, whatever the lanes taken. *)
Lemma calm_inner s v : inv s -> dstep (view s) v -> Drain.keeps_gates (view s) v -> exists s', step s s'.
Proof.
  intros Hinv Hs Hg. pose proof (ti_job s Hinv) as Hjob.
  assert (Hd : exists d, dstep (drain s) d /\ Drain.keeps_gates (drain s) d).
  { destruct (decide (taken s = [])) as [E|E].
    - rewrite (view_untaken s E) in *. eauto.
    - destruct (taken_quiet s Hinv E) as [Hq _]. exists (with_ids (lane_ids s) v). split; [|exact Hg].
      pose proof (step_with_ids (lane_ids s) (view s) v (job_with_ids _ _ Hjob) Hq Hg Hs) as H.
      change (with_ids (lane_ids s) (view s)) with (with_ids (dids (drain s)) (drain s)) in H. now rewrite with_ids_same in H. }
  destruct Hd as (d & Hd & Hk). exists (set_drain d s). apply inner; [exact Hd|auto|]. intros _. now apply keeps_no_new_reader.
Qed.

Lemma writer_or s : writer s \/ ~ writer s.
Proof.
  destruct (Forall_false_or announced (xs s)) as [H|(x & p & Hx & Hp)]; [right|left; now exists x, p].
  intros (x & p & Hx & Hp). rewrite Forall_lookup in H. specialize (H x p Hx). cbn in H. congruence.
Qed.

(** A reader whose lanes and commands are idle can go on. *)
Lemma reader_moves s : inv s -> (forall l, Drain.lane_tasks l (drain s) = []) -> cmd s = [] -> quiet s \/ exists s', step s s'.
Proof.
  intros Hinv Hidle Hcmd.
  destruct (Forall_false_or reading_op (ops s)) as [Ho|(i & p & Hi & Hp)].
  2:{ right. destruct p; try done.
      - eexists. apply (op_submit s i Hi). rewrite Hcmd. cbn. unfold Drain.lane_capacity. lia.
      - eexists. apply (op_receive s i Hi). rewrite Hcmd. apply not_elem_of_nil. }
  assert (Hv : ~ drain_quiet (drain s) -> view s = drain s).
  { intros Hn. apply view_untaken. destruct (taken s) eqn:E; [done|]. destruct Hn. apply (taken_quiet s Hinv). congruence. }
  assert (Hin : dinv (view s)) by apply Hinv.
  destruct (Forall_false_or (fun i => reading_caller i (drain s)) (seq 0 (length (Drain.callers (drain s))))) as [Hc|(j & i & _ & Hi)].
  2:{ right. assert (Hn : ~ drain_quiet (drain s)) by (intros [Q _]; specialize (Q i); congruence). rewrite (Hv Hn) in Hin.
      assert (exists p, Drain.callers (drain s) !! i = Some p /\ Drain.caller_in p = true) as (p & Hp & Hpi).
      { pose proof (proj1 (reading_caller_spec i _) Hi) as [[E _]|[E|E]]; eauto. }
      destruct (Drain.caller_moves _ cancellable _ _ _ _ Hin Hidle Hp Hpi) as (d & Hd & [Hg|Hg]); [destruct (reading_not_gate i _ Hi Hg)|].
      apply (calm_inner s d Hinv); rewrite (Hv Hn); assumption. }
  destruct (Forall_false_or (fun k => reading_closer k (drain s)) (seq 0 (length (Drain.closers (drain s))))) as [Hk|(j & k & _ & Hi)].
  2:{ right. assert (Hn : ~ drain_quiet (drain s)) by (intros [_ Q]; specialize (Q k); congruence). rewrite (Hv Hn) in Hin.
      assert (exists p, Drain.closers (drain s) !! k = Some p /\ Drain.closer_in p = true) as (p & Hp & Hpi).
      { unfold reading_closer in Hi. destruct (Drain.closers (drain s) !! k) as [[]|]; try done; eexists; (split; [reflexivity|reflexivity]). }
      destruct (Drain.closer_moves _ cancellable _ _ _ _ Hin Hidle Hp Hpi) as (d & Hd & [Hg|Hg]); [destruct (reading_closer_not_gate k _ Hi Hg)|].
      apply (calm_inner s d Hinv); rewrite (Hv Hn); assumption. }
  left. split; [split|].
  - intros i. destruct (lt_dec i (length (Drain.callers (drain s)))) as [Hl|Hl].
    + rewrite Forall_forall in Hc. apply Hc. apply elem_of_seq. lia.
    + unfold reading_caller. now rewrite lookup_ge_None_2 by lia.
  - intros k. destruct (lt_dec k (length (Drain.closers (drain s)))) as [Hl|Hl].
    + rewrite Forall_forall in Hk. apply Hk. apply elem_of_seq. lia.
    + unfold reading_closer. now rewrite lookup_ge_None_2 by lia.
  - intros i p Hi. rewrite Forall_lookup in Ho. exact (Ho i p Hi).
Qed.

Lemma lanes_idle_or s : (forall l, Drain.lane_tasks l (drain s) = []) \/ exists l j q, Drain.lane_tasks l (drain s) = j :: q.
Proof.
  destruct (decide (map_Forall (fun _ q => q = []) (Drain.tasks (drain s)))) as [Hi|Hb]; [left|right].
  - intros l. unfold Drain.lane_tasks. destruct (Drain.tasks (drain s) !! l) as [q|] eqn:Hl; [exact (Hi l q Hl)|done].
  - apply map_not_Forall in Hb; [|apply _]. destruct Hb as (l & q & Hl & Hq). destruct q as [|j q]; [done|]. exists l, j, q. unfold Drain.lane_tasks. now rewrite Hl.
Qed.

Lemma lanes_move s l j q : inv s -> Drain.lane_tasks l (drain s) = j :: q -> exists s', step s s'.
Proof.
  intros Hinv Hl. destruct (Drain.lane_moves _ cancellable _ (view s) l j q (ti_view s Hinv) Hl) as (v & Hv & Hg). exact (calm_inner s v Hinv Hv Hg).
Qed.

Lemma cmd_moves s j q : inv s -> cmd s = j :: q -> exists s', step s s'.
Proof.
  intros Hinv Hc. destruct j as [i|]; [eexists; eapply op_run; exact Hc|].
  destruct (ti_no_release s Hinv) as [x Hx]; [rewrite Hc; left|]. eexists. eapply release; eassumption.
Qed.

Lemma writer_moves s : inv s -> (forall l, Drain.lane_tasks l (drain s) = []) -> cmd s = [] -> quiet s -> writer s -> exists s', step s s'.
Proof.
  intros Hinv Hidle Hcmd Hq (x & p & Hx & Hp). destruct p; try done.
  - eexists. now apply (x_lock s x).
  - destruct (closed s) eqn:Hc; eexists; [now apply (x_closed s x)|now apply (x_take s x)].
  - destruct (taken s) as [|l ls] eqn:Ht; eexists; [now apply (x_lanes_done s x)|eapply (x_lane s x l ls); auto].
  - eexists. apply (x_submit s x Hx). rewrite Hcmd. cbn. unfold Drain.lane_capacity. lia.
  - destruct (ti_release s Hinv x Hx) as (q & E & _). rewrite Hcmd in E. now destruct q.
  - eexists. now apply (x_finish s x).
Qed.

(** With nobody at [opMu] or inside it, the waits and closes are as in [Drain.v]. *)
Lemma unlocked_moves s : inv s -> quiet s -> ~ writer s -> Drain.finished (drain s) \/ exists s', step s s'.
Proof.
  intros Hinv [Hq _] Hw. pose proof (ti_job s Hinv) as Hjob.
  assert (Hdo : forall d, dstep (drain s) d -> no_new_reader (drain s) d -> exists s', step s s').
  { intros d Hd Hn. exists (set_drain d s). apply inner; [exact Hd|now intros|now intros]. }
  assert (Hv : view s = drain s).
  { apply view_untaken. destruct (taken s) eqn:E; [done|]. destruct (ti_taken s Hinv) as [x Hx]; [congruence|]. destruct Hw. now exists x, XLanes. }
  pose proof (ti_view s Hinv) as Hd. rewrite Hv in Hd.
  destruct (Forall_false_or (fun k => bool_decide (Drain.closers (drain s) !! k = Some Drain.CLocked)) (seq 0 (length (Drain.closers (drain s))))) as [Hk|(j & k & _ & Hk)].
  2:{ right. apply bool_decide_eq_true in Hk. apply (Hdo _ (Drain.close_rejected wait_on cancellable closes (drain s) k Hk)). split; [done|].
      intros j' Hj. unfold reading_closer in *. cbn in Hj. destruct (decide (k = j')) as [<-|Hne]; [|now rewrite list_lookup_insert_ne in Hj].
      rewrite list_lookup_insert_eq in Hj by (eapply lookup_lt_Some; eassumption). done. }
  destruct (Forall_false_or (fun i => bool_decide (Drain.callers (drain s) !! i = Some Drain.QHeld)) (seq 0 (length (Drain.callers (drain s))))) as [Hc|(j & i & _ & Hi)].
  2:{ right. apply bool_decide_eq_true in Hi. assert (Hwi : Lanes.waits (Drain.pool (drain s)) !! i = Some Lanes.WStart).
      { destruct (lookup_lt_is_Some_2 (Lanes.waits (Drain.pool (drain s))) i) as [w Hwi]; [rewrite (Drain.ji_len _ Hjob); eapply lookup_lt_Some; eassumption|].
        rewrite Hwi. f_equal. destruct (past_start w) eqn:Hp; [|now destruct w].
        pose proof (proj1 Hq i) as Q. rewrite (reading_held i w _ Hi Hwi) in Q; [done|]. now intros ->. }
      apply (Hdo _ (Drain.rejected wait_on cancellable closes (drain s) i Hi Hwi)). split; [|done].
      intros j' Hj. apply reading_set_caller in Hj as [[_ Hj]|(_ & [E|[E|[E _]]])]; done. }
  destruct (Drain.drain_progress wait_on cancellable closes (drain s) Hd) as [Hf|[d Hs]]; [now left|right].
  apply (Hdo d Hs). split.
  - intros i Hi. destruct (reader_was_there _ d i Hjob Hs Hi) as [?|[Hg _]]; [done|]. exfalso.
    rewrite Forall_forall in Hc. specialize (Hc i). cbn in Hc. rewrite bool_decide_eq_true_2 in Hc by exact Hg. discriminate Hc.
    apply elem_of_seq. apply lookup_lt_Some in Hg. lia.
  - intros k Hi. destruct (closer_was_there _ d k Hs Hi) as [?|Hg]; [done|]. exfalso. unfold Drain.gate_closer in Hg.
    rewrite Forall_forall in Hk. specialize (Hk k). cbn in Hk. rewrite bool_decide_eq_true_2 in Hk by exact Hg. discriminate Hk.
    apply elem_of_seq. apply lookup_lt_Some in Hg. lia.
Qed.

Lemma teardown_progress s : inv s -> (finished s /\ (forall l, Drain.lane_tasks l (drain s) = []) /\ cmd s = []) \/ exists s', step s s'.
Proof.
  intros Hinv. destruct (lanes_idle_or s) as [Hidle|(l & j & q & Hl)]; [|right; exact (lanes_move s l j q Hinv Hl)].
  destruct (cmd s) as [|j q] eqn:Hcmd; [|right; exact (cmd_moves s j q Hinv Hcmd)].
  destruct (reader_moves s Hinv Hidle Hcmd) as [Hq|Hs]; [|now right].
  destruct (writer_or s) as [Hw|Hw]; [right; exact (writer_moves s Hinv Hidle Hcmd Hq Hw)|].
  destruct (Forall_false_or (fun p => bool_decide (p = XStart)) (xs s)) as [Hx|(x & p & Hx & ->%bool_decide_eq_true)].
  2:{ right. eexists. now apply (x_pending s x). }
  destruct (Forall_false_or (fun p => bool_decide (p = OStart)) (ops s)) as [Ho|(i & p & Hi & ->%bool_decide_eq_true)].
  2:{ right. eexists. now apply (op_rejected s i). }
  destruct (unlocked_moves s Hinv Hq Hw) as [Hf|Hs]; [left|now right]. split_and!; [|done|done]. split_and!; [exact Hf| |].
  - apply Forall_lookup. intros i p Hi. rewrite Forall_lookup in Ho. specialize (Ho i p Hi). apply bool_decide_eq_false in Ho.
    pose proof (proj2 Hq i p Hi) as Hr. now destruct p.
  - apply Forall_lookup. intros x p Hi. rewrite Forall_lookup in Hx. specialize (Hx x p Hi). apply bool_decide_eq_false in Hx.
    destruct (announced p) eqn:Ha; [|now destruct p]. destruct Hw. now exists x, p.
Qed.

(** The steps each party may still take. *)
Definition op_left (p : op_pc) : nat := match p with OStart => 4 | OHeld => 3 | OWait => 1 | ODone => 0 end.
Definition x_left (p : x_pc) : nat :=
  match p with
  | XStart => maxWaitLanes + 8 | XPending => maxWaitLanes + 7 | XLocked => maxWaitLanes + 6
  | XLanes => 5 | XCommand => 4 | XRelease => 2 | XReleased => 1 | XEnd => 0
  end.
Definition measure (s : st) : nat :=
  (Drain.measure (drain s) + sum_list_with op_left (ops s) + length (cmd s) + sum_list_with x_left (xs s) + length (taken s))%nat.

Lemma teardown_step_left s s' : inv s -> step s s' -> (measure s' < measure s)%nat.
Proof.
  intros Hinv Hs. unfold measure.
  destruct Hs; cbn [drain ops cmd xs taken set_drain set_op set_cmd set_x set_taken set_closed set_commandErr count_release];
    try match goal with |- context [<[?i := ?p]> (ops s)] => match goal with H : ops s !! i = Some ?q |- _ =>
      pose proof (sum_insert op_left _ _ _ p H) as E; cbn [op_left] in E end end;
    try match goal with |- context [<[?x := ?p]> (xs s)] => match goal with H : xs s !! x = Some ?q |- _ =>
      pose proof (sum_insert x_left _ _ _ p H) as E; cbn [x_left] in E end end;
    try match goal with H : cmd s = _ |- _ => rewrite ?H end; try match goal with H : taken s = _ |- _ => rewrite ?H end; rewrite ?length_app; cbn [length]; try lia.
  - pose proof (Drain.step_left _ cancellable _ _ _ (ti_view s Hinv) (inner_view s d Hinv H H0)) as Hl.
    change (Drain.measure (with_ids (dids d ++ taken s) d)) with (Drain.measure d) in Hl. change (Drain.measure (view s)) with (Drain.measure (drain s)) in Hl. lia.
  - change (Drain.measure (with_ids [] (drain s))) with (Drain.measure (drain s)).
    pose proof (Lanes.inv_limit _ (Drain.inv_pool _ _ _ (ti_view s Hinv))) as Hl. cbn in Hl. rewrite length_app in Hl. unfold lane_ids in *. lia.
Qed.

Lemma teardown_nsteps k s s' : inv s -> nsteps step k s s' -> (k + measure s' <= measure s)%nat.
Proof.
  intros Hinv Hn. induction Hn as [s|k s1 s2 s3 Hs Hn IH]; [lia|]. pose proof (teardown_step_left _ _ Hinv Hs).
  specialize (IH (teardown_inv_step _ _ Hinv Hs)). lia.
Qed.

(** ** Theorems *)

(** Once the context is released nothing of it is left running or can be started. *)
Lemma released_idle s : inv s -> released s <> 0%nat -> quiet s /\ cmd s = [] /\ forall l, Drain.lane_tasks l (drain s) = [].
Proof.
  intros Hinv Hr. assert (Hex : closed s = true \/ exists x, xs s !! x = Some XReleased).
  { destruct (closed s) eqn:Hc; [now left|right]. destruct (Forall_false_or (fun p => bool_decide (p = XReleased)) (xs s)) as [Hx|(x & p & Hx & ->%bool_decide_eq_true)]; [|eauto].
    destruct Hr. apply (ti_open s Hinv Hc). intros x Hx'. rewrite Forall_lookup in Hx. specialize (Hx x _ Hx'). cbn in Hx. now apply bool_decide_eq_false in Hx. }
  assert (Hids : lane_ids s = [] /\ cmd s = [] /\ quiet s).
  { destruct Hex as [Hc|[x Hx]].
    - destruct (ti_closed s Hinv Hc) as (H1 & H2 & _). split_and!; [done|done|]. apply (ti_shut s Hinv). now rewrite Hc.
    - destruct (ti_past s Hinv x _ Hx eq_refl) as (H1 & _). destruct (ti_released s Hinv x Hx) as [H2 _]. split_and!; [done|done|]. exact (ti_excl s Hinv x _ Hx eq_refl). }
  assert (Ht : taken s = []).
  { destruct (taken s) as [|l ls] eqn:Ht; [done|]. destruct (ti_taken s Hinv) as [y Hy]; [congruence|]. destruct Hex as [Hc|[x Hx]].
    - destruct (ti_past s Hinv y _ Hy eq_refl) as (_ & E & _). congruence.
    - assert (x = y) as <- by exact (ti_one s Hinv x y _ _ Hx Hy eq_refl eq_refl). congruence. }
  destruct Hids as (H1 & H2 & H3). split_and!; [done|done|]. intros l. destruct (Drain.lane_tasks l (drain s)) as [|j q] eqn:Hl; [done|].
  assert (Hin : l ∈ lane_ids s ++ taken s) by (apply (ti_tasks s Hinv l); congruence). rewrite H1, Ht in Hin. now apply not_elem_of_nil in Hin.
Qed.

Lemma released_step s s' : inv s -> step s s' -> released s <> 0%nat ->
  released s' <> 0%nat /\ Drain.destroyed (drain s') = Drain.destroyed (drain s).
Proof.
  intros Hinv Hs Hr. destruct (released_idle s Hinv Hr) as ([[_ Qk] _] & _).
  destruct Hs; try (now split). split; [exact Hr|]. destruct H; try reflexivity. specialize (Qk k). unfold reading_closer in Qk. now rewrite H in Qk.
Qed.

Lemma released_rtc s s' : inv s -> rtc step s s' -> released s <> 0%nat ->
  inv s' /\ released s' <> 0%nat /\ Drain.destroyed (drain s') = Drain.destroyed (drain s).
Proof.
  intros Hinv Hs. induction Hs as [s|s1 s2 s3 Hs _ IH]; [done|]. intros Hr.
  destruct (released_step s1 s2 Hinv Hs Hr) as [Hr2 E]. rewrite <- E. apply IH; [exact (teardown_inv_step _ _ Hinv Hs)|exact Hr2].
Qed.

(** At most one release, and none while a [Close] is on its way to it. *)
Lemma released_bound s : inv s -> (released s <= 1)%nat.
Proof.
  intros Hinv. destruct (closed s) eqn:Hc; [destruct (ti_closed s Hinv Hc) as (_ & _ & ->); lia|].
  destruct (Forall_false_or (fun p => bool_decide (p = XReleased)) (xs s)) as [Hx|(x & p & Hx & ->%bool_decide_eq_true)].
  - rewrite (ti_open s Hinv Hc); [lia|]. intros x Hx'. rewrite Forall_lookup in Hx. specialize (Hx x _ Hx'). now apply bool_decide_eq_false in Hx.
  - destruct (ti_released s Hinv x Hx) as [_ ->]. lia.
Qed.

Lemma release_runs_idle s x q : inv s -> xs s !! x = Some XRelease -> cmd s = CRelease :: q ->
  q = [] /\ released s = 0%nat /\ quiet s /\ forall l, Drain.lane_tasks l (drain s) = [].
Proof.
  intros Hinv Hx Hc. destruct (ti_past s Hinv x _ Hx eq_refl) as (Hids & Hcl & _). split_and!.
  - exact (release_alone s x q Hinv Hx Hc).
  - exact (sole_open s x _ Hinv Hx eq_refl ltac:(discriminate) Hcl).
  - exact (ti_excl s Hinv x _ Hx eq_refl).
  - intros l. destruct (Drain.lane_tasks l (drain s)) as [|j r] eqn:Hl; [done|].
    assert (Hin : l ∈ lane_ids s ++ taken s) by (apply (ti_tasks s Hinv l); congruence). rewrite Hids in Hin.
    destruct (taken s) as [|y ys] eqn:Ht; [now apply not_elem_of_nil in Hin|].
    assert (XRelease = XLanes); [|done]. apply (sole_taken s x _ Hinv Hx eq_refl). congruence.
Qed.

(** C6.  In every interleaving of cancellable waits, closes of streams and events, commands that may be abandoned and [Close] calls on one context: the primary
    context is released at most once; when the closure that releases it runs, nothing else is queued on the command thread, no wait lane has a task and no
    goroutine is inside an operation; and after the release, however many callers gave up and returned, no command, wait or destroy call is running or will run on it. *)
Theorem teardown_safe (n m o c : nat) (s : st) :
  reachable (system n m o c) s ->
  (released s <= 1)%nat /\
  (forall x q, xs s !! x = Some XRelease -> cmd s = CRelease :: q ->
     q = [] /\ released s = 0%nat /\ quiet s /\ forall l, Drain.lane_tasks l (drain s) = []) /\
  (released s = 1%nat -> quiet s /\ cmd s = [] /\ (forall l, Drain.lane_tasks l (drain s) = []) /\
     forall s', rtc step s s' -> released s' = 1%nat /\ quiet s' /\ Drain.destroyed (drain s') = Drain.destroyed (drain s)).
Proof.
  intros Hr. apply teardown_reachable_inv in Hr as Hinv. split_and!.
  - exact (released_bound s Hinv).
  - intros x q. exact (release_runs_idle s x q Hinv).
  - intros E. destruct (released_idle s Hinv) as (Hq & Hc & Hl); [lia|]. split_and!; [done..|]. intros s' Hs.
    destruct (released_rtc s s' Hinv Hs) as (Hinv' & Hr' & Hd); [lia|]. pose proof (released_bound s' Hinv'). split_and!; [lia| |exact Hd].
    now apply (released_idle s' Hinv').
Qed.

(** C7.  Closing a context never deadlocks with what runs on it: from a reachable state every run takes at most [measure] further steps, and one that cannot go on
    has every wait, close, operation and [Close] of the context returned, every lane idle and the command thread without work. *)
Theorem teardown_terminates (n m o c : nat) (s : st) :
  reachable (system n m o c) s ->
  (forall k s', nsteps step k s s' -> (k <= measure s)%nat) /\
  (forall s', rtc step s s' -> (forall s'', ~ step s' s'') ->
     finished s' /\ (forall l, Drain.lane_tasks l (drain s') = []) /\ cmd s' = []).
Proof.
  intros Hr. split.
  - intros k s' Hk. apply teardown_reachable_inv in Hr. pose proof (teardown_nsteps k s s' Hr Hk). lia.
  - intros s' Hs Hstuck. pose proof (reachable_rtc (system n m o c) s s' Hr Hs) as Hr'. apply teardown_reachable_inv in Hr'.
    destruct (teardown_progress s' Hr') as [H|[s'' H]]; [exact H|now destruct (Hstuck s'')].
Qed.
End Machine.
End Teardown.
