(* ===== verification/LockOrder.v ===== *)
(** * Lock order (cuda: opMu, Context.opMu, Executor.mu)

    Operations on two resources hold both read locks at once while another goroutine may wait in [Close] for either
    of them.  Go's RWMutex makes new readers wait behind an announced writer, so the order of acquisition
    matters.  Threads are interleaved lock operation by lock operation. *)

From S2P Require Import Prelude.

Module LockOrder.

(** The mutexes by class - a resource's [opMu], a context's [opMu], an executor's [mu] - and address. *)
Inductive lockclass := Resource | Ctx | Exe.

Definition class_rank (c : lockclass) : Z := match c with Resource => 0 | Ctx => 1 | Exe => 2 end.

Record lock := mkLock { lk_class : lockclass; lk_addr : Z }.

#[export] Instance lockclass_eq_dec : EqDecision lockclass.
Proof. solve_decision. Defined.

#[export] Instance lock_eq_dec : EqDecision lock.
Proof. solve_decision. Defined.

(** The order of acquisition: by class, then by address. *)
Definition lock_lt (a b : lock) : Prop :=
  class_rank (lk_class a) < class_rank (lk_class b) \/ (lk_class a = lk_class b /\ lk_addr a < lk_addr b).

#[export] Instance lock_lt_dec a b : Decision (lock_lt a b).
Proof. unfold lock_lt. apply _. Defined.

Lemma lock_lt_trans a b c : lock_lt a b -> lock_lt b c -> lock_lt a c.
Proof.
  unfold lock_lt. intros [H1|[H1 H1']] [H2|[H2 H2']]; [left; lia|left; rewrite <- H2; lia|left; rewrite H1; lia|right].
  split; [congruence|lia].
Qed.

Lemma lock_lt_irrefl a : ~ lock_lt a a.
Proof. unfold lock_lt. intros [H|[_ H]]; lia. Qed.

Lemma lock_lt_total a b : lock_lt a b \/ a = b \/ lock_lt b a.
Proof.
  destruct a as [c x], b as [d y]. unfold lock_lt. cbn.
  assert (Hc : class_rank c < class_rank d \/ c = d \/ class_rank d < class_rank c) by (destruct c, d; cbn; auto; lia).
  destruct Hc as [Hc|[->|Hc]]; auto. destruct (Z.lt_trichotomy x y) as [H|[->|H]]; auto.
Qed.

Inductive cmd := RLock (l : lock) | Lock (l : lock) | Unlock (l : lock).

#[export] Instance cmd_eq_dec : EqDecision cmd.
Proof. solve_decision. Defined.

(** ** Threads and sync.RWMutex *)

(** The locks a thread holds (with true: as the writer), whether it has announced itself as the writer of the lock it asks
    for, and what it still has to do. *)
Record thread := mkThread { held : list (lock * bool); announced : bool; todo : list cmd }.

(** A writer holds [l], or has announced itself: the [w] mutex is taken and [readerCount] is negative. *)
Definition writes (l : lock) (t : thread) : bool :=
  bool_decide ((l, true) ∈ held t) ||
  (announced t && match todo t with Lock l' :: _ => bool_decide (l' = l) | _ => false end).

Definition reads (l : lock) (t : thread) : bool := bool_decide ((l, false) ∈ held t).

Definition has_writer (l : lock) (s : list thread) : bool := existsb (writes l) s.
Definition has_reader (l : lock) (s : list thread) : bool := existsb (reads l) s.

(** Gives back the lock last taken on [l]. *)
Fixpoint release (l : lock) (h : list (lock * bool)) : list (lock * bool) :=
  match h with
  | [] => []
  | x :: h => if decide (x.1 = l) then h else x :: release l h
  end.

(** The next lock operation of [t] among the threads [s]; None: it waits (or has finished).  [RLock] waits behind a writer, also an announced one;
    [Lock] waits for the other writers, announces itself, and then waits for the readers. *)
Definition advance (s : list thread) (t : thread) : option thread :=
  match todo t with
  | [] => None
  | RLock l :: r => if has_writer l s then None else Some (mkThread ((l, false) :: held t) false r)
  | Lock l :: r =>
      if announced t then
        if has_reader l s then None else Some (mkThread ((l, true) :: held t) false r)
      else if has_writer l s then None else Some (mkThread (held t) true (Lock l :: r))
  | Unlock l :: r => Some (mkThread (release l (held t)) false r)
  end.

Definition step (s s' : list thread) : Prop :=
  exists i t t', s !! i = Some t /\ advance s t = Some t' /\ s' = <[i := t']> s.

Definition finished (s : list thread) : Prop := Forall (fun t => todo t = []) s.

Definition start (p : list cmd) : thread := mkThread [] false p.

Definition system (ps : list (list cmd)) : Machine :=
  {| m_state := list thread; m_init s := s = map start ps; m_step := step |}.

(** ** What the operations lock *)

(** [Executor.submit], under [Context.opMu]: [Context.doJob] and its variants. *)
Definition inContext (c x : Z) : list cmd :=
  [RLock (mkLock Ctx c); RLock (mkLock Exe x); Unlock (mkLock Exe x); Unlock (mkLock Ctx c)].

(** [lockEvents] and [unlockEvents] around the body of [Event.Elapsed]; a nil [second] is None. *)
Definition lockEvents (a b : Z) : Z * option Z :=
  if decide (a = b) then (a, None)
  else let '(first, second) := (a, b) in
       if second <? first then (second, Some first) else (first, Some second).

Definition locked_pair (p : Z * option Z) (body : list cmd) : list cmd :=
  match p with
  | (first, None) => [RLock (mkLock Resource first)] ++ body ++ [Unlock (mkLock Resource first)]
  | (first, Some second) =>
      [RLock (mkLock Resource first); RLock (mkLock Resource second)] ++ body ++
      [Unlock (mkLock Resource second); Unlock (mkLock Resource first)]
  end.

Definition Event_Elapsed_locks (e end_ c x : Z) : list cmd := locked_pair (lockEvents e end_) (inContext c x).

(** [lockPitchedPair] and the function it returns, around [PitchedBuffer.CopyToDevice]. *)
Definition lockPitchedPair (a b : Z) : Z * option Z :=
  let '(first, second) := (a, b) in
  let '(first, second) := if second <? first then (second, first) else (first, second) in
  if decide (first = second) then (first, None) else (first, Some second).

Definition PitchedBuffer_CopyToDevice_locks (b dst c x : Z) : list cmd := locked_pair (lockPitchedPair b dst) (inContext c x).

(** [Close] of a resource, and an operation on one resource. *)
Definition Close (r c x : Z) : list cmd := [Lock (mkLock Resource r)] ++ inContext c x ++ [Unlock (mkLock Resource r)].
Definition Use (r c x : Z) : list cmd := [RLock (mkLock Resource r)] ++ inContext c x ++ [Unlock (mkLock Resource r)].

(** [Context.Close]: the executor is closed under [Context.opMu]. *)
Definition Context_Close_locks (c x : Z) : list cmd :=
  [Lock (mkLock Ctx c); Lock (mkLock Exe x); Unlock (mkLock Exe x); Unlock (mkLock Ctx c)].

(** [Buffer.CopyToDevice]: the receiver's lock first, then the destination's. *)
Definition Buffer_CopyToDevice_locks (b dst c x : Z) : list cmd :=
  [RLock (mkLock Resource b)] ++
  (if decide (dst <> b) then [RLock (mkLock Resource dst)] else []) ++ inContext c x ++
  (if decide (dst <> b) then [Unlock (mkLock Resource dst)] else []) ++
  [Unlock (mkLock Resource b)].

(** ** Ordered acquisition *)

(** From the locks [h] on, [p] takes only locks above all those it holds, and gives all of them back. *)
Fixpoint ordered (h : list (lock * bool)) (p : list cmd) : Prop :=
  match p with
  | [] => h = []
  | RLock l :: p => Forall (fun x => lock_lt x.1 l) h /\ ordered ((l, false) :: h) p
  | Lock l :: p => Forall (fun x => lock_lt x.1 l) h /\ ordered ((l, true) :: h) p
  | Unlock l :: p => ordered (release l h) p
  end.

#[export] Instance ordered_dec p : forall h, Decision (ordered h p).
Proof. induction p as [|[l|l|l] p IH]; intros h; cbn; apply _. Defined.

Definition good (s : list thread) : Prop := Forall (fun t => ordered (held t) (todo t)) s.

Lemma advance_ordered s t t' : ordered (held t) (todo t) -> advance s t = Some t' -> ordered (held t') (todo t').
Proof.
  unfold advance. destruct (todo t) as [|[l|l|l] p]; cbn; intros Ho Ha; [done| | |].
  - destruct (has_writer l s); simplify_eq/=. apply Ho.
  - destruct (announced t), (has_reader l s), (has_writer l s); simplify_eq/=; exact Ho || apply Ho.
  - simplify_eq/=. exact Ho.
Qed.

Lemma good_reachable ps s : Forall (ordered []) ps -> reachable (system ps) s -> good s.
Proof.
  intros Hps. apply reachable_invariant.
  - intros s0 ->. apply Forall_map. exact Hps.
  - intros s1 s2 Hg (i & t & t' & Hi & Ha & ->). apply Forall_insert; [exact Hg|].
    eapply advance_ordered; [|exact Ha]. exact (Forall_lookup_1 _ _ _ _ Hg Hi).
Qed.

(** *** No deadlock *)

(** The lock a thread asks for next. *)
Definition wants (t : thread) : option lock :=
  match todo t with RLock l :: _ | Lock l :: _ => Some l | _ => None end.

(** A thread that holds [l] and cannot move wants a greater lock. *)
Lemma holder_wants s t l w :
  ordered (held t) (todo t) -> (l, w) ∈ held t -> advance s t = None -> exists l', wants t = Some l' /\ lock_lt l l'.
Proof.
  intros Ho Hin Ha. unfold advance, wants in *. destruct (todo t) as [|[l'|l'|l'] p]; cbn in Ho.
  - rewrite Ho in Hin. now apply not_elem_of_nil in Hin.
  - exists l'. split; [done|]. destruct Ho as [Ho _]. rewrite Forall_forall in Ho. exact (Ho _ Hin).
  - exists l'. split; [done|]. destruct Ho as [Ho _]. rewrite Forall_forall in Ho. exact (Ho _ Hin).
  - discriminate.
Qed.

Lemma existsb_lookup (f : thread -> bool) s : existsb f s = true -> exists t, t ∈ s /\ f t = true.
Proof. intros H. apply existsb_exists in H as (t & Ht & Hf). exists t. split; [now apply list_elem_of_In|done]. Qed.

(** Among threads none of which can move, whoever waits for [l] waits because some thread wants a greater lock. *)
Lemma waits_greater s t l :
  good s -> (forall t, t ∈ s -> advance s t = None) -> t ∈ s -> wants t = Some l ->
  exists t' l', t' ∈ s /\ wants t' = Some l' /\ lock_lt l l'.
Proof.
  intros Hg Hstuck Ht Hw.
  assert (Hhold : forall t' w, t' ∈ s -> (l, w) ∈ held t' -> exists t' l', t' ∈ s /\ wants t' = Some l' /\ lock_lt l l').
  { intros t' w Ht' Hin. unfold good in Hg. rewrite Forall_forall in Hg.
    destruct (holder_wants s t' l w (Hg t' Ht') Hin (Hstuck t' Ht')) as (l' & H1 & H2). eauto. }
  assert (Hread : has_reader l s = true -> exists t' l', t' ∈ s /\ wants t' = Some l' /\ lock_lt l l').
  { intros Hr. apply existsb_lookup in Hr as (t' & Ht' & Hr). apply bool_decide_eq_true in Hr. eauto. }
  assert (Hwrite : has_writer l s = true -> exists t' l', t' ∈ s /\ wants t' = Some l' /\ lock_lt l l').
  { intros Hr. apply existsb_lookup in Hr as (t' & Ht' & Hr). unfold writes in Hr.
    apply orb_true_iff in Hr as [Hr|Hr]; [apply bool_decide_eq_true in Hr; eauto|].
    apply andb_true_iff in Hr as [Han Hh]. pose proof (Hstuck t' Ht') as Ha. unfold advance in Ha.
    destruct (todo t') as [|[l'|l'|l'] p]; try discriminate. apply bool_decide_eq_true in Hh as ->.
    rewrite Han in Ha. destruct (has_reader l s); [auto|discriminate]. }
  pose proof (Hstuck t Ht) as Ha. unfold advance in Ha. unfold wants in Hw.
  destruct (todo t) as [|[l'|l'|l'] p]; try discriminate; injection Hw as ->.
  - destruct (has_writer l s); [auto|discriminate].
  - destruct (announced t); [destruct (has_reader l s); [auto|discriminate]|destruct (has_writer l s); [auto|discriminate]].
Qed.

(** Some thread wants a lock that none wants a greater one than. *)
Lemma greatest_wanted (s : list thread) :
  (exists t l, t ∈ s /\ wants t = Some l) ->
  exists t l, t ∈ s /\ wants t = Some l /\ forall t' l', t' ∈ s -> wants t' = Some l' -> ~ lock_lt l l'.
Proof.
  induction s as [|x s IH]; intros (t & l & Ht & Hw); [now apply not_elem_of_nil in Ht|].
  destruct (decide (Exists (fun t => is_Some (wants t)) s)) as [Hd|Hd]; rewrite Exists_exists in Hd.
  - destruct IH as (t1 & l1 & Ht1 & Hw1 & Hm); [destruct Hd as (t1 & H1 & [l1 H2]); eauto|].
    destruct (wants x) as [lx|] eqn:Hx.
    + destruct (decide (lock_lt l1 lx)) as [Hlt|Hlt].
      * exists x, lx. split_and!; [left|done|]. intros t' l' [->|Ht']%elem_of_cons Hw'.
        -- rewrite Hx in Hw'. injection Hw' as ->. apply lock_lt_irrefl.
        -- intros Hl. apply (Hm t' l' Ht' Hw'). eapply lock_lt_trans; eauto.
      * exists t1, l1. split_and!; [now right|done|]. intros t' l' [->|Ht']%elem_of_cons Hw'; [congruence|eauto].
    + exists t1, l1. split_and!; [now right|done|]. intros t' l' [->|Ht']%elem_of_cons Hw'; [congruence|eauto].
  - apply elem_of_cons in Ht as [->|Ht]; [|exfalso; apply Hd; exists t; eauto].
    exists x, l. split_and!; [left|done|]. intros t' l' [->|Ht']%elem_of_cons Hw'.
    + rewrite Hw in Hw'. injection Hw' as ->. apply lock_lt_irrefl.
    + exfalso. apply Hd. exists t'. eauto.
Qed.

Lemma unfinished_wants s t : advance s t = None -> todo t <> [] -> exists l, wants t = Some l.
Proof. unfold advance, wants. destruct (todo t) as [|[l|l|l] p]; [done|eauto|eauto|discriminate]. Qed.

Lemma good_moves s : good s -> finished s \/ exists s', step s s'.
Proof.
  intros Hg. destruct (decide (Exists (fun t => is_Some (advance s t)) s)) as [Hn|Hn]; rewrite Exists_exists in Hn;
    [destruct Hn as (t & Ht & [t' Ha])|].
  - right. apply list_elem_of_lookup in Ht as [i Hi]. exists (<[i := t']> s), i, t, t'. auto.
  - left. assert (Hstuck : forall t, t ∈ s -> advance s t = None).
    { intros t Ht. destruct (advance s t) eqn:E; [|done]. exfalso. apply Hn. exists t. split; [done|now rewrite E]. }
    apply Forall_forall. intros t Ht. destruct (todo t) as [|c0 p0] eqn:E; [done|]. exfalso.
    destruct (unfinished_wants s t (Hstuck t Ht)) as [l0 Hw]; [congruence|].
    destruct (greatest_wanted s) as (t1 & l1 & H1 & H2 & H3); [eauto|].
    destruct (waits_greater s t1 l1 Hg Hstuck H1 H2) as (t2 & l2 & H4 & H5 & H6). exact (H3 t2 l2 H4 H5 H6).
Qed.

(** *** Runs are finite *)

(** Lock operations left, an announcement counting as one. *)
Definition left_ (t : thread) : nat :=
  (2 * length (todo t) - (if announced t then 1 else 0))%nat.
Definition total (s : list thread) : nat := sum_list_with left_ s.

Lemma advance_left s t t' : advance s t = Some t' -> (left_ t' < left_ t)%nat.
Proof.
  unfold advance, left_. destruct (todo t) as [|[l|l|l] p] eqn:E; intros Ha; [done| | |]; destruct (announced t);
    try (destruct (has_writer l s)); try (destruct (has_reader l s)); simplify_eq/=; lia.
Qed.

Lemma total_insert s i t t' : s !! i = Some t -> (total (<[i := t']> s) + left_ t = total s + left_ t')%nat.
Proof. apply sum_insert. Qed.

Lemma step_total s s' : step s s' -> (total s' < total s)%nat.
Proof.
  intros (i & t & t' & Hi & Ha & ->). apply advance_left in Ha. pose proof (total_insert s i t t' Hi). lia.
Qed.

Lemma run_bounded n s s' : nsteps step n s s' -> (n + total s' <= total s)%nat.
Proof. induction 1 as [|n a b c Hs _ IH]; [lia|]. apply step_total in Hs. lia. Qed.

Lemma total_start ps : total (map start ps) = sum_list_with (fun p => 2 * length p)%nat ps.
Proof. unfold total. induction ps as [|p ps IH]; [done|]. cbn [map sum_list_with]. rewrite IH. unfold left_, start. cbn [announced todo]. lia. Qed.

(** *** The operations of the library *)

(** The operations that lock in order, with the resources, the context and the executor they use. *)
Inductive op :=
| OpElapsed (e end_ c x : Z)
| OpPitchedCopy (b dst c x : Z)
| OpUse (r c x : Z)
| OpClose (r c x : Z)
| OpContextClose (c x : Z).

Definition locks_of (o : op) : list cmd :=
  match o with
  | OpElapsed e d c x => Event_Elapsed_locks e d c x
  | OpPitchedCopy b d c x => PitchedBuffer_CopyToDevice_locks b d c x
  | OpUse r c x => Use r c x
  | OpClose r c x => Close r c x
  | OpContextClose c x => Context_Close_locks c x
  end.

Ltac lock_lt_tac :=
  repeat (match goal with
  | |- _ /\ _ => split
  | |- Forall _ _ => constructor
  | |- lock_lt _ _ => unfold lock_lt; cbn; first [left; lia | right; split; [reflexivity|lia]]
  | |- _ = _ => reflexivity
  | |- context [decide (?x = ?y)] => destruct (decide (x = y)); [try congruence|try congruence]
  end; cbn).

Lemma locked_pair_ordered p c x :
  match p with (a, Some b) => a < b | _ => True end -> ordered [] (locked_pair p (inContext c x)).
Proof. destruct p as [a [b|]]; intros Hab; unfold locked_pair, inContext; cbn; lock_lt_tac. Qed.

Lemma locks_of_ordered o : ordered [] (locks_of o).
Proof.
  destruct o as [e d c x|b d c x|r c x|r c x|c x]; cbn [locks_of].
  - apply locked_pair_ordered. unfold lockEvents. case_decide; [done|]. destruct (Z.ltb_spec d e); lia.
  - apply locked_pair_ordered. unfold lockPitchedPair. destruct (Z.ltb_spec d b); case_decide; lia || done.
  - unfold Use, inContext; cbn; lock_lt_tac.
  - unfold Close, inContext; cbn; lock_lt_tac.
  - unfold Context_Close_locks; cbn; lock_lt_tac.
Qed.

(** *** The deadlock *)

(** The rest of [Buffer_CopyToDevice_locks b dst] once it has the lock of [b]. *)
Definition CopyToDevice_rest (b dst c x : Z) : list cmd :=
  [RLock (mkLock Resource dst)] ++ inContext c x ++ [Unlock (mkLock Resource dst)] ++ [Unlock (mkLock Resource b)].

Lemma CopyToDevice_two b dst c x : dst <> b -> Buffer_CopyToDevice_locks b dst c x = RLock (mkLock Resource b) :: CopyToDevice_rest b dst c x.
Proof. intros H. unfold Buffer_CopyToDevice_locks. destruct (decide (dst <> b)); [done|contradiction]. Qed.

(** Both copies hold their first lock, both [Close]s have announced themselves. *)
Definition deadlocked (a b c x : Z) : list thread :=
  [mkThread [(mkLock Resource a, false)] false (CopyToDevice_rest a b c x);
   mkThread [(mkLock Resource b, false)] false (CopyToDevice_rest b a c x);
   mkThread [] true (Close a c x); mkThread [] true (Close b c x)].

Lemma step_at s i t t' s' : s !! i = Some t -> advance s t = Some t' -> s' = <[i := t']> s -> step s s'.
Proof. intros. exists i, t, t'. auto. Qed.

Ltac lock_tests :=
  repeat match goal with
  | |- context [bool_decide ?P] =>
      first [rewrite (bool_decide_eq_true_2 P) by (rewrite ?elem_of_cons, ?elem_of_nil; intuition congruence)
            |rewrite (bool_decide_eq_false_2 P) by (rewrite ?elem_of_cons, ?elem_of_nil; intuition congruence)]
  end.

(** ** Theorems *)


(** C39.  Locking two buffers in argument order does deadlock: with [a.CopyToDevice(b)] and [b.CopyToDevice(a)] running while [a.Close()] and [b.Close()] wait, a state is
    reachable in which no goroutine can move and none has finished - for any two buffers of one context. *)
Theorem CopyToDevice_deadlocks (a b c x : Z) : a <> b ->
  exists s, reachable (system [Buffer_CopyToDevice_locks a b c x; Buffer_CopyToDevice_locks b a c x; Close a c x; Close b c x]) s /\
    length s = 4%nat /\ Forall (fun t => todo t <> []) s /\ ~ exists s', step s s'.
Proof.
  intros Hab. exists (deadlocked a b c x). rewrite !CopyToDevice_two by congruence. split; [|split; [done|split]].
  - eexists. split; [reflexivity|]. cbn [map].
    eapply rtc_l; [eapply (step_at _ 0); reflexivity|].
    eapply rtc_l; [eapply (step_at _ 1); [reflexivity|unfold advance, has_writer, writes; cbn; lock_tests; reflexivity|reflexivity]|].
    eapply rtc_l; [eapply (step_at _ 2); [reflexivity|unfold advance, has_writer, writes; cbn; lock_tests; reflexivity|reflexivity]|].
    eapply rtc_l; [eapply (step_at _ 3); [reflexivity|unfold advance, has_writer, writes; cbn; lock_tests; reflexivity|reflexivity]|].
    reflexivity.
  - repeat constructor; discriminate.
  - intros (s' & i & t & t' & Hi & Ha & _).
    destruct i as [|[|[|[|i]]]]; [..|done]; injection Hi as <-; revert Ha;
      unfold advance, has_writer, has_reader, writes, reads; cbn; lock_tests; cbn; rewrite ?orb_true_r; discriminate.
Qed.

End LockOrder.
