(* ===== verification/Loader.v ===== *)
(** * Loading the driver (internal/dynload, internal/platform, cudasys.Load, cuda.Init) and device queries

    Loading opens the first candidate library that opens, looks every symbol up, and gives the library back when it cannot be used.
    The operating system's loader is the foreign [Linker]; what the code asks it is recorded in a log.
    The device queries of package [cuda] that run under the package's [mu] are here too. *)

From S2P Require Import Prelude CudaSys Errors Runtime CudaResult ExecutorApi Context Dispatch Resource.

Module Loader.

(** The operating systems the build tags distinguish. *)
Inductive os := Linux | Windows | OtherOS.

#[export] Instance os_eq_dec : EqDecision os.
Proof. solve_decision. Defined.

(** What the code asks of the dynamic loader: a handle or an error from opening, an address and an error from a lookup, an error
    from closing, and the value of the panic of [purego.RegisterLibFunc], if it panics. *)
Class Linker `{Foreign} := {
  sys_open : string -> World -> (Z + error) * World;
  sys_lookup : Z -> string -> World -> (Z * err) * World;
  sys_close : Z -> World -> err * World;
  sys_register : Z -> string -> World -> option string * World
}.

(** What has been asked, in order; [Looked]: whether the symbol was found, [Registered]: whether it was bound. *)
Inductive libevent :=
| Tried (path : string)
| Opened (h : Z)
| Looked (name : string) (found : bool)
| Registered (name : string) (bound : bool)
| Closed (h : Z).

#[export] Instance libevent_eq_dec : EqDecision libevent.
Proof. solve_decision. Defined.

Section Loading.
Context `{Foreign} `{!Linker}.

(** Code that runs before there is a driver: it changes the foreign world and the log only. *)
Definition L (A : Type) : Type := World * list libevent -> A * (World * list libevent).

Definition lret {A} (a : A) : L A := fun x => (a, x).
Definition lbind {A B} (m : L A) (k : A -> L B) : L B := fun x => let '(a, x) := m x in k a x.
Definition log (ev : libevent) : L unit := fun x => (tt, (x.1, x.2 ++ [ev])).
Definition foreign {A} (f : World -> A * World) : L A := fun x => let '(a, w) := f x.1 in (a, (w, x.2)).

(** ** dynload and platform *)


(** [Library] is the handle; [Close]. *)
Definition Library_Close (h : Z) : L err :=
  lbind (log (Closed h)) (fun _ => foreign (sys_close h)).

(** [Default().Open]: [unixOpener], [winOpener] (a zero handle is an error; [sys_open] then gives the call's error), [unsupportedOpener]. *)
Definition Open (o : os) (path : string) : L (Z + error) :=
  match o with
  | Linux | Windows =>
      lbind (log (Tried path)) (fun _ =>
      lbind (foreign (sys_open path)) (fun r =>
      match r with
      | inl h => lbind (log (Opened h)) (fun _ => lret (inl h))
      | inr e => lret (inr e)
      end))
  | OtherOS => lret (inr ErrUnsupported)
  end.

(** The loop of [OpenAny], with the errors so far. *)
Fixpoint OpenAny_from (o : os) (paths : list string) (errs : list err) : L (option Z * err) :=
  match paths with
  | [] => lret (None, errors_join errs)
  | p :: paths =>
      lbind (Open o p) (fun r =>
      match r with
      | inl lib => lret (Some lib, None)
      | inr e => OpenAny_from o paths (errs ++ [Some (ErrWrap p e)])
      end)
  end.

Definition OpenAny (o : os) (paths : list string) : L (option Z * err) :=
  if (length paths =? 0)%nat then lret (None, Some ErrNoCandidates)
  else OpenAny_from o paths [].

Definition LibraryCandidates (o : os) : list string :=
  match o with
  | Linux => ["libcuda.so.1"; "/usr/lib/x86_64-linux-gnu/libcuda.so.1"; "/usr/lib/wsl/lib/libcuda.so.1"]%string
  | Windows => ["nvcuda.dll"%string]
  | OtherOS => []
  end.

(** ** cudasys.Load *)

(** [%q]. *)
Definition quoted (s : string) : string :=
  let q := String (Ascii.ascii_of_nat 34) EmptyString in String.append q (String.append s q).

(** [lookupSymbol], on both systems. *)
Definition lookupSymbol (lib : Z) (name : string) : L (Z * err) :=
  lbind (foreign (sys_lookup lib name)) (fun r =>
  let r := match r.2 with
           | Some e => (0, Some (ErrWrap (String.append "cudasys: lookup " (quoted name)) e))
           | None => if r.1 =? 0
                     then (0, Some (ErrNew (String.append "cudasys: lookup " (String.append (quoted name) ": nil address"))))
                     else (r.1, None)
           end in
  lbind (log (Looked name (is_nil r.2))) (fun _ => lret r)).

(** The loop over [requiredSymbols]: the first failure closes the library. *)
Fixpoint bind_required (lib : Z) (syms : list boundSymbol) (d : Driver) : L (Driver * err) :=
  match syms with
  | [] => lret (d, None)
  | s :: syms =>
      lbind (lookupSymbol lib s.1) (fun r =>
      match r.2 with
      | Some e => lbind (Library_Close lib) (fun _ => lret (d, Some e))
      | None => bind_required lib syms (set_field d s.2)
      end)
  end.

(** The loop over [optionalSymbols]. *)
Fixpoint bind_optional (lib : Z) (syms : list boundSymbol) (d : Driver) : L Driver :=
  match syms with
  | [] => lret d
  | s :: syms =>
      lbind (lookupSymbol lib s.1) (fun r =>
      bind_optional lib syms (if is_nil r.2 then set_field d s.2 else d))
  end.

(** [bind]: a panic of [RegisterLibFunc] becomes an error, and the field stays nil. *)
Definition bind_ (lib : Z) (s : boundSymbol) (d : Driver) : L (Driver * err) :=
  lbind (foreign (sys_register lib s.1)) (fun r =>
  lbind (log (Registered s.1 (match r with None => true | Some _ => false end))) (fun _ =>
  lret (match r with
        | Some v => (d, Some (ErrNew (String.append "cudasys: bind " (String.append (quoted s.1) (String.append ": " v)))))
        | None => (set_field d s.2, None)
        end))).

(** One entry of [bindByValueIPC], off Windows and on Windows. *)
Definition bindByValueIPC_one (o : os) (lib : Z) (s : boundSymbol) (d : Driver) : L Driver :=
  lbind (lookupSymbol lib s.1) (fun r =>
  match r.2 with
  | Some _ => lret d
  | None =>
      match o with
      | Windows => lret (set_field d s.2)
      | _ => lbind (bind_ lib s d) (fun r => lret r.1)
      end
  end).

Fixpoint bindByValueIPC (o : os) (lib : Z) (syms : list boundSymbol) (d : Driver) : L Driver :=
  match syms with
  | [] => lret d
  | s :: syms => lbind (bindByValueIPC_one o lib s d) (bindByValueIPC o lib syms)
  end.

Definition Load (o : os) (lib : Z) : L (option Driver * err) :=
  let d := mkDriver (Some lib) (fun _ => false) in
  lbind (bind_required lib requiredSymbols d) (fun r =>
  match r.2 with
  | Some e => lret (None, Some e)
  | None =>
      lbind (bind_optional lib optionalSymbols r.1) (fun d =>
      lbind (bindByValueIPC o lib byValueIPC d) (fun d => lret (Some d, None)))
  end).

(** [Driver.Close]: the driver afterwards, without its library. *)
Definition Driver_Close (d : option Driver) : L (option Driver * err) :=
  match d with
  | None => lret (None, None)
  | Some dr =>
      match drv_lib dr with
      | None => lret (d, None)
      | Some lib => lbind (Library_Close lib) (fun e => lret (Some (mkDriver None (drv_bound dr)), e))
      end
  end.

(** ** cuda: init.go *)

Definition defaultLoad (o : os) : L (option Driver * err) :=
  lbind (OpenAny o (LibraryCandidates o)) (fun r =>
  match r with
  | (_, Some e) => lret (None, Some (ErrWrap "cuda: load library" e))
  | (Some lib, None) => Load o lib
  | (None, None) => lret (None, None)
  end).

(** Loading inside a function of the library. *)
Definition lift {A} (m : L A) (lg : list libevent) : M (A * list libevent) := fun s =>
  let '(a, (w, lg)) := m (st_world s, lg) in (Done (a, lg), set_world w s).

(** [Init]; [loadFn] is the package variable. *)
Definition Init_body (loadFn : L (option Driver * err)) (lg : list libevent) : M (err * list libevent) :=
  let! drv := get st_driver in
  match drv with
  | Some _ => ret (None, lg)
  | None =>
      let! r := lift loadFn lg in
      match r.1.2 with
      | Some e => ret (Some e, r.2)
      | None =>
          let! e := cudaresult.Init r.1.1 0 in
          match e with
          | Some e =>
              let! r := lift (Driver_Close r.1.1) r.2 in
              ret (Some e, r.2)
          | None => modify (set_driver r.1.1) ;! ret (None, r.2)
          end
      end
  end.

Definition Init (loadFn : L (option Driver * err)) (lg : list libevent) : M (err * list libevent) :=
  with_Lock pkg_mu (Init_body loadFn lg).

(** ** cuda: device.go, version.go, peer.go *)

(** [mu.Lock(); defer mu.Unlock(); if driver == nil (return zero, ErrNotInitialized)]. *)
Definition with_driver {A} (zero : A) (k : option Driver -> M (A * err)) : M (A * err) :=
  with_Lock pkg_mu (
    let! drv := get st_driver in
    match drv with
    | None => ret (zero, Some ErrNotInitialized)
    | Some _ => k drv
    end).

(** [if d == nil (return zero, ErrNilDevice)]. *)
Definition device_or {A} (d : option Device) (zero : A) (k : Device -> M (A * err)) : M (A * err) :=
  match d with None => ret (zero, Some ErrNilDevice) | Some d => k d end.

Definition DriverVersion : M (Z * err) := with_driver 0 cudaresult.DriverVersion.

Definition DeviceCount : M (Z * err) := with_driver 0 cudaresult.DeviceCount.

Definition GetDevice (ordinal : Z) : M (option Device * err) :=
  with_driver None (fun drv =>
    let! r := cudaresult.DeviceCount drv in
    match r.2 with
    | Some e => ret (None, Some e)
    | None =>
        if ((ordinal <? 0) || (r.1 <=? ordinal))%bool then ret (None, Some ErrInvalidOrdinal)
        else
          let! h := cudaresult.GetDevice drv ordinal in
          match h.2 with
          | Some e => ret (None, Some e)
          | None => ret (Some (mkDevice ordinal h.1), None)
          end
    end).

Definition Device_Ordinal (d : option Device) : Z :=
  match d with None => -1 | Some d => dv_ordinal d end.

Definition Device_Name (d : option Device) : M (list Z * err) :=
  with_driver [] (fun drv => device_or d [] (fun d => cudaresult.DeviceName drv (dv_handle d))).

Definition Device_TotalMemory (d : option Device) : M (Z * err) :=
  with_driver 0 (fun drv => device_or d 0 (fun d => cudaresult.DeviceTotalMem drv (dv_handle d))).

Definition DeviceAttributeComputeCapabilityMajor : Z := 75.
Definition DeviceAttributeComputeCapabilityMinor : Z := 76.

Definition Device_ComputeCapability (d : option Device) : M ((Z * Z) * err) :=
  with_driver (0, 0) (fun drv => device_or d (0, 0) (fun d =>
    let! r := cudaresult.DeviceAttribute drv DeviceAttributeComputeCapabilityMajor (dv_handle d) in
    match r.2 with
    | Some e => ret ((0, 0), Some e)
    | None =>
        let! r' := cudaresult.DeviceAttribute drv DeviceAttributeComputeCapabilityMinor (dv_handle d) in
        match r'.2 with
        | Some e => ret ((0, 0), Some e)
        | None => ret ((r.1, r'.1), None)
        end
    end)).

Definition Device_Attribute (d : option Device) (attr : Z) : M (Z * err) :=
  with_driver 0 (fun drv => device_or d 0 (fun d => cudaresult.DeviceAttribute drv attr (dv_handle d))).

Definition Device_PCIBusID (d : option Device) : M (list Z * err) :=
  with_driver [] (fun drv => device_or d [] (fun d => cudaresult.DevicePCIBusID drv (dv_handle d))).

Definition Device_UUID (d : option Device) : M (string * err) :=
  with_driver EmptyString (fun drv => device_or d EmptyString (fun d => cudaresult.DeviceUUID drv (dv_handle d))).

Definition Device_CanAccessPeer (d peer : option Device) : M (bool * err) :=
  with_driver false (fun drv => device_or d false (fun d => device_or peer false (fun p =>
    cudaresult.DeviceCanAccessPeer drv (dv_handle d) (dv_handle p)))).

(** ** Loading, step by step *)

Definition opened (l : list libevent) : list Z := omap (fun ev => match ev with Opened h => Some h | _ => None end) l.
Definition closed (l : list libevent) : list Z := omap (fun ev => match ev with Closed h => Some h | _ => None end) l.

Lemma opened_app l l' : opened (l ++ l') = opened l ++ opened l'.
Proof. apply omap_app. Qed.

Lemma closed_app l l' : closed (l ++ l') = closed l ++ closed l'.
Proof. apply omap_app. Qed.

(** A lookup logs itself, truthfully. *)
Lemma lookupSymbol_spec lib name w l :
  exists r w', lookupSymbol lib name (w, l) = (r, (w', l ++ [Looked name (is_nil r.2)])).
Proof.
  unfold lookupSymbol, lbind, foreign, log, lret. cbn [fst snd]. destruct (sys_lookup lib name w) as [r w']. eauto.
Qed.

Definition looked_all (syms : list boundSymbol) : list libevent := map (fun s => Looked s.1 true) syms.

(** The fields of [syms] are bound, the others are as before. *)
Definition bound_with (d d' : Driver) (syms : list boundSymbol) : Prop :=
  drv_lib d' = drv_lib d /\ forall f, drv_bound d' f = true <-> drv_bound d f = true \/ f ∈ syms.*2.

Lemma bind_required_spec lib syms : forall d w l,
  let '((d', e), (w', l')) := bind_required lib syms d (w, l) in
  match e with
  | None => l' = l ++ looked_all syms /\ bound_with d d' syms
  | Some _ => exists k s, syms !! k = Some s /\
      l' = l ++ looked_all (take k syms) ++ [Looked s.1 false; Closed lib]
  end.
Proof.
  induction syms as [|s syms IH]; intros d w l; cbn [bind_required].
  - cbn. split; [now rewrite app_nil_r|]. split; [done|]. intros f. rewrite elem_of_nil. tauto.
  - unfold lbind. destruct (lookupSymbol_spec lib s.1 w l) as (r & w' & ->). destruct r as [a [e|]]; cbn [fst snd is_nil].
    + unfold Library_Close, lbind, log, foreign, lret. cbn [fst snd]. destruct (sys_close lib w') as [x w''].
      exists 0%nat, s. split; [done|]. cbn. now rewrite <- app_assoc.
    + specialize (IH (set_field d s.2) w' (l ++ [Looked s.1 true])).
      destruct (bind_required lib syms (set_field d s.2) _) as [[d' [e|]] [w'' l']].
      * destruct IH as (k & s' & Hk & ->). exists (S k), s'. split; [done|]. cbn. now rewrite <- app_assoc.
      * destruct IH as (-> & Hl & Hb). split; [cbn; now rewrite <- app_assoc|]. split; [exact Hl|].
        intros f. rewrite Hb, set_field_bound, fmap_cons, elem_of_cons.
        destruct (bool_decide_reflect (s.2 = f)); cbn; intuition congruence.
Qed.

(** The log of looking [syms] up, one answer each. *)
Definition looked (syms : list boundSymbol) (found : list bool) : list libevent :=
  zip_with (fun s b => Looked s.1 b) syms found.

Lemma bind_optional_spec lib syms : forall d w l,
  let '(d', (w', l')) := bind_optional lib syms d (w, l) in
  exists found, length found = length syms /\ l' = l ++ looked syms found /\ drv_lib d' = drv_lib d /\
    forall f, drv_bound d' f = true <->
      drv_bound d f = true \/ exists i s, syms !! i = Some s /\ s.2 = f /\ found !! i = Some true.
Proof.
  induction syms as [|s syms IH]; intros d w l; cbn [bind_optional].
  - cbn. exists []. split_and!; [done|now rewrite app_nil_r|done|]. intros f. split; [auto|]. intros [Hf|(i & s & Hi & _)]; [done|].
    now rewrite lookup_nil in Hi.
  - unfold lbind. destruct (lookupSymbol_spec lib s.1 w l) as (r & w' & ->).
    set (b := is_nil r.2). set (d1 := if b then set_field d s.2 else d).
    specialize (IH d1 w' (l ++ [Looked s.1 b])). destruct (bind_optional lib syms d1 _) as [d' [w'' l']].
    destruct IH as (found & Hlen & -> & Hl & Hb). exists (b :: found). split_and!.
    + cbn. now rewrite Hlen.
    + cbn. now rewrite <- app_assoc.
    + rewrite Hl. subst d1. now destruct b.
    + intros f. rewrite Hb. split.
      * intros [Hf|(i & s' & Hi & Hs & Hfi)]; [|right; now exists (S i), s'].
        subst d1. destruct b eqn:Eb; [|now left]. rewrite set_field_bound in Hf.
        apply orb_true_iff in Hf as [Hf|Hf]; [|now left]. apply bool_decide_eq_true in Hf. right. now exists 0%nat, s.
      * intros [Hf|(i & s' & Hi & Hs & Hfi)].
        -- left. subst d1. destruct b; [|done]. rewrite set_field_bound, Hf. apply orb_true_r.
        -- destruct i as [|i]; cbn in Hi, Hfi; [|right; now exists i, s']. injection Hi as <-. injection Hfi as Eb. left. subst d1.
           rewrite Eb, set_field_bound. now rewrite bool_decide_eq_true_2.
Qed.

(** What binding the by-value entry points may do to the log and the driver. *)
Definition ipc_step (lib : Z) (syms : list boundSymbol) (d d' : Driver) (new : list libevent) : Prop :=
  opened new = [] /\ closed new = [] /\ drv_lib d' = drv_lib d /\
  (forall f, drv_bound d f = true -> drv_bound d' f = true) /\
  (forall f, drv_bound d' f = true -> drv_bound d f = true \/ exists s, s ∈ syms /\ s.2 = f /\ Looked s.1 true ∈ new).

Lemma bindByValueIPC_one_spec o lib s d w l :
  let '(d', (w', l')) := bindByValueIPC_one o lib s d (w, l) in
  exists new, l' = l ++ new /\ ipc_step lib [s] d d' new.
Proof.
  assert (Hset : forall new, opened new = [] -> closed new = [] -> Looked s.1 true ∈ new -> ipc_step lib [s] d (set_field d s.2) new).
  { intros new Ho Hc Hin. split_and!; [done|done|done| |].
    - intros f Hf. rewrite set_field_bound, Hf. apply orb_true_r.
    - intros f Hf. rewrite set_field_bound in Hf. apply orb_true_iff in Hf as [Hf|Hf]; [|now left].
      apply bool_decide_eq_true in Hf. right. exists s. split_and!; [left|done|done]. }
  assert (Hsame : forall new, opened new = [] -> closed new = [] -> ipc_step lib [s] d d new) by (intros; split_and!; auto).
  unfold bindByValueIPC_one, lbind. destruct (lookupSymbol_spec lib s.1 w l) as ([a e] & w' & ->). cbn [fst snd].
  destruct e as [e|]; cbn [is_nil lret].
  - exists [Looked s.1 false]. split; [done|]. now apply Hsame.
  - assert (Hbind : let '(d', (w'', l')) := (let '(r, x) := bind_ lib s d (w', l ++ [Looked s.1 true]) in (r.1, x)) in
        exists new, l' = l ++ new /\ ipc_step lib [s] d d' new).
    { unfold bind_, lbind, foreign, log, lret. cbn [fst snd]. destruct (sys_register lib s.1 w') as [[v|] w'']; cbn [fst snd].
      - exists [Looked s.1 true; Registered s.1 false]. split; [now rewrite <- app_assoc|]. now apply Hsame.
      - exists [Looked s.1 true; Registered s.1 true]. split; [now rewrite <- app_assoc|]. apply Hset; [done|done|left]. }
    destruct o; [exact Hbind| |exact Hbind].
    exists [Looked s.1 true]. split; [done|]. apply Hset; [done|done|left].
Qed.

Lemma bindByValueIPC_spec o lib syms : forall d w l,
  let '(d', (w', l')) := bindByValueIPC o lib syms d (w, l) in
  exists new, l' = l ++ new /\ ipc_step lib syms d d' new.
Proof.
  induction syms as [|s syms IH]; intros d w l; cbn [bindByValueIPC].
  - exists []. split; [cbn; now rewrite app_nil_r|]. split_and!; auto.
  - unfold lbind. pose proof (bindByValueIPC_one_spec o lib s d w l) as H1.
    destruct (bindByValueIPC_one o lib s d (w, l)) as [d1 [w1 l1]]. destruct H1 as (n1 & -> & O1 & C1 & L1 & M1 & B1).
    specialize (IH d1 w1 (l ++ n1)). destruct (bindByValueIPC o lib syms d1 _) as [d2 [w2 l2]].
    destruct IH as (n2 & -> & O2 & C2 & L2 & M2 & B2). exists (n1 ++ n2). split; [now rewrite <- app_assoc|]. split_and!.
    + now rewrite opened_app, O1, O2.
    + now rewrite closed_app, C1, C2.
    + congruence.
    + auto.
    + intros f Hf. destruct (B2 f Hf) as [Hf1|(s' & Hs & He & Hl)].
      * destruct (B1 f Hf1) as [Hf0|(s' & Hs & He & Hl)]; [now left|]. right. exists s'.
        apply list_elem_of_singleton in Hs as ->. split_and!; [left|done|]. apply elem_of_app. now left.
      * right. exists s'. split_and!; [now right|done|]. apply elem_of_app. now right.
Qed.

(** The fields of the three tables are distinct. *)
Lemma table_fields_distinct : NoDup (requiredSymbols ++ optionalSymbols ++ byValueIPC).*2.
Proof. apply (bool_decide_unpack _). vm_compute. exact I. Qed.

Lemma opened_looked syms found : opened (looked syms found) = [] /\ closed (looked syms found) = [].
Proof. revert found. induction syms as [|s syms IH]; intros [|b found]; cbn; auto. Qed.

Lemma opened_looked_all syms : opened (looked_all syms) = [] /\ closed (looked_all syms) = [].
Proof. induction syms as [|s syms IH]; cbn; auto. Qed.

(** What [Load] promises of the driver it returns. *)
Definition loaded (lib : Z) (d : Driver) (new : list libevent) : Prop :=
  drv_lib d = Some lib /\
  (forall f, required_field f = true -> drv_bound d f = true) /\
  exists found rest, length found = length optionalSymbols /\
    new = (looked_all requiredSymbols ++ looked optionalSymbols found ++ rest) /\ opened rest = [] /\ closed rest = [] /\
    (forall i s, optionalSymbols !! i = Some s -> (drv_bound d s.2 = true <-> found !! i = Some true)) /\
    (forall s, s ∈ byValueIPC -> drv_bound d s.2 = true -> Looked s.1 true ∈ rest).

Lemma required_field_in f : required_field f = true <-> f ∈ requiredSymbols.*2.
Proof.
  unfold required_field. rewrite existsb_exists, list_elem_of_fmap. split.
  - intros (s & Hin & Hs). apply bool_decide_eq_true in Hs. exists s. split; [done|]. now apply list_elem_of_In.
  - intros (s & -> & Hin). exists s. split; [now apply list_elem_of_In|]. now apply bool_decide_eq_true_2.
Qed.

Lemma optional_not_elsewhere s : s ∈ optionalSymbols -> (s.2 ∉ requiredSymbols.*2) /\ (s.2 ∉ byValueIPC.*2).
Proof.
  intros Hs. pose proof table_fields_distinct as Hd. rewrite !fmap_app in Hd.
  apply NoDup_app in Hd as (_ & H1 & Hd2); apply NoDup_app in Hd2 as (_ & H2 & _).
  assert (Hf : s.2 ∈ optionalSymbols.*2) by (apply list_elem_of_fmap; eauto). split; [|now apply H2].
  intros Hin. apply (H1 _ Hin). apply elem_of_app. now left.
Qed.

Lemma byvalue_not_elsewhere s : s ∈ byValueIPC -> (s.2 ∉ requiredSymbols.*2) /\ (s.2 ∉ optionalSymbols.*2).
Proof.
  intros Hs. pose proof table_fields_distinct as Hd. rewrite !fmap_app in Hd.
  apply NoDup_app in Hd as (_ & H1 & Hd2); apply NoDup_app in Hd2 as (_ & H2 & _).
  assert (Hf : s.2 ∈ byValueIPC.*2) by (apply list_elem_of_fmap; eauto). split.
  - intros Hin. apply (H1 _ Hin). apply elem_of_app. now right.
  - intros Hin. now apply (H2 _ Hin).
Qed.

Lemma optional_index i j s s' :
  optionalSymbols !! i = Some s -> optionalSymbols !! j = Some s' -> s.2 = s'.2 -> i = j.
Proof.
  intros Hi Hj He. pose proof table_fields_distinct as Hd. rewrite !fmap_app in Hd.
  apply NoDup_app in Hd as (_ & _ & Hd); apply NoDup_app in Hd as (Hd & _ & _).
  apply (NoDup_lookup _ i j s.2 Hd); rewrite list_lookup_fmap;
    [exact (f_equal (fmap snd) Hi)|rewrite He; exact (f_equal (fmap snd) Hj)].
Qed.

Lemma Load_log o lib w l :
  let '((r, e), (w', l')) := Load o lib (w, l) in
  exists new, l' = l ++ new /\
  match e with
  | Some _ => r = None /\ exists k s, requiredSymbols !! k = Some s /\
      new = looked_all (take k requiredSymbols) ++ [Looked s.1 false; Closed lib]
  | None => exists d, r = Some d /\ loaded lib d new
  end.
Proof.
  unfold Load, lbind at 1. set (d0 := mkDriver (Some lib) (fun _ => false)).
  pose proof (bind_required_spec lib requiredSymbols d0 w l) as Hr.
  destruct (bind_required lib requiredSymbols d0 (w, l)) as [[d1 [e|]] [w1 l1]]; cbn [fst snd].
  { destruct Hr as (k & s & Hk & ->). cbn. eexists. split; [reflexivity|]. eauto. }
  destruct Hr as (-> & Hl1 & Hb1). unfold lbind at 1.
  pose proof (bind_optional_spec lib optionalSymbols d1 w1 (l ++ looked_all requiredSymbols)) as Ho.
  destruct (bind_optional lib optionalSymbols d1 _) as [d2 [w2 l2]]. destruct Ho as (found & Hlen & -> & Hl2 & Hb2).
  unfold lbind. pose proof (bindByValueIPC_spec o lib byValueIPC d2 w2 ((l ++ looked_all requiredSymbols) ++ looked optionalSymbols found)) as Hi.
  destruct (bindByValueIPC o lib byValueIPC d2 _) as [d3 [w3 l3]]. destruct Hi as (rest & -> & O & C & Hl3 & Hm & Hb3).
  cbn [lret]. eexists. split; [now rewrite <- !app_assoc|]. exists d3. split; [done|].
  assert (Hb1' : forall f, drv_bound d1 f = true <-> f ∈ requiredSymbols.*2).
  { intros f. rewrite Hb1. cbn. intuition discriminate. }
  split_and!.
  - now rewrite Hl3, Hl2, Hl1.
  - intros f Hf. apply Hm, Hb2. left. apply Hb1'. now apply required_field_in.
  - exists found, rest. split_and!; [done|done|done|done| |].
    + intros i s His. assert (Hs : s ∈ optionalSymbols) by (apply list_elem_of_lookup; eauto).
      destruct (optional_not_elsewhere s Hs) as [Hn1 Hn2]. split.
      * intros Hd. destruct (Hb3 _ Hd) as [Hd2|(s' & Hs' & He & _)].
        -- apply Hb2 in Hd2 as [Hd1|(j & s' & Hj & He & Hf)]; [now apply Hb1' in Hd1|].
           rewrite (optional_index i j s s' His Hj (eq_sym He)). exact Hf.
        -- exfalso. apply Hn2. rewrite <- He. apply list_elem_of_fmap. eauto.
      * intros Hf. apply Hm, Hb2. right. eauto.
    + intros s Hs Hd. destruct (byvalue_not_elsewhere s Hs) as [Hn1 Hn2].
      destruct (Hb3 _ Hd) as [Hd2|(s' & Hs' & He & Hl)].
      * apply Hb2 in Hd2 as [Hd1|(j & s' & Hj & He & Hf)]; [now apply Hb1' in Hd1|].
        exfalso. apply Hn2. rewrite <- He. apply list_elem_of_fmap. exists s'. split; [done|]. apply list_elem_of_lookup. eauto.
      * assert (s' = s) as ->; [|exact Hl]. clear -Hs Hs' He.
        apply elem_of_cons in Hs as [->|Hs]; [|apply list_elem_of_singleton in Hs as ->];
          (apply elem_of_cons in Hs' as [->|Hs']; [|apply list_elem_of_singleton in Hs' as ->]); cbn in He; congruence.
Qed.

(** *** Opening and initialising *)

Lemma OpenAny_log o paths w l :
  let '((lib, e), (w', l')) := OpenAny o paths (w, l) in
  exists new, l' = l ++ new /\ closed new = [] /\
  match lib with
  | Some h => e = None /\ opened new = [h]
  | None => is_Some e /\ opened new = []
  end.
Proof.
  unfold OpenAny. destruct paths as [|p paths]; [cbn; exists []; rewrite app_nil_r; eauto|]. cbn [length Nat.eqb].
  assert (Hgen : forall paths errs w l, (paths = [] -> is_Some (errors_join errs)) ->
    (paths <> [] \/ is_Some (errors_join errs)) ->
    let '((lib, e), (w', l')) := OpenAny_from o paths errs (w, l) in
    exists new, l' = l ++ new /\ closed new = [] /\
      match lib with Some h => e = None /\ opened new = [h] | None => is_Some e /\ opened new = [] end).
  { clear. induction paths as [|p paths IH]; intros errs w l H1 _; cbn [OpenAny_from].
    - cbn. exists []. rewrite app_nil_r. auto.
    - unfold lbind at 1.
      assert (Ho : let '(r, (w', l')) := Open o p (w, l) in exists new, l' = l ++ new /\ closed new = [] /\
        match r with inl h => opened new = [h] | inr _ => opened new = [] end).
      { unfold Open, lbind, log, foreign, lret. destruct o; cbn [fst snd]; [| |exists []; now rewrite app_nil_r];
          destruct (sys_open p w) as [[h|e] w']; cbn [fst snd];
          [exists [Tried p; Opened h]|exists [Tried p]|exists [Tried p; Opened h]|exists [Tried p]]; now rewrite <- ?app_assoc. }
      destruct (Open o p (w, l)) as [[h|e] [w' l']]; destruct Ho as (n1 & -> & C1 & O1).
      + cbn. eauto 6.
      + assert (Hj : is_Some (errors_join (errs ++ [Some (ErrWrap p e)]))).
        { unfold errors_join. rewrite omap_app. cbn. destruct (omap id errs); cbn; eauto. }
        specialize (IH (errs ++ [Some (ErrWrap p e)]) w' (l ++ n1) (fun _ => Hj) (or_intror Hj)).
        destruct (OpenAny_from o paths _ _) as [[lib e'] [w'' l']]. destruct IH as (n2 & -> & C2 & R).
        exists (n1 ++ n2). split; [now rewrite <- app_assoc|]. rewrite closed_app, opened_app, C1, O1, C2. auto. }
  apply Hgen; [done|now left].
Qed.

(** [defaultLoad]: an error leaves nothing open; a driver owns the one library that is open. *)
Lemma defaultLoad_log o w l :
  let '((r, e), (w', l')) := defaultLoad o (w, l) in
  exists new, l' = l ++ new /\
  match r with
  | None => is_Some e /\ opened new = closed new
  | Some d => e = None /\ exists lib pre new', new = pre ++ new' /\ opened pre = [lib] /\ closed pre = [] /\ loaded lib d new'
  end.
Proof.
  unfold defaultLoad, lbind. pose proof (OpenAny_log o (LibraryCandidates o) w l) as Ho.
  destruct (OpenAny o (LibraryCandidates o) (w, l)) as [[[lib|] e] [w1 l1]]; destruct Ho as (n1 & -> & C1 & R).
  - destruct R as [-> O1]. pose proof (Load_log o lib w1 (l ++ n1)) as Hl.
    destruct (Load o lib (w1, l ++ n1)) as [[r [e|]] [w2 l2]]; destruct Hl as (n2 & -> & Hn2).
    + destruct Hn2 as (-> & k & s & Hk & ->). eexists. split; [now rewrite <- app_assoc|]. split; [eauto|].
      rewrite !opened_app, !closed_app, O1, C1. destruct (opened_looked_all (take k requiredSymbols)) as [-> ->]. done.
    + destruct Hn2 as (d & -> & Hd). eexists. split; [now rewrite <- app_assoc|]. split; [done|]. exists lib, n1, n2. auto.
  - destruct R as [[e' ->] O1]. cbn. eexists. split; [reflexivity|]. split; [eauto|]. congruence.
Qed.

Lemma loaded_log lib d new : loaded lib d new -> opened new = [] /\ closed new = [].
Proof.
  intros (_ & _ & found & rest & _ & -> & O & C & _). rewrite !opened_app, !closed_app, O, C.
  destruct (opened_looked_all requiredSymbols) as [-> ->], (opened_looked optionalSymbols found) as [-> ->]. done.
Qed.

(** ** Theorems *)

(** [Load] on a library: if a required symbol is not found, the lookups stop there, the library is closed - once, and nothing is
    closed otherwise - and no driver is returned; else the driver owns the library, every required field is bound, an optional field is bound exactly when its
    symbol was found, and a by-value field only if its symbol was found. *)
Theorem Load_spec (o : os) (lib : Z) (w : World) (l : list libevent) :
  let '((r, e), (w', l')) := Load o lib (w, l) in
  exists new, l' = l ++ new /\
  match e with
  | Some _ => r = None /\ exists k s, requiredSymbols !! k = Some s /\
      new = looked_all (take k requiredSymbols) ++ [Looked s.1 false; Closed lib]
  | None => exists d, r = Some d /\ loaded lib d new
  end.
Proof. apply Load_log. Qed.


Lemma tidy_with_driver {A} P E (zero : A) k :
  (forall d, tidy P (wlocked pkg_mu E) (k d)) -> tidy P E (with_driver zero k).
Proof.
  intros Hk. unfold with_driver. apply tidy_with_Lock, tidy_bind; [apply tidy_get|].
  intros [d|]; [apply Hk|apply tidy_ret].
Qed.

Lemma tidy_device_or {A} P E d (zero : A) k : (forall d, tidy P E (k d)) -> tidy P E (device_or d zero k).
Proof. intros Hk. destruct d; [apply Hk|apply tidy_ret]. Qed.

(** Every device query makes its driver calls with the package's mutex held, so they do not race with [Init]; afterwards the
    mutex is free again, whether the query returned, failed or panicked. *)
Theorem device_queries_locked (E : Env) (d peer : option Device) (ordinal attr : Z) :
  let locked := fun (E' : Env) (_ : call) => w_held pkg_mu E' in
  tidy locked E DriverVersion /\ tidy locked E DeviceCount /\ tidy locked E (GetDevice ordinal) /\
  tidy locked E (Device_Name d) /\ tidy locked E (Device_TotalMemory d) /\ tidy locked E (Device_ComputeCapability d) /\
  tidy locked E (Device_Attribute d attr) /\ tidy locked E (Device_PCIBusID d) /\ tidy locked E (Device_UUID d) /\
  tidy locked E (Device_CanAccessPeer d peer).
Proof.
  intros locked.
  assert (Hl : forall c, locked (wlocked pkg_mu E) c) by (intros c; unfold locked, w_held, wlocked; cbn; set_solver).
  split_and!; apply tidy_with_driver; intros drv; repeat (apply tidy_device_or; intros ?);
    unfold cudaresult.DriverVersion, cudaresult.DeviceCount, cudaresult.GetDevice, cudaresult.DeviceName,
      cudaresult.DeviceTotalMem, cudaresult.DeviceAttribute, cudaresult.DevicePCIBusID, cudaresult.DeviceUUID,
      cudaresult.DeviceCanAccessPeer; tidy_auto; apply Hl.
Qed.

(** [GetDevice] returns a device only for an ordinal below the count the driver reports, with that ordinal and the handle the driver gives;
    for an ordinal outside the range it fails with [ErrInvalidOrdinal] and the driver is not asked for the device; before [Init] it
    fails with [ErrNotInitialized] without any driver call. *)
Theorem GetDevice_spec (ordinal : Z) (s : state) (r : option Device) (e : err) (s' : state) :
  GetDevice ordinal s = (Done (r, e), s') ->
  match st_driver s with
  | None => r = None /\ e = Some ErrNotInitialized /\ st_trace s' = st_trace s
  | Some d =>
      match r with
      | Some dv => e = None /\ dv_ordinal dv = ordinal /\
          exists w code n,
            Sys (env_thread (st_env s)) CuDeviceGetCount (st_world s) = ((code, n), w) /\ check "cuDeviceGetCount" code = None /\
            0 <= ordinal < n /\
            (Sys (env_thread (st_env s)) (CuDeviceGet (int32 ordinal)) w).1 = (0, dv_handle dv)
      | None => is_Some e /\
          (forall w code n, Sys (env_thread (st_env s)) CuDeviceGetCount (st_world s) = ((code, n), w) ->
             drv_bound d F_CuDeviceGetCount = true -> check "cuDeviceGetCount" code = None -> ~ (0 <= ordinal < n) ->
             e = Some ErrInvalidOrdinal /\ st_trace s' = (wlocked pkg_mu (st_env s), CuDeviceGetCount) :: st_trace s)
      end
  end.
Proof.
  unfold GetDevice, with_driver, with_Lock, Lock, bind at 1. case_decide as Hw; [done|].
  destruct (env_locks_r (st_env s) !! pkg_mu) eqn:Hr; [done|]. set (s0 := set_env _ s). unfold defer.
  assert (Hun : forall (x : outcome (option Device * err)) s1, Unlock pkg_mu s1 = (Done tt, set_env (wunlocked pkg_mu (st_env s1)) s1) \/ Unlock pkg_mu s1 = (Fatal, s1))
    by (intros x s1; unfold Unlock; case_decide; auto).
  unfold bind at 1, get at 1. change (st_driver s0) with (st_driver s). destruct (st_driver s) as [d|] eqn:Hd.
  2:{ cbn [ret]. destruct (Hun (Done (None, None)) s0) as [-> | ->]; [|done]. intros [= <- <- <-]. done. }
  unfold cudaresult.DeviceCount, required at 1, lacks at 1. destruct (drv_bound d F_CuDeviceGetCount) eqn:Hb1; cbn [negb].
  2:{ unfold bind at 1, ret at 1. cbn [snd]. cbn [ret]. destruct (Hun (Done (None, None)) s0) as [-> | ->]; [|done].
      intros [= <- <- <-]. split; [eauto|]. discriminate. }
  unfold bind at 1, bind at 1. rewrite invoke_bound by exact Hb1. change (env_thread (st_env s0)) with (env_thread (st_env s)).
  change (st_world s0) with (st_world s).
  destruct (Sys (env_thread (st_env s)) CuDeviceGetCount (st_world s)) as [[code n] w] eqn:Hs1. cbn [fst snd].
  unfold ret at 1. unfold checked. cbn [fst snd]. destruct (check "cuDeviceGetCount" code) as [e1|] eqn:Hc1; cbn [fst snd].
  { set (s1 := set_world _ _). cbn [ret]. destruct (Hun (Done (None, None)) s1) as [-> | ->]; [|done].
    intros [= <- <- <-]. split; [eauto|]. intros w' code' n' [= <- <- <-] _ Hc. congruence. }
  set (s1 := set_world w _). destruct ((ordinal <? 0) || (n <=? ordinal))%bool eqn:Hrange.
  { cbn [ret]. destruct (Hun (Done (None, None)) s1) as [-> | ->]; [|done]. intros [= <- <- <-]. split; [eauto|].
    intros w' code' n' [= <- <- <-] _ _ _. now split. }
  apply orb_false_iff in Hrange as [Hlo Hhi]. apply Z.ltb_ge in Hlo. apply Z.leb_gt in Hhi.
  assert (Hnone : forall (Q : Prop), forall w' code' n', ((code, n), w) = ((code', n'), w') ->
     true = true -> check "cuDeviceGetCount" code' = None -> ~ (0 <= ordinal < n') -> Q)
    by (intros Q w' code' n' [= <- <- <-] _ _ Hn; lia).
  unfold cudaresult.GetDevice, required, lacks. destruct (drv_bound d F_CuDeviceGet) eqn:Hb2; cbn [negb].
  2:{ unfold bind at 1, ret at 1. cbn [snd]. cbn [ret]. destruct (Hun (Done (None, None)) s1) as [-> | ->]; [|done].
      intros [= <- <- <-]. split; [eauto|]. intros w' code' n'. exact (Hnone _ w' code' n'). }
  unfold bind at 1, bind at 1. rewrite invoke_bound by exact Hb2. change (env_thread (st_env s1)) with (env_thread (st_env s)).
  change (st_world s1) with w. destruct (Sys (env_thread (st_env s)) (CuDeviceGet (int32 ordinal)) w) as [[code2 h] w2] eqn:Hs2.
  cbn [fst snd]. unfold ret at 1. unfold checked. cbn [fst snd]. set (s2 := set_world w2 _).
  destruct (check "cuDeviceGet" code2) as [e2|] eqn:Hc2; cbn [fst snd ret];
    (destruct (Hun (Done (None, None)) s2) as [-> | ->]; [|done]); intros [= <- <- <-].
  - split; [eauto|]. intros w' code' n'. exact (Hnone _ w' code' n').
  - split_and!; [done|done|]. exists w, code, n. split_and!; try done. rewrite Hs2. cbn.
    unfold check in Hc2. destruct (Z.eqb_spec code2 CUDA_SUCCESS) as [->|]; [done|discriminate].
Qed.

End Loading.

End Loader.
