(* ===== verification/Marshal.v ===== *)
(** * Marshalling (cudasys: the adapters of [syscall_bind.go])

    A field of [Driver] is bound to an adapter that converts each argument to [uintptr] and calls [purego.SyscallN], which puts them in the integer registers
    and stack slots of the C call; the driver reads each at the width of its parameter.  The result register becomes a [CUresult].  Pointers of the 64-bit
    platforms the package supports are 64 bits wide. *)

From S2P Require Import Prelude CudaSys.

Module Marshal.

(** [CUresult(int32(r1))]. *)
Definition cures (r1 : Z) : Z := int32 r1.

(** [uintptr(x)] of an [int32] extends the sign; of an unsigned type or a pointer it keeps the value. *)
Definition uintptr_int32 (z : Z) : Z := uint64 z.

(** The widths of parameters; handles, device pointers, sizes and Go's [uintptr] are 64 bits wide. *)
Inductive ctype := TUint8 | TUint16 | TUint32 | TInt32 | TUint64 | TPtr.

(** The values of a type. *)
Definition has_type (t : ctype) (z : Z) : Prop :=
  match t with
  | TUint8 => 0 <= z < 2 ^ 8
  | TUint16 => 0 <= z < 2 ^ 16
  | TUint32 => is_uint32 z
  | TInt32 => MinInt32 <= z <= MaxInt32
  | TUint64 | TPtr => is_uint64 z
  end.

(** What the C callee reads from a register. *)
Definition c_read (t : ctype) (r : Z) : Z :=
  match t with
  | TUint8 => r mod 2 ^ 8
  | TUint16 => r mod 2 ^ 16
  | TUint32 => uint32 r
  | TInt32 => int32 r
  | TUint64 | TPtr => uint64 r
  end.

(** ** The parameters of each entry point

    [at_ i] is the address the [i]-th argument points to, when it is a pointer to a Go variable, descriptor, image or name. *)

(** The types a field of [Driver] declares for its parameters. *)
Definition params (f : field) : list ctype :=
  match f with
  | F_CuInit => [TUint32]
  | F_CuDriverGetVersion => [TPtr]
  | F_CuDeviceGetCount => [TPtr]
  | F_CuDeviceGet => [TPtr; TInt32]
  | F_CuDeviceGetName => [TPtr; TInt32; TInt32]
  | F_CuDeviceTotalMem => [TPtr; TInt32]
  | F_CuDeviceGetAttribute => [TPtr; TInt32; TInt32]
  | F_CuDeviceGetPCIBusId => [TPtr; TInt32; TInt32]
  | F_CuDeviceGetUuid => [TPtr; TInt32]
  | F_CuCtxGetCurrent => [TPtr]
  | F_CuCtxSetCurrent => [TUint64]
  | F_CuCtxSynchronize => []
  | F_CuCtxGetStreamPriorityRange => [TPtr; TPtr]
  | F_CuDevicePrimaryCtxRetain => [TPtr; TInt32]
  | F_CuDevicePrimaryCtxRelease => [TInt32]
  | F_CuMemAlloc => [TPtr; TUint64]
  | F_CuMemFree => [TUint64]
  | F_CuMemAllocAsync => [TPtr; TUint64; TUint64]
  | F_CuMemFreeAsync => [TUint64; TUint64]
  | F_CuMemGetInfo => [TPtr; TPtr]
  | F_CuMemcpyHtoD => [TUint64; TPtr; TUint64]
  | F_CuMemcpyDtoH => [TPtr; TUint64; TUint64]
  | F_CuMemcpyDtoD => [TUint64; TUint64; TUint64]
  | F_CuMemcpyHtoDAsync => [TUint64; TPtr; TUint64; TUint64]
  | F_CuMemcpyDtoHAsync => [TPtr; TUint64; TUint64; TUint64]
  | F_CuMemcpyDtoDAsync => [TUint64; TUint64; TUint64; TUint64]
  | F_CuMemsetD8 => [TUint64; TUint8; TUint64]
  | F_CuMemsetD16 => [TUint64; TUint16; TUint64]
  | F_CuMemsetD32 => [TUint64; TUint32; TUint64]
  | F_CuMemsetD8Async => [TUint64; TUint8; TUint64; TUint64]
  | F_CuMemsetD16Async => [TUint64; TUint16; TUint64; TUint64]
  | F_CuMemsetD32Async => [TUint64; TUint32; TUint64; TUint64]
  | F_CuMemAllocHost => [TPtr; TUint64]
  | F_CuMemFreeHost => [TPtr]
  | F_CuMemHostRegister => [TPtr; TUint64; TUint32]
  | F_CuMemHostUnregister => [TPtr]
  | F_CuMemAllocPitch => [TPtr; TPtr; TUint64; TUint64; TUint32]
  | F_CuMemcpy2D => [TPtr]
  | F_CuMemcpy2DAsync => [TPtr; TUint64]
  | F_CuMemcpy3D => [TPtr]
  | F_CuMemcpy3DAsync => [TPtr; TUint64]
  | F_CuArrayCreate => [TPtr; TPtr]
  | F_CuArray3DCreate => [TPtr; TPtr]
  | F_CuArrayDestroy => [TUint64]
  | F_CuTexObjectCreate => [TPtr; TPtr; TPtr; TPtr]
  | F_CuTexObjectDestroy => [TUint64]
  | F_CuSurfObjectCreate => [TPtr; TPtr]
  | F_CuSurfObjectDestroy => [TUint64]
  | F_CuDeviceGetDefaultMemPool => [TPtr; TInt32]
  | F_CuMemPoolGetAttribute => [TUint64; TInt32; TPtr]
  | F_CuMemPoolSetAttribute => [TUint64; TInt32; TPtr]
  | F_CuMemAllocFromPoolAsync => [TPtr; TUint64; TUint64; TUint64]
  | F_CuModuleLoadData => [TPtr; TPtr]
  | F_CuModuleLoadDataEx => [TPtr; TPtr; TUint32; TPtr; TPtr]
  | F_CuModuleUnload => [TUint64]
  | F_CuModuleGetFunction => [TPtr; TUint64; TPtr]
  | F_CuModuleGetGlobal => [TPtr; TPtr; TUint64; TPtr]
  | F_CuLinkCreate => [TUint32; TPtr; TPtr; TPtr]
  | F_CuLinkAddData => [TUint64; TUint32; TPtr; TUint64; TPtr; TUint32; TPtr; TPtr]
  | F_CuLinkComplete => [TUint64; TPtr; TPtr]
  | F_CuLinkDestroy => [TUint64]
  | F_CuStreamCreate => [TPtr; TUint32]
  | F_CuStreamCreateWithPriority => [TPtr; TUint32; TInt32]
  | F_CuStreamDestroy => [TUint64]
  | F_CuStreamSynchronize => [TUint64]
  | F_CuStreamQuery => [TUint64]
  | F_CuStreamWaitEvent => [TUint64; TUint64; TUint32]
  | F_CuEventCreate => [TPtr; TUint32]
  | F_CuEventDestroy => [TUint64]
  | F_CuEventRecord => [TUint64; TUint64]
  | F_CuEventQuery => [TUint64]
  | F_CuEventSynchronize => [TUint64]
  | F_CuEventElapsedTime => [TPtr; TUint64; TUint64]
  | F_CuLaunchKernel => [TUint64; TUint32; TUint32; TUint32; TUint32; TUint32; TUint32; TUint32; TUint64; TPtr; TPtr]
  | F_CuLaunchCooperativeKernel => [TUint64; TUint32; TUint32; TUint32; TUint32; TUint32; TUint32; TUint32; TUint64; TPtr]
  | F_CuLaunchHostFunc => [TUint64; TUint64; TUint64]
  | F_CuIpcGetMemHandle => [TPtr; TUint64]
  | F_CuIpcOpenMemHandle => [TPtr; TPtr; TUint32]
  | F_CuIpcCloseMemHandle => [TUint64]
  | F_CuIpcGetEventHandle => [TPtr; TUint64]
  | F_CuIpcOpenEventHandle => [TPtr; TPtr]
  | F_CuOccupancyMaxActiveBlocksPerMultiprocessor => [TPtr; TUint64; TInt32; TUint64]
  | F_CuOccupancyMaxPotentialBlockSize => [TPtr; TPtr; TUint64; TUint64; TUint64; TInt32]
  | F_CuStreamBeginCapture => [TUint64; TUint32]
  | F_CuStreamEndCapture => [TUint64; TPtr]
  | F_CuGraphInstantiate => [TPtr; TUint64; TUint64]
  | F_CuGraphLaunch => [TUint64; TUint64]
  | F_CuGraphDestroy => [TUint64]
  | F_CuGraphExecDestroy => [TUint64]
  | F_CuGraphExecUpdate => [TUint64; TUint64; TPtr; TPtr]
  | F_CuMemAllocManaged => [TPtr; TUint64; TUint32]
  | F_CuMemPrefetchAsync => [TUint64; TUint64; TInt32; TUint64]
  | F_CuMemAdvise => [TUint64; TUint64; TInt32; TInt32]
  | F_CuMemGetAllocationGranularity => [TPtr; TPtr; TUint32]
  | F_CuMemCreate => [TPtr; TUint64; TPtr; TUint64]
  | F_CuMemAddressReserve => [TPtr; TUint64; TUint64; TUint64; TUint64]
  | F_CuMemMap => [TUint64; TUint64; TUint64; TUint64; TUint64]
  | F_CuMemSetAccess => [TUint64; TUint64; TPtr; TUint64]
  | F_CuMemUnmap => [TUint64; TUint64]
  | F_CuMemAddressFree => [TUint64; TUint64]
  | F_CuMemRelease => [TUint64]
  | F_CuFuncSetAttribute => [TUint64; TInt32; TInt32]
  | F_CuFuncGetAttribute => [TPtr; TInt32; TUint64]
  | F_CuPointerGetAttribute => [TPtr; TInt32; TUint64]
  | F_CuDeviceCanAccessPeer => [TPtr; TInt32; TInt32]
  | F_CuCtxEnablePeerAccess => [TUint64; TUint32]
  | F_CuCtxDisablePeerAccess => [TUint64]
  | F_CuMemcpyPeer => [TUint64; TUint64; TUint64; TUint64; TUint64]
  end.

(** The arguments a Go call passes, in the order of those parameters. *)
Definition arguments (at_ : nat -> Z) (c : call) : list Z :=
  match c with
  | CuInit flags => [flags]
  | CuDriverGetVersion => [at_ 0%nat]
  | CuDeviceGetCount => [at_ 0%nat]
  | CuDeviceGet ordinal => [at_ 0%nat; ordinal]
  | CuDeviceGetName length dev => [at_ 0%nat; length; dev]
  | CuDeviceTotalMem dev => [at_ 0%nat; dev]
  | CuDeviceGetAttribute attr dev => [at_ 0%nat; attr; dev]
  | CuDeviceGetPCIBusId length dev => [at_ 0%nat; length; dev]
  | CuDeviceGetUuid dev => [at_ 0%nat; dev]
  | CuCtxGetCurrent => [at_ 0%nat]
  | CuCtxSetCurrent ctx => [ctx]
  | CuCtxSynchronize => []
  | CuCtxGetStreamPriorityRange => [at_ 0%nat; at_ 1%nat]
  | CuDevicePrimaryCtxRetain dev => [at_ 0%nat; dev]
  | CuDevicePrimaryCtxRelease dev => [dev]
  | CuMemAlloc bytesize => [at_ 0%nat; bytesize]
  | CuMemFree devPtr => [devPtr]
  | CuMemAllocAsync bytesize stream => [at_ 0%nat; bytesize; stream]
  | CuMemFreeAsync devPtr stream => [devPtr; stream]
  | CuMemGetInfo => [at_ 0%nat; at_ 1%nat]
  | CuMemcpyHtoD dst src byteCount => [dst; src; byteCount]
  | CuMemcpyDtoH dst src byteCount => [dst; src; byteCount]
  | CuMemcpyDtoD dst src byteCount => [dst; src; byteCount]
  | CuMemcpyHtoDAsync dst src byteCount stream => [dst; src; byteCount; stream]
  | CuMemcpyDtoHAsync dst src byteCount stream => [dst; src; byteCount; stream]
  | CuMemcpyDtoDAsync dst src byteCount stream => [dst; src; byteCount; stream]
  | CuMemsetD8 dst value count => [dst; value; count]
  | CuMemsetD16 dst value count => [dst; value; count]
  | CuMemsetD32 dst value count => [dst; value; count]
  | CuMemsetD8Async dst value count stream => [dst; value; count; stream]
  | CuMemsetD16Async dst value count stream => [dst; value; count; stream]
  | CuMemsetD32Async dst value count stream => [dst; value; count; stream]
  | CuMemAllocHost bytesize => [at_ 0%nat; bytesize]
  | CuMemFreeHost p => [p]
  | CuMemHostRegister p bytesize flags => [p; bytesize; flags]
  | CuMemHostUnregister p => [p]
  | CuMemAllocPitch widthInBytes height elementSizeBytes => [at_ 0%nat; at_ 1%nat; widthInBytes; height; elementSizeBytes]
  | CuMemcpy2D _ => [at_ 0%nat]
  | CuMemcpy2DAsync _ stream => [at_ 0%nat; stream]
  | CuMemcpy3D _ => [at_ 0%nat]
  | CuMemcpy3DAsync _ stream => [at_ 0%nat; stream]
  | CuArrayCreate _ => [at_ 0%nat; at_ 1%nat]
  | CuArray3DCreate _ => [at_ 0%nat; at_ 1%nat]
  | CuArrayDestroy hArray => [hArray]
  | CuTexObjectCreate _ _ => [at_ 0%nat; at_ 1%nat; at_ 2%nat; 0]
  | CuTexObjectDestroy texObject => [texObject]
  | CuSurfObjectCreate _ => [at_ 0%nat; at_ 1%nat]
  | CuSurfObjectDestroy surfObject => [surfObject]
  | CuDeviceGetDefaultMemPool dev => [at_ 0%nat; dev]
  | CuMemPoolGetAttribute pool attr => [pool; attr; at_ 2%nat]
  | CuMemPoolSetAttribute pool attr _ => [pool; attr; at_ 2%nat]
  | CuMemAllocFromPoolAsync bytesize pool stream => [at_ 0%nat; bytesize; pool; stream]
  | CuModuleLoadData _ => [at_ 0%nat; at_ 1%nat]
  | CuModuleLoadDataEx _ options _ => [at_ 0%nat; at_ 1%nat; Z.of_nat (length options); at_ 3%nat; at_ 4%nat]
  | CuModuleUnload module => [module]
  | CuModuleGetFunction module _ => [at_ 0%nat; module; at_ 2%nat]
  | CuModuleGetGlobal module _ => [at_ 0%nat; at_ 1%nat; module; at_ 3%nat]
  | CuLinkCreate options _ => [Z.of_nat (length options); at_ 1%nat; at_ 2%nat; at_ 3%nat]
  | CuLinkAddData state inputType _ size _ => [state; inputType; at_ 2%nat; size; at_ 4%nat; 0; 0; 0]
  | CuLinkComplete state => [state; at_ 1%nat; at_ 2%nat]
  | CuLinkDestroy state => [state]
  | CuStreamCreate flags => [at_ 0%nat; flags]
  | CuStreamCreateWithPriority flags priority => [at_ 0%nat; flags; priority]
  | CuStreamDestroy stream => [stream]
  | CuStreamSynchronize stream => [stream]
  | CuStreamQuery stream => [stream]
  | CuStreamWaitEvent stream event flags => [stream; event; flags]
  | CuEventCreate flags => [at_ 0%nat; flags]
  | CuEventDestroy event => [event]
  | CuEventRecord event stream => [event; stream]
  | CuEventQuery event => [event]
  | CuEventSynchronize event => [event]
  | CuEventElapsedTime start end_ => [at_ 0%nat; start; end_]
  | CuLaunchKernel fn (gridX, gridY, gridZ) (blockX, blockY, blockZ) sharedMemBytes stream _ => [fn; gridX; gridY; gridZ; blockX; blockY; blockZ; sharedMemBytes; stream; at_ 9%nat; 0]
  | CuLaunchCooperativeKernel fn (gridX, gridY, gridZ) (blockX, blockY, blockZ) sharedMemBytes stream _ => [fn; gridX; gridY; gridZ; blockX; blockY; blockZ; sharedMemBytes; stream; at_ 9%nat]
  | CuLaunchHostFunc stream fn userData => [stream; fn; userData]
  | CuIpcGetMemHandle dptr => [at_ 0%nat; dptr]
  | CuIpcOpenMemHandle _ flags => [at_ 0%nat; at_ 1%nat; flags]
  | CuIpcCloseMemHandle dptr => [dptr]
  | CuIpcGetEventHandle event => [at_ 0%nat; event]
  | CuIpcOpenEventHandle _ => [at_ 0%nat; at_ 1%nat]
  | CuOccupancyMaxActiveBlocksPerMultiprocessor fn blockSize dynamicSMemSize => [at_ 0%nat; fn; blockSize; dynamicSMemSize]
  | CuOccupancyMaxPotentialBlockSize fn blockSizeToDynamicSMemSize dynamicSMemSize blockSizeLimit => [at_ 0%nat; at_ 1%nat; fn; blockSizeToDynamicSMemSize; dynamicSMemSize; blockSizeLimit]
  | CuStreamBeginCapture stream mode => [stream; mode]
  | CuStreamEndCapture stream => [stream; at_ 1%nat]
  | CuGraphInstantiate graph flags => [at_ 0%nat; graph; flags]
  | CuGraphLaunch execGraph stream => [execGraph; stream]
  | CuGraphDestroy graph => [graph]
  | CuGraphExecDestroy execGraph => [execGraph]
  | CuGraphExecUpdate execGraph graph => [execGraph; graph; at_ 2%nat; at_ 3%nat]
  | CuMemAllocManaged bytesize flags => [at_ 0%nat; bytesize; flags]
  | CuMemPrefetchAsync devPtr count dstDevice stream => [devPtr; count; dstDevice; stream]
  | CuMemAdvise devPtr count advice device => [devPtr; count; advice; device]
  | CuMemGetAllocationGranularity _ option_ => [at_ 0%nat; at_ 1%nat; option_]
  | CuMemCreate size _ flags => [at_ 0%nat; size; at_ 2%nat; flags]
  | CuMemAddressReserve size alignment addr flags => [at_ 0%nat; size; alignment; addr; flags]
  | CuMemMap ptr size offset handle flags => [ptr; size; offset; handle; flags]
  | CuMemSetAccess ptr size _ count => [ptr; size; at_ 2%nat; count]
  | CuMemUnmap ptr size => [ptr; size]
  | CuMemAddressFree ptr size => [ptr; size]
  | CuMemRelease handle => [handle]
  | CuFuncSetAttribute fn attrib value => [fn; attrib; value]
  | CuFuncGetAttribute attrib fn => [at_ 0%nat; attrib; fn]
  | CuPointerGetAttribute attribute ptr => [at_ 0%nat; attribute; ptr]
  | CuDeviceCanAccessPeer dev peerDev => [at_ 0%nat; dev; peerDev]
  | CuCtxEnablePeerAccess peerContext flags => [peerContext; flags]
  | CuCtxDisablePeerAccess peerContext => [peerContext]
  | CuMemcpyPeer dstDevice dstContext srcDevice srcContext byteCount => [dstDevice; dstContext; srcDevice; srcContext; byteCount]
  end.

(** ** The adapters of syscall_bind.go *)

(** Required symbols, from [cuInit] to [cuModuleGetFunction]. *)
Definition requiredRegisters1 (at_ : nat -> Z) (c : call) : option (list Z) :=
  match c with
  | CuInit flags => Some [flags]
  | CuDriverGetVersion => Some [at_ 0%nat]
  | CuDeviceGetCount => Some [at_ 0%nat]
  | CuDeviceGet ordinal => Some [at_ 0%nat; uintptr_int32 ordinal]
  | CuDeviceGetName length dev => Some [at_ 0%nat; uintptr_int32 length; uintptr_int32 dev]
  | CuDeviceTotalMem dev => Some [at_ 0%nat; uintptr_int32 dev]
  | CuDeviceGetAttribute attr dev => Some [at_ 0%nat; uintptr_int32 attr; uintptr_int32 dev]
  | CuCtxGetCurrent => Some [at_ 0%nat]
  | CuCtxSetCurrent ctx => Some [ctx]
  | CuCtxSynchronize => Some []
  | CuCtxGetStreamPriorityRange => Some [at_ 0%nat; at_ 1%nat]
  | CuDevicePrimaryCtxRetain dev => Some [at_ 0%nat; uintptr_int32 dev]
  | CuDevicePrimaryCtxRelease dev => Some [uintptr_int32 dev]
  | CuMemAlloc bytesize => Some [at_ 0%nat; bytesize]
  | CuMemFree devPtr => Some [devPtr]
  | CuMemGetInfo => Some [at_ 0%nat; at_ 1%nat]
  | CuMemcpyHtoD dst src byteCount => Some [dst; src; byteCount]
  | CuMemcpyDtoH dst src byteCount => Some [dst; src; byteCount]
  | CuMemcpyDtoD dst src byteCount => Some [dst; src; byteCount]
  | CuMemcpyHtoDAsync dst src byteCount stream => Some [dst; src; byteCount; stream]
  | CuMemcpyDtoHAsync dst src byteCount stream => Some [dst; src; byteCount; stream]
  | CuMemcpyDtoDAsync dst src byteCount stream => Some [dst; src; byteCount; stream]
  | CuMemsetD8 dst value count => Some [dst; value; count]
  | CuMemsetD16 dst value count => Some [dst; value; count]
  | CuMemsetD32 dst value count => Some [dst; value; count]
  | CuMemsetD8Async dst value count stream => Some [dst; value; count; stream]
  | CuMemsetD16Async dst value count stream => Some [dst; value; count; stream]
  | CuMemsetD32Async dst value count stream => Some [dst; value; count; stream]
  | CuMemAllocHost bytesize => Some [at_ 0%nat; bytesize]
  | CuMemFreeHost p => Some [p]
  | CuModuleLoadData _ => Some [at_ 0%nat; at_ 1%nat]
  | CuModuleLoadDataEx _ options _ => Some [at_ 0%nat; at_ 1%nat; Z.of_nat (length options); at_ 3%nat; at_ 4%nat]
  | CuModuleUnload module => Some [module]
  | CuModuleGetFunction module _ => Some [at_ 0%nat; module; at_ 2%nat]
  | _ => None
  end.

(** Required symbols, from [cuModuleGetGlobal] to [cuLaunchKernel]. *)
Definition requiredRegisters2 (at_ : nat -> Z) (c : call) : option (list Z) :=
  match c with
  | CuModuleGetGlobal module _ => Some [at_ 0%nat; at_ 1%nat; module; at_ 3%nat]
  | CuStreamCreate flags => Some [at_ 0%nat; flags]
  | CuStreamCreateWithPriority flags priority => Some [at_ 0%nat; flags; uintptr_int32 priority]
  | CuStreamDestroy stream => Some [stream]
  | CuStreamSynchronize stream => Some [stream]
  | CuStreamQuery stream => Some [stream]
  | CuStreamWaitEvent stream event flags => Some [stream; event; flags]
  | CuEventCreate flags => Some [at_ 0%nat; flags]
  | CuEventDestroy event => Some [event]
  | CuEventRecord event stream => Some [event; stream]
  | CuEventQuery event => Some [event]
  | CuEventSynchronize event => Some [event]
  | CuEventElapsedTime start end_ => Some [at_ 0%nat; start; end_]
  | CuLaunchKernel fn (gridX, gridY, gridZ) (blockX, blockY, blockZ) sharedMemBytes stream _ => Some [fn; gridX; gridY; gridZ; blockX; blockY; blockZ; sharedMemBytes; stream; at_ 9%nat; 0]
  | _ => None
  end.

(** Optional symbols, from [cuMemAllocAsync] to [cuMemPrefetchAsync]. *)
Definition optionalRegisters1 (at_ : nat -> Z) (c : call) : option (list Z) :=
  match c with
  | CuMemAllocAsync bytesize stream => Some [at_ 0%nat; bytesize; stream]
  | CuMemFreeAsync devPtr stream => Some [devPtr; stream]
  | CuOccupancyMaxActiveBlocksPerMultiprocessor fn blockSize dynamicSMemSize => Some [at_ 0%nat; fn; uintptr_int32 blockSize; dynamicSMemSize]
  | CuOccupancyMaxPotentialBlockSize fn blockSizeToDynamicSMemSize dynamicSMemSize blockSizeLimit => Some [at_ 0%nat; at_ 1%nat; fn; blockSizeToDynamicSMemSize; dynamicSMemSize; uintptr_int32 blockSizeLimit]
  | CuStreamBeginCapture stream mode => Some [stream; mode]
  | CuStreamEndCapture stream => Some [stream; at_ 1%nat]
  | CuGraphInstantiate graph flags => Some [at_ 0%nat; graph; flags]
  | CuGraphLaunch execGraph stream => Some [execGraph; stream]
  | CuGraphDestroy graph => Some [graph]
  | CuGraphExecDestroy execGraph => Some [execGraph]
  | CuGraphExecUpdate execGraph graph => Some [execGraph; graph; at_ 2%nat; at_ 3%nat]
  | CuDeviceGetPCIBusId length dev => Some [at_ 0%nat; uintptr_int32 length; uintptr_int32 dev]
  | CuDeviceGetUuid dev => Some [at_ 0%nat; uintptr_int32 dev]
  | CuMemHostRegister p bytesize flags => Some [p; bytesize; flags]
  | CuMemHostUnregister p => Some [p]
  | CuMemAllocPitch widthInBytes height elementSizeBytes => Some [at_ 0%nat; at_ 1%nat; widthInBytes; height; elementSizeBytes]
  | CuMemcpy2D _ => Some [at_ 0%nat]
  | CuMemcpy2DAsync _ stream => Some [at_ 0%nat; stream]
  | CuMemcpy3D _ => Some [at_ 0%nat]
  | CuMemcpy3DAsync _ stream => Some [at_ 0%nat; stream]
  | CuArrayCreate _ => Some [at_ 0%nat; at_ 1%nat]
  | CuArray3DCreate _ => Some [at_ 0%nat; at_ 1%nat]
  | CuArrayDestroy hArray => Some [hArray]
  | CuTexObjectCreate _ _ => Some [at_ 0%nat; at_ 1%nat; at_ 2%nat; 0]
  | CuTexObjectDestroy texObject => Some [texObject]
  | CuSurfObjectCreate _ => Some [at_ 0%nat; at_ 1%nat]
  | CuSurfObjectDestroy surfObject => Some [surfObject]
  | CuDeviceGetDefaultMemPool dev => Some [at_ 0%nat; uintptr_int32 dev]
  | CuMemPoolGetAttribute pool attr => Some [pool; uintptr_int32 attr; at_ 2%nat]
  | CuMemPoolSetAttribute pool attr _ => Some [pool; uintptr_int32 attr; at_ 2%nat]
  | CuMemAllocFromPoolAsync bytesize pool stream => Some [at_ 0%nat; bytesize; pool; stream]
  | CuMemAllocManaged bytesize flags => Some [at_ 0%nat; bytesize; flags]
  | CuMemPrefetchAsync devPtr count dstDevice stream => Some [devPtr; count; uintptr_int32 dstDevice; stream]
  | _ => None
  end.

(** Optional symbols, from [cuMemAdvise] to [cuLinkDestroy]. *)
Definition optionalRegisters2 (at_ : nat -> Z) (c : call) : option (list Z) :=
  match c with
  | CuMemAdvise devPtr count advice device => Some [devPtr; count; uintptr_int32 advice; uintptr_int32 device]
  | CuMemGetAllocationGranularity _ option_ => Some [at_ 0%nat; at_ 1%nat; option_]
  | CuMemCreate size _ flags => Some [at_ 0%nat; size; at_ 2%nat; flags]
  | CuMemAddressReserve size alignment addr flags => Some [at_ 0%nat; size; alignment; addr; flags]
  | CuMemMap ptr size offset handle flags => Some [ptr; size; offset; handle; flags]
  | CuMemSetAccess ptr size _ count => Some [ptr; size; at_ 2%nat; count]
  | CuMemUnmap ptr size => Some [ptr; size]
  | CuMemAddressFree ptr size => Some [ptr; size]
  | CuMemRelease handle => Some [handle]
  | CuFuncSetAttribute fn attrib value => Some [fn; uintptr_int32 attrib; uintptr_int32 value]
  | CuFuncGetAttribute attrib fn => Some [at_ 0%nat; uintptr_int32 attrib; fn]
  | CuPointerGetAttribute attribute ptr => Some [at_ 0%nat; uintptr_int32 attribute; ptr]
  | CuDeviceCanAccessPeer dev peerDev => Some [at_ 0%nat; uintptr_int32 dev; uintptr_int32 peerDev]
  | CuCtxEnablePeerAccess peerContext flags => Some [peerContext; flags]
  | CuCtxDisablePeerAccess peerContext => Some [peerContext]
  | CuMemcpyPeer dstDevice dstContext srcDevice srcContext byteCount => Some [dstDevice; dstContext; srcDevice; srcContext; byteCount]
  | CuLaunchCooperativeKernel fn (gridX, gridY, gridZ) (blockX, blockY, blockZ) sharedMemBytes stream _ => Some [fn; gridX; gridY; gridZ; blockX; blockY; blockZ; sharedMemBytes; stream; at_ 9%nat]
  | CuLaunchHostFunc stream fn userData => Some [stream; fn; userData]
  | CuIpcGetMemHandle dptr => Some [at_ 0%nat; dptr]
  | CuIpcCloseMemHandle dptr => Some [dptr]
  | CuIpcGetEventHandle event => Some [at_ 0%nat; event]
  | CuLinkCreate options _ => Some [Z.of_nat (length options); at_ 1%nat; at_ 2%nat; at_ 3%nat]
  | CuLinkAddData state inputType _ size _ => Some [state; inputType; at_ 2%nat; size; at_ 4%nat; 0; 0; 0]
  | CuLinkComplete state => Some [state; at_ 1%nat; at_ 2%nat]
  | CuLinkDestroy state => Some [state]
  | _ => None
  end.

(** On windows the 64-byte handles are passed by a pointer to a copy ([ipc_bind_windows.go]). *)
Definition byValueRegisters (at_ : nat -> Z) (c : call) : option (list Z) :=
  match c with
  | CuIpcOpenMemHandle _ flags => Some [at_ 0%nat; at_ 1%nat; flags]
  | CuIpcOpenEventHandle _ => Some [at_ 0%nat; at_ 1%nat]
  | _ => None
  end.

(** The registers of the adapter bound to the field of [c]: the required symbols, the optional ones, and those bound by [bindByValueIPC] on windows. *)
Definition requiredRegisters (at_ : nat -> Z) (c : call) : option (list Z) :=
  match requiredRegisters1 at_ c with Some r => Some r | None => requiredRegisters2 at_ c end.
Definition optionalRegisters (at_ : nat -> Z) (c : call) : option (list Z) :=
  match optionalRegisters1 at_ c with Some r => Some r | None => optionalRegisters2 at_ c end.
Definition registers (at_ : nat -> Z) (c : call) : option (list Z) :=
  match requiredRegisters at_ c with
  | Some r => Some r
  | None => match optionalRegisters at_ c with Some r => Some r | None => byValueRegisters at_ c end
  end.

(** ** Proofs *)

Lemma c_read_plain t z : has_type t z -> c_read t z = z.
Proof. destruct t; cbn; intros Hz; solve_width. Qed.

Lemma c_read_int32 z : has_type TInt32 z -> c_read TInt32 (uintptr_int32 z) = z.
Proof. unfold uintptr_int32. cbn. intros Hz. solve_width. Qed.

(** Reads each register of an adapter in turn. *)
Ltac read_registers :=
  repeat match goal with
  | H : Forall2 _ (_ :: _) (_ :: _) |- _ => apply Forall2_cons in H as [? H]
  end; cbn [zip_with];
  repeat (apply (f_equal2 cons); [first [now apply c_read_int32 | now apply c_read_plain]|]); reflexivity.

(** Membership in a table of symbols, by evaluation. *)
Ltac listed :=
  split; [intros [? Hr]; first [discriminate Hr | refine (bool_decide_eq_true_1 _ _); vm_compute; reflexivity]
         | intros Hin; first [eexists; reflexivity | exfalso; apply (bool_decide_eq_true_2 _) in Hin; vm_compute in Hin; discriminate Hin]].

(** C25.  The adapters deliver every argument: each driver call has exactly one adapter, in the table its entry point is listed in; it
    passes as many registers as the field of [Driver] has parameters; and the C callee, reading each register at the width of its
    parameter, finds the arguments of the Go call, negative integers included.  Whatever garbage the upper half of the result register holds, [cures] gives the
    driver's code. *)
Theorem adapters_deliver (at_ : nat -> Z) (c : call) :
  (exists r, registers at_ c = Some r /\ length r = length (params (call_field c)) /\
    (Forall2 has_type (params (call_field c)) (arguments at_ c) -> zip_with c_read (params (call_field c)) r = arguments at_ c)) /\
  (is_Some (requiredRegisters at_ c) <-> call_field c ∈ map snd requiredSymbols) /\
  (is_Some (optionalRegisters at_ c) <-> call_field c ∈ map snd optionalSymbols) /\
  (forall code hi, MinInt32 <= code <= MaxInt32 -> cures (hi * 2 ^ 32 + uint32 code) = code).
Proof.
  split_and!.
  - destruct c; try destruct grid as [[]], block as [[]]; eexists; (split; [reflexivity|]); (split; [reflexivity|]);
      cbn [call_field params arguments]; intros Hall; read_registers.
  - destruct c; try destruct grid as [[]], block as [[]]; listed.
  - destruct c; try destruct grid as [[]], block as [[]]; listed.
  - intros code hi Hc. unfold cures. solve_width.
Qed.

End Marshal.
