(* ===== verification/Streams.v ===== *)
(** * Streams, events and host functions (package cuda: stream.go, event.go, event_dispatch.go, hostfunc.go)

    The record [Stream] is in Handles.v, for buffers use it too.  The address of an event, by which [Elapsed] orders the two locks it
    takes, is its identity. *)

From Stdlib Require Import Floats.SpecFloat.
From S2P Require Import Prelude CudaSys Errors Runtime CudaResult ExecutorApi Context Dispatch Resource Handles HostCb.

Definition streamNonBlocking : Z := 1.

(** [StreamOption]: its method is not exported, so this is the only implementation; a nil interface is [None]. *)
Inductive StreamOption := WithStreamPriority (priority : Z).

Record streamOptions := mkStreamOptions { so_priority : option Z; so_err : err }.

Definition StreamOption_apply (o : StreamOption) (opts : streamOptions) : streamOptions :=
  match o with
  | WithStreamPriority priority =>
      match so_err opts with
      | Some _ => opts
      | None =>
          if (priority <? MinInt32) || (MaxInt32 <? priority) then mkStreamOptions (so_priority opts) (Some ErrInvalidStreamPriority)
          else mkStreamOptions (Some (int32 priority)) (so_err opts)
      end
  end.

(** The loop of [NewStream] over its options, stopping at the first error. *)
Fixpoint streamOptions_loop (options : list (option StreamOption)) (opts : streamOptions) : streamOptions + error :=
  match options with
  | [] => inl opts
  | None :: options => streamOptions_loop options opts
  | Some o :: options =>
      let opts := StreamOption_apply o opts in
      match so_err opts with
      | Some e => inr e
      | None => streamOptions_loop options opts
      end
  end.

(** ** Events *)

Definition eventDefault : Z := 0.
Definition eventBlockingSync : Z := 1.
Definition eventDisableTiming : Z := 2.
Definition eventInterprocess : Z := 4.
Definition waitEventDefault : Z := 0.

Inductive EventOption := WithEventBlockingSync | WithEventInterprocess | WithEventDisableTiming.

Record eventOptions := mkEventOptions { eo_flags : Z; eo_err : err }.

Definition EventOption_apply (o : EventOption) (opts : eventOptions) : eventOptions :=
  match o with
  | WithEventBlockingSync =>
      if is_nil (eo_err opts) then mkEventOptions (Z.lor (eo_flags opts) eventBlockingSync) (eo_err opts) else opts
  | WithEventInterprocess =>
      mkEventOptions (Z.lor (eo_flags opts) (Z.lor eventInterprocess eventDisableTiming)) (eo_err opts)
  | WithEventDisableTiming =>
      if is_nil (eo_err opts) then mkEventOptions (Z.lor (eo_flags opts) eventDisableTiming) (eo_err opts) else opts
  end.

Fixpoint eventOptions_loop (options : list (option EventOption)) (opts : eventOptions) : eventOptions + error :=
  match options with
  | [] => inl opts
  | None :: options => eventOptions_loop options opts
  | Some o :: options =>
      let opts := EventOption_apply o opts in
      match eo_err opts with
      | Some e => inr e
      | None => eventOptions_loop options opts
      end
  end.

Record Event := mkEvent {
  ev_id : loc;
  ev_ctx : option Context;
  ev_raw : Z;
  ev_timingDisabled : bool;
  ev_interprocess : bool
}.

(** [time.Duration(float64(ms) * float64(time.Millisecond))], [ms] being the bits of a float32: exact widening to float64, one rounded multiplication by
    1000000, truncation.  A value that does not fit an int64 converts to the smallest one, as on amd64. *)
Definition float32_of_bits (bits : Z) : spec_float :=
  let s := 1 <=? Z.land (Z.shiftr bits 31) 1 in
  let e := Z.land (Z.shiftr bits 23) 255 in
  let m := Z.land bits (2 ^ 23 - 1) in
  if e =? 255 then (if m =? 0 then S754_infinity s else S754_nan)
  else if e =? 0 then match m with Zpos p => S754_finite s p (-149) | _ => S754_zero s end
  else match m + 2 ^ 23 with Zpos p => S754_finite s p (e - 150) | _ => S754_zero s end.

Definition int64_of_float (f : spec_float) : Z :=
  match f with
  | S754_finite s m e =>
      let n := if 0 <=? e then Zpos m * 2 ^ e else Zpos m / 2 ^ (- e) in
      let n := if s then - n else n in
      if (- 2 ^ 63 <=? n) && (n <? 2 ^ 63) then n else - 2 ^ 63
  | S754_zero _ => 0
  | _ => - 2 ^ 63
  end.

Definition milliseconds (bits : Z) : Z :=
  int64_of_float (SFmul 53 1024 (float32_of_bits bits) (binary_normalize 53 1024 1000000 0 false)).

(** [time.Duration] of 1.5 ms. *)
Example milliseconds_1_5 : milliseconds (127 * 2 ^ 23 + 2 ^ 22) = 1500000.
Proof. vm_compute. reflexivity. Qed.

Section StreamDefs.
Context `{Foreign}.

(** ** Streams *)

Definition NewStream (c : option Context) (options : list (option StreamOption)) : M (option Stream * err) :=
  match c with
  | None => ret (None, Some ErrNilContext)
  | Some x =>
      match streamOptions_loop options (mkStreamOptions None None) with
      | inr e => ret (None, Some e)
      | inl opts =>
          let! r := doWait c Background 0 (
            match so_priority opts with
            | Some p => cudaresult.StreamCreateWithPriority (cx_driver x) streamNonBlocking p
            | None => cudaresult.StreamCreate (cx_driver x) streamNonBlocking
            end) in
          match r.2 with
          | Some e => ret (None, Some e)
          | None => let! id := new_loc in ret (Some (mkStream id c r.1), None)
          end
      end
  end.

Definition Stream_Synchronize (s : option Stream) (ctx : gctx) : M err :=
  match s with
  | None => ret (Some ErrNilStream)
  | Some s =>
      opened (sm_id s) (Some ErrStreamClosed) (
        let! x := deref (sm_ctx s) in
        doJobCtx (sm_ctx s) ctx (newSyncOp (cx_driver x) opStreamSync (sm_raw s) 0 0))
  end.

(** [doJob] with a pooled [syncOp]. *)
Definition doSyncOp (c : option Context) (o : Context -> syncOp) : M err :=
  let! x := deref c in
  let! r := doJob c Background tt (syncOp_job (o x)) in
  ret r.2.

Definition Stream_Query (s : option Stream) : M err :=
  match s with
  | None => ret (Some ErrNilStream)
  | Some s =>
      opened (sm_id s) (Some ErrStreamClosed) (
        doSyncOp (sm_ctx s) (fun x => newSyncOp (cx_driver x) opStreamQuery (sm_raw s) 0 0))
  end.

(** The package has no [WaitOption] to give: every option is nil. *)
Definition Stream_WaitEvent (s : option Stream) (event : option Event) : M err :=
  match s, event with
  | None, _ => ret (Some ErrNilStream)
  | _, None => ret (Some ErrNilEvent)
  | Some s, Some event =>
      opened (sm_id s) (Some ErrStreamClosed) (
        opened (ev_id event) (Some ErrEventClosed) (
          if negb (same_ctx (sm_ctx s) (ev_ctx event)) then ret (Some ErrContextMismatch)
          else doSyncOp (sm_ctx s) (fun x => newSyncOp (cx_driver x) opStreamWaitEvent (sm_raw s) (ev_raw event) waitEventDefault)))
  end.

Definition Stream_Close (s : option Stream) : M err :=
  match s with
  | None => ret (Some ErrNilStream)
  | Some s =>
      close_resource (sm_id s) (
        let! r := doBarrier (sm_ctx s) Background tt (closure (cudaresult.StreamDestroy (ctx_driver (sm_ctx s)) (sm_raw s))) in
        ret r.2)
  end.

(** ** Events *)

Definition NewEvent (c : option Context) (options : list (option EventOption)) : M (option Event * err) :=
  match c with
  | None => ret (None, Some ErrNilContext)
  | Some x =>
      match eventOptions_loop options (mkEventOptions eventDefault None) with
      | inr e => ret (None, Some e)
      | inl opts =>
          let! r := doWait c Background 0 (cudaresult.EventCreate (cx_driver x) (eo_flags opts)) in
          match r.2 with
          | Some e => ret (None, Some e)
          | None =>
              let! id := new_loc in
              ret (Some (mkEvent id c r.1 (negb (Z.land (eo_flags opts) eventDisableTiming =? 0))
                           (negb (Z.land (eo_flags opts) eventInterprocess =? 0))), None)
          end
      end
  end.

Definition Event_Record (e : option Event) (stream : option Stream) : M err :=
  match e, stream with
  | None, _ => ret (Some ErrNilEvent)
  | _, None => ret (Some ErrNilStream)
  | Some e, Some stream =>
      opened (sm_id stream) (Some ErrStreamClosed) (
        opened (ev_id e) (Some ErrEventClosed) (
          if negb (same_ctx (sm_ctx stream) (ev_ctx e)) then ret (Some ErrContextMismatch)
          else doSyncOp (ev_ctx e) (fun x => newSyncOp (cx_driver x) opEventRecord (sm_raw stream) (ev_raw e) 0)))
  end.

Definition Event_Synchronize (e : option Event) (ctx : gctx) : M err :=
  match e with
  | None => ret (Some ErrNilEvent)
  | Some e =>
      opened (ev_id e) (Some ErrEventClosed) (
        let! x := deref (ev_ctx e) in
        doJobCtx (ev_ctx e) ctx (newSyncOp (cx_driver x) opEventSync 0 (ev_raw e) 0))
  end.

Definition Event_Query (e : option Event) : M err :=
  match e with
  | None => ret (Some ErrNilEvent)
  | Some e =>
      opened (ev_id e) (Some ErrEventClosed) (
        doSyncOp (ev_ctx e) (fun x => newSyncOp (cx_driver x) opEventQuery 0 (ev_raw e) 0))
  end.

(** [eventElapsedOp]: [Run] leaves the time in [ms], which [eventElapsed] reads. *)
Definition eventElapsedOp_Run (d : option Driver) (start end_ : Z) : M (Z * err) := cudaresult.EventElapsedTime d start end_.

Definition eventElapsed (c : option Context) (start end_ : Z) : M (Z * err) :=
  match c with
  | None => ret (0, Some ErrNilContext)
  | Some x =>
      let! r := doJob c Background 0 (mkJob (eventElapsedOp_Run (cx_driver x) start end_) (ret tt)) in
      match r.2 with
      | Some e => ret (0, Some e)
      | None => ret (r.1, None)
      end
  end.

(** [lockEvents] and the deferred [unlockEvents] around [m]: one lock for one event, else the lower address first and released last. *)
Definition with_events {A} (a b : Event) (m : M A) : M A :=
  if bool_decide (ev_id a = ev_id b) then with_RLock (ev_id a, OpMu) m
  else
    let '(first, second) := if bool_decide (ev_id b < ev_id a)%positive then (b, a) else (a, b) in
    with_RLock (ev_id first, OpMu) (with_RLock (ev_id second, OpMu) m).

Definition Event_Elapsed (e end_ : option Event) : M (Z * err) :=
  match e, end_ with
  | Some e, Some end_ =>
      with_events e end_ (
        let! c1 := is_closed (ev_id e) in
        let! c2 := is_closed (ev_id end_) in
        if c1 || c2 then ret (0, Some ErrEventClosed)
        else if ev_timingDisabled e || ev_timingDisabled end_ then ret (0, Some ErrEventTimingDisabled)
        else if negb (same_ctx (ev_ctx e) (ev_ctx end_)) then ret (0, Some ErrContextMismatch)
        else
          let! r := eventElapsed (ev_ctx e) (ev_raw e) (ev_raw end_) in
          match r.2 with
          | Some er => ret (0, Some er)
          | None => ret (milliseconds r.1, None)
          end)
  | _, _ => ret (0, Some ErrNilEvent)
  end.

Definition Event_Close (e : option Event) : M err :=
  match e with
  | None => ret (Some ErrNilEvent)
  | Some e =>
      close_resource (ev_id e) (
        let! r := doBarrier (ev_ctx e) Background tt (closure (cudaresult.EventDestroy (ctx_driver (ev_ctx e)) (ev_raw e))) in
        ret r.2)
  end.

(** ** Host functions

    The process-wide registry and trampoline of package hostcb are passed in and out; [NewCallback] is the pointer the runtime would mint. *)

Definition LaunchHostFunc {Fn : Type} (NewCallback : Z) (s : option Stream) (fn : option Fn) (cb : hostcb.st Fn) : M (err * hostcb.st Fn) :=
  match s, fn with
  | None, _ => ret (Some ErrNilStream, cb)
  | _, None => ret (Some ErrNilHostFunc, cb)
  | Some s, Some fn =>
      opened (sm_id s) (Some ErrStreamClosed, cb) (
        let '(key, cb) := hostcb.Register Fn fn cb in
        let '(ptr, cb') := hostcb.Callback Fn NewCallback cb in
        let! r := doWait (sm_ctx s) Background cb (
          let! e := cudaresult.LaunchHostFunc (ctx_driver (sm_ctx s)) (sm_raw s) ptr key in
          ret (cb', e)) in
        match r.2 with
        | Some e => ret (Some e, hostcb.Unregister Fn key r.1)
        | None => ret (None, r.1)
        end)
  end.

End StreamDefs.
