(* ===== verification/Pools.v ===== *)
(** * Ownership of pooled operations (cuda: dispatch.go, event_dispatch.go; executor: RecycleJob)

    Copies, memsets, launches, graph launches, waits and elapsed-time queries are carried by structures taken from a [sync.Pool].  A structure goes from the
    pool to a goroutine that fills it, to an executor, and back to the pool - put back by its goroutine after the result, or, for the one type with an exported
    [Recycle] ([syncOp]), by the worker after [Run] or by whoever refuses the job, since its goroutine may have given up waiting.  This
    file has the structures with what a use assigns and what is cleared, and interleaves any number of users. *)

From S2P Require Import Prelude CudaSys Errors Runtime CudaResult ExecutorApi Context Dispatch Resource Handles Streams.

Module Pools.

(** ** The structures *)

Record memcpy2DOp := mk2D { d2_driver : option Driver; d2_desc : CUDA_MEMCPY2D }.
Record memcpy3DOp := mk3D { d3_driver : option Driver; d3_desc : CUDA_MEMCPY3D }.
Record memcpy2DAsyncOp := mk2DAsync { a2_driver : option Driver; a2_desc : CUDA_MEMCPY2D; a2_stream : Z }.
Record memcpy3DAsyncOp := mk3DAsync { a3_driver : option Driver; a3_desc : CUDA_MEMCPY3D; a3_stream : Z }.
Record launchOp := mkLaunch { la_driver : option Driver; la_params : kernel_params; la_cfg : LaunchConfig; la_fn : Z; la_stream : Z; la_coop : bool }.
Record graphLaunchOp := mkGraph { gl_driver : option Driver; gl_exec : Z; gl_stream : Z }.
Record eventElapsedOp := mkElapsed { el_driver : option Driver; el_start : Z; el_end : Z; el_ms : Z }.

Inductive op :=
| OMem (o : memOp) | OSync (o : syncOp)
| O2D (o : memcpy2DOp) | O3D (o : memcpy3DOp) | O2DAsync (o : memcpy2DAsyncOp) | O3DAsync (o : memcpy3DAsyncOp)
| OLaunch (o : launchOp) | OGraph (o : graphLaunchOp) | OElapsed (o : eventElapsedOp).

(** One pool per type. *)
Inductive pool_of := PMem | PSync | P2D | P3D | P2DAsync | P3DAsync | PLaunch | PGraph | PElapsed.

#[global] Instance pool_of_eq_dec : EqDecision pool_of.
Proof. solve_decision. Defined.

Definition type_of (o : op) : pool_of :=
  match o with
  | OMem _ => PMem | OSync _ => PSync | O2D _ => P2D | O3D _ => P3D | O2DAsync _ => P2DAsync | O3DAsync _ => P3DAsync
  | OLaunch _ => PLaunch | OGraph _ => PGraph | OElapsed _ => PElapsed
  end.

Definition zero2D : CUDA_MEMCPY2D := mkMemcpy2D 0 0 0 0 0 0 0 0 0 0 0 0 0 0 0 0.
Definition zero3D : CUDA_MEMCPY3D := mkMemcpy3D 0 0 0 0 0 0 0 0 0 0 0 0 0 0 0 0 0 0 0 0 0 0 0.
Definition zero_cfg : LaunchConfig := mkLaunchConfig 0 0 0 0 0 0 0.

(** [New] of the pools. *)
Definition new_op (t : pool_of) : op :=
  match t with
  | PMem => OMem zero_memOp
  | PSync => OSync (mkSyncOp None 0 0 0 opStreamSync)
  | P2D => O2D (mk2D None zero2D)
  | P3D => O3D (mk3D None zero3D)
  | P2DAsync => O2DAsync (mk2DAsync None zero2D 0)
  | P3DAsync => O3DAsync (mk3DAsync None zero3D 0)
  | PLaunch => OLaunch (mkLaunch None None zero_cfg 0 0 false)
  | PGraph => OGraph (mkGraph None 0 0)
  | PElapsed => OElapsed (mkElapsed None 0 0 0)
  end.

(** ** A use: the arguments of the dispatch functions *)

Inductive request :=
| RHtoD (d : option Driver) (dst host n : Z)
| RDtoH (d : option Driver) (host src n : Z)
| RDtoD (d : option Driver) (dst src n : Z)
| RHtoDAsync (d : option Driver) (dst host n stream : Z)
| RDtoHAsync (d : option Driver) (host src n stream : Z)
| RDtoDAsync (d : option Driver) (dst src n stream : Z)
| RMemset (d : option Driver) (dst val n size : Z)
| RMemsetAsync (d : option Driver) (dst val n size stream : Z)
| RSync (d : option Driver) (kind : syncOpKind) (stream event flags : Z)
| R2D (d : option Driver) (desc : CUDA_MEMCPY2D)
| R3D (d : option Driver) (desc : CUDA_MEMCPY3D)
| R2DAsync (d : option Driver) (desc : CUDA_MEMCPY2D) (stream : Z)
| R3DAsync (d : option Driver) (desc : CUDA_MEMCPY3D) (stream : Z)
| RLaunch (d : option Driver) (fn : Z) (cfg : LaunchConfig) (stream : Z) (params : kernel_params) (coop : bool)
| RGraph (d : option Driver) (exec stream : Z)
| RElapsed (d : option Driver) (start end_ : Z).

Definition pool_type (q : request) : pool_of :=
  match q with
  | RSync _ _ _ _ _ => PSync
  | R2D _ _ => P2D | R3D _ _ => P3D | R2DAsync _ _ _ => P2DAsync | R3DAsync _ _ _ => P3DAsync
  | RLaunch _ _ _ _ _ _ => PLaunch | RGraph _ _ _ => PGraph | RElapsed _ _ _ => PElapsed
  | _ => PMem
  end.

(** What a copy or memset assigns to the [memOp] it got; the other fields stay. *)
Definition fill_mem (o : memOp) (q : request) : memOp :=
  match q with
  | RHtoD d dst host n => mkMemOp d dst (mo_src o) host n (mo_val o) (mo_stream o) opHtoD
  | RDtoH d host src n => mkMemOp d (mo_dst o) src host n (mo_val o) (mo_stream o) opDtoH
  | RDtoD d dst src n => mkMemOp d dst src (mo_host o) n (mo_val o) (mo_stream o) opDtoD
  | RHtoDAsync d dst host n stream => mkMemOp d dst (mo_src o) host n (mo_val o) stream opHtoDAsync
  | RDtoHAsync d host src n stream => mkMemOp d (mo_dst o) src host n (mo_val o) stream opDtoHAsync
  | RDtoDAsync d dst src n stream => mkMemOp d dst src (mo_host o) n (mo_val o) stream opDtoDAsync
  | RMemset d dst val n size => mkMemOp d dst (mo_src o) (mo_host o) n val (mo_stream o) (memsetKind opMemset8 size)
  | RMemsetAsync d dst val n size stream => mkMemOp d dst (mo_src o) (mo_host o) n val stream (memsetKind opMemset8Async size)
  | _ => o
  end.

(** The assignments of a use to the structure the pool gave, whatever it held. *)
Definition fill (o : op) (q : request) : op :=
  match q, o with
  | RSync d kind stream event flags, _ => OSync (mkSyncOp d stream event flags kind)
  | R2D d desc, _ => O2D (mk2D d desc)
  | R3D d desc, _ => O3D (mk3D d desc)
  | R2DAsync d desc stream, _ => O2DAsync (mk2DAsync d desc stream)
  | R3DAsync d desc stream, _ => O3DAsync (mk3DAsync d desc stream)
  | RLaunch d fn cfg stream params coop, _ => OLaunch (mkLaunch d params cfg fn stream coop)
  | RGraph d exec stream, _ => OGraph (mkGraph d exec stream)
  | RElapsed d start end_, OElapsed o => OElapsed (mkElapsed d start end_ (el_ms o))
  | _, OMem o => OMem (fill_mem o q)
  | _, _ => o
  end.

(** What a goroutine clears when it puts the structure back: pointers into the caller's memory, descriptors, the whole structure. *)
Definition clear (o : op) : op :=
  match o with
  | OMem o => OMem (mkMemOp (mo_driver o) (mo_dst o) (mo_src o) 0 (mo_n o) (mo_val o) (mo_stream o) (mo_kind o))
  | OSync o => OSync o
  | O2D o => O2D (mk2D (d2_driver o) zero2D)
  | O3D o => O3D (mk3D (d3_driver o) zero3D)
  | O2DAsync _ => new_op P2DAsync
  | O3DAsync _ => new_op P3DAsync
  | OLaunch o => OLaunch (mkLaunch (la_driver o) None (la_cfg o) (la_fn o) (la_stream o) (la_coop o))
  | OGraph o => OGraph o
  | OElapsed _ => new_op PElapsed
  end.

(** The type has an exported [Recycle], which [executor.RecycleJob] calls. *)
Definition has_Recycle (t : pool_of) : bool := match t with PSync => true | _ => false end.

(** [Run], with the time it leaves for [eventElapsed]. *)
Definition op_Run `{Foreign} (o : op) : M (Z * err) :=
  let only (m : M err) : M (Z * err) := let! e := m in ret (0, e) in
  match o with
  | OMem o => only (memOp_Run o)
  | OSync o => only (syncOp_Run o)
  | O2D o => only (memcpy2DOp_Run (d2_driver o) (d2_desc o))
  | O3D o => only (memcpy3DOp_Run (d3_driver o) (d3_desc o))
  | O2DAsync o => only (memcpy2DAsyncOp_Run (a2_driver o) (a2_desc o) (a2_stream o))
  | O3DAsync o => only (memcpy3DAsyncOp_Run (a3_driver o) (a3_desc o) (a3_stream o))
  | OLaunch o => only (launchOp_Run (la_driver o) (la_fn o) (la_cfg o) (la_stream o) (la_params o) (la_coop o))
  | OGraph o => only (graphLaunchOp_Run (gl_driver o) (gl_exec o) (gl_stream o))
  | OElapsed o => eventElapsedOp_Run (el_driver o) (el_start o) (el_end o)
  end.

(** A filled structure runs as a new one would: what an earlier use left is not read. *)
Lemma fill_run `{Foreign} o q : type_of o = pool_type q -> op_Run (fill o q) = op_Run (fill (new_op (pool_type q)) q).
Proof.
  intros Ht. destruct q, o; try discriminate Ht; try reflexivity; unfold fill, fill_mem, memsetKind;
    cbn [pool_type new_op mo_src mo_dst]; destruct (size =? 1), (size =? 2); reflexivity.
Qed.

Lemma fill_type o q : type_of o = pool_type q -> type_of (fill o q) = pool_type q.
Proof. destruct q, o; intros Ht; try discriminate Ht; reflexivity. Qed.

Lemma clear_type o : type_of (clear o) = type_of o.
Proof. now destruct o. Qed.

(** ** The machine *)

(** A user: before [Get], with a filled structure, waiting for its result, with the result or the refusal, done. *)
Inductive user_pc := UStart | UFilled (o : nat) | UWaiting (o : nat) | UReturned (o : nat) | UEnd.

(** [pooled]: what the pools hold; [contents]: the structures by identity; [inflight]: the accepted jobs of all executors with their users, and whether [Run] is over. *)
Record st := mkSt {
  pooled : list nat;
  contents : list op;
  users : list user_pc;
  inflight : list (nat * nat * bool)
}.

Section Machine.

(** What each user asks for. *)
Variable asks : nat -> request.

Definition recycled_by_worker (g : nat) : bool := has_Recycle (pool_type (asks g)).

Inductive step (s : st) : st -> Prop :=
| get_new g : users s !! g = Some UStart ->
    step s (mkSt (pooled s) (contents s ++ [fill (new_op (pool_type (asks g))) (asks g)]) (<[g := UFilled (length (contents s))]> (users s)) (inflight s))
| get_pooled g o c p1 p2 : users s !! g = Some UStart -> pooled s = p1 ++ o :: p2 -> contents s !! o = Some c -> type_of c = pool_type (asks g) ->
    step s (mkSt (p1 ++ p2) (<[o := fill c (asks g)]> (contents s)) (<[g := UFilled o]> (users s)) (inflight s))
| collect o p1 p2 : pooled s = p1 ++ o :: p2 ->
    step s (mkSt (p1 ++ p2) (contents s) (users s) (inflight s))
| submit g o : users s !! g = Some (UFilled o) ->
    step s (mkSt (pooled s) (contents s) (<[g := UWaiting o]> (users s)) (inflight s ++ [(g, o, false)]))
| refuse_recycled g o : users s !! g = Some (UFilled o) -> recycled_by_worker g = true ->
    step s (mkSt (o :: pooled s) (contents s) (<[g := UEnd]> (users s)) (inflight s))
| refuse g o : users s !! g = Some (UFilled o) -> recycled_by_worker g = false ->
    step s (mkSt (pooled s) (contents s) (<[g := UReturned o]> (users s)) (inflight s))
| leave g o : users s !! g = Some (UWaiting o) -> recycled_by_worker g = true ->
    step s (mkSt (pooled s) (contents s) (<[g := UEnd]> (users s)) (inflight s))
| run g o i1 i2 : inflight s = i1 ++ (g, o, false) :: i2 ->
    step s (mkSt (pooled s) (contents s) (users s) (i1 ++ (g, o, true) :: i2))
| finish_recycle g o i1 i2 : inflight s = i1 ++ (g, o, true) :: i2 -> recycled_by_worker g = true ->
    step s (mkSt (o :: pooled s) (contents s) (users s) (i1 ++ i2))
| finish g o i1 i2 : inflight s = i1 ++ (g, o, true) :: i2 -> recycled_by_worker g = false ->
    step s (mkSt (pooled s) (contents s) (<[g := UReturned o]> (users s)) (i1 ++ i2))
| put g o c : users s !! g = Some (UReturned o) -> contents s !! o = Some c ->
    step s (mkSt (o :: pooled s) (<[o := clear c]> (contents s)) (<[g := UEnd]> (users s)) (inflight s)).

(** Empty pools, and [n] users about to start. *)
Definition start (n : nat) : st := mkSt [] [] (replicate n UStart) [].

Definition system (n : nat) : Machine := {| m_state := st; m_init s := s = start n; m_step := step |}.

(** ** Where a structure is *)

Definition is_op (o x : nat) : nat := if decide (x = o) then 1 else 0.
Definition flies (o : nat) (j : nat * nat * bool) : nat := is_op o j.1.2.
Definition owns (o : nat) (p : user_pc) : nat := match p with UFilled x | UReturned x => is_op o x | _ => 0 end.

(** In how many places [o] is: the pools, the executors, the goroutines. *)
Definition places (o : nat) (s : st) : nat :=
  (sum_list_with (is_op o) (pooled s) + sum_list_with (flies o) (inflight s) + sum_list_with (owns o) (users s))%nat.

(** The structure [o] holds the request of user [g]. *)
Definition filled_for (s : st) (g o : nat) : Prop := exists c, type_of c = pool_type (asks g) /\ contents s !! o = Some (fill c (asks g)).

Record inv (s : st) : Prop := mkInv {
  inv_once : forall o, (places o s <= 1)%nat;
  inv_known : forall o, (length (contents s) <= o)%nat -> places o s = 0%nat;
  inv_filled : forall g o, users s !! g = Some (UFilled o) -> filled_for s g o;
  inv_flight : forall g o b, (g, o, b) ∈ inflight s ->
    filled_for s g o /\ (users s !! g = Some (UWaiting o) \/ (recycled_by_worker g = true /\ users s !! g = Some UEnd))
}.

Lemma sum_app {A} (f : A -> nat) l k : sum_list_with f (l ++ k) = (sum_list_with f l + sum_list_with f k)%nat.
Proof. induction l as [|x l IH]; [done|]. cbn [app sum_list_with]. lia. Qed.

Lemma is_op_same o : is_op o o = 1%nat.
Proof. unfold is_op. now rewrite decide_True. Qed.

Lemma flies_pair o g x b : flies o (g, x, b) = is_op o x.
Proof. reflexivity. Qed.

Lemma in_flight_places s g o b : (g, o, b) ∈ inflight s -> (1 <= sum_list_with (flies o) (inflight s))%nat.
Proof.
  intros Hin. apply list_elem_of_lookup_1 in Hin as [i Hi]. pose proof (sum_lookup (flies o) _ _ _ Hi) as E.
  rewrite flies_pair, is_op_same in E. exact E.
Qed.

Lemma filled_write s s' x g o c :
  filled_for s g o -> o <> x -> contents s' = <[x := c]> (contents s) -> filled_for s' g o.
Proof. intros (d & Ht & Hd) Hne E. exists d. split; [done|]. rewrite E. now rewrite list_lookup_insert_ne. Qed.

Lemma filled_same s s' g o : filled_for s g o -> contents s' = contents s -> filled_for s' g o.
Proof. intros (d & Ht & Hd) E. exists d. split; [done|]. now rewrite E. Qed.

(** A user leaves a state in which no executor has anything of his. *)
Lemma flight_other s g g' o b p :
  inv s -> users s !! g = Some p -> p = UStart \/ (exists x, p = UFilled x \/ p = UReturned x) -> (g', o, b) ∈ inflight s -> g' <> g.
Proof.
  intros Hinv Hg Hp Hin ->. destruct (inv_flight s Hinv _ _ _ Hin) as [_ [E|[_ E]]]; rewrite Hg in E; injection E as ->;
    destruct Hp as [?|[x [?|?]]]; discriminate.
Qed.

(** Only the users change, and one of them hands over or takes nothing, or an operation is dropped. *)
Lemma inv_shrink s s' :
  inv s -> contents s' = contents s -> (forall o, (places o s' <= places o s)%nat) ->
  (forall g o, users s' !! g = Some (UFilled o) -> users s !! g = Some (UFilled o)) ->
  (forall g o b, (g, o, b) ∈ inflight s' -> (exists b', (g, o, b') ∈ inflight s) /\
     (users s' !! g = users s !! g \/ (recycled_by_worker g = true /\ users s' !! g = Some UEnd))) -> inv s'.
Proof.
  intros [Ho Hk Hf Hi] E Hp Hu Hfl. split.
  - intros o. specialize (Ho o). specialize (Hp o). lia.
  - intros o Hl. rewrite E in Hl. specialize (Hk o Hl). specialize (Hp o). lia.
  - intros g o Hg. apply (filled_same s); auto.
  - intros g o b Hin. destruct (Hfl g o b Hin) as [[b' Hin'] Hg]. destruct (Hi g o b' Hin') as [Hc Hw]. split; [now apply (filled_same s)|].
    destruct Hg as [->|Hg]; [exact Hw|now right].
Qed.

Ltac count := unfold places; cbn [pooled contents users inflight]; rewrite ?sum_app; cbn [sum_list_with]; rewrite ?flies_pair; try lia.

Lemma inv_get_new s g :
  inv s -> users s !! g = Some UStart ->
  inv (mkSt (pooled s) (contents s ++ [fill (new_op (pool_type (asks g))) (asks g)]) (<[g := UFilled (length (contents s))]> (users s)) (inflight s)).
Proof.
  intros Hinv H. pose proof Hinv as [Ho Hk Hf Hi].
  assert (Hplaces : forall x, places x (mkSt (pooled s) (contents s ++ [fill (new_op (pool_type (asks g))) (asks g)])
    (<[g:=UFilled (length (contents s))]> (users s)) (inflight s)) = (places x s + is_op x (length (contents s)))%nat).
  { intros x. pose proof (sum_insert (owns x) _ _ _ (UFilled (length (contents s))) H) as E. cbn [owns] in E. count. }
  assert (Hc : forall g' o, filled_for s g' o -> filled_for (mkSt (pooled s) (contents s ++ [fill (new_op (pool_type (asks g))) (asks g)])
    (<[g:=UFilled (length (contents s))]> (users s)) (inflight s)) g' o).
  { intros g' o (c & Ht & Hc). exists c. split; [done|]. cbn. rewrite lookup_app_l by (eapply lookup_lt_Some; eassumption). done. }
  split.
  - intros x. rewrite Hplaces. unfold is_op. case_decide as E; [subst x; rewrite Hk by lia; lia|]. specialize (Ho x). lia.
  - intros x Hx. rewrite Hplaces. cbn [contents] in Hx. rewrite length_app in Hx. cbn in Hx. unfold is_op. rewrite decide_False by lia. rewrite Hk by lia. lia.
  - intros g' o Hg'. cbn [users] in Hg'. apply list_lookup_insert_Some in Hg' as [(<- & E & _)|[_ Hg']]; [|now apply Hc, Hf].
    injection E as <-. exists (new_op (pool_type (asks g))). split; [now destruct (pool_type (asks g))|]. cbn. rewrite lookup_app_r, Nat.sub_diag by lia. done.
  - intros g' o b Hin. pose proof (flight_other s g g' o b UStart Hinv H (or_introl eq_refl) Hin) as Hne.
    destruct (Hi g' o b Hin) as [Hc' Hw]. split; [now apply Hc|]. cbn [users]. now rewrite list_lookup_insert_ne.
Qed.

Lemma inv_get_pooled s g o c p1 p2 :
  inv s -> users s !! g = Some UStart -> pooled s = p1 ++ o :: p2 -> contents s !! o = Some c -> type_of c = pool_type (asks g) ->
  inv (mkSt (p1 ++ p2) (<[o := fill c (asks g)]> (contents s)) (<[g := UFilled o]> (users s)) (inflight s)).
Proof.
  intros Hinv H H0 H1 H2. pose proof Hinv as [Ho Hk Hf Hi].
  assert (Hpo : sum_list_with (is_op o) (pooled s) = S (sum_list_with (is_op o) (p1 ++ p2))).
  { rewrite H0, !sum_app. cbn [sum_list_with]. rewrite is_op_same. lia. }
  pose proof (Ho o) as Hoo. unfold places in Hoo.
  assert (Hplaces : forall x, places x (mkSt (p1 ++ p2) (<[o:=fill c (asks g)]> (contents s)) (<[g:=UFilled o]> (users s)) (inflight s)) = places x s).
  { intros x. pose proof (sum_insert (owns x) _ _ _ (UFilled o) H) as E. cbn [owns] in E. count. rewrite H0, sum_app. cbn [sum_list_with]. lia. }
  assert (Hfree : forall g', users s !! g' = Some (UFilled o) -> False).
  { intros g' Hg'. pose proof (sum_lookup (owns o) _ _ _ Hg') as E. cbn [owns] in E. rewrite is_op_same in E. lia. }
  split.
  - intros x. rewrite Hplaces. apply Ho.
  - intros x Hx. cbn [contents] in Hx. rewrite length_insert in Hx. rewrite Hplaces. now apply Hk.
  - intros g' x Hg'. cbn [users] in Hg'. apply list_lookup_insert_Some in Hg' as [(<- & E & _)|[_ Hg']].
    + injection E as <-. exists c. split; [done|]. cbn. apply list_lookup_insert_eq. eapply lookup_lt_Some; eassumption.
    + apply (filled_write s _ o _ _ (fill c (asks g))); [now apply Hf| |done]. intros ->. now apply (Hfree g').
  - intros g' x b Hin. pose proof (flight_other s g g' x b UStart Hinv H (or_introl eq_refl) Hin) as Hne.
    destruct (Hi g' x b Hin) as [Hc' Hw]. split; [|cbn [users]; now rewrite list_lookup_insert_ne].
    apply (filled_write s _ o _ _ (fill c (asks g))); [done| |done]. intros ->. pose proof (in_flight_places s g' o b Hin). lia.
Qed.

Lemma inv_submit s g o :
  inv s -> users s !! g = Some (UFilled o) ->
  inv (mkSt (pooled s) (contents s) (<[g := UWaiting o]> (users s)) (inflight s ++ [(g, o, false)])).
Proof.
  intros Hinv H. pose proof Hinv as [Ho Hk Hf Hi].
  assert (Hplaces : forall x, places x (mkSt (pooled s) (contents s) (<[g:=UWaiting o]> (users s)) (inflight s ++ [(g, o, false)])) = places x s).
  { intros x. pose proof (sum_insert (owns x) _ _ _ (UWaiting o) H) as E. cbn [owns] in E. count. }
  split.
  - intros x. rewrite Hplaces. apply Ho.
  - intros x Hx. rewrite Hplaces. now apply Hk.
  - intros g' x Hg'. cbn [users] in Hg'. apply list_lookup_insert_Some in Hg' as [(<- & E & _)|[_ Hg']]; [done|]. apply (filled_same s); auto.
  - intros g' x b Hin. cbn [inflight users] in Hin |- *. apply elem_of_app in Hin as [Hin|Hin].
    + pose proof (flight_other s g g' x b _ Hinv H (or_intror (ex_intro _ o (or_introl eq_refl))) Hin) as Hne.
      destruct (Hi g' x b Hin) as [Hc' Hw]. split; [now apply (filled_same s)|]. now rewrite list_lookup_insert_ne.
    + apply list_elem_of_singleton in Hin. injection Hin as -> -> ->. split; [apply (filled_same s); auto|]. left.
      apply list_lookup_insert_eq. eapply lookup_lt_Some; eassumption.
Qed.

Lemma inv_finish s g o i1 i2 :
  inv s -> inflight s = i1 ++ (g, o, true) :: i2 -> recycled_by_worker g = false ->
  inv (mkSt (pooled s) (contents s) (<[g := UReturned o]> (users s)) (i1 ++ i2)).
Proof.
  intros Hinv H H0. pose proof Hinv as [Ho Hk Hf Hi].
  assert (Hin0 : (g, o, true) ∈ inflight s) by (rewrite H; apply elem_of_app; right; left).
  assert (Hg : users s !! g = Some (UWaiting o)) by (destruct (Hi _ _ _ Hin0) as [_ [?|[E _]]]; [done|congruence]).
  pose proof (Ho o) as Hoo. unfold places in Hoo. rewrite H, sum_app in Hoo. cbn [sum_list_with] in Hoo. rewrite flies_pair, is_op_same in Hoo.
  apply (inv_shrink s); try done.
  - intros x. pose proof (sum_insert (owns x) _ _ _ (UReturned o) Hg) as E. cbn [owns] in E. count. rewrite H, sum_app. cbn [sum_list_with]. rewrite flies_pair. lia.
  - intros g' x Hg'. cbn [users] in Hg'. now apply list_lookup_insert_Some in Hg' as [(_ & E & _)|[_ Hg']].
  - intros g' x b Hin. cbn [inflight users] in Hin |- *. assert (Hin' : (g', x, b) ∈ inflight s).
    { rewrite H. apply elem_of_app in Hin as [Hin|Hin]; apply elem_of_app; [now left|right; now right]. }
    split; [eauto|]. left. apply list_lookup_insert_ne. intros <-.
    destruct (Hi _ _ _ Hin') as [_ [E|[E _]]]; [|congruence]. rewrite Hg in E. injection E as <-.
    assert (1 <= sum_list_with (flies o) i1 + sum_list_with (flies o) i2)%nat; [|lia].
    apply elem_of_app in Hin as [Hin|Hin]; apply list_elem_of_lookup_1 in Hin as [j Hj]; pose proof (sum_lookup (flies o) _ _ _ Hj) as E;
      rewrite flies_pair, is_op_same in E; lia.
Qed.

Lemma inv_put s g o c :
  inv s -> users s !! g = Some (UReturned o) -> contents s !! o = Some c ->
  inv (mkSt (o :: pooled s) (<[o := clear c]> (contents s)) (<[g := UEnd]> (users s)) (inflight s)).
Proof.
  intros Hinv H H0. pose proof Hinv as [Ho Hk Hf Hi].
  pose proof (Ho o) as Hoo. unfold places in Hoo. pose proof (sum_lookup (owns o) _ _ _ H) as Hown. cbn [owns] in Hown. rewrite is_op_same in Hown.
  assert (Hplaces : forall x, places x (mkSt (o :: pooled s) (<[o:=clear c]> (contents s)) (<[g:=UEnd]> (users s)) (inflight s)) = places x s).
  { intros x. pose proof (sum_insert (owns x) _ _ _ UEnd H) as E. cbn [owns] in E. count. }
  split.
  - intros x. rewrite Hplaces. apply Ho.
  - intros x Hx. cbn [contents] in Hx. rewrite length_insert in Hx. rewrite Hplaces. now apply Hk.
  - intros g' x Hg'. cbn [users] in Hg'. apply list_lookup_insert_Some in Hg' as [(_ & E & _)|[Hne Hg']]; [done|].
    apply (filled_write s _ o _ _ (clear c)); [now apply Hf| |done]. intros ->.
    pose proof (sum_insert (owns o) _ _ _ UEnd H) as E. assert (Hg2 : <[g:=UEnd]> (users s) !! g' = Some (UFilled o)) by now rewrite list_lookup_insert_ne.
    pose proof (sum_lookup (owns o) _ _ _ Hg2) as E2. cbn [owns] in E, E2. rewrite is_op_same in E, E2. lia.
  - intros g' x b Hin. pose proof (flight_other s g g' x b _ Hinv H (or_intror (ex_intro _ o (or_intror eq_refl))) Hin) as Hne.
    destruct (Hi g' x b Hin) as [Hc' Hw]. split; [|cbn [users]; now rewrite list_lookup_insert_ne].
    apply (filled_write s _ o _ _ (clear c)); [done| |done]. intros ->. pose proof (in_flight_places s g' o b Hin). lia.
Qed.

Lemma pool_inv_step s s' : inv s -> step s s' -> inv s'.
Proof.
  intros Hinv Hs. pose proof Hinv as [Ho Hk Hf Hi]. destruct Hs.
  - now apply inv_get_new.
  - eapply inv_get_pooled; eassumption.
  - (* collect *)
    apply (inv_shrink s); try done; [|intros; split; [eauto|now left]].
    intros x. count. rewrite H, sum_app. cbn [sum_list_with]. lia.
  - now apply inv_submit.
  - (* refuse_recycled *)
    apply (inv_shrink s); try done.
    + intros x. pose proof (sum_insert (owns x) _ _ _ UEnd H) as E. cbn [owns] in E. count.
    + intros g' x Hg'. cbn [users] in Hg'. now apply list_lookup_insert_Some in Hg' as [(_ & E & _)|[_ Hg']].
    + intros g' x b Hin. split; [eauto|]. left. cbn [users]. apply list_lookup_insert_ne. apply not_eq_sym.
      exact (flight_other s g g' x b _ Hinv H (or_intror (ex_intro _ o (or_introl eq_refl))) Hin).
  - (* refuse *)
    apply (inv_shrink s); try done.
    + intros x. pose proof (sum_insert (owns x) _ _ _ (UReturned o) H) as E. cbn [owns] in E. count.
    + intros g' x Hg'. cbn [users] in Hg'. now apply list_lookup_insert_Some in Hg' as [(_ & E & _)|[_ Hg']].
    + intros g' x b Hin. split; [eauto|]. left. cbn [users]. apply list_lookup_insert_ne. apply not_eq_sym.
      exact (flight_other s g g' x b _ Hinv H (or_intror (ex_intro _ o (or_introl eq_refl))) Hin).
  - (* leave *)
    apply (inv_shrink s); try done.
    + intros x. pose proof (sum_insert (owns x) _ _ _ UEnd H) as E. cbn [owns] in E. count.
    + intros g' x Hg'. cbn [users] in Hg'. now apply list_lookup_insert_Some in Hg' as [(_ & E & _)|[_ Hg']].
    + intros g' x b Hin. split; [eauto|]. cbn [users]. destruct (decide (g = g')) as [<-|Hne]; [right|left; now apply list_lookup_insert_ne].
      split; [done|]. apply list_lookup_insert_eq. eapply lookup_lt_Some; eassumption.
  - (* run *)
    apply (inv_shrink s); try done.
    + intros x. count. rewrite H, sum_app. cbn [sum_list_with]. rewrite !flies_pair. lia.
    + intros g' x b Hin. cbn [inflight] in Hin. split; [|now left]. rewrite H. apply elem_of_app in Hin as [Hin|Hin]; [exists b; apply elem_of_app; now left|].
      apply elem_of_cons in Hin as [E|Hin]; [injection E as -> -> ->; exists false|exists b]; apply elem_of_app; right; [left|now right].
  - (* finish_recycle *)
    apply (inv_shrink s); try done.
    + intros x. count. rewrite H, sum_app. cbn [sum_list_with]. rewrite !flies_pair. lia.
    + intros g' x b Hin. cbn [inflight] in Hin. split; [|now left]. exists b. rewrite H. apply elem_of_app in Hin as [Hin|Hin]; apply elem_of_app; [now left|right; now right].
  - eapply inv_finish; eassumption.
  - eapply inv_put; eassumption.
Qed.
Lemma pools_inv n s : reachable (system n) s -> inv s.
Proof.
  apply (reachable_invariant (system n) inv); [|exact pool_inv_step]. intros s0 ->.
  assert (Hz : forall m o, sum_list_with (owns o) (replicate m UStart) = 0%nat) by (intros m o; induction m as [|m IH]; [done|exact IH]).
  split; cbn.
  - intros o. unfold places. cbn. rewrite Hz. lia.
  - intros o _. unfold places. cbn. now rewrite Hz.
  - intros g o Hg. now apply lookup_replicate in Hg as [E _].
  - intros g o b Hin. now apply not_elem_of_nil in Hin.
Qed.

(** C24.  Pooled structures are never shared.  In every interleaving of users of the dispatch layer - copies, memsets, launches and the like that put their structure
    back themselves, and waits that may give up and leave it to the worker - a structure is in at most one place: once in its pool, in one executor, or in one user's hands (so nothing is put back twice,
    and nothing in the pool is still to be run); and a job accepted by an executor, even one its user gave up, runs exactly as the driver call its user asked for would from a
    new structure. *)
Theorem pooled_ops_exclusive `{Foreign} (n : nat) (s : st) :
  reachable (system n) s ->
  NoDup (pooled s) /\ NoDup (map (fun j => j.1.2) (inflight s)) /\
  (forall o, o ∈ pooled s -> o ∉ map (fun j => j.1.2) (inflight s) /\
     forall g, users s !! g <> Some (UFilled o) /\ users s !! g <> Some (UReturned o)) /\
  (forall g o b, (g, o, b) ∈ inflight s ->
     exists c, contents s !! o = Some c /\ op_Run c = op_Run (fill (new_op (pool_type (asks g))) (asks g))).
Proof.
  intros Hr. apply pools_inv in Hr as [Ho Hk Hf Hi].
  assert (Hnd : forall l, (forall o, (sum_list_with (is_op o) l <= 1)%nat) -> NoDup l).
  { induction l as [|x l IH]; intros Hl; constructor.
    - intros Hin. apply list_elem_of_lookup_1 in Hin as [j Hj]. specialize (Hl x). cbn [sum_list_with] in Hl.
      pose proof (sum_lookup (is_op x) _ _ _ Hj) as E. rewrite is_op_same in Hl, E. lia.
    - apply IH. intros o. specialize (Hl o). cbn [sum_list_with] in Hl. lia. }
  assert (Hfl : forall o l, sum_list_with (flies o) l = sum_list_with (is_op o) (map (fun j => j.1.2) l)).
  { intros o l. induction l as [|j l IH]; [done|]. cbn [map sum_list_with]. rewrite IH. reflexivity. }
  split_and!.
  - apply Hnd. intros o. specialize (Ho o). unfold places in Ho. lia.
  - apply Hnd. intros o. rewrite <- Hfl. specialize (Ho o). unfold places in Ho. lia.
  - intros o Hin. specialize (Ho o). unfold places in Ho. apply list_elem_of_lookup_1 in Hin as [j Hj].
    pose proof (sum_lookup (is_op o) _ _ _ Hj) as E. rewrite is_op_same in E. split.
    + intros Hin. rewrite Hfl in Ho. apply list_elem_of_lookup_1 in Hin as [k Hk']. pose proof (sum_lookup (is_op o) _ _ _ Hk') as E2. rewrite is_op_same in E2. lia.
    + intros g. split; intros Hg; pose proof (sum_lookup (owns o) _ _ _ Hg) as E2; cbn [owns] in E2; rewrite is_op_same in E2; lia.
  - intros g o b Hin. destruct (Hi g o b Hin) as [(c & Ht & Hc) _]. exists (fill c (asks g)). split; [done|]. now apply fill_run.
Qed.

End Machine.
End Pools.
