(* ===== verification/Modules.v ===== *)
(** * Modules, kernels, globals and the linker (package cuda: module.go, global.go, funcattr.go, occupancy.go, link.go)

    A [Function] or a [Global] is a handle into a [Module] and works under the module's lock.  A Go string is its list of bytes.
    Host memory the driver writes while it keeps a pointer to it (the log buffers of the JIT) belongs to the driver's world; the class
    [HostMemory] gives the two things the code does with it. *)

From S2P Require Import Prelude CudaSys Errors Runtime CudaResult ExecutorApi Context Dispatch Resource Handles.

(** [hm_make n]: [make([]byte, n)], the address of zeroed memory; [hm_read p n]: the [n] bytes at [p] now. *)
Class HostMemory `{Foreign} := {
  hm_make : Z -> World -> Z * World;
  hm_read : World -> Z -> Z -> list Z
}.

(** [os.ReadFile]. *)
Class Files `{Foreign} := { ReadFile : list Z -> World -> (list Z + error) * World }.

Record Module_ := mkModule { md_id : loc; md_ctx : option Context; md_raw : Z }.
Record Function_ := mkFunction { fn_module : option Module_; fn_raw : Z; fn_name : list Z }.
Record Global := mkGlobal { gl_module : option Module_; gl_ptr : Z; gl_bytes : Z; gl_name : list Z }.

(** ** Images, names, logs *)

Definition nullTerminated (image : list Z) : list Z :=
  match last image with
  | Some 0 => image
  | _ => image ++ [0]
  end.

Definition cubinMagic : list Z := [127; 69; 76; 70].
Definition fatbinMagic : list Z := [80; 237; 85; 186].

(** [bytes.HasPrefix]. *)
Definition HasPrefix (s p : list Z) : bool := bool_decide (take (length p) s = p).

Definition moduleImage (image : list Z) : list Z :=
  if HasPrefix image cubinMagic || HasPrefix image fatbinMagic then image else nullTerminated image.

Fixpoint trimNull (b : list Z) : list Z :=
  match b with
  | [] => []
  | c :: b => if c =? 0 then [] else c :: trimNull b
  end.

(** [strings.IndexByte(name, 0) >= 0]. *)
Definition has_null (name : list Z) : bool := existsb (Z.eqb 0) name.

(** [nameBuf]. *)
Definition c_name (name : list Z) : list Z := name ++ [0].

Record JITOptions := mkJITOptions { LogBufferBytes : Z; MaxRegisters : Z }.
Record JITLog := mkJITLog { Info : list Z; Error : list Z }.

Definition defaultJITLogBytes : Z := 8192.
Definition maxJITLogBytes : Z := 16 * 2 ^ 20.

Definition jitMaxRegisters : Z := 0.
Definition jitInfoLogBuffer : Z := 3.
Definition jitInfoLogBufferSizeBytes : Z := 4.
Definition jitErrorLogBuffer : Z := 5.
Definition jitErrorLogBufferSizeBytes : Z := 6.

(** The validation [LoadModuleEx] and [NewLinker] share: the size of the log buffers, or an error. *)
Definition jit_size (opts : JITOptions) : Z + error :=
  let size := LogBufferBytes opts in
  if (size <? 0) || (maxJITLogBytes <? size) then inr ErrInvalidLength
  else
    let size := if size =? 0 then defaultJITLogBytes else size in
    if MaxUint32 <? MaxRegisters opts then inr ErrInvalidValue else inl size.

(** The option list and its values. *)
Definition jit_options (opts : JITOptions) (infoBuf errBuf size : Z) : list Z * list Z :=
  let options := [jitInfoLogBuffer; jitInfoLogBufferSizeBytes; jitErrorLogBuffer; jitErrorLogBufferSizeBytes] in
  let values := [infoBuf; uint64 size; errBuf; uint64 size] in
  if 0 <? MaxRegisters opts then (options ++ [jitMaxRegisters], values ++ [uint64 (MaxRegisters opts)])
  else (options, values).

(** [FunctionAttribute]: the ten constants of funcattr.go are its values 0 to 9. *)
Definition FuncAttrMaxDynamicSharedSizeBytes : Z := 8.

Definition jitInputCubin : Z := 0.
Definition jitInputPTX : Z := 1.

(** [Linker]: the log buffers are at [lk_infoBuf] and [lk_errBuf], of [lk_size] bytes each; the options the driver retains are
    its arguments of [CuLinkCreate], and pinning them has no effect on the driver. *)
Record Linker := mkLinker {
  lk_id : loc;
  lk_ctx : option Context;
  lk_raw : Z;
  lk_infoBuf : Z;
  lk_errBuf : Z;
  lk_size : Z
}.

Section ModuleDefs.
Context `{Foreign}.

(** *** Modules *)

Definition LoadModule (c : option Context) (image : list Z) : M (option Module_ * err) :=
  match c with
  | None => ret (None, Some ErrNilContext)
  | Some x =>
      match image with
      | [] => ret (None, Some ErrEmptyImage)
      | _ =>
          let buf := moduleImage image in
          let! r := doWait c Background 0 (cudaresult.ModuleLoadData (cx_driver x) buf) in
          match r.2 with
          | Some e => ret (None, Some e)
          | None => let! id := new_loc in ret (Some (mkModule id c r.1), None)
          end
      end
  end.

Definition make_bytes `{!HostMemory} (n : Z) : M Z := fun s =>
  let '(p, w) := hm_make n (st_world s) in (Done p, set_world w s).

Definition read_bytes `{!HostMemory} (p n : Z) : M (list Z) := get (fun s => hm_read (st_world s) p n).

Definition LoadModuleEx `{!HostMemory} (c : option Context) (image : list Z) (opts : JITOptions) :
    M (option Module_ * JITLog * err) :=
  match c with
  | None => ret (None, mkJITLog [] [], Some ErrNilContext)
  | Some x =>
      match image with
      | [] => ret (None, mkJITLog [] [], Some ErrEmptyImage)
      | _ =>
          match jit_size opts with
          | inr e => ret (None, mkJITLog [] [], Some e)
          | inl size =>
              let buf := moduleImage image in
              let! infoBuf := make_bytes size in
              let! errBuf := make_bytes size in
              let '(options, values) := jit_options opts infoBuf errBuf size in
              let! r := doWait c Background 0 (cudaresult.ModuleLoadDataEx (cx_driver x) buf options values) in
              let! info := read_bytes infoBuf size in
              let! errs := read_bytes errBuf size in
              let log := mkJITLog (trimNull info) (trimNull errs) in
              match r.2 with
              | Some e => ret (None, log, Some e)
              | None => let! id := new_loc in ret (Some (mkModule id c r.1), log, None)
              end
          end
      end
  end.

(** The message of a failed read quotes the path; it identifies the wrapped error no further. *)
Definition LoadModuleFromFile `{!Files} (c : option Context) (path : list Z) : M (option Module_ * err) :=
  match c with
  | None => ret (None, Some ErrNilContext)
  | Some _ =>
      match path with
      | [] => ret (None, Some ErrEmptyImage)
      | _ =>
          let! r := (fun s => let '(r, w) := ReadFile path (st_world s) in (Done r, set_world w s)) in
          match r with
          | inr e => ret (None, Some (ErrWrap "cuda: read module file" e))
          | inl data => LoadModule c data
          end
      end
  end.

Definition Module_Function (m : option Module_) (name : list Z) : M (option Function_ * err) :=
  match m with
  | None => ret (None, Some ErrNilModule)
  | Some m' =>
      match name with
      | [] => ret (None, Some ErrEmptyFunctionName)
      | _ =>
          if has_null name then ret (None, Some ErrInvalidFunctionName)
          else
            opened (md_id m') (None, Some ErrModuleClosed) (
              let! r := doWait (md_ctx m') Background 0
                          (cudaresult.ModuleGetFunction (ctx_driver (md_ctx m')) (md_raw m') (c_name name)) in
              match r.2 with
              | Some e => ret (None, Some e)
              | None => ret (Some (mkFunction m r.1 name), None)
              end)
      end
  end.

Definition Module_Close (m : option Module_) : M err :=
  match m with
  | None => ret (Some ErrNilModule)
  | Some m =>
      close_resource (md_id m) (
        let! r := doBarrier (md_ctx m) Background tt (closure (cudaresult.ModuleUnload (ctx_driver (md_ctx m)) (md_raw m))) in
        ret r.2)
  end.

Definition Function_Name (f : option Function_) : list Z :=
  match f with None => [] | Some f => fn_name f end.

(** *** Globals *)

Definition Module_Global (m : option Module_) (name : list Z) : M (option Global * err) :=
  match m with
  | None => ret (None, Some ErrNilModule)
  | Some m' =>
      match name with
      | [] => ret (None, Some ErrEmptyGlobalName)
      | _ =>
          if has_null name then ret (None, Some ErrInvalidGlobalName)
          else
            opened (md_id m') (None, Some ErrModuleClosed) (
              let! r := doWait (md_ctx m') Background (0, 0)
                          (cudaresult.ModuleGetGlobal (ctx_driver (md_ctx m')) (md_raw m') (c_name name)) in
              match r.2 with
              | Some e => ret (None, Some e)
              | None => ret (Some (mkGlobal m r.1.1 r.1.2 name), None)
              end)
      end
  end.

Definition Global_Bytes (g : option Global) : Z := match g with None => 0 | Some g => gl_bytes g end.
Definition Global_Name (g : option Global) : list Z := match g with None => [] | Some g => gl_name g end.

Definition WriteGlobal (T : elem) (ctx : gctx) (g : option Global) (vals : slice) : M err :=
  match g with
  | None => ret (Some ErrNilGlobal)
  | Some g =>
      match gl_module g with
      | None => ret (Some ErrNilModule)
      | Some m =>
          if sl_len vals =? 0 then ret (Some ErrLengthMismatch)
          else
            let bytes := uint64 (uint64 (sl_len vals) * uint64 (sizeof T)) in
            opened (md_id m) (Some ErrModuleClosed) (
              if gl_bytes g <? bytes then ret (Some ErrLengthMismatch)
              else
                let! srcPtr := first_elem vals in
                memcpyHtoD (md_ctx m) ctx (gl_ptr g) srcPtr bytes)
      end
  end.

Definition ReadGlobal (T : elem) (ctx : gctx) (dst : slice) (g : option Global) : M err :=
  match g with
  | None => ret (Some ErrNilGlobal)
  | Some g =>
      match gl_module g with
      | None => ret (Some ErrNilModule)
      | Some m =>
          if sl_len dst =? 0 then ret (Some ErrLengthMismatch)
          else
            let bytes := uint64 (uint64 (sl_len dst) * uint64 (sizeof T)) in
            opened (md_id m) (Some ErrModuleClosed) (
              if gl_bytes g <? bytes then ret (Some ErrLengthMismatch)
              else
                let! dstPtr := first_elem dst in
                memcpyDtoH (md_ctx m) ctx dstPtr (gl_ptr g) bytes)
      end
  end.

(** *** Kernel attributes and occupancy

    [do] with a closure that calls the driver; on an error the captured variables are ignored. *)

Definition do_query {A} (c : option Context) (zero : A) (fn : M (A * err)) : M (A * err) :=
  let! r := do_ c Background zero fn in
  match r.2 with
  | Some e => ret (zero, Some e)
  | None => ret (r.1, None)
  end.

Definition Attribute (f : option Function_) (attr : Z) : M (Z * err) :=
  match f with
  | None => ret (0, Some ErrNilFunction)
  | Some f =>
      match fn_module f with
      | None => ret (0, Some ErrNilModule)
      | Some m =>
          opened (md_id m) (0, Some ErrModuleClosed)
            (do_query (md_ctx m) 0 (cudaresult.FuncGetAttribute (ctx_driver (md_ctx m)) (fn_raw f) (int32 attr)))
      end
  end.

Definition SetAttribute (f : option Function_) (attr value : Z) : M err :=
  match f with
  | None => ret (Some ErrNilFunction)
  | Some f =>
      if (value <? 0) || (MaxInt32 <? value) then ret (Some ErrInvalidLength)
      else
        match fn_module f with
        | None => ret (Some ErrNilModule)
        | Some m =>
            opened (md_id m) (Some ErrModuleClosed) (
              let! r := do_ (md_ctx m) Background tt
                (closure (cudaresult.FuncSetAttribute (ctx_driver (md_ctx m)) (fn_raw f) (int32 attr) (int32 value))) in
              ret r.2)
        end
  end.

Definition SetMaxDynamicSharedMemory (f : option Function_) (bytes : Z) : M err :=
  SetAttribute f FuncAttrMaxDynamicSharedSizeBytes bytes.

Definition MaxActiveBlocksPerSM (f : option Function_) (blockSize dynamicSharedMem : Z) : M (Z * err) :=
  match f with
  | None => ret (0, Some ErrNilFunction)
  | Some f =>
      if (blockSize <=? 0) || (MaxInt32 <? blockSize) then ret (0, Some ErrInvalidBlockSize)
      else if dynamicSharedMem <? 0 then ret (0, Some ErrInvalidLength)
      else
        match fn_module f with
        | None => ret (0, Some ErrNilModule)
        | Some m =>
            opened (md_id m) (0, Some ErrModuleClosed)
              (do_query (md_ctx m) 0 (cudaresult.OccupancyMaxActiveBlocksPerMultiprocessor
                 (ctx_driver (md_ctx m)) (fn_raw f) (int32 blockSize) (uint64 dynamicSharedMem)))
        end
  end.

Definition SuggestedBlockSize (f : option Function_) (dynamicSharedMem blockSizeLimit : Z) : M (Z * Z * err) :=
  match f with
  | None => ret (0, 0, Some ErrNilFunction)
  | Some f =>
      if (dynamicSharedMem <? 0) || (blockSizeLimit <? 0) || (MaxInt32 <? blockSizeLimit) then ret (0, 0, Some ErrInvalidLength)
      else
        match fn_module f with
        | None => ret (0, 0, Some ErrNilModule)
        | Some m =>
            opened (md_id m) (0, 0, Some ErrModuleClosed)
              (do_query (md_ctx m) (0, 0) (cudaresult.OccupancyMaxPotentialBlockSize
                 (ctx_driver (md_ctx m)) (fn_raw f) (uint64 dynamicSharedMem) (int32 blockSizeLimit)))
        end
  end.

(** *** The linker *)

(** All four entry points, or none is used. *)
Definition link_lacking (d : option Driver) : bool :=
  lacks d F_CuLinkCreate || lacks d F_CuLinkAddData || lacks d F_CuLinkComplete || lacks d F_CuLinkDestroy.

Definition NewLinker `{!HostMemory} (c : option Context) (opts : JITOptions) : M (option Linker * err) :=
  match c with
  | None => ret (None, Some ErrNilContext)
  | Some x =>
      if link_lacking (cx_driver x) then ret (None, Some ErrSymbolUnavailable)
      else
        match jit_size opts with
        | inr e => ret (None, Some e)
        | inl size =>
            let! infoBuf := make_bytes size in
            let! errBuf := make_bytes size in
            let '(options, values) := jit_options opts infoBuf errBuf size in
            let! r := doWait c Background 0 (cudaresult.LinkCreate (cx_driver x) options values) in
            match r.2 with
            | Some e => ret (None, Some e)
            | None => let! id := new_loc in ret (Some (mkLinker id c r.1 infoBuf errBuf size), None)
            end
        end
  end.

(** [opMu.Lock(); defer opMu.Unlock(); if l.closed (return e); k]. *)
Definition opened_exclusive {A} (l : loc) (e : A) (k : M A) : M A :=
  with_Lock (l, OpMu) (let! c := is_closed l in if c then ret e else k).

Definition addInput (l : option Linker) (name data : list Z) (inputType : Z) (terminate : bool) : M err :=
  match l with
  | None => ret (Some ErrNilLinker)
  | Some l =>
      opened_exclusive (lk_id l) (Some ErrLinkerClosed) (
        match data with
        | [] => ret (Some ErrEmptyImage)
        | _ =>
            let buf := if terminate then nullTerminated data else data in
            let namePtr := match name with [] => None | _ => Some (c_name name) end in
            let! r := doWait (lk_ctx l) Background tt (closure
              (cudaresult.LinkAddData (ctx_driver (lk_ctx l)) (lk_raw l) inputType buf (uint64 (Z.of_nat (length buf))) namePtr)) in
            ret r.2
        end)
  end.

Definition AddPTX (l : option Linker) (name ptx : list Z) : M err := addInput l name ptx jitInputPTX true.
Definition AddCubin (l : option Linker) (name cubin : list Z) : M err := addInput l name cubin jitInputCubin false.

(** The copy [Complete] takes of the [size] bytes at [ptr], through [unsafe.Slice]. *)
Definition copy_foreign `{!HostMemory} (ptr size : Z) : M (list Z) :=
  if (MaxInt <? size) || (2 ^ 64 - ptr <? size) then panic "unsafe.Slice: len out of range"
  else if (ptr =? 0) && negb (size =? 0) then panic "unsafe.Slice: ptr is nil and len is not zero"
  else read_bytes ptr size.

Definition Complete `{!HostMemory} (l : option Linker) : M (list Z * err) :=
  match l with
  | None => ret ([], Some ErrNilLinker)
  | Some l =>
      opened_exclusive (lk_id l) ([], Some ErrLinkerClosed) (
        let! r := doWait (lk_ctx l) Background [] (
          let! r := cudaresult.LinkComplete (ctx_driver (lk_ctx l)) (lk_raw l) in
          match r.2 with
          | Some e => ret ([], Some e)
          | None => let! out := copy_foreign r.1.1 r.1.2 in ret (out, None)
          end) in
        match r.2 with
        | Some e => ret ([], Some e)
        | None => ret (r.1, None)
        end)
  end.

Definition Log `{!HostMemory} (l : option Linker) : M JITLog :=
  match l with
  | None => ret (mkJITLog [] [])
  | Some l =>
      with_RLock (lk_id l, OpMu) (
        let! info := read_bytes (lk_infoBuf l) (lk_size l) in
        let! errs := read_bytes (lk_errBuf l) (lk_size l) in
        ret (mkJITLog (trimNull info) (trimNull errs)))
  end.

Definition Linker_Close (l : option Linker) : M err :=
  match l with
  | None => ret (Some ErrNilLinker)
  | Some l =>
      close_resource (lk_id l) (
        let! r := doBarrier (lk_ctx l) Background tt (closure (cudaresult.LinkDestroy (ctx_driver (lk_ctx l)) (lk_raw l))) in
        ret r.2)
  end.

End ModuleDefs.
