(* ===== verification/Regions.v ===== *)
(** * Two- and three-dimensional memory (package cuda: pitched.go, volume.go, texture.go, surface.go, pinned_async.go)

    Padded allocations, CUDA arrays and the textures and surfaces over them.  Copies are described to the driver by a
    [CUDA_MEMCPY2D] or a [CUDA_MEMCPY3D]. *)

From S2P Require Import Prelude CudaSys Errors Runtime CudaResult ExecutorApi Context Dispatch Resource Handles Buffer.

Record PitchedBuffer (T : elem) := mkPitchedBuffer {
  pb_id : loc; pb_ctx : option Context; pb_ptr : Z; pb_pitch : Z; pb_width : Z; pb_height : Z
}.
Arguments mkPitchedBuffer {T} _ _ _ _ _ _.
Arguments pb_id {T} _.
Arguments pb_ctx {T} _.
Arguments pb_ptr {T} _.
Arguments pb_pitch {T} _.
Arguments pb_width {T} _.
Arguments pb_height {T} _.

Record Volume (T : elem) := mkVolume {
  vo_id : loc; vo_ctx : option Context; vo_ptr : Z; vo_pitch : Z; vo_width : Z; vo_height : Z; vo_depth : Z
}.
Arguments mkVolume {T} _ _ _ _ _ _ _.
Arguments vo_id {T} _.
Arguments vo_ctx {T} _.
Arguments vo_ptr {T} _.
Arguments vo_pitch {T} _.
Arguments vo_width {T} _.
Arguments vo_height {T} _.
Arguments vo_depth {T} _.

Record Array2D (T : elem) := mkArray2D {
  ar_id : loc; ar_ctx : option Context; ar_handle : Z; ar_width : Z; ar_height : Z; ar_surface : bool
}.
Arguments mkArray2D {T} _ _ _ _ _ _.
Arguments ar_id {T} _.
Arguments ar_ctx {T} _.
Arguments ar_handle {T} _.
Arguments ar_width {T} _.
Arguments ar_height {T} _.
Arguments ar_surface {T} _.

Record Texture := mkTexture { tx_id : loc; tx_ctx : option Context; tx_handle : Z }.
Record Surface := mkSurface { sf_id : loc; sf_ctx : option Context; sf_handle : Z }.

(** ** Geometry *)

(** The overflow test of [elements], and the product in Go's [int]. *)
Definition PitchedBuffer_elements {T} (b : PitchedBuffer T) : Z + error :=
  if MaxInt / pb_height b <? pb_width b then inr ErrInvalidLength else inl (int64 (pb_width b * pb_height b)).

Definition Volume_elements {T} (v : Volume T) : Z + error :=
  if MaxInt / vo_height v <? vo_width v then inr ErrInvalidLength
  else
    let plane := int64 (vo_width v * vo_height v) in
    if MaxInt / vo_depth v <? plane then inr ErrInvalidLength else inl (int64 (plane * vo_depth v)).

(** [esb]. *)
Definition pitch_element (es : Z) : Z := if es =? 8 then 8 else 4.

(** ** Copy descriptors *)

(** A side of a copy of packed host rows, or of padded device rows. *)
Definition pitched_fromHost {T} (b : PitchedBuffer T) (host : Z) : CUDA_MEMCPY2D :=
  let widthBytes := uint64 (uint64 (pb_width b) * elemSize T) in
  {| m2_SrcXInBytes := 0; m2_SrcY := 0; m2_SrcMemoryType := MemoryTypeHost; m2_SrcHost := host; m2_SrcDevice := 0;
     m2_SrcArray := 0; m2_SrcPitch := widthBytes;
     m2_DstXInBytes := 0; m2_DstY := 0; m2_DstMemoryType := MemoryTypeDevice; m2_DstHost := 0; m2_DstDevice := pb_ptr b;
     m2_DstArray := 0; m2_DstPitch := pb_pitch b;
     m2_WidthInBytes := widthBytes; m2_Height := uint64 (pb_height b) |}.

Definition pitched_toHost {T} (b : PitchedBuffer T) (host : Z) : CUDA_MEMCPY2D :=
  let widthBytes := uint64 (uint64 (pb_width b) * elemSize T) in
  {| m2_SrcXInBytes := 0; m2_SrcY := 0; m2_SrcMemoryType := MemoryTypeDevice; m2_SrcHost := 0; m2_SrcDevice := pb_ptr b;
     m2_SrcArray := 0; m2_SrcPitch := pb_pitch b;
     m2_DstXInBytes := 0; m2_DstY := 0; m2_DstMemoryType := MemoryTypeHost; m2_DstHost := host; m2_DstDevice := 0;
     m2_DstArray := 0; m2_DstPitch := widthBytes;
     m2_WidthInBytes := widthBytes; m2_Height := uint64 (pb_height b) |}.

Definition pitched_toDevice {T} (b dst : PitchedBuffer T) : CUDA_MEMCPY2D :=
  let widthBytes := uint64 (uint64 (pb_width b) * elemSize T) in
  {| m2_SrcXInBytes := 0; m2_SrcY := 0; m2_SrcMemoryType := MemoryTypeDevice; m2_SrcHost := 0; m2_SrcDevice := pb_ptr b;
     m2_SrcArray := 0; m2_SrcPitch := pb_pitch b;
     m2_DstXInBytes := 0; m2_DstY := 0; m2_DstMemoryType := MemoryTypeDevice; m2_DstHost := 0; m2_DstDevice := pb_ptr dst;
     m2_DstArray := 0; m2_DstPitch := pb_pitch dst;
     m2_WidthInBytes := widthBytes; m2_Height := uint64 (pb_height b) |}.

Definition Volume_hostDesc {T} (v : Volume T) (hostToDevice : bool) (host : Z) : CUDA_MEMCPY3D :=
  let widthBytes := uint64 (uint64 (vo_width v) * elemSize T) in
  let rows := uint64 (vo_height v) in
  if hostToDevice then
    {| m3_SrcXInBytes := 0; m3_SrcY := 0; m3_SrcZ := 0; m3_SrcLOD := 0; m3_SrcMemoryType := MemoryTypeHost;
       m3_SrcHost := host; m3_SrcDevice := 0; m3_SrcArray := 0; m3_SrcPitch := widthBytes; m3_SrcHeight := rows;
       m3_DstXInBytes := 0; m3_DstY := 0; m3_DstZ := 0; m3_DstLOD := 0; m3_DstMemoryType := MemoryTypeDevice;
       m3_DstHost := 0; m3_DstDevice := vo_ptr v; m3_DstArray := 0; m3_DstPitch := vo_pitch v; m3_DstHeight := rows;
       m3_WidthInBytes := widthBytes; m3_Height := rows; m3_Depth := uint64 (vo_depth v) |}
  else
    {| m3_SrcXInBytes := 0; m3_SrcY := 0; m3_SrcZ := 0; m3_SrcLOD := 0; m3_SrcMemoryType := MemoryTypeDevice;
       m3_SrcHost := 0; m3_SrcDevice := vo_ptr v; m3_SrcArray := 0; m3_SrcPitch := vo_pitch v; m3_SrcHeight := rows;
       m3_DstXInBytes := 0; m3_DstY := 0; m3_DstZ := 0; m3_DstLOD := 0; m3_DstMemoryType := MemoryTypeHost;
       m3_DstHost := host; m3_DstDevice := 0; m3_DstArray := 0; m3_DstPitch := widthBytes; m3_DstHeight := rows;
       m3_WidthInBytes := widthBytes; m3_Height := rows; m3_Depth := uint64 (vo_depth v) |}.

Definition Array2D_hostDesc {T} (a : Array2D T) (hostToArray : bool) (host : Z) : CUDA_MEMCPY2D :=
  let widthBytes := uint64 (uint64 (ar_width a) * elemSize T) in
  if hostToArray then
    {| m2_SrcXInBytes := 0; m2_SrcY := 0; m2_SrcMemoryType := MemoryTypeHost; m2_SrcHost := host; m2_SrcDevice := 0;
       m2_SrcArray := 0; m2_SrcPitch := widthBytes;
       m2_DstXInBytes := 0; m2_DstY := 0; m2_DstMemoryType := MemoryTypeArray; m2_DstHost := 0; m2_DstDevice := 0;
       m2_DstArray := ar_handle a; m2_DstPitch := 0;
       m2_WidthInBytes := widthBytes; m2_Height := uint64 (ar_height a) |}
  else
    {| m2_SrcXInBytes := 0; m2_SrcY := 0; m2_SrcMemoryType := MemoryTypeArray; m2_SrcHost := 0; m2_SrcDevice := 0;
       m2_SrcArray := ar_handle a; m2_SrcPitch := 0;
       m2_DstXInBytes := 0; m2_DstY := 0; m2_DstMemoryType := MemoryTypeHost; m2_DstHost := host; m2_DstDevice := 0;
       m2_DstArray := 0; m2_DstPitch := widthBytes;
       m2_WidthInBytes := widthBytes; m2_Height := uint64 (ar_height a) |}.

(** ** Arrays: formats and options *)

(** Values of cudasys. *)
Definition AdFormatUnsignedInt8 : Z := 1.
Definition AdFormatUnsignedInt16 : Z := 2.
Definition AdFormatUnsignedInt32 : Z := 3.
Definition AdFormatSignedInt8 : Z := 8.
Definition AdFormatSignedInt16 : Z := 9.
Definition AdFormatSignedInt32 : Z := 10.
Definition AdFormatFloat : Z := 32.
Definition ArraySurfaceLoadStore : Z := 2.
Definition ResourceTypeArray : Z := 0.
Definition TexReadAsInteger : Z := 1.
Definition TexNormalizedCoordinate : Z := 2.

(** [arrayFormat]: the format and whether it is an integer one; None for the 8-byte types. *)
Definition arrayFormat (T : elem) : option (Z * bool) :=
  match T with
  | Uint8 => Some (AdFormatUnsignedInt8, true)
  | Uint16 => Some (AdFormatUnsignedInt16, true)
  | Uint32 => Some (AdFormatUnsignedInt32, true)
  | Int8 => Some (AdFormatSignedInt8, true)
  | Int16 => Some (AdFormatSignedInt16, true)
  | Int32 => Some (AdFormatSignedInt32, true)
  | Float32 => Some (AdFormatFloat, false)
  | _ => None
  end.

(** [ArrayOption] is a function on the configuration, a single flag; the exported one sets it. *)
Definition arrayConfig : Type := bool.
Definition WithSurfaceStore : arrayConfig -> arrayConfig := fun _ => true.

Definition apply_options (opts : list (option (arrayConfig -> arrayConfig))) : arrayConfig :=
  foldl (fun cfg opt => match opt with Some f => f cfg | None => cfg end) false opts.

Record TextureConfig := mkTextureConfig { AddressMode : Z; FilterMode : Z; NormalizedCoordinates : bool }.

(** The flags of the texture descriptor. *)
Definition texture_flags (cfg : TextureConfig) (integer : bool) : Z :=
  let flags := if NormalizedCoordinates cfg then Z.lor 0 TexNormalizedCoordinate else 0 in
  if integer then Z.lor flags TexReadAsInteger else flags.

Section RegionDefs.
Context `{Foreign}.
Context {T : elem}.

(** *** PitchedBuffer (pitched.go) *)

Definition AllocPitched (ctx : option Context) (width height : Z) : M (option (PitchedBuffer T) * err) :=
  match ctx with
  | None => ret (None, Some ErrNilContext)
  | Some c =>
      if (width <=? 0) || (height <=? 0) then ret (None, Some ErrInvalidLength)
      else
        let es := elemSize T in
        if MaxUint64 / es <? uint64 width then ret (None, Some ErrInvalidLength)
        else
          let widthBytes := uint64 (uint64 width * es) in
          let! r := do_ ctx Background (0, 0) (cudaresult.MemAllocPitch (cx_driver c) widthBytes (uint64 height) (pitch_element es)) in
          match r.2 with
          | Some e => ret (None, Some e)
          | None => let! id := new_loc in ret (Some (mkPitchedBuffer id ctx r.1.1 r.1.2 width height), None)
          end
  end.

Definition PitchedBuffer_CopyFrom (b : option (PitchedBuffer T)) (ctx : gctx) (src : slice) : M err :=
  match b with
  | None => ret (Some ErrNilBuffer)
  | Some b =>
      opened (pb_id b) (Some ErrBufferClosed) (
        match PitchedBuffer_elements b with
        | inr e => ret (Some e)
        | inl n =>
            if negb (sl_len src =? n) then ret (Some ErrLengthMismatch)
            else
              let! p := first_elem src in
              memcpy2D (pb_ctx b) ctx (pitched_fromHost b p)
        end)
  end.

Definition PitchedBuffer_CopyTo (b : option (PitchedBuffer T)) (ctx : gctx) (dst : slice) : M err :=
  match b with
  | None => ret (Some ErrNilBuffer)
  | Some b =>
      opened (pb_id b) (Some ErrBufferClosed) (
        match PitchedBuffer_elements b with
        | inr e => ret (Some e)
        | inl n =>
            if negb (sl_len dst =? n) then ret (Some ErrLengthMismatch)
            else
              let! p := first_elem dst in
              memcpy2D (pb_ctx b) ctx (pitched_toHost b p)
        end)
  end.

(** [lockPitchedPair] and the deferred unlock around [m]. *)
Definition with_pitched_pair {A} (a b : PitchedBuffer T) (m : M A) : M A :=
  let '(first, second) := if bool_decide (pb_id b < pb_id a)%positive then (b, a) else (a, b) in
  with_RLock (pb_id first, OpMu) (
    if bool_decide (pb_id first = pb_id second) then m else with_RLock (pb_id second, OpMu) m).

Definition PitchedBuffer_CopyToDevice (b : option (PitchedBuffer T)) (ctx : gctx) (dst : option (PitchedBuffer T)) : M err :=
  match b, dst with
  | Some b, Some dst =>
      with_pitched_pair b dst (
        let! c1 := is_closed (pb_id b) in
        let! c2 := is_closed (pb_id dst) in
        if c1 || c2 then ret (Some ErrBufferClosed)
        else if negb (same_ctx (pb_ctx dst) (pb_ctx b)) then ret (Some ErrContextMismatch)
        else if negb (pb_width dst =? pb_width b) || negb (pb_height dst =? pb_height b) then ret (Some ErrLengthMismatch)
        else memcpy2D (pb_ctx b) ctx (pitched_toDevice b dst))
  | _, _ => ret (Some ErrNilBuffer)
  end.

Definition PitchedBuffer_Close (b : option (PitchedBuffer T)) : M err :=
  match b with
  | None => ret (Some ErrNilBuffer)
  | Some b =>
      close_resource (pb_id b) (
        let! r := doBarrier (pb_ctx b) Background tt (closure (cudaresult.MemFree (ctx_driver (pb_ctx b)) (pb_ptr b))) in
        ret r.2)
  end.

(** *** Volume (volume.go) *)

Definition AllocVolume (ctx : option Context) (width height depth : Z) : M (option (Volume T) * err) :=
  match ctx with
  | None => ret (None, Some ErrNilContext)
  | Some c =>
      if (width <=? 0) || (height <=? 0) || (depth <=? 0) then ret (None, Some ErrInvalidLength)
      else
        let es := elemSize T in
        if MaxUint64 / es <? uint64 width then ret (None, Some ErrInvalidLength)
        else if (MaxInt / height <? width) || (MaxInt / depth <? int64 (width * height)) then ret (None, Some ErrInvalidLength)
        else
          let widthBytes := uint64 (uint64 width * es) in
          let rows := uint64 (uint64 height * uint64 depth) in
          if MaxUint64 / rows <? widthBytes then ret (None, Some ErrInvalidLength)
          else
            let! r := do_ ctx Background (0, 0) (cudaresult.MemAllocPitch (cx_driver c) widthBytes rows (pitch_element es)) in
            match r.2 with
            | Some e => ret (None, Some e)
            | None => let! id := new_loc in ret (Some (mkVolume id ctx r.1.1 r.1.2 width height depth), None)
            end
  end.

Definition Volume_CopyFrom (v : option (Volume T)) (ctx : gctx) (src : slice) : M err :=
  match v with
  | None => ret (Some ErrNilBuffer)
  | Some v =>
      opened (vo_id v) (Some ErrBufferClosed) (
        match Volume_elements v with
        | inr e => ret (Some e)
        | inl n =>
            if negb (sl_len src =? n) then ret (Some ErrLengthMismatch)
            else
              let! p := first_elem src in
              memcpy3D (vo_ctx v) ctx (Volume_hostDesc v true p)
        end)
  end.

Definition Volume_CopyTo (v : option (Volume T)) (ctx : gctx) (dst : slice) : M err :=
  match v with
  | None => ret (Some ErrNilBuffer)
  | Some v =>
      opened (vo_id v) (Some ErrBufferClosed) (
        match Volume_elements v with
        | inr e => ret (Some e)
        | inl n =>
            if negb (sl_len dst =? n) then ret (Some ErrLengthMismatch)
            else
              let! p := first_elem dst in
              memcpy3D (vo_ctx v) ctx (Volume_hostDesc v false p)
        end)
  end.

Definition Volume_Close (v : option (Volume T)) : M err :=
  match v with
  | None => ret (Some ErrNilBuffer)
  | Some v =>
      close_resource (vo_id v) (
        let! r := doBarrier (vo_ctx v) Background tt (closure (cudaresult.MemFree (ctx_driver (vo_ctx v)) (vo_ptr v))) in
        ret r.2)
  end.

(** *** Array2D (texture.go) *)

Definition AllocArray2D (ctx : option Context) (width height : Z) (opts : list (option (arrayConfig -> arrayConfig))) :
    M (option (Array2D T) * err) :=
  match ctx with
  | None => ret (None, Some ErrNilContext)
  | Some c =>
      if (width <=? 0) || (height <=? 0) then ret (None, Some ErrInvalidLength)
      else if MaxInt / height <? width then ret (None, Some ErrInvalidLength)
      else
        match arrayFormat T with
        | None => ret (None, Some ErrUnsupportedElement)
        | Some (format, _) =>
            let surface := apply_options opts in
            let! r := do_ ctx Background 0 (
              if surface then
                cudaresult.Array3DCreate (cx_driver c)
                  {| a3_Width := uint64 width; a3_Height := uint64 height; a3_Depth := 0; a3_Format := format;
                     a3_NumChannels := 1; a3_Flags := ArraySurfaceLoadStore |}
              else
                cudaresult.ArrayCreate (cx_driver c)
                  {| ad_Width := uint64 width; ad_Height := uint64 height; ad_Format := format; ad_NumChannels := 1 |}) in
            match r.2 with
            | Some e => ret (None, Some e)
            | None => let! id := new_loc in ret (Some (mkArray2D id ctx r.1 width height surface), None)
            end
        end
  end.

Definition Array2D_CopyFrom (a : option (Array2D T)) (ctx : gctx) (src : slice) : M err :=
  match a with
  | None => ret (Some ErrNilArray)
  | Some a =>
      opened (ar_id a) (Some ErrArrayClosed) (
        if negb (sl_len src =? int64 (ar_width a * ar_height a)) then ret (Some ErrLengthMismatch)
        else
          let! p := first_elem src in
          memcpy2D (ar_ctx a) ctx (Array2D_hostDesc a true p))
  end.

Definition Array2D_CopyTo (a : option (Array2D T)) (ctx : gctx) (dst : slice) : M err :=
  match a with
  | None => ret (Some ErrNilArray)
  | Some a =>
      opened (ar_id a) (Some ErrArrayClosed) (
        if negb (sl_len dst =? int64 (ar_width a * ar_height a)) then ret (Some ErrLengthMismatch)
        else
          let! p := first_elem dst in
          memcpy2D (ar_ctx a) ctx (Array2D_hostDesc a false p))
  end.

Definition Array2D_Close (a : option (Array2D T)) : M err :=
  match a with
  | None => ret (Some ErrNilArray)
  | Some a =>
      close_resource (ar_id a) (
        let! r := doBarrier (ar_ctx a) Background tt (closure (cudaresult.ArrayDestroy (ctx_driver (ar_ctx a)) (ar_handle a))) in
        ret r.2)
  end.

(** *** Texture and Surface *)

Definition NewTexture (arr : option (Array2D T)) (cfg : TextureConfig) : M (option Texture * err) :=
  match arr with
  | None => ret (None, Some ErrNilArray)
  | Some arr =>
      opened (ar_id arr) (None, Some ErrArrayClosed) (
        match arrayFormat T with
        | None => ret (None, Some ErrUnsupportedElement)
        | Some (_, integer) =>
            let resDesc := {| rd_ResType := ResourceTypeArray; rd_Handle := ar_handle arr; rd_Flags := 0 |} in
            let mode := AddressMode cfg in
            let texDesc := {| td_AddressMode := (mode, mode, mode); td_FilterMode := FilterMode cfg;
                              td_Flags := texture_flags cfg integer |} in
            let! r := do_ (ar_ctx arr) Background 0 (cudaresult.TexObjectCreate (ctx_driver (ar_ctx arr)) resDesc texDesc) in
            match r.2 with
            | Some e => ret (None, Some e)
            | None => let! id := new_loc in ret (Some (mkTexture id (ar_ctx arr) r.1), None)
            end
        end)
  end.

Definition NewSurface (arr : option (Array2D T)) : M (option Surface * err) :=
  match arr with
  | None => ret (None, Some ErrNilArray)
  | Some arr =>
      opened (ar_id arr) (None, Some ErrArrayClosed) (
        if negb (ar_surface arr) then ret (None, Some ErrNoSurfaceStore)
        else
          let resDesc := {| rd_ResType := ResourceTypeArray; rd_Handle := ar_handle arr; rd_Flags := 0 |} in
          let! r := do_ (ar_ctx arr) Background 0 (cudaresult.SurfObjectCreate (ctx_driver (ar_ctx arr)) resDesc) in
          match r.2 with
          | Some e => ret (None, Some e)
          | None => let! id := new_loc in ret (Some (mkSurface id (ar_ctx arr) r.1), None)
          end)
  end.

Definition Texture_Close (t : option Texture) : M err :=
  match t with
  | None => ret (Some ErrNilTexture)
  | Some t =>
      close_resource (tx_id t) (
        let! r := doBarrier (tx_ctx t) Background tt (closure (cudaresult.TexObjectDestroy (ctx_driver (tx_ctx t)) (tx_handle t))) in
        ret r.2)
  end.

Definition Surface_Close (s : option Surface) : M err :=
  match s with
  | None => ret (Some ErrNilSurface)
  | Some s =>
      close_resource (sf_id s) (
        let! r := doBarrier (sf_ctx s) Background tt (closure (cudaresult.SurfObjectDestroy (ctx_driver (sf_ctx s)) (sf_handle s))) in
        ret r.2)
  end.

(** *** Asynchronous copies with pinned host memory (pinned_async.go)

    The three types share one shape: host reference, stream, then the locks of stream, region and host in this order, the
    context and length tests, and the copy. *)

Definition pinned_async (region : loc) (rctx : option Context) (closedErr : error) (elements : Z + error)
    (stream : option Stream) (host : PinnedHost T) (copy : Z -> Z -> M err) : M err :=
  match pinnedHostRefOf host with
  | inr e => ret (Some e)
  | inl host =>
      match stream with
      | None => ret (Some ErrNilStream)
      | Some st =>
          opened (sm_id st) (Some ErrStreamClosed) (
            opened region (Some closedErr) (
              opened (pr_id host) (Some ErrBufferClosed) (
                if negb (same_ctx (sm_ctx st) rctx) || negb (same_ctx (pr_ctx host) rctx) then ret (Some ErrContextMismatch)
                else
                  match elements with
                  | inr e => ret (Some e)
                  | inl n => if negb (pr_length host =? n) then ret (Some ErrLengthMismatch) else copy (pr_ptr host) (sm_raw st)
                  end)))
      end
  end.

Definition PitchedBuffer_CopyFromHostAsync (b : option (PitchedBuffer T)) (ctx : gctx) (stream : option Stream) (src : PinnedHost T) : M err :=
  match b with
  | None => ret (Some ErrNilBuffer)
  | Some b =>
      pinned_async (pb_id b) (pb_ctx b) ErrBufferClosed (PitchedBuffer_elements b) stream src (fun host raw =>
        memcpy2DAsync (pb_ctx b) ctx (pitched_fromHost b host) raw)
  end.

Definition PitchedBuffer_CopyToHostAsync (b : option (PitchedBuffer T)) (ctx : gctx) (stream : option Stream) (dst : PinnedHost T) : M err :=
  match b with
  | None => ret (Some ErrNilBuffer)
  | Some b =>
      pinned_async (pb_id b) (pb_ctx b) ErrBufferClosed (PitchedBuffer_elements b) stream dst (fun host raw =>
        memcpy2DAsync (pb_ctx b) ctx (pitched_toHost b host) raw)
  end.

Definition PitchedBuffer_CopyToDeviceAsync (b : option (PitchedBuffer T)) (ctx : gctx) (stream : option Stream)
    (dst : option (PitchedBuffer T)) : M err :=
  match b, dst with
  | Some b, Some dst =>
      match stream with
      | None => ret (Some ErrNilStream)
      | Some st =>
          opened (sm_id st) (Some ErrStreamClosed) (
            with_pitched_pair b dst (
              let! c1 := is_closed (pb_id b) in
              let! c2 := is_closed (pb_id dst) in
              if c1 || c2 then ret (Some ErrBufferClosed)
              else if negb (same_ctx (sm_ctx st) (pb_ctx b)) || negb (same_ctx (pb_ctx dst) (pb_ctx b)) then ret (Some ErrContextMismatch)
              else if negb (pb_width dst =? pb_width b) || negb (pb_height dst =? pb_height b) then ret (Some ErrLengthMismatch)
              else memcpy2DAsync (pb_ctx b) ctx (pitched_toDevice b dst) (sm_raw st)))
      end
  | _, _ => ret (Some ErrNilBuffer)
  end.

Definition Volume_CopyFromHostAsync (v : option (Volume T)) (ctx : gctx) (stream : option Stream) (src : PinnedHost T) : M err :=
  match v with
  | None => ret (Some ErrNilBuffer)
  | Some v =>
      pinned_async (vo_id v) (vo_ctx v) ErrBufferClosed (Volume_elements v) stream src (fun host raw =>
        memcpy3DAsync (vo_ctx v) ctx (Volume_hostDesc v true host) raw)
  end.

Definition Volume_CopyToHostAsync (v : option (Volume T)) (ctx : gctx) (stream : option Stream) (dst : PinnedHost T) : M err :=
  match v with
  | None => ret (Some ErrNilBuffer)
  | Some v =>
      pinned_async (vo_id v) (vo_ctx v) ErrBufferClosed (Volume_elements v) stream dst (fun host raw =>
        memcpy3DAsync (vo_ctx v) ctx (Volume_hostDesc v false host) raw)
  end.

Definition Array2D_CopyFromHostAsync (a : option (Array2D T)) (ctx : gctx) (stream : option Stream) (src : PinnedHost T) : M err :=
  match a with
  | None => ret (Some ErrNilArray)
  | Some a =>
      pinned_async (ar_id a) (ar_ctx a) ErrArrayClosed (inl (int64 (ar_width a * ar_height a))) stream src (fun host raw =>
        memcpy2DAsync (ar_ctx a) ctx (Array2D_hostDesc a true host) raw)
  end.

Definition Array2D_CopyToHostAsync (a : option (Array2D T)) (ctx : gctx) (stream : option Stream) (dst : PinnedHost T) : M err :=
  match a with
  | None => ret (Some ErrNilArray)
  | Some a =>
      pinned_async (ar_id a) (ar_ctx a) ErrArrayClosed (inl (int64 (ar_width a * ar_height a))) stream dst (fun host raw =>
        memcpy2DAsync (ar_ctx a) ctx (Array2D_hostDesc a false host) raw)
  end.

End RegionDefs.
