(* ===== verification/Vmm.v ===== *)
(** * Virtual, pooled and managed memory (package cuda: vmm.go, mempool.go, managed.go)

    A [VirtualBuffer] is a physical allocation mapped into a reserved range; acquiring it is a transaction of four calls with rollback, and
    [Close] tears down what is still live and can be retried.  The live flags are mutable: [Close] returns the buffer with
    them updated. *)

From S2P Require Import Prelude CudaSys Errors Runtime CudaResult ExecutorApi Context Dispatch Resource Handles Buffer.

Definition memAllocTypePinned : Z := 1.
Definition memLocTypeDevice : Z := 1.
Definition memAccessReadWrite : Z := 3.
Definition granularityRecommend : Z := 1.

Record VirtualBuffer (T : elem) := mkVirtualBuffer {
  vb_id : loc;
  vb_ctx : option Context;
  vb_ptr : Z;
  vb_handle : Z;
  vb_size : Z;
  vb_length : Z;
  vb_bytes : Z;
  vb_mapped : bool;
  vb_reserved : bool;
  vb_created : bool
}.
Arguments mkVirtualBuffer {T} _ _ _ _ _ _ _ _ _ _.
Arguments vb_id {T} _.
Arguments vb_ctx {T} _.
Arguments vb_ptr {T} _.
Arguments vb_handle {T} _.
Arguments vb_size {T} _.
Arguments vb_length {T} _.
Arguments vb_bytes {T} _.
Arguments vb_mapped {T} _.
Arguments vb_reserved {T} _.
Arguments vb_created {T} _.

Definition set_live {T} (mapped reserved created : bool) (b : VirtualBuffer T) : VirtualBuffer T :=
  mkVirtualBuffer (vb_id b) (vb_ctx b) (vb_ptr b) (vb_handle b) (vb_size b) (vb_length b) (vb_bytes b) mapped reserved created.

(** [roundUp]: false on overflow; [mult] is not 0. *)
Definition roundUp (v mult : Z) : Z * bool :=
  let r := v mod mult in
  if r =? 0 then (v, true)
  else
    let pad := uint64 (mult - r) in
    if uint64 (MaxUint64 - v) <? pad then (0, false) else (uint64 (v + pad), true).

Record MemoryPool := mkMemoryPool { mp_ctx : option Context; mp_raw : Z }.

Definition MemPoolAttrReleaseThreshold : Z := 4.
Definition MemPoolAttrReservedMemCurrent : Z := 5.
Definition MemPoolAttrUsedMemCurrent : Z := 7.

Definition memAttachGlobal : Z := 1.
Definition deviceCPU : Z := -1.

Record ManagedBuffer (T : elem) := mkManagedBuffer {
  mb_id : loc;
  mb_ctx : option Context;
  mb_host : Z;
  mb_ptr : Z;
  mb_length : Z;
  mb_bytes : Z
}.
Arguments mkManagedBuffer {T} _ _ _ _ _ _.
Arguments mb_id {T} _.
Arguments mb_ctx {T} _.
Arguments mb_host {T} _.
Arguments mb_ptr {T} _.
Arguments mb_length {T} _.
Arguments mb_bytes {T} _.

Section VmmDefs.
Context `{Foreign}.

(** *** Virtual memory (vmm.go) *)

(** The device of a context: [c.device.handle]. *)
Definition device_handle (c : Context) : M Z := let! d := deref (cx_device c) in ret (dv_handle d).

Definition memProp (c : Context) : M CUmemAllocationProp :=
  let! h := device_handle c in
  ret (mkCUmemAllocationProp memAllocTypePinned 0 (mkCUmemLocation memLocTypeDevice (int32 h))).

Definition vmm_fields : list field :=
  [F_CuMemGetAllocationGranularity; F_CuMemCreate; F_CuMemAddressReserve; F_CuMemMap; F_CuMemSetAccess; F_CuMemUnmap;
   F_CuMemAddressFree; F_CuMemRelease].

Definition vmmAvailable (c : Context) : M bool :=
  let! d := deref (cx_driver c) in ret (forallb (drv_bound d) vmm_fields).

(** [tryFree]: the flag and the collected errors, updated. *)
Definition tryFree (live : bool) (errs : list err) (op : M err) : M (bool * list err) :=
  if negb live then ret (live, errs)
  else
    let! e := op in
    match e with
    | Some _ => ret (live, errs ++ [e])
    | None => ret (false, errs)
    end.

Definition acquireVirtual (c : Context) (size gran : Z) (prop : CUmemAllocationProp) : M (Z * Z * err) :=
  let! r := cudaresult.MemCreate (cx_driver c) size prop in
  let handle := r.1 in
  match r.2 with
  | Some e => ret (0, 0, Some e)
  | None =>
      let! r := cudaresult.MemAddressReserve (cx_driver c) size gran in
      let ptr := r.1 in
      match r.2 with
      | Some e =>
          let! e1 := cudaresult.MemRelease (cx_driver c) handle in
          ret (0, 0, errors_join [Some e; e1])
      | None =>
          let! e := cudaresult.MemMap (cx_driver c) ptr size handle in
          match e with
          | Some e =>
              let! e1 := cudaresult.MemAddressFree (cx_driver c) ptr size in
              let! e2 := cudaresult.MemRelease (cx_driver c) handle in
              ret (0, 0, errors_join [Some e; e1; e2])
          | None =>
              let! h := device_handle c in
              let desc := mkCUmemAccessDesc (mkCUmemLocation memLocTypeDevice (int32 h)) memAccessReadWrite in
              let! e := cudaresult.MemSetAccess (cx_driver c) ptr size desc in
              match e with
              | Some e =>
                  let! e1 := cudaresult.MemUnmap (cx_driver c) ptr size in
                  let! rb := (match e1 with
                              | None => let! e2 := cudaresult.MemAddressFree (cx_driver c) ptr size in ret [Some e; e1; e2]
                              | Some _ => ret [Some e; e1]
                              end) in
                  let! e3 := cudaresult.MemRelease (cx_driver c) handle in
                  ret (0, 0, errors_join (rb ++ [e3]))
              | None => ret (ptr, handle, None)
              end
          end
      end
  end.

(** The closure of [AllocVirtual]: pointer, handle and size. *)
Definition alloc_virtual_closure (c : Context) (bytes : Z) : M (Z * Z * Z * err) :=
  let! prop := memProp c in
  let! r := cudaresult.MemGetAllocationGranularity (cx_driver c) prop granularityRecommend in
  let gran := r.1 in
  match r.2 with
  | Some e => ret (0, 0, 0, Some e)
  | None =>
      if gran =? 0 then ret (0, 0, 0, Some ErrInvalidLength)
      else
        let '(size, ok) := roundUp bytes gran in
        if negb ok then ret (0, 0, 0, Some ErrInvalidLength)
        else
          let! r := acquireVirtual c size gran prop in
          match r.2 with
          | Some e => ret (0, 0, 0, Some e)
          | None => ret (r.1.1, r.1.2, size, None)
          end
  end.

Definition AllocVirtual (T : elem) (ctx : option Context) (n : Z) : M (option (VirtualBuffer T) * err) :=
  match ctx with
  | None => ret (None, Some ErrNilContext)
  | Some c =>
      if n <=? 0 then ret (None, Some ErrInvalidLength)
      else
        let es := elemSize T in
        if MaxUint64 / es <? uint64 n then ret (None, Some ErrInvalidLength)
        else
          let bytes := uint64 (uint64 n * es) in
          let! available := vmmAvailable c in
          if negb available then ret (None, Some ErrSymbolUnavailable)
          else
            let! r := do_ ctx Background (0, 0, 0) (alloc_virtual_closure c bytes) in
            match r.2 with
            | Some e => ret (None, Some e)
            | None =>
                let! id := new_loc in
                let '(ptr, handle, size) := r.1 in
                ret (Some (mkVirtualBuffer id ctx ptr handle size n bytes true true true), None)
            end
  end.

Definition VirtualBuffer_CopyFrom {T} (b : option (VirtualBuffer T)) (ctx : gctx) (src : slice) : M err :=
  match b with
  | None => ret (Some ErrNilBuffer)
  | Some b =>
      with_RLock (vb_id b, OpMu) (
        let! c := is_closed (vb_id b) in
        if c || negb (vb_mapped b) then ret (Some ErrBufferClosed)
        else if (sl_len src =? 0) || negb (sl_len src =? vb_length b) then ret (Some ErrLengthMismatch)
        else
          let! srcPtr := first_elem src in
          memcpyHtoD (vb_ctx b) ctx (vb_ptr b) srcPtr (vb_bytes b))
  end.

Definition VirtualBuffer_CopyTo {T} (b : option (VirtualBuffer T)) (ctx : gctx) (dst : slice) : M err :=
  match b with
  | None => ret (Some ErrNilBuffer)
  | Some b =>
      with_RLock (vb_id b, OpMu) (
        let! c := is_closed (vb_id b) in
        if c || negb (vb_mapped b) then ret (Some ErrBufferClosed)
        else if (sl_len dst =? 0) || negb (sl_len dst =? vb_length b) then ret (Some ErrLengthMismatch)
        else
          let! dstPtr := first_elem dst in
          memcpyDtoH (vb_ctx b) ctx dstPtr (vb_ptr b) (vb_bytes b))
  end.

(** The closure of [Close]: the three flags and the errors, after unmapping, releasing, and freeing the range of an
    unmapped buffer. *)
Definition free_virtual {T} (b : VirtualBuffer T) : M (VirtualBuffer T * list err * err) :=
  let d := ctx_driver (vb_ctx b) in
  let! r := tryFree (vb_mapped b) [] (cudaresult.MemUnmap d (vb_ptr b) (vb_size b)) in
  let '(mapped, errs) := r in
  let! r := tryFree (vb_created b) errs (cudaresult.MemRelease d (vb_handle b)) in
  let '(created, errs) := r in
  let! r := (if negb mapped then tryFree (vb_reserved b) errs (cudaresult.MemAddressFree d (vb_ptr b) (vb_size b))
             else ret (vb_reserved b, errs)) in
  let '(reserved, errs) := r in
  ret (set_live mapped reserved created b, errs, None).

Definition VirtualBuffer_Close {T} (b : option (VirtualBuffer T)) : M (err * option (VirtualBuffer T)) :=
  match b with
  | None => ret (Some ErrNilBuffer, None)
  | Some b =>
      with_Lock (vb_id b, OpMu) (
        let! c := is_closed (vb_id b) in
        if c then ret (None, Some b)
        else
          let! r := doBarrier (vb_ctx b) Background (b, []) (free_virtual b) in
          let '(b', errs) := r.1 in
          match r.2 with
          | Some e => ret (Some e, Some b')
          | None =>
              match errs with
              | [] => set_closed (vb_id b) ;! ret (None, Some b')
              | _ => ret (errors_join errs, Some b')
              end
          end)
  end.

(** *** Memory pools (mempool.go) *)

Definition DefaultMemPool (c : option Context) : M (option MemoryPool * err) :=
  match c with
  | None => ret (None, Some ErrNilContext)
  | Some x =>
      let! r := do_ c Background 0 (
        let! h := device_handle x in
        cudaresult.DeviceGetDefaultMemPool (cx_driver x) h) in
      match r.2 with
      | Some e => ret (None, Some e)
      | None => ret (Some (mkMemoryPool c r.1), None)
      end
  end.

Definition getU64 (p : option MemoryPool) (attr : Z) : M (Z * err) :=
  match p with
  | None => ret (0, Some ErrNilMemPool)
  | Some p =>
      do_ (mp_ctx p) Background 0 (
        let! r := cudaresult.MemPoolGetAttributeU64 (ctx_driver (mp_ctx p)) (mp_raw p) attr in
        match r.2 with
        | Some e => ret (0, Some e)
        | None => ret (r.1, None)
        end)
  end.

Definition ReleaseThreshold (p : option MemoryPool) : M (Z * err) := getU64 p MemPoolAttrReleaseThreshold.

Definition SetReleaseThreshold (p : option MemoryPool) (bytes : Z) : M err :=
  match p with
  | None => ret (Some ErrNilMemPool)
  | Some p =>
      let! r := do_ (mp_ctx p) Background tt
        (closure (cudaresult.MemPoolSetAttributeU64 (ctx_driver (mp_ctx p)) (mp_raw p) MemPoolAttrReleaseThreshold bytes)) in
      ret r.2
  end.

Definition ReservedMemCurrent (p : option MemoryPool) : M (Z * err) := getU64 p MemPoolAttrReservedMemCurrent.
Definition UsedMemCurrent (p : option MemoryPool) : M (Z * err) := getU64 p MemPoolAttrUsedMemCurrent.

Definition AllocFromPool (T : elem) (pool : option MemoryPool) (stream : option Stream) (n : Z) : M (option (Buffer T) * err) :=
  match pool, stream with
  | None, _ => ret (None, Some ErrNilMemPool)
  | _, None => ret (None, Some ErrNilStream)
  | Some pool, Some st =>
      if n <=? 0 then ret (None, Some ErrInvalidLength)
      else
        let es := elemSize T in
        if MaxUint64 / es <? uint64 n then ret (None, Some ErrInvalidLength)
        else
          let bytes := uint64 (uint64 n * es) in
          opened (sm_id st) (None, Some ErrStreamClosed) (
            if negb (same_ctx (sm_ctx st) (mp_ctx pool)) then ret (None, Some ErrContextMismatch)
            else
              let! r := doWait (mp_ctx pool) Background 0
                (cudaresult.MemAllocFromPoolAsync (ctx_driver (mp_ctx pool)) bytes (mp_raw pool) (sm_raw st)) in
              match r.2 with
              | Some e => ret (None, Some e)
              | None => let! id := new_loc in ret (Some (mkBuffer id (mp_ctx pool) r.1 n bytes), None)
              end)
  end.

(** *** Managed memory (managed.go) *)

Definition AllocManaged (T : elem) (ctx : option Context) (n : Z) : M (option (ManagedBuffer T) * err) :=
  match ctx with
  | None => ret (None, Some ErrNilContext)
  | Some c =>
      if n <=? 0 then ret (None, Some ErrInvalidLength)
      else
        let es := elemSize T in
        if MaxUint64 / es <? uint64 n then ret (None, Some ErrInvalidLength)
        else
          let bytes := uint64 (uint64 n * es) in
          let! r := do_ ctx Background 0 (cudaresult.MemAllocManaged (cx_driver c) bytes memAttachGlobal) in
          match r.2 with
          | Some e => ret (None, Some e)
          | None => let! id := new_loc in ret (Some (mkManagedBuffer id ctx r.1 r.1 n bytes), None)
          end
  end.

(** [Slice]: nil for a nil or closed buffer, or one without host memory. *)
Definition ManagedBuffer_Slice {T} (m : option (ManagedBuffer T)) : M (option slice) :=
  match m with
  | None => ret None
  | Some m =>
      if mb_host m =? 0 then ret None
      else opened (mb_id m) None (ret (Some (mkSlice (mb_host m) (mb_length m))))
  end.

Definition prefetch {T} (m : option (ManagedBuffer T)) (ctx : gctx) (stream : option Stream) (toHost : bool) : M err :=
  match m, stream with
  | None, _ => ret (Some ErrNilBuffer)
  | _, None => ret (Some ErrNilStream)
  | Some m, Some st =>
      opened (sm_id st) (Some ErrStreamClosed) (
        opened (mb_id m) (Some ErrBufferClosed) (
          if negb (same_ctx (sm_ctx st) (mb_ctx m)) then ret (Some ErrContextMismatch)
          else
            let! c := deref (mb_ctx m) in
            let! h := device_handle c in
            let dst := if toHost then deviceCPU else h in
            let! r := doWait (mb_ctx m) ctx tt
              (closure (cudaresult.MemPrefetchAsync (cx_driver c) (mb_ptr m) (mb_bytes m) dst (sm_raw st))) in
            ret r.2))
  end.

Definition PrefetchToDevice {T} (m : option (ManagedBuffer T)) (ctx : gctx) (stream : option Stream) : M err :=
  prefetch m ctx stream false.
Definition PrefetchToHost {T} (m : option (ManagedBuffer T)) (ctx : gctx) (stream : option Stream) : M err :=
  prefetch m ctx stream true.

Definition Advise {T} (m : option (ManagedBuffer T)) (advice : Z) : M err :=
  match m with
  | None => ret (Some ErrNilBuffer)
  | Some m =>
      opened (mb_id m) (Some ErrBufferClosed) (
        let! c := deref (mb_ctx m) in
        let! h := device_handle c in
        let! r := do_ (mb_ctx m) Background tt
          (closure (cudaresult.MemAdvise (cx_driver c) (mb_ptr m) (mb_bytes m) (int32 advice) h)) in
        ret r.2)
  end.

Definition ManagedBuffer_Close {T} (m : option (ManagedBuffer T)) : M err :=
  match m with
  | None => ret (Some ErrNilBuffer)
  | Some m =>
      close_resource (mb_id m) (
        let! r := doBarrier (mb_ctx m) Background tt (closure (cudaresult.MemFree (ctx_driver (mb_ctx m)) (mb_ptr m))) in
        ret r.2)
  end.

End VmmDefs.
