(* ===== verification/Graphs.v ===== *)
(** * Graphs, interprocess handles and peers (package cuda: graph.go, ipc.go, peer.go) *)

From S2P Require Import Prelude CudaSys Errors Runtime CudaResult ExecutorApi Context Dispatch Resource Handles Buffer Streams.

Definition CaptureModeGlobal : Z := 0.
Definition CaptureModeThreadLocal : Z := 1.
Definition CaptureModeRelaxed : Z := 2.

Record Graph := mkGraph { gr_id : loc; gr_ctx : option Context; gr_raw : Z }.
Record GraphExec := mkGraphExec { ge_id : loc; ge_ctx : option Context; ge_raw : Z }.

(** The 64 bytes of a handle. *)
Record IPCMemHandle := mkIPCMemHandle { im_h : list Z }.
Record IPCEventHandle := mkIPCEventHandle { ie_h : list Z }.

Definition IPCMemHandle_Bytes (h : IPCMemHandle) : list Z := im_h h.
Definition IPCMemHandleFromBytes (b : list Z) : IPCMemHandle := mkIPCMemHandle b.
Definition IPCEventHandle_Bytes (h : IPCEventHandle) : list Z := ie_h h.
Definition IPCEventHandleFromBytes (b : list Z) : IPCEventHandle := mkIPCEventHandle b.

Record IPCBuffer (T : elem) := mkIPCBuffer {
  ib_id : loc; ib_ctx : option Context; ib_ptr : Z; ib_length : Z; ib_bytes : Z
}.
Arguments mkIPCBuffer {T} _ _ _ _ _.
Arguments ib_id {T} _.
Arguments ib_ctx {T} _.
Arguments ib_ptr {T} _.
Arguments ib_length {T} _.
Arguments ib_bytes {T} _.

Definition IpcMemLazyEnablePeerAccess : Z := 1.
Definition pointerAttributeMemoryType : Z := 2.

Section GraphDefs.
Context `{Foreign}.

(** *** Graphs (graph.go) *)

Definition BeginCapture (s : option Stream) (mode : Z) : M err :=
  match s with
  | None => ret (Some ErrNilStream)
  | Some s =>
      opened (sm_id s) (Some ErrStreamClosed) (
        let! r := doWait (sm_ctx s) Background tt
          (closure (cudaresult.StreamBeginCapture (ctx_driver (sm_ctx s)) (sm_raw s) (uint32 mode))) in
        ret r.2)
  end.

Definition EndCapture (s : option Stream) : M (option Graph * err) :=
  match s with
  | None => ret (None, Some ErrNilStream)
  | Some s =>
      opened (sm_id s) (None, Some ErrStreamClosed) (
        let! r := doWait (sm_ctx s) Background 0 (cudaresult.StreamEndCapture (ctx_driver (sm_ctx s)) (sm_raw s)) in
        match r.2 with
        | Some e => ret (None, Some e)
        | None => let! id := new_loc in ret (Some (mkGraph id (sm_ctx s) r.1), None)
        end)
  end.

Definition Instantiate (g : option Graph) : M (option GraphExec * err) :=
  match g with
  | None => ret (None, Some ErrNilGraph)
  | Some g =>
      opened (gr_id g) (None, Some ErrGraphClosed) (
        let! r := doWait (gr_ctx g) Background 0 (cudaresult.GraphInstantiate (ctx_driver (gr_ctx g)) (gr_raw g) 0) in
        match r.2 with
        | Some e => ret (None, Some e)
        | None => let! id := new_loc in ret (Some (mkGraphExec id (gr_ctx g) r.1), None)
        end)
  end.

Definition Graph_Close (g : option Graph) : M err :=
  match g with
  | None => ret (Some ErrNilGraph)
  | Some g =>
      close_resource (gr_id g) (
        let! r := doBarrier (gr_ctx g) Background tt (closure (cudaresult.GraphDestroy (ctx_driver (gr_ctx g)) (gr_raw g))) in
        ret r.2)
  end.

Definition GraphExec_Launch (e : option GraphExec) (ctx : gctx) (stream : option Stream) : M err :=
  match e, stream with
  | None, _ => ret (Some ErrNilGraphExec)
  | _, None => ret (Some ErrNilStream)
  | Some e, Some st =>
      opened (sm_id st) (Some ErrStreamClosed) (
        opened (ge_id e) (Some ErrGraphExecClosed) (
          if negb (same_ctx (sm_ctx st) (ge_ctx e)) then ret (Some ErrContextMismatch)
          else graphLaunch (ge_ctx e) ctx (ge_raw e) (sm_raw st)))
  end.

(** The executable is locked for writing, the graph for reading. *)
Definition GraphExec_Update (e : option GraphExec) (graph : option Graph) : M err :=
  match e, graph with
  | None, _ => ret (Some ErrNilGraphExec)
  | _, None => ret (Some ErrNilGraph)
  | Some e, Some graph =>
      with_Lock (ge_id e, OpMu) (
        let! c := is_closed (ge_id e) in
        if c then ret (Some ErrGraphExecClosed)
        else
          opened (gr_id graph) (Some ErrGraphClosed) (
            if negb (same_ctx (gr_ctx graph) (ge_ctx e)) then ret (Some ErrContextMismatch)
            else
              let! r := doWait (ge_ctx e) Background tt
                (closure (cudaresult.GraphExecUpdate (ctx_driver (ge_ctx e)) (ge_raw e) (gr_raw graph))) in
              ret r.2))
  end.

Definition GraphExec_Close (e : option GraphExec) : M err :=
  match e with
  | None => ret (Some ErrNilGraphExec)
  | Some e =>
      close_resource (ge_id e) (
        let! r := doBarrier (ge_ctx e) Background tt (closure (cudaresult.GraphExecDestroy (ctx_driver (ge_ctx e)) (ge_raw e))) in
        ret r.2)
  end.

(** *** Interprocess handles (ipc.go) *)

Definition Buffer_IPCHandle {T} (b : option (Buffer T)) : M (IPCMemHandle * err) :=
  match b with
  | None => ret (mkIPCMemHandle zeroIpcHandle, Some ErrNilBuffer)
  | Some b =>
      opened (bf_id b) (mkIPCMemHandle zeroIpcHandle, Some ErrBufferClosed) (
        let! r := doWait (bf_ctx b) Background zeroIpcHandle (cudaresult.IpcGetMemHandle (ctx_driver (bf_ctx b)) (bf_ptr b)) in
        match r.2 with
        | Some e => ret (mkIPCMemHandle zeroIpcHandle, Some e)
        | None => ret (mkIPCMemHandle r.1, None)
        end)
  end.

Definition OpenIPCBuffer (T : elem) (ctx : option Context) (h : IPCMemHandle) (n : Z) : M (option (IPCBuffer T) * err) :=
  match ctx with
  | None => ret (None, Some ErrNilContext)
  | Some c =>
      if n <=? 0 then ret (None, Some ErrInvalidLength)
      else
        let es := elemSize T in
        if MaxUint64 / es <? uint64 n then ret (None, Some ErrInvalidLength)
        else
          let! r := do_ ctx Background 0 (cudaresult.IpcOpenMemHandle (cx_driver c) (im_h h) IpcMemLazyEnablePeerAccess) in
          match r.2 with
          | Some e => ret (None, Some e)
          | None => let! id := new_loc in ret (Some (mkIPCBuffer id ctx r.1 n (uint64 (uint64 n * es))), None)
          end
  end.

Definition IPCBuffer_CopyFrom {T} (b : option (IPCBuffer T)) (ctx : gctx) (src : slice) : M err :=
  match b with
  | None => ret (Some ErrNilBuffer)
  | Some b =>
      opened (ib_id b) (Some ErrBufferClosed) (
        if (sl_len src =? 0) || negb (sl_len src =? ib_length b) then ret (Some ErrLengthMismatch)
        else
          let! srcPtr := first_elem src in
          memcpyHtoD (ib_ctx b) ctx (ib_ptr b) srcPtr (ib_bytes b))
  end.

Definition IPCBuffer_CopyTo {T} (b : option (IPCBuffer T)) (ctx : gctx) (dst : slice) : M err :=
  match b with
  | None => ret (Some ErrNilBuffer)
  | Some b =>
      opened (ib_id b) (Some ErrBufferClosed) (
        if (sl_len dst =? 0) || negb (sl_len dst =? ib_length b) then ret (Some ErrLengthMismatch)
        else
          let! dstPtr := first_elem dst in
          memcpyDtoH (ib_ctx b) ctx dstPtr (ib_ptr b) (ib_bytes b))
  end.

Definition IPCBuffer_Close {T} (b : option (IPCBuffer T)) : M err :=
  match b with
  | None => ret (Some ErrNilBuffer)
  | Some b =>
      close_resource (ib_id b) (
        let! r := doBarrier (ib_ctx b) Background tt (closure (cudaresult.IpcCloseMemHandle (ctx_driver (ib_ctx b)) (ib_ptr b))) in
        ret r.2)
  end.

Definition Event_IPCHandle (e : option Event) : M (IPCEventHandle * err) :=
  match e with
  | None => ret (mkIPCEventHandle zeroIpcHandle, Some ErrNilEvent)
  | Some e =>
      opened (ev_id e) (mkIPCEventHandle zeroIpcHandle, Some ErrEventClosed) (
        if negb (ev_interprocess e) then ret (mkIPCEventHandle zeroIpcHandle, Some ErrEventNotInterprocess)
        else
          let! r := doWait (ev_ctx e) Background zeroIpcHandle (cudaresult.IpcGetEventHandle (ctx_driver (ev_ctx e)) (ev_raw e)) in
          match r.2 with
          | Some er => ret (mkIPCEventHandle zeroIpcHandle, Some er)
          | None => ret (mkIPCEventHandle r.1, None)
          end)
  end.

Definition OpenIPCEvent (ctx : option Context) (h : IPCEventHandle) : M (option Event * err) :=
  match ctx with
  | None => ret (None, Some ErrNilContext)
  | Some c =>
      let! r := do_ ctx Background 0 (cudaresult.IpcOpenEventHandle (cx_driver c) (ie_h h)) in
      match r.2 with
      | Some e => ret (None, Some e)
      | None => let! id := new_loc in ret (Some (mkEvent id ctx r.1 true true), None)
      end
  end.

(** *** Peers (peer.go); [Device.CanAccessPeer] is in Loader.v *)

Definition EnablePeerAccess (c peer : option Context) : M err :=
  match c, peer with
  | Some x, Some p =>
      opened (cx_id p) (Some ErrContextClosed) (
        let! r := do_ c Background tt (closure (cudaresult.CtxEnablePeerAccess (cx_driver x) (cx_raw p))) in
        ret r.2)
  | _, _ => ret (Some ErrNilContext)
  end.

Definition DisablePeerAccess (c peer : option Context) : M err :=
  match c, peer with
  | Some x, Some p =>
      opened (cx_id p) (Some ErrContextClosed) (
        let! r := do_ c Background tt (closure (cudaresult.CtxDisablePeerAccess (cx_driver x) (cx_raw p))) in
        ret r.2)
  | _, _ => ret (Some ErrNilContext)
  end.

Definition PointerMemoryType (c : option Context) (ptr : Z) : M (Z * err) :=
  match c with
  | None => ret (0, Some ErrNilContext)
  | Some x =>
      let! r := do_ c Background 0 (cudaresult.PointerGetAttribute (cx_driver x) pointerAttributeMemoryType ptr) in
      match r.2 with
      | Some e => ret (0, Some e)
      | None => ret (r.1, None)
      end
  end.

Definition Buffer_CopyToPeer {T} (b : option (Buffer T)) (ctx : gctx) (dst : option (Buffer T)) : M err :=
  match b, dst with
  | Some b, Some dst =>
      opened (bf_id b) (Some ErrBufferClosed) (
        opened_other b dst (
          if negb (bf_length dst =? bf_length b) then ret (Some ErrLengthMismatch)
          else
            let! dctx := deref (bf_ctx dst) in
            let! sctx := deref (bf_ctx b) in
            let! r := doCopyWait (bf_ctx b) ctx tt (closure
              (cudaresult.MemcpyPeer (cx_driver sctx) (bf_ptr dst) (cx_raw dctx) (bf_ptr b) (cx_raw sctx) (bf_bytes b))) in
            ret r.2))
  | _, _ => ret (Some ErrNilBuffer)
  end.

End GraphDefs.
