(* ===== verification/Launch.v ===== *)
(** * Kernel launches (package cuda: launch.go, coop.go, the rest of occupancy.go, the kernel arguments of texture.go and surface.go)

    A launch locks, in the order of its arguments, every resource it is given for the time of the submission, packs the
    arguments with package argpack and hands the driver an array of pointers to them. *)

From S2P Require Import Prelude CudaSys Errors Runtime CudaResult ExecutorApi Context Dispatch Resource Handles Buffer Modules Regions ArgPack Loader.

(** ** Launch shapes *)

Definition zeroConfig : LaunchConfig := mkLaunchConfig 0 0 0 0 0 0 0.

(** [LaunchConfig1D]; [n] and [blockSize] are Go ints. *)
Definition LaunchConfig1D (n blockSize : Z) : LaunchConfig :=
  if (n <=? 0) || (blockSize <=? 0) || (MaxUint32 <? uint64 blockSize) then zeroConfig
  else
    let grid := uint64 (uint64 (uint64 n + uint64 blockSize) - 1) / uint64 blockSize in
    if (grid =? 0) || (MaxUint32 <? grid) then zeroConfig
    else mkLaunchConfig (uint32 grid) 1 1 (uint32 blockSize) 1 1 0.

Definition valid (cfg : LaunchConfig) : bool :=
  (0 <? GridX cfg) && (0 <? GridY cfg) && (0 <? GridZ cfg) && (0 <? BlockX cfg) && (0 <? BlockY cfg) && (0 <? BlockZ cfg).

(** ** Arguments

    A value is given by the identity of its Go type and its bytes; the handle types have fixed identities. *)

Definition type_CUdeviceptr : nat := 0.
Definition type_CUtexObject : nat := 1.
Definition type_CUsurfObject : nat := 2.

(** The 8 bytes of a handle. *)
Definition handle_bytes (h : Z) : list Z := map (fun i => Z.land (Z.shiftr h (8 * Z.of_nat i)) 255) (seq 0 8).

(** [ArgRaw]: the memory at the pointer, if it is not nil, and the size. *)
Inductive KernelArg :=
| Arg (T : elem) (b : option (Buffer T))
| ArgValue (T : elem) (typ : nat) (v : list Z)
| ArgDevicePtr (ptr : Z)
| ArgRaw (value : option (list Z)) (size : Z)
| ArgTexture (t : option Texture)
| ArgSurface (s : option Surface).

Definition maxRawArgBytes : Z := 4096.
Definition inlineLockCount : nat := 16.

(** [kernelArgBuilder]: a lock is the identity of its object; [inlineLocks] are the slots in use of the array. *)
Record kernelArgBuilder := mkBuilder_ {
  kb_ctx : option Context;
  kb_packed : argpack.Builder;
  inlineLocks : list loc;
  lockCount : nat;
  overflowLocks : list loc;
  kb_snapshot : bool
}.

(** [newLaunchArgState]: the pool hands out some reset builder. *)
Definition newLaunchArgState (pooled : argpack.Builder) (ctx : option Context) : kernelArgBuilder :=
  mkBuilder_ ctx pooled [] 0 [] false.

Definition set_packed (p : argpack.Builder) (b : kernelArgBuilder) : kernelArgBuilder :=
  mkBuilder_ (kb_ctx b) p (inlineLocks b) (lockCount b) (overflowLocks b) (kb_snapshot b).

Definition addLock (l : loc) (b : kernelArgBuilder) : kernelArgBuilder :=
  if (lockCount b <? inlineLockCount)%nat then
    mkBuilder_ (kb_ctx b) (kb_packed b) (inlineLocks b ++ [l]) (S (lockCount b)) (overflowLocks b) (kb_snapshot b)
  else mkBuilder_ (kb_ctx b) (kb_packed b) (inlineLocks b) (S (lockCount b)) (overflowLocks b ++ [l]) (kb_snapshot b).

(** [holdsLock]: both loops. *)
Definition holdsLock (l : loc) (b : kernelArgBuilder) : bool :=
  existsb (fun k => bool_decide (k = l)) (take (lockCount b) (inlineLocks b)) ||
  existsb (fun k => bool_decide (k = l)) (overflowLocks b).

Section LaunchDefs.
Context `{Foreign}.

(** [release] from index [i - 1] down to 0. *)
Fixpoint release_from (b : kernelArgBuilder) (i : nat) : M unit :=
  match i with
  | O => ret tt
  | S i =>
      let! l := deref (if (i <? inlineLockCount)%nat then inlineLocks b !! i else overflowLocks b !! (i - inlineLockCount)%nat) in
      RUnlock (l, OpMu) ;!
      release_from b i
  end.

Definition release (b : kernelArgBuilder) : M unit := release_from b (lockCount b).

(** [if !held (mu.RUnlock())]. *)
Definition unless (held : bool) (m : M unit) : M unit := if held then ret tt else m.

(** The common body of [appendKernelArg] for the objects that have a lock: lock unless held, test the flag and the context, keep
    the lock unless this is a snapshot, pack the handle. *)
Definition append_object (l : loc) (octx : option Context) (closedErr : error) (typ : nat) (handle : Z) (b : kernelArgBuilder) :
    M (kernelArgBuilder * err) :=
  let held := holdsLock l b in
  unless held (RLock (l, OpMu)) ;!
  let! closed := is_closed l in
  if closed then unless held (RUnlock (l, OpMu)) ;! ret (b, Some closedErr)
  else if negb (bool_decide (kb_ctx b = None)) && negb (same_ctx octx (kb_ctx b)) then
    unless held (RUnlock (l, OpMu)) ;! ret (b, Some ErrContextMismatch)
  else
    let! b := (if kb_snapshot b then unless held (RUnlock (l, OpMu)) ;! ret b
               else ret (if held then b else addLock l b)) in
    ret (set_packed (argpack.Add (kb_packed b) typ (handle_bytes handle)) b, None).

Definition bufferKernelArg_append {T} (x : option (Buffer T)) (b : kernelArgBuilder) : M (kernelArgBuilder * err) :=
  match x with
  | None => ret (b, Some ErrNilBuffer)
  | Some x => append_object (bf_id x) (bf_ctx x) ErrBufferClosed type_CUdeviceptr (bf_ptr x) b
  end.

Definition valueKernelArg_append (typ : nat) (v : list Z) (b : kernelArgBuilder) : M (kernelArgBuilder * err) :=
  ret (set_packed (argpack.Add (kb_packed b) typ v) b, None).

Definition addDevicePtr (ptr : Z) (b : kernelArgBuilder) : kernelArgBuilder :=
  set_packed (argpack.Add (kb_packed b) type_CUdeviceptr (handle_bytes ptr)) b.

Definition rawKernelArg_append (value : option (list Z)) (size : Z) (b : kernelArgBuilder) : M (kernelArgBuilder * err) :=
  match value with
  | None => ret (b, Some ErrNilKernelArg)
  | Some mem =>
      if (size <=? 0) || (maxRawArgBytes <? size) then ret (b, Some ErrInvalidArgSize)
      else ret (set_packed (argpack.AddBytes (kb_packed b) (take (Z.to_nat size) mem)) b, None)
  end.

Definition textureKernelArg_append (x : option Texture) (b : kernelArgBuilder) : M (kernelArgBuilder * err) :=
  match x with
  | None => ret (b, Some ErrNilTexture)
  | Some t => append_object (tx_id t) (tx_ctx t) ErrTextureClosed type_CUtexObject (tx_handle t) b
  end.

Definition surfaceKernelArg_append (x : option Surface) (b : kernelArgBuilder) : M (kernelArgBuilder * err) :=
  match x with
  | None => ret (b, Some ErrNilSurface)
  | Some s => append_object (sf_id s) (sf_ctx s) ErrSurfaceClosed type_CUsurfObject (sf_handle s) b
  end.

(** The method of the interface. *)
Definition appendKernelArg (a : KernelArg) (b : kernelArgBuilder) : M (kernelArgBuilder * err) :=
  match a with
  | Arg T x => bufferKernelArg_append x b
  | ArgValue T typ v => valueKernelArg_append typ v b
  | ArgDevicePtr ptr => ret (addDevicePtr ptr b, None)
  | ArgRaw value size => rawKernelArg_append value size b
  | ArgTexture t => textureKernelArg_append t b
  | ArgSurface s => surfaceKernelArg_append s b
  end.

(** The loop of [launch] and [Pack] over the arguments; a nil interface is None. *)
Fixpoint append_args (args : list (option KernelArg)) (b : kernelArgBuilder) : M (kernelArgBuilder * err) :=
  match args with
  | [] => ret (b, None)
  | None :: _ => ret (b, Some ErrNilKernelArg)
  | Some a :: args =>
      let! r := appendKernelArg a b in
      match r.2 with
      | Some e => ret (r.1, Some e)
      | None => append_args args r.1
      end
  end.

(** What the driver reads through the pointers of [Params]: of each argument its size in bytes. *)
Definition driver_view (r : argpack.Builder * option (list (option argpack.pointer))) : kernel_params :=
  ps ← r.2;
  Some (map (fun i => default [] (q ← ps !! i; p ← q;
               argpack.read_ptr r.1 p (Z.to_nat (argpack.am_size (argpack.meta r.1 i))))) (seq 0 (argpack.count r.1))).

(** [launch]; the result carries the builder that goes back to the pool. *)
Definition launch (pooled : argpack.Builder) (f : option Function_) (ctx : gctx) (rawStream : Z) (streamCtx : option Context)
    (cfg : LaunchConfig) (cooperative : bool) (args : list (option KernelArg)) : M (err * argpack.Builder) :=
  match f with
  | None => ret (Some ErrNilFunction, pooled)
  | Some f =>
      if negb (valid cfg) then ret (Some ErrInvalidLaunchConfig, pooled)
      else
        match fn_module f with
        | None => ret (Some ErrNilModule, pooled)
        | Some m =>
            if negb (bool_decide (streamCtx = None)) && negb (same_ctx streamCtx (md_ctx m)) then ret (Some ErrContextMismatch, pooled)
            else
              opened (md_id m) (Some ErrModuleClosed, pooled) (
                let! r := append_args args (newLaunchArgState pooled (md_ctx m)) in
                let b := r.1 in
                defer (release b) (
                  match r.2 with
                  | Some e => ret (Some e, argpack.Reset (kb_packed b))
                  | None =>
                      let p := argpack.Params (kb_packed b) in
                      let! e := launchKernel (md_ctx m) ctx (fn_raw f) cfg rawStream (driver_view p) cooperative in
                      ret (e, argpack.Reset p.1)
                  end))
        end
  end.

Definition defaultStream : Z := 0.

Definition Launch (pooled : argpack.Builder) (f : option Function_) (ctx : gctx) (cfg : LaunchConfig) (args : list (option KernelArg)) :
    M (err * argpack.Builder) :=
  launch pooled f ctx defaultStream None cfg false args.

(** The common body of [LaunchOn] and [LaunchCooperativeOn]. *)
Definition launchOn (pooled : argpack.Builder) (f : option Function_) (ctx : gctx) (stream : option Stream) (cfg : LaunchConfig)
    (cooperative : bool) (args : list (option KernelArg)) : M (err * argpack.Builder) :=
  match f, stream with
  | None, _ => ret (Some ErrNilFunction, pooled)
  | _, None => ret (Some ErrNilStream, pooled)
  | _, Some st =>
      opened (sm_id st) (Some ErrStreamClosed, pooled) (launch pooled f ctx (sm_raw st) (sm_ctx st) cfg cooperative args)
  end.

Definition LaunchOn pooled f ctx stream cfg args := launchOn pooled f ctx stream cfg false args.
Definition LaunchCooperative pooled f ctx cfg args := launch pooled f ctx defaultStream None cfg true args.
Definition LaunchCooperativeOn pooled f ctx stream cfg args := launchOn pooled f ctx stream cfg true args.

(** ** Packed arguments

    [PackedArgs] is its builder; its operations return it updated. *)

Definition PackedArgs : Type := argpack.Builder.

Definition Pack (args : list (option KernelArg)) : M (option PackedArgs * err) :=
  let! r := append_args args (mkBuilder_ None argpack.zeroBuilder [] 0 [] true) in
  match r.2 with
  | Some e => ret (None, Some e)
  | None => ret (Some (argpack.Params (kb_packed r.1)).1, None)
  end.

Definition PackedArgs_Len (p : option PackedArgs) : nat := match p with None => 0 | Some p => argpack.Len p end.

Definition SetPacked (p : option PackedArgs) (i : Z) (typ : nat) (v : list Z) : option PackedArgs * err :=
  match p with
  | None => (None, Some ErrNilKernelArg)
  | Some p => let '(p, e) := argpack.Set_ p i typ v in (Some p, e)
  end.

Definition SetPackedBuffer {T} (p : option PackedArgs) (i : Z) (b : option (Buffer T)) : M (option PackedArgs * err) :=
  match p, b with
  | None, _ => ret (None, Some ErrNilKernelArg)
  | _, None => ret (p, Some ErrNilBuffer)
  | Some p, Some b =>
      RLock (bf_id b, OpMu) ;!
      let! c := is_closed (bf_id b) in
      if c then RUnlock (bf_id b, OpMu) ;! ret (Some p, Some ErrBufferClosed)
      else
        RUnlock (bf_id b, OpMu) ;!
        let '(p, e) := argpack.Set_ p i type_CUdeviceptr (handle_bytes (bf_ptr b)) in ret (Some p, e)
  end.

Definition SetDevicePtr (p : option PackedArgs) (i ptr : Z) : option PackedArgs * err :=
  match p with
  | None => (None, Some ErrNilKernelArg)
  | Some p => let '(p, e) := argpack.Set_ p i type_CUdeviceptr (handle_bytes ptr) in (Some p, e)
  end.

Definition SetRaw (p : option PackedArgs) (i : Z) (value : option (list Z)) (size : Z) : option PackedArgs * err :=
  match p, value with
  | Some p, Some mem =>
      if (size <=? 0) || (maxRawArgBytes <? size) then (Some p, Some ErrInvalidArgSize)
      else let '(p, e) := argpack.SetBytes p i (take (Z.to_nat size) mem) in (Some p, e)
  | _, _ => (p, Some ErrNilKernelArg)
  end.

(** The result carries the arguments with their pointer array built. *)
Definition launchPacked (f : option Function_) (ctx : gctx) (rawStream : Z) (streamCtx : option Context) (cfg : LaunchConfig)
    (p : option PackedArgs) : M (err * option PackedArgs) :=
  match f, p with
  | None, _ => ret (Some ErrNilFunction, p)
  | _, None => ret (Some ErrNilKernelArg, p)
  | Some f, Some b =>
      if negb (valid cfg) then ret (Some ErrInvalidLaunchConfig, p)
      else
        match fn_module f with
        | None => ret (Some ErrNilModule, p)
        | Some m =>
            if negb (bool_decide (streamCtx = None)) && negb (same_ctx streamCtx (md_ctx m)) then ret (Some ErrContextMismatch, p)
            else
              opened (md_id m) (Some ErrModuleClosed, p) (
                let r := argpack.Params b in
                let! e := launchKernel (md_ctx m) ctx (fn_raw f) cfg rawStream (driver_view r) false in
                ret (e, Some r.1))
        end
  end.

Definition LaunchPacked (f : option Function_) (ctx : gctx) (cfg : LaunchConfig) (p : option PackedArgs) : M (err * option PackedArgs) :=
  launchPacked f ctx defaultStream None cfg p.

Definition LaunchPackedOn (f : option Function_) (ctx : gctx) (stream : option Stream) (cfg : LaunchConfig) (p : option PackedArgs) :
    M (err * option PackedArgs) :=
  match f, stream with
  | None, _ => ret (Some ErrNilFunction, p)
  | _, None => ret (Some ErrNilStream, p)
  | _, Some st => opened (sm_id st) (Some ErrStreamClosed, p) (launchPacked f ctx (sm_raw st) (sm_ctx st) cfg p)
  end.

(** ** Suggested and cooperative shapes *)

Definition set_shared (bytes : Z) (cfg : LaunchConfig) : LaunchConfig :=
  mkLaunchConfig (GridX cfg) (GridY cfg) (GridZ cfg) (BlockX cfg) (BlockY cfg) (BlockZ cfg) bytes.

Definition SuggestedConfig1D (f : option Function_) (n dynamicSharedMem : Z) : M (LaunchConfig * err) :=
  if n <=? 0 then ret (zeroConfig, Some ErrInvalidLaunchConfig)
  else
    let! r := SuggestedBlockSize f dynamicSharedMem 0 in
    let blockSize := r.1.2 in
    match r.2 with
    | Some e => ret (zeroConfig, Some e)
    | None =>
        if blockSize <=? 0 then ret (zeroConfig, Some ErrInvalidLaunchConfig)
        else
          let cfg := LaunchConfig1D n blockSize in
          if negb (valid cfg) then ret (zeroConfig, Some ErrInvalidLaunchConfig)
          else ret (set_shared (uint32 dynamicSharedMem) cfg, None)
    end.

Definition DeviceAttributeMultiprocessorCount : Z := 16.

(** The module of [f] is read again after its lock was released. *)
Definition MaxCooperativeGridBlocks (f : option Function_) (blockSize dynamicSharedMem : Z) : M (Z * err) :=
  let! r := MaxActiveBlocksPerSM f blockSize dynamicSharedMem in
  let perSM := r.1 in
  match r.2 with
  | Some e => ret (0, Some e)
  | None =>
      let! f := deref f in
      let! m := deref (fn_module f) in
      let! r := Loader.Device_Attribute (Context_Device (md_ctx m)) DeviceAttributeMultiprocessorCount in
      match r.2 with
      | Some e => ret (0, Some e)
      | None => ret (int64 (perSM * r.1), None)
      end
  end.

End LaunchDefs.
