(* ===== verification/LaunchProps.v ===== *)
(** * Properties of launches

    What a launch holds while it talks to the driver, and what it hands over. *)

From S2P Require Import Prelude CudaSys Errors Runtime CudaResult ExecutorApi Context Dispatch Resource Handles Buffer Modules Regions ArgPack Loader Launch.

(** ** The launch shape *)

(** C22.  [LaunchConfig1D] covers [n] elements tightly: for Go ints it returns either the zero configuration, which [Launch] rejects, or a valid
    one-dimensional configuration whose fields fit 32 bits, with enough threads for every element and less than one block to spare - and it gives one exactly
    when both arguments are positive, the block size fits 32 bits and so does the number of blocks. *)
Theorem LaunchConfig1D_covers (n blockSize : Z) :
  is_int n -> is_int blockSize ->
  let cfg := LaunchConfig1D n blockSize in
  (valid cfg = false <-> n <= 0 \/ blockSize <= 0 \/ MaxUint32 < blockSize \/ MaxUint32 * blockSize < n) /\
  (valid cfg = false -> cfg = zeroConfig) /\
  (valid cfg = true ->
     cfg = mkLaunchConfig (GridX cfg) 1 1 blockSize 1 1 0 /\ 0 < GridX cfg <= MaxUint32 /\
     (GridX cfg - 1) * blockSize < n <= GridX cfg * blockSize).
Proof.
  intros Hn Hb cfg. subst cfg. unfold LaunchConfig1D, is_int in *.
  assert (Hrej : n <= 0 \/ blockSize <= 0 \/ MaxUint32 < blockSize \/ MaxUint32 * blockSize < n ->
    let cfg := zeroConfig in
    (valid cfg = false <-> n <= 0 \/ blockSize <= 0 \/ MaxUint32 < blockSize \/ MaxUint32 * blockSize < n) /\
    (valid cfg = false -> cfg = zeroConfig) /\
    (valid cfg = true ->
       cfg = mkLaunchConfig (GridX cfg) 1 1 blockSize 1 1 0 /\ 0 < GridX cfg <= MaxUint32 /\
       (GridX cfg - 1) * blockSize < n <= GridX cfg * blockSize)).
  { intros Hc cfg. split; [now split|]. split; [done|]. intros Hv. discriminate. }
  cbv zeta in Hrej |- *.
  destruct (Z.leb_spec n 0) as [H1|H1]; [now apply Hrej; left|].
  destruct (Z.leb_spec blockSize 0) as [H2|H2]; [now apply Hrej; right; left|].
  rewrite (uint64_id n), (uint64_id blockSize) by (unfold is_uint64; lia). cbn [orb].
  destruct (Z.ltb_spec MaxUint32 blockSize) as [H3|H3]; [now apply Hrej; right; right; left|].
  rewrite (uint64_id (n + blockSize)) by (unfold is_uint64, MaxUint32 in *; lia).
  rewrite (uint64_id (n + blockSize - 1)) by (unfold is_uint64, MaxUint32 in *; lia).
  set (g := (n + blockSize - 1) / blockSize).
  assert (Hg : (g - 1) * blockSize < n <= g * blockSize) by (subst g; Z.div_mod_to_equations; nia).
  assert (Hg0 : 0 < g) by nia.
  destruct (Z.eqb_spec g 0); [lia|]. cbn [orb].
  destruct (Z.ltb_spec MaxUint32 g) as [H4|H4]; [apply Hrej; right; right; right; unfold MaxUint32 in *; nia|].
  rewrite !uint32_id by (unfold is_uint32, MaxUint32 in *; lia).
  assert (Hv : valid (mkLaunchConfig g 1 1 blockSize 1 1 0) = true).
  { unfold valid. cbn. now rewrite !(proj2 (Z.ltb_lt _ _)) by lia. }
  rewrite Hv. split; [split; [done|]|].
  - intros [?|[?|[?|?]]]; try lia. unfold MaxUint32 in *. nia.
  - split; [done|]. intros _. cbn. split_and!; [done|lia..].
Qed.

(** ** What the arguments stand for *)

Definition arg_value (a : KernelArg) : list Z * option nat :=
  match a with
  | Arg T b => (handle_bytes (match b with Some b => bf_ptr b | None => 0 end), Some type_CUdeviceptr)
  | ArgValue T typ v => (v, Some typ)
  | ArgDevicePtr ptr => (handle_bytes ptr, Some type_CUdeviceptr)
  | ArgRaw mem size => (take (Z.to_nat size) (default [] mem), None)
  | ArgTexture t => (handle_bytes (match t with Some t => tx_handle t | None => 0 end), Some type_CUtexObject)
  | ArgSurface s => (handle_bytes (match s with Some s => sf_handle s | None => 0 end), Some type_CUsurfObject)
  end.

(** The object an argument locks, with its context. *)
Definition arg_object (a : KernelArg) : option (loc * option Context) :=
  match a with
  | Arg T (Some b) => Some (bf_id b, bf_ctx b)
  | ArgTexture (Some t) => Some (tx_id t, tx_ctx t)
  | ArgSurface (Some s) => Some (sf_id s, sf_ctx s)
  | _ => None
  end.

(** Values have the size of their type, and the memory behind a raw pointer is as long as its size says. *)
Definition arg_wf (a : KernelArg) : Prop :=
  match a with
  | ArgValue T typ v => Z.of_nat (length v) = sizeof T
  | ArgRaw (Some mem) size => 0 < size <= maxRawArgBytes -> size <= Z.of_nat (length mem)
  | _ => True
  end.

Definition values (args : list (option KernelArg)) : list (list Z * option nat) :=
  omap (fun a => arg_value <$> a) args.

(** What the driver is to read: nil without arguments. *)
Definition params_of (args : list (option KernelArg)) : kernel_params :=
  match args with [] => None | _ => Some (map fst (values args)) end.

(** ** The lock list *)

Definition kb_locks (b : kernelArgBuilder) : list loc := inlineLocks b ++ overflowLocks b.

Record kb_ok (b : kernelArgBuilder) : Prop := mkKbOk {
  kb_count : lockCount b = length (kb_locks b);
  kb_inline : (length (inlineLocks b) <= inlineLockCount)%nat;
  kb_overflow : overflowLocks b <> [] -> length (inlineLocks b) = inlineLockCount;
  kb_nodup : NoDup (kb_locks b)
}.

Lemma existsb_in (l : loc) ls : existsb (fun k => bool_decide (k = l)) ls = bool_decide (l ∈ ls).
Proof.
  induction ls as [|k ls IH]; cbn [existsb]; [now rewrite bool_decide_eq_false_2 by apply not_elem_of_nil|].
  rewrite IH. destruct (decide (k = l)) as [->|Hne].
  - rewrite (bool_decide_eq_true_2 (l = l)) by done. symmetry. apply bool_decide_eq_true_2. left.
  - rewrite (bool_decide_eq_false_2 (k = l)) by done. cbn [orb]. apply bool_decide_ext. rewrite elem_of_cons. intuition congruence.
Qed.

Lemma holdsLock_spec l b : kb_ok b -> holdsLock l b = bool_decide (l ∈ kb_locks b).
Proof.
  intros [Hc Hi Ho Hn]. unfold holdsLock. rewrite take_ge by (rewrite Hc; unfold kb_locks; rewrite length_app; lia).
  rewrite !existsb_in. unfold kb_locks. rewrite <- bool_decide_or. apply bool_decide_ext. now rewrite elem_of_app.
Qed.

Lemma addLock_spec l b : kb_ok b -> l ∉ kb_locks b -> kb_ok (addLock l b) /\ kb_locks (addLock l b) = kb_locks b ++ [l].
Proof.
  intros [Hc Hi Ho Hn] Hl. unfold addLock.
  assert (Hd : NoDup (kb_locks b ++ [l])) by (apply NoDup_app; split_and!; [done|set_solver|apply NoDup_singleton]).
  destruct (Nat.ltb_spec (lockCount b) inlineLockCount) as [H16|H16].
  - assert (Hov : overflowLocks b = []).
    { destruct (overflowLocks b) eqn:E; [done|]. exfalso. unfold kb_locks in Hc. rewrite length_app, (Ho ltac:(done)), E in Hc. unfold inlineLockCount in *. cbn in Hc. lia. }
    unfold kb_locks in *. rewrite Hov, app_nil_r in *. cbn [inlineLocks overflowLocks]. rewrite !app_nil_r.
    split; [|done]. split; unfold kb_locks; cbn [inlineLocks overflowLocks lockCount]; rewrite ?app_nil_r, ?length_app in *; cbn; try done; lia.
  - unfold kb_locks in *. cbn [inlineLocks overflowLocks]. rewrite <- app_assoc in Hd |- *.
    split; [|done]. split; unfold kb_locks; cbn [inlineLocks overflowLocks lockCount]; rewrite ?length_app in *; cbn; try done; try lia.
    intros _. destruct (overflowLocks b) eqn:E; [cbn in *; lia|]. now apply Ho.
Qed.

(** The environment with the listed objects read-locked, first to last. *)
Definition locked_env (ls : list loc) (E : Env) : Env := foldl (fun E l => rlocked (l, OpMu) E) E ls.

Lemma locked_env_snoc ls l E : locked_env (ls ++ [l]) E = rlocked (l, OpMu) (locked_env ls E).
Proof. unfold locked_env. now rewrite foldl_app. Qed.

Lemma locked_env_closed ls : forall E, env_closed (locked_env ls E) = env_closed E.
Proof. induction ls as [|l ls IH]; intros E; [done|]. exact (IH (rlocked (l, OpMu) E)). Qed.

Lemma open_locked l ls E : open l (locked_env ls E) <-> open l E.
Proof. unfold open. now rewrite locked_env_closed. Qed.

Lemma live_locked l ls : forall E, live l E -> live l (locked_env ls E).
Proof. induction ls as [|k ls IH]; intros E Hl; [done|]. apply (IH (rlocked (k, OpMu) E)). now apply live_rlocked. Qed.

Lemma locked_live l ls : forall E, l ∈ ls -> open l E -> live l (locked_env ls E).
Proof.
  induction ls as [|k ls IH]; intros E Hl Ho; [now apply not_elem_of_nil in Hl|].
  apply elem_of_cons in Hl as [->|Hl]; [|now apply (IH (rlocked (k, OpMu) E))].
  change (live k (locked_env ls (rlocked (k, OpMu) E))). now apply live_locked, live_opened.
Qed.

Section LaunchProofs.
Context `{Foreign}.

(** The slot [release] reads at step [i] holds the [i]th lock. *)
Lemma release_slot b i : kb_ok b -> (i < lockCount b)%nat -> exists l, kb_locks b !! i = Some l /\
  (if (i <? inlineLockCount)%nat then inlineLocks b !! i else overflowLocks b !! (i - inlineLockCount)%nat) = Some l.
Proof.
  intros [Hc Hin Hov Hn] Hi. destruct (lookup_lt_is_Some_2 (kb_locks b) i) as [l Hl]; [lia|]. exists l. split; [exact Hl|].
  unfold kb_locks in *. destruct (Nat.ltb_spec i inlineLockCount) as [H16|H16].
  - destruct (decide (overflowLocks b = [])) as [E0|E0]; [rewrite E0, app_nil_r in Hl; exact Hl|].
    specialize (Hov E0). now rewrite lookup_app_l in Hl by lia.
  - rewrite length_app in Hc. destruct (decide (overflowLocks b = [])) as [E0|E0]; [rewrite E0 in Hc; cbn in Hc; lia|].
    specialize (Hov E0). rewrite lookup_app_r in Hl by lia. now rewrite <- Hov.
Qed.

Lemma release_from_run b E i : forall s,
  kb_ok b -> (i <= lockCount b)%nat -> st_env s = locked_env (take i (kb_locks b)) E ->
  release_from b i s = (Done tt, set_env E s).
Proof.
  induction i as [|i IH]; intros s Hok Hi Hs; cbn [release_from].
  - rewrite take_0 in Hs. cbn in Hs. unfold ret. f_equal. rewrite <- Hs. now destruct s.
  - destruct (release_slot b i Hok Hi) as (l & Hl & Hslot). rewrite Hslot. unfold deref, bind at 1, ret at 1.
    rewrite (take_S_r _ _ _ Hl), locked_env_snoc in Hs. unfold bind at 1, RUnlock. rewrite Hs at 1.
    unfold rlocked at 1. cbn [env_locks_r]. rewrite lookup_insert_eq, Hs, runlocked_rlocked.
    rewrite (IH _ Hok); [now destruct s|lia|reflexivity].
Qed.

Lemma release_run b E s : kb_ok b -> st_env s = locked_env (kb_locks b) E -> release b s = (Done tt, set_env E s).
Proof.
  intros Hok Hs. apply release_from_run; [done|done|]. rewrite take_ge; [exact Hs|]. rewrite (kb_count b Hok). lia.
Qed.

(** ** Appending *)

(** The builder after the object [l] of context [octx] was accepted. *)
Definition accepted_object (l : loc) (octx : option Context) (b b' : kernelArgBuilder) (E : Env) : Prop :=
  l ∈ kb_locks b' /\ open l E /\ (kb_ctx b <> None -> same_ctx octx (kb_ctx b) = true).

(** A builder that differs from [b] in its locks and packed arguments, its locks being those of [b] and perhaps more. *)
Definition extends (b b' : kernelArgBuilder) : Prop :=
  kb_ok b' /\ kb_ctx b' = kb_ctx b /\ kb_snapshot b' = kb_snapshot b /\ exists new, kb_locks b' = kb_locks b ++ new.

Lemma extends_refl b : kb_ok b -> extends b b.
Proof. intros Hok. split_and!; try done. exists []. now rewrite app_nil_r. Qed.

Lemma extends_packed p b : kb_ok b -> extends b (set_packed p b).
Proof. intros [H1 H2 H3 H4]. split_and!; [now split|done|done|]. exists []. now rewrite app_nil_r. Qed.

Lemma extends_trans b1 b2 b3 : extends b1 b2 -> extends b2 b3 -> extends b1 b3.
Proof.
  intros (_ & Hc & Hs & n1 & H1) (Hok & Hc' & Hs' & n2 & H2). split_and!; [done|congruence|congruence|].
  exists (n1 ++ n2). now rewrite H2, H1, app_assoc.
Qed.

(** What a step over the arguments may do to the state: take the locks of the builder. *)
Definition locks_only (E : Env) (b' : kernelArgBuilder) (s s' : state) : Prop := s' = set_env (locked_env (kb_locks b') E) s.

Lemma append_object_run l octx ce typ h b E s :
  kb_ok b -> kb_snapshot b = false -> st_env s = locked_env (kb_locks b) E ->
  match append_object l octx ce typ h b s with
  | (Done (b', Some e), s') => b' = b /\ s' = s
  | (Done (b', None), s') =>
      extends b b' /\ kb_packed b' = argpack.Add (kb_packed b) typ (handle_bytes h) /\ accepted_object l octx b b' E /\ locks_only E b' s s'
  | (Blocks, s') => s' = s
  | _ => False
  end.
Proof.
  intros Hok Hsn Hs. unfold append_object. rewrite (holdsLock_spec l b Hok), Hsn.
  assert (Hid : set_env (locked_env (kb_locks b) E) s = s) by (rewrite <- Hs; now destruct s).
  destruct (bool_decide (l ∈ kb_locks b)) eqn:Hheld; unfold unless, bind at 1.
  - apply bool_decide_eq_true in Hheld. unfold ret at 1, bind at 1, is_closed, get.
    destruct (bool_decide (l ∈ env_closed (st_env s))) eqn:Hcl; [now unfold bind, ret|].
    apply open_test in Hcl. rewrite Hs, open_locked in Hcl. destruct (_ && _) eqn:Hctx; [now unfold bind, ret|].
    unfold bind, ret. split_and!; [now apply extends_packed|done| |].
    + split_and!; [done|done|]. intros Hne. rewrite bool_decide_eq_false_2 in Hctx by done. cbn in Hctx. now apply negb_false_iff.
    + symmetry. exact Hid.
  - apply bool_decide_eq_false in Hheld. unfold RLock. case_decide as Hw; [done|].
    set (s1 := set_env _ s). assert (Hun : forall e : err, (RUnlock (l, OpMu) ;! ret (b, e)) s1 = (Done (b, e), s)).
    { intros e. unfold bind, RUnlock, ret. subst s1. cbn [st_env set_env]. unfold rlocked at 1. cbn [env_locks_r].
      rewrite lookup_insert_eq, runlocked_rlocked. now destruct s. }
    unfold bind at 1, is_closed, get. change (env_closed (st_env s1)) with (env_closed (st_env s)).
    destruct (bool_decide (l ∈ env_closed (st_env s))) eqn:Hcl; [now rewrite Hun|].
    apply open_test in Hcl. rewrite Hs, open_locked in Hcl. destruct (_ && _) eqn:Hctx; [now rewrite Hun|].
    destruct (addLock_spec l b Hok Hheld) as [Hok' Hl']. unfold bind, ret.
    assert (Hf : kb_ctx (addLock l b) = kb_ctx b /\ kb_snapshot (addLock l b) = kb_snapshot b /\ kb_packed (addLock l b) = kb_packed b)
      by (unfold addLock; now destruct (_ <? _)%nat).
    destruct Hf as (Hf1 & Hf2 & Hf3). split_and!.
    + split_and!; [destruct Hok' as [H1 H2 H3 H4]; now split|done|done|now exists [l]].
    + cbn. now rewrite Hf3.
    + split_and!; [change (l ∈ kb_locks (addLock l b)); rewrite Hl'; set_solver|done|].
      intros Hne. rewrite bool_decide_eq_false_2 in Hctx by done. cbn in Hctx. now apply negb_false_iff.
    + unfold locks_only. change (kb_locks (set_packed _ (addLock l b))) with (kb_locks (addLock l b)). rewrite Hl', locked_env_snoc, <- Hs. reflexivity.
Qed.

(** The object of an argument, if it has one, was accepted. *)
Definition accepted (a : KernelArg) (b b' : kernelArgBuilder) (E : Env) : Prop :=
  match arg_object a with Some (l, octx) => accepted_object l octx b b' E | None => True end.

Lemma append_one_run a b E s :
  kb_ok b -> kb_snapshot b = false -> st_env s = locked_env (kb_locks b) E ->
  match appendKernelArg a b s with
  | (Done (b', Some e), s') => b' = b /\ s' = s
  | (Done (b', None), s') =>
      extends b b' /\ kb_packed b' = argpack.add (kb_packed b) (arg_value a).1 (arg_value a).2 /\ accepted a b b' E /\ locks_only E b' s s' /\
      (forall mem size, a = ArgRaw mem size -> 0 < size <= maxRawArgBytes /\ mem <> None)
  | (Blocks, s') => s' = s
  | _ => False
  end.
Proof.
  intros Hok Hsn Hs.
  assert (Hplain : forall p, locks_only E (set_packed p b) s s) by (intros p; change (s = set_env (locked_env (kb_locks b) E) s); rewrite <- Hs; now destruct s).
  assert (Hobj : forall l octx ce typ h, arg_object a = Some (l, octx) -> arg_value a = (handle_bytes h, Some typ) ->
    (forall mem size, a <> ArgRaw mem size) -> appendKernelArg a b = append_object l octx ce typ h b ->
    match appendKernelArg a b s with
    | (Done (b', Some e), s') => b' = b /\ s' = s
    | (Done (b', None), s') =>
        extends b b' /\ kb_packed b' = argpack.add (kb_packed b) (arg_value a).1 (arg_value a).2 /\ accepted a b b' E /\ locks_only E b' s s' /\
        (forall mem size, a = ArgRaw mem size -> 0 < size <= maxRawArgBytes /\ mem <> None)
    | (Blocks, s') => s' = s
    | _ => False
    end).
  { intros l octx ce typ h Ho Hv Hr ->. pose proof (append_object_run l octx ce typ h b E s Hok Hsn Hs) as Ha.
    destruct (append_object l octx ce typ h b s) as [[[b' [e|]]| | |] s']; try exact Ha.
    destruct Ha as (H1 & H2 & H3 & H4). unfold accepted. rewrite Ho, Hv. split_and!; try done. intros mem size E0. now apply Hr in E0. }
  destruct a as [T [x|]|T typ v|ptr|[mem|] size|[x|]|[x|]]; try (now unfold ret);
    try (eapply Hobj; [reflexivity|reflexivity|done|reflexivity]);
    try (cbn [appendKernelArg]; unfold ret; cbn beta iota; split_and!; [now apply extends_packed|reflexivity|exact I|apply Hplain|done]).
  cbn [appendKernelArg rawKernelArg_append]. destruct (Z.leb_spec size 0) as [H0|H0]; [now unfold ret|]. destruct (Z.ltb_spec maxRawArgBytes size) as [H1|H1]; [now unfold ret|].
  cbn. split_and!; [now apply extends_packed|reflexivity|exact I|apply Hplain|]. intros m sz [= <- <-]. split; [lia|done].
Qed.

Lemma handle_length h : length (handle_bytes h) = 8%nat.
Proof. unfold handle_bytes. now rewrite length_map, length_seq. Qed.

Lemma arg_value_length a :
  arg_wf a -> (forall mem size, a = ArgRaw mem size -> 0 < size <= maxRawArgBytes /\ mem <> None) ->
  0 < Z.of_nat (length (arg_value a).1) <= maxRawArgBytes.
Proof.
  intros Hwf Hr. unfold maxRawArgBytes in *. destruct a as [T b|T typ v|ptr|mem size|t|s0]; cbn [arg_value fst]; rewrite ?handle_length; try lia.
  - cbn in Hwf. destruct (sizeof_cases T) as [->|[->|[->| ->]]] in Hwf; lia.
  - destruct (Hr mem size eq_refl) as [H1 H2]. destruct mem as [mem|]; [|done]. cbn in *. specialize (Hwf H1). rewrite length_take. lia.
Qed.

(** Arena space one argument can need. *)
Definition arg_space : Z := 4104.

(** Packing one more argument. *)
Lemma packed_step a b b1 n :
  arg_wf a -> (forall mem size, a = ArgRaw mem size -> 0 < size <= maxRawArgBytes /\ mem <> None) ->
  argpack.wf (kb_packed b) -> kb_packed b1 = argpack.add (kb_packed b) (arg_value a).1 (arg_value a).2 ->
  argpack.spill_len (kb_packed b) + arg_space * Z.of_nat (S n) + 8 < 2 ^ 31 ->
  argpack.wf (kb_packed b1) /\ argpack.args (kb_packed b1) = argpack.args (kb_packed b) ++ [arg_value a] /\
  argpack.spill_len (kb_packed b1) + arg_space * Z.of_nat n + 8 < 2 ^ 31.
Proof.
  intros Ha Hraw Hp Hpk Hsp. pose proof (arg_value_length a Ha Hraw) as Hlen. unfold arg_space, maxRawArgBytes in *.
  destruct (argpack.alignUp_spec (argpack.spill_len (kb_packed b))) as [Hu _]; [apply argpack.wf_spill, Hp|].
  destruct (argpack.add_step (kb_packed b) (arg_value a).1 (arg_value a).2 Hp) as [Hp1 Ha1]; [unfold argpack.fits; lia|].
  pose proof (argpack.add_spill_len (kb_packed b) (arg_value a).1 (arg_value a).2 Hp ltac:(lia)) as Hs1. rewrite <- Hpk in Hp1, Ha1, Hs1.
  split_and!; [exact Hp1|now rewrite Ha1, <- surjective_pairing|lia].
Qed.

Lemma append_args_run args : forall b E s,
  Forall (fun a => match a with Some a => arg_wf a | None => True end) args ->
  kb_ok b -> kb_snapshot b = false -> argpack.wf (kb_packed b) ->
  argpack.spill_len (kb_packed b) + arg_space * Z.of_nat (length args) + 8 < 2 ^ 31 ->
  st_env s = locked_env (kb_locks b) E ->
  match append_args args b s with
  | (Done (b', Some e), s') => extends b b' /\ locks_only E b' s s' /\ argpack.wf (kb_packed b')
  | (Done (b', None), s') =>
      extends b b' /\ locks_only E b' s s' /\ argpack.wf (kb_packed b') /\
      argpack.args (kb_packed b') = argpack.args (kb_packed b) ++ values args /\
      Forall (fun a => match a with Some a => accepted a b b' E | None => False end) args
  | (Blocks, s') => st_trace s' = st_trace s
  | _ => False
  end.
Proof.
  induction args as [|[a|] args IH]; intros b E s Hwf Hok Hsn Hp Hsp Hs; cbn [append_args].
  - unfold ret. split_and!; [now apply extends_refl|unfold locks_only; rewrite <- Hs; now destruct s|done|now rewrite app_nil_r|constructor].
  - apply Forall_cons in Hwf as [Ha Hwf]. unfold bind at 1.
    pose proof (append_one_run a b E s Hok Hsn Hs) as H1. destruct (appendKernelArg a b s) as [[[b1 [e|]]| | |] s1]; try done.
    + destruct H1 as [-> ->]. cbn. split_and!; [now apply extends_refl| |done]. unfold locks_only. rewrite <- Hs. now destruct s.
    + destruct H1 as (Hext & Hpk & Hacc & Hlk & Hraw). cbn [fst snd].
      destruct (packed_step a b b1 (length args) Ha Hraw Hp Hpk Hsp) as (Hp1 & Ha1 & Hs1).
      pose proof Hext as (Hok1 & Hc1 & Hsn1 & _).
      assert (Hse : st_env s1 = locked_env (kb_locks b1) E) by (unfold locks_only in Hlk; now rewrite Hlk).
      specialize (IH b1 E s1 Hwf Hok1 ltac:(congruence) Hp1 Hs1 Hse).
      destruct (append_args args b1 s1) as [[[b2 [e|]]| | |] s2]; try done.
      * destruct IH as (He2 & Hl2 & Hp2). split_and!; [now apply extends_trans with b1| |done]. unfold locks_only in *. rewrite Hl2, Hlk. now destruct s.
      * destruct IH as (He2 & Hl2 & Hp2 & Hargs & Hacc2). split_and!; [now apply extends_trans with b1|unfold locks_only in *; rewrite Hl2, Hlk; now destruct s|done| |].
        -- now rewrite Hargs, Ha1, <- app_assoc.
        -- destruct He2 as (_ & _ & _ & new & Hnew). constructor.
           ++ unfold accepted in *. destruct (arg_object a) as [[l octx]|]; [|done]. destruct Hacc as (K1 & K2 & K3). split_and!; [|done|done].
              rewrite Hnew. set_solver.
           ++ eapply Forall_impl; [exact Hacc2|]. intros [x|]; [|done]. unfold accepted. destruct (arg_object x) as [[l octx]|]; [|done].
              intros (K1 & K2 & K3). split_and!; [done|done|]. rewrite <- Hc1. exact K3.
      * rewrite IH, Hlk. reflexivity.
    + now rewrite H1.
  - unfold ret. split_and!; [now apply extends_refl| |done]. unfold locks_only. rewrite <- Hs. now destruct s.
Qed.

(** ** What the driver reads *)

Lemma Params_meta p i : argpack.meta (argpack.Params p).1 i = argpack.meta p i.
Proof. unfold argpack.Params. destruct (_ =? 0)%nat; [done|]. destruct (negb _); [done|]. now destruct (argpack.dirty p). Qed.

Lemma Params_count p : argpack.count (argpack.Params p).1 = argpack.count p.
Proof. unfold argpack.Params. destruct (_ =? 0)%nat; [done|]. destruct (negb _); [done|]. now destruct (argpack.dirty p). Qed.

Lemma driver_view_args p : argpack.wf p ->
  driver_view (argpack.Params p) = if decide (argpack.args p = []) then None else Some (map fst (argpack.args p)).
Proof.
  intros Hwf. unfold driver_view. pose proof (argpack.Params_nil p) as Hnil.
  assert (Hlen : argpack.args p = [] <-> argpack.count p = 0%nat) by (rewrite <- argpack.length_args; now rewrite length_zero_iff_nil).
  destruct (argpack.Params p).2 as [ps|] eqn:Hps; [|rewrite decide_True by (now apply Hlen, Hnil); done].
  rewrite decide_False by (intros Hz; apply Hlen, Hnil in Hz; discriminate). cbn. f_equal.
  rewrite Params_count. unfold argpack.args. rewrite map_map. apply map_ext_in. intros i Hin%in_seq. cbn [fst].
  assert (Hi : argpack.args p !! i = Some (argpack.stored p i, argpack.am_typ (argpack.meta p i)))
    by (rewrite argpack.args_lookup, decide_True by lia; done).
  destruct (argpack.Params_entries p i _ ps Hwf Hps Hi) as (He & Hr & _).
  destruct (argpack.param_pointer_reads p i Hwf ltac:(lia)) as (q & Hq & Hrd & _).
  rewrite He, Hq. cbn. now rewrite Hr, Params_meta, Hrd.
Qed.

Lemma values_params args :
  Forall (fun a : option KernelArg => is_Some a) args ->
  (if decide (values args = []) then None else Some (map fst (values args))) = params_of args.
Proof.
  intros Ha. destruct args as [|a args]; [done|]. apply Forall_cons in Ha as [[x ->] _]. cbn. now rewrite decide_False by done.
Qed.

(** ** Launching *)

(** The driver call of a launch. *)
Definition launch_call (cooperative : bool) (fn : Z) (cfg : LaunchConfig) (stream : Z) (params : kernel_params) : call :=
  let grid := (GridX cfg, GridY cfg, GridZ cfg) in
  let block := (BlockX cfg, BlockY cfg, BlockZ cfg) in
  if cooperative then CuLaunchCooperativeKernel fn grid block (SharedMemBytes cfg) stream params
  else CuLaunchKernel fn grid block (SharedMemBytes cfg) stream params.

Lemma tidy_launchKernel P E c ctx fn cfg stream params coop :
  (forall E c, background c = true -> P E c) ->
  in_context c E (fun E => P E (launch_call coop fn cfg stream params)) ->
  tidy P E (launchKernel c ctx fn cfg stream params coop).
Proof.
  intros Hb HP. unfold launchKernel. tidy_auto. apply tidy_doJob; [done|intros; apply tidy_ret|].
  destruct c as [c|]; [|done]. cbn in *. intros e Ho. apply tidy_closure. unfold launchOp_Run. specialize (HP e Ho).
  destruct coop; [unfold cudaresult.LaunchCooperativeKernel|unfold cudaresult.LaunchKernel]; tidy_auto.
Qed.

(** The calls of a launch of function [fn] of module [m]: background calls, and the launch itself, of these arguments, on a thread of
    the module's context, while the objects [objs], the module, its context and every object among the arguments are open and
    locked for reading, those objects being of that context. *)
Definition launch_use (objs : list loc) (m : Module_) (fn : Z) (cfg : LaunchConfig) (stream : Z) (cooperative : bool)
    (args : list (option KernelArg)) (E : Env) (c : call) : Prop :=
  background c = true \/
  (c = launch_call cooperative fn cfg stream (params_of args) /\ is_Some (env_thread E) /\
   Forall (fun l => live l E) objs /\ live (md_id m) E /\
   exists x, md_ctx m = Some x /\ live (cx_id x) E /\
   Forall (fun a => exists k, a = Some k /\
     match arg_object k with Some (l, octx) => live l E /\ same_ctx octx (md_ctx m) = true | None => True end) args).

(** A builder as the pool keeps it. *)
Definition pooled_ok (p : argpack.Builder) : Prop := argpack.wf p /\ argpack.count p = 0%nat /\ argpack.spill_len p = 0.

Lemma Reset_pooled p : argpack.wf p -> pooled_ok (argpack.Reset p).
Proof. intros Hp. destruct (argpack.Reset_ok p Hp) as (H1 & H2 & H3 & _). now split_and!. Qed.

(** What a launch's arguments must be: Go values, not more of them than the arena has room for. *)
Definition args_ok (args : list (option KernelArg)) : Prop :=
  Forall (fun a => match a with Some a => arg_wf a | None => True end) args /\ Z.of_nat (length args) <= 2 ^ 18.

Lemma start_ok pooled c : kb_ok (newLaunchArgState pooled c).
Proof. split; cbn; [done|unfold inlineLockCount; lia|done|constructor]. Qed.

(** The locked part of [launch]. *)
Definition launch_body (pooled : argpack.Builder) (m : Module_) (ctx : gctx) (fn raw : Z) (cfg : LaunchConfig) (coop : bool)
    (args : list (option KernelArg)) : M (err * argpack.Builder) :=
  let! r := append_args args (newLaunchArgState pooled (md_ctx m)) in
  let b := r.1 in
  defer (release b) (
    match r.2 with
    | Some e => ret (Some e, argpack.Reset (kb_packed b))
    | None =>
        let p := argpack.Params (kb_packed b) in
        let! e := launchKernel (md_ctx m) ctx fn cfg raw (driver_view p) coop in
        ret (e, argpack.Reset p.1)
    end).

Lemma defer_release {A} P b E (m : M A) s :
  kb_ok b -> st_env s = locked_env (kb_locks b) E -> tidy P (locked_env (kb_locks b) E) m ->
  let '(o, s') := defer (release b) m s in
  calls P s s' /\ o <> Fatal /\ (returns o -> st_env s' = E).
Proof.
  intros Hok Hs Hm. specialize (Hm s Hs). unfold defer. destruct (m s) as [o s1]. destruct Hm as (Hc & Ho & He).
  assert (Hrel : returns o -> release b s1 = (Done tt, set_env E s1)) by (intros Hr; now apply release_run, He).
  assert (Hc' : calls P s (set_env E s1)) by exact Hc.
  destruct o as [a|v| |]; try done; rewrite Hrel by done; now split_and!.
Qed.

(** What the call of an accepted launch may rely on. *)
Lemma launch_call_safe objs m fn cfg raw coop args b E :
  Forall (fun l => live l E) objs -> live (md_id m) E -> kb_ctx b = md_ctx m ->
  Forall (fun a => match a with Some a => exists b0, kb_ctx b0 = kb_ctx b /\ accepted a b0 b E | None => False end) args ->
  in_context (md_ctx m) (locked_env (kb_locks b) E)
    (fun E => launch_use objs m fn cfg raw coop args E (launch_call coop fn cfg raw (params_of args))).
Proof.
  intros Hobjs Hm Hc Hacc. destruct (md_ctx m) as [x|] eqn:Hx; [|exact I]. cbn [in_context]. intros e Ho.
  assert (Hup : forall l, live l E -> live l (on_thread (Some e) (rlocked (cx_id x, OpMu) (locked_env (kb_locks b) E))))
    by (intros l Hl; auto using live_on, live_rlocked, live_locked).
  right. split_and!; [done|cbn; eauto|eapply Forall_impl; eauto|auto|].
  exists x. split_and!; [exact Hx|now apply live_on, live_opened|].
  eapply Forall_impl; [exact Hacc|]. intros [k|]; [|done]. intros (b0 & Hb0 & Hk). exists k. split; [done|].
  unfold accepted in Hk. destruct (arg_object k) as [[l octx]|]; [|done]. destruct Hk as (Hl & Hop & Hs). split.
  - apply live_on, live_rlocked. now apply locked_live.
  - rewrite Hx, <- Hc, <- Hb0. apply Hs. now rewrite Hb0, Hc.
Qed.

Lemma launch_body_tidy objs pooled m ctx fn raw cfg coop args E :
  pooled_ok pooled -> args_ok args -> Forall (fun l => live l E) objs -> live (md_id m) E ->
  tidy (launch_use objs m fn cfg raw coop args) E (launch_body pooled m ctx fn raw cfg coop args).
Proof.
  intros (Hp & Hn & Hsp) [Hwf Hlen] Hobjs Hm s Hs. unfold launch_body. unfold bind at 1.
  pose proof (append_args_run args (newLaunchArgState pooled (md_ctx m)) E s Hwf (start_ok _ _) eq_refl Hp) as Hr.
  cbn [kb_packed newLaunchArgState] in Hr. rewrite Hsp in Hr.
  specialize (Hr ltac:(unfold arg_space; lia) Hs).
  destruct (append_args args _ s) as [[[b [e|]]| | |] s1] eqn:Happ; try done; cbn [fst snd].
  - destruct Hr as ((Hok & _) & Hl & _). unfold locks_only in Hl. subst s1.
    apply (defer_release _ b E _ (set_env _ s)); [done|done|apply tidy_ret].
  - destruct Hr as ((Hok & Hc & _) & Hl & Hw & Hargs & Hacc). unfold locks_only in Hl. subst s1.
    apply (defer_release _ b E _ (set_env _ s)); [done|done|].
    assert (Hview : driver_view (argpack.Params (kb_packed b)) = params_of args).
    { rewrite (driver_view_args _ Hw), Hargs. assert (H0 : argpack.args pooled = []) by (apply length_zero_iff_nil; now rewrite argpack.length_args).
      cbn [kb_packed newLaunchArgState]. rewrite H0. cbn [app]. apply values_params.
      eapply Forall_impl; [exact Hacc|]. now intros [x|]. }
    rewrite Hview. apply tidy_bind; [|intros; apply tidy_ret]. apply tidy_launchKernel; [now left|].
    apply launch_call_safe; [done|done|exact Hc|]. eapply Forall_impl; [exact Hacc|]. intros [x|]; [|done]. intros Hx.
    exists (newLaunchArgState pooled (md_ctx m)). split; [now rewrite Hc|exact Hx].
  - split_and!; [now apply calls_refl|done|done].
Qed.

Lemma launch_body_pooled pooled m ctx fn raw cfg coop args :
  pooled_ok pooled -> args_ok args -> yields (launch_body pooled m ctx fn raw cfg coop args) (fun r => pooled_ok r.2).
Proof.
  intros (Hp & Hn & Hsp) [Hwf Hlen]. unfold launch_body.
  apply (yields_bind _ _ (fun r => argpack.wf (kb_packed r.1))).
  - intros s [b oe] s' Hr.
    pose proof (append_args_run args (newLaunchArgState pooled (md_ctx m)) (st_env s) s Hwf (start_ok _ _) eq_refl Hp) as Ha.
    cbn [kb_packed newLaunchArgState] in Ha. rewrite Hsp, Hr in Ha.
    specialize (Ha ltac:(unfold arg_space; lia) eq_refl).
    destruct oe; apply Ha.
  - intros [b [e|]] Hb; cbn [fst snd] in *; apply yields_defer; [now apply yields_ret, Reset_pooled|].
    apply yields_then. intros e. apply yields_ret, Reset_pooled, (argpack.Params_wf _ Hb).
Qed.

Lemma tidy_launch objs pooled f m ctx raw sctx cfg coop args E :
  fn_module f = Some m -> pooled_ok pooled -> args_ok args -> Forall (fun l => live l E) objs ->
  tidy (launch_use objs m (fn_raw f) cfg raw coop args) E (launch pooled (Some f) ctx raw sctx cfg coop args).
Proof.
  intros Hf Hp Ha Hobjs. unfold launch. destruct (negb (valid cfg)); [apply tidy_ret|]. rewrite Hf.
  destruct (negb _ && _); [apply tidy_ret|]. apply tidy_opened. intros Ho.
  apply (launch_body_tidy objs); try done; [|now apply live_opened].
  eapply Forall_impl; [exact Hobjs|]. intros l. apply live_rlocked.
Qed.

Lemma yields_launch pooled f ctx raw sctx cfg coop args :
  pooled_ok pooled -> args_ok args -> yields (launch pooled f ctx raw sctx cfg coop args) (fun r => pooled_ok r.2).
Proof.
  intros Hp Ha. unfold launch. destruct f as [f|]; [|now apply yields_ret]. destruct (negb (valid cfg)); [now apply yields_ret|].
  destruct (fn_module f) as [m|]; [|now apply yields_ret]. destruct (negb _ && _); [now apply yields_ret|].
  apply yields_with_RLock, yields_then. intros []; [now apply yields_ret|]. now apply launch_body_pooled.
Qed.


End LaunchProofs.
