(* ===== verification/HandleProps.v ===== *)
(** * Properties of handles: streams, events, modules, graphs, pools, interprocess memory

    Which driver calls an operation on a handle makes, and what is open and locked when it makes them; what every [Close] does. *)

From S2P Require Import Prelude CudaSys Errors Runtime CudaResult ExecutorApi Context Dispatch Resource Handles Buffer HostCb Streams Modules Regions Vmm Graphs Ready.

(** ** What a call may rely on *)

(** The object is open and its lock is held, for reading or for writing. *)
Definition held (l : loc) (E : Env) : Prop := open l E /\ (r_held (l, OpMu) E \/ w_held (l, OpMu) E).

(** The calls of an operation that uses the objects [objs] and the context [c], and whose own calls are [ok]. *)
Definition handle_use (objs : list loc) (c : option Context) (ok : call -> Prop) (E : Env) (cl : call) : Prop :=
  background cl = true \/
  (ok cl /\ is_Some (env_thread E) /\ Forall (fun l => held l E) objs /\ exists x, c = Some x /\ live (cx_id x) E).

Section HandleDefs.
Context `{Foreign, !HostMemory}.

(** One line per operation: the objects it uses, its context, its calls. *)
Inductive handle_op : list loc -> option Context -> (call -> Prop) -> forall A : Type, M A -> Type :=
(* streams and events *)
| use_NewStream c opts : handle_op [] c (fun cl => cl = CuStreamCreate streamNonBlocking \/ exists p, MinInt32 <= p <= MaxInt32 /\
    cl = CuStreamCreateWithPriority streamNonBlocking p) _ (NewStream c opts)
| use_Synchronize s g : handle_op [sm_id s] (sm_ctx s) (fun _ => False) _ (Stream_Synchronize (Some s) g)
| use_StreamQuery s : handle_op [sm_id s] (sm_ctx s) (fun _ => False) _ (Stream_Query (Some s))
| use_WaitEvent s e : handle_op [sm_id s; ev_id e] (sm_ctx s) (fun _ => False) _ (Stream_WaitEvent (Some s) (Some e))
| use_NewEvent c opts : handle_op [] c (fun cl => exists f, 0 <= f < 8 /\ cl = CuEventCreate f) _ (NewEvent c opts)
| use_Record e s : handle_op [ev_id e; sm_id s] (ev_ctx e) (fun _ => False) _ (Event_Record (Some e) (Some s))
| use_EventSynchronize e g : handle_op [ev_id e] (ev_ctx e) (fun _ => False) _ (Event_Synchronize (Some e) g)
| use_EventQuery e : handle_op [ev_id e] (ev_ctx e) (fun _ => False) _ (Event_Query (Some e))
| use_Elapsed a b : handle_op [ev_id a; ev_id b] (ev_ctx a) (eq (CuEventElapsedTime (ev_raw a) (ev_raw b))) _ (Event_Elapsed (Some a) (Some b))
(* modules, kernels, globals, the linker *)
| use_LoadModule c image : handle_op [] c (eq (CuModuleLoadData (moduleImage image))) _ (LoadModule c image)
| use_LoadModuleEx c image opts : handle_op [] c (fun cl => exists o v, length o = length v /\ cl = CuModuleLoadDataEx (moduleImage image) o v) _
    (LoadModuleEx c image opts)
| use_Function m name : handle_op [md_id m] (md_ctx m) (eq (CuModuleGetFunction (md_raw m) (c_name name))) _ (Module_Function (Some m) name)
| use_Global m name : handle_op [md_id m] (md_ctx m) (eq (CuModuleGetGlobal (md_raw m) (c_name name))) _ (Module_Global (Some m) name)
| use_WriteGlobal T g m ctx vals : gl_module g = Some m ->
    handle_op [md_id m] (md_ctx m) (fun cl => exists n, n <= gl_bytes g /\ cl = CuMemcpyHtoD (gl_ptr g) (sl_ptr vals) n) _
      (WriteGlobal T ctx (Some g) vals)
| use_ReadGlobal T g m ctx dst : gl_module g = Some m ->
    handle_op [md_id m] (md_ctx m) (fun cl => exists n, n <= gl_bytes g /\ cl = CuMemcpyDtoH (sl_ptr dst) (gl_ptr g) n) _
      (ReadGlobal T ctx dst (Some g))
| use_Attribute f m attr : fn_module f = Some m ->
    handle_op [md_id m] (md_ctx m) (eq (CuFuncGetAttribute (int32 attr) (fn_raw f))) _ (Attribute (Some f) attr)
| use_SetAttribute f m attr v : fn_module f = Some m ->
    handle_op [md_id m] (md_ctx m) (fun cl => 0 <= v <= MaxInt32 /\ cl = CuFuncSetAttribute (fn_raw f) (int32 attr) v) _ (SetAttribute (Some f) attr v)
| use_MaxActive f m bs mem : fn_module f = Some m ->
    handle_op [md_id m] (md_ctx m) (fun cl => 0 < bs <= MaxInt32 /\ 0 <= mem /\
      cl = CuOccupancyMaxActiveBlocksPerMultiprocessor (fn_raw f) bs (uint64 mem)) _ (MaxActiveBlocksPerSM (Some f) bs mem)
| use_Suggested f m mem lim : fn_module f = Some m ->
    handle_op [md_id m] (md_ctx m) (fun cl => 0 <= lim <= MaxInt32 /\ 0 <= mem /\
      cl = CuOccupancyMaxPotentialBlockSize (fn_raw f) 0 (uint64 mem) lim) _ (SuggestedBlockSize (Some f) mem lim)
| use_NewLinker c opts : handle_op [] c (fun cl => exists o v, length o = length v /\ cl = CuLinkCreate o v) _ (NewLinker c opts)
| use_AddPTX l name d : handle_op [lk_id l] (lk_ctx l) (fun cl => exists n, cl =
      CuLinkAddData (lk_raw l) jitInputPTX (nullTerminated d) (uint64 (Z.of_nat (length (nullTerminated d)))) n) _ (AddPTX (Some l) name d)
| use_AddCubin l name d : handle_op [lk_id l] (lk_ctx l) (fun cl => exists n, cl =
      CuLinkAddData (lk_raw l) jitInputCubin d (uint64 (Z.of_nat (length d))) n) _ (AddCubin (Some l) name d)
| use_Complete l : handle_op [lk_id l] (lk_ctx l) (eq (CuLinkComplete (lk_raw l))) _ (Complete (Some l))
(* graphs *)
| use_BeginCapture s mode : handle_op [sm_id s] (sm_ctx s) (eq (CuStreamBeginCapture (sm_raw s) (uint32 mode))) _ (BeginCapture (Some s) mode)
| use_EndCapture s : handle_op [sm_id s] (sm_ctx s) (eq (CuStreamEndCapture (sm_raw s))) _ (EndCapture (Some s))
| use_Instantiate g : handle_op [gr_id g] (gr_ctx g) (eq (CuGraphInstantiate (gr_raw g) 0)) _ (Instantiate (Some g))
| use_GraphLaunch e ctx s : handle_op [ge_id e; sm_id s] (ge_ctx e) (eq (CuGraphLaunch (ge_raw e) (sm_raw s))) _ (GraphExec_Launch (Some e) ctx (Some s))
| use_Update e g : handle_op [ge_id e; gr_id g] (ge_ctx e) (eq (CuGraphExecUpdate (ge_raw e) (gr_raw g))) _ (GraphExec_Update (Some e) (Some g))
(* pools, managed and interprocess memory, peers *)
| use_DefaultMemPool c : handle_op [] c (fun cl => exists d, cl = CuDeviceGetDefaultMemPool d) _ (DefaultMemPool c)
| use_AllocFromPool T p s n : is_int n -> handle_op [sm_id s] (mp_ctx p) (fun cl => 0 < n /\ n * sizeof T < 2 ^ 64 /\
      cl = CuMemAllocFromPoolAsync (n * sizeof T) (mp_raw p) (sm_raw s)) _ (AllocFromPool T (Some p) (Some s) n)
| use_AllocManaged T c n : is_int n -> handle_op [] c (fun cl => 0 < n /\ n * sizeof T < 2 ^ 64 /\ cl = CuMemAllocManaged (n * sizeof T) memAttachGlobal) _
    (AllocManaged T c n)
| use_prefetch T (m : ManagedBuffer T) ctx s host : handle_op [mb_id m; sm_id s] (mb_ctx m)
    (fun cl => exists d, cl = CuMemPrefetchAsync (mb_ptr m) (mb_bytes m) d (sm_raw s)) _ (prefetch (Some m) ctx (Some s) host)
| use_Advise T (m : ManagedBuffer T) a : handle_op [mb_id m] (mb_ctx m) (fun cl => exists d, cl = CuMemAdvise (mb_ptr m) (mb_bytes m) (int32 a) d) _
    (Advise (Some m) a)
| use_VirtualFrom T (b : VirtualBuffer T) ctx src : handle_op [vb_id b] (vb_ctx b) (fun cl => vb_mapped b = true /\ sl_len src = vb_length b /\
      cl = CuMemcpyHtoD (vb_ptr b) (sl_ptr src) (vb_bytes b)) _ (VirtualBuffer_CopyFrom (Some b) ctx src)
| use_VirtualTo T (b : VirtualBuffer T) ctx dst : handle_op [vb_id b] (vb_ctx b) (fun cl => vb_mapped b = true /\ sl_len dst = vb_length b /\
      cl = CuMemcpyDtoH (sl_ptr dst) (vb_ptr b) (vb_bytes b)) _ (VirtualBuffer_CopyTo (Some b) ctx dst)
| use_IPCHandle T (b : Buffer T) : handle_op [bf_id b] (bf_ctx b) (eq (CuIpcGetMemHandle (bf_ptr b))) _ (Buffer_IPCHandle (Some b))
| use_OpenIPC T c h n : is_int n -> handle_op [] c (fun cl => 0 < n /\ n * sizeof T < 2 ^ 64 /\ cl = CuIpcOpenMemHandle (im_h h) IpcMemLazyEnablePeerAccess) _
    (OpenIPCBuffer T c h n)
| use_IPCFrom T (b : IPCBuffer T) ctx src : handle_op [ib_id b] (ib_ctx b) (fun cl => sl_len src = ib_length b /\
      cl = CuMemcpyHtoD (ib_ptr b) (sl_ptr src) (ib_bytes b)) _ (IPCBuffer_CopyFrom (Some b) ctx src)
| use_IPCTo T (b : IPCBuffer T) ctx dst : handle_op [ib_id b] (ib_ctx b) (fun cl => sl_len dst = ib_length b /\
      cl = CuMemcpyDtoH (sl_ptr dst) (ib_ptr b) (ib_bytes b)) _ (IPCBuffer_CopyTo (Some b) ctx dst)
| use_EventHandle e : handle_op [ev_id e] (ev_ctx e) (fun cl => ev_interprocess e = true /\ cl = CuIpcGetEventHandle (ev_raw e)) _ (Event_IPCHandle (Some e))
| use_OpenEvent c h : handle_op [] c (eq (CuIpcOpenEventHandle (ie_h h))) _ (OpenIPCEvent c h)
| use_EnablePeer c p : handle_op [cx_id p] (Some c) (eq (CuCtxEnablePeerAccess (cx_raw p) 0)) _ (EnablePeerAccess (Some c) (Some p))
| use_DisablePeer c p : handle_op [cx_id p] (Some c) (eq (CuCtxDisablePeerAccess (cx_raw p))) _ (DisablePeerAccess (Some c) (Some p))
| use_MemoryType c ptr : handle_op [] c (eq (CuPointerGetAttribute pointerAttributeMemoryType ptr)) _ (PointerMemoryType c ptr)
| use_CopyToPeer T (b d : Buffer T) ctx : handle_op [bf_id b; bf_id d] (bf_ctx b) (fun cl => bf_length d = bf_length b /\ exists x y,
      bf_ctx b = Some x /\ bf_ctx d = Some y /\ cl = CuMemcpyPeer (bf_ptr d) (cx_raw y) (bf_ptr b) (cx_raw x) (bf_bytes b)) _
    (Buffer_CopyToPeer (Some b) ctx (Some d))
(* textures and surfaces *)
| use_Array T c w h opts : handle_op [] c (fun cl => 0 < w /\ 0 < h /\ exists f i, arrayFormat T = Some (f, i) /\
      (cl = CuArrayCreate {| ad_Width := uint64 w; ad_Height := uint64 h; ad_Format := f; ad_NumChannels := 1 |} \/
       cl = CuArray3DCreate {| a3_Width := uint64 w; a3_Height := uint64 h; a3_Depth := 0; a3_Format := f; a3_NumChannels := 1; a3_Flags := ArraySurfaceLoadStore |})) _
    (AllocArray2D (T := T) c w h opts)
| use_NewTexture T (a : Array2D T) cfg : handle_op [ar_id a] (ar_ctx a) (fun cl => exists d, cl = CuTexObjectCreate
      {| rd_ResType := ResourceTypeArray; rd_Handle := ar_handle a; rd_Flags := 0 |} d) _ (NewTexture (Some a) cfg)
| use_NewSurface T (a : Array2D T) : handle_op [ar_id a] (ar_ctx a) (fun cl => ar_surface a = true /\ cl = CuSurfObjectCreate
      {| rd_ResType := ResourceTypeArray; rd_Handle := ar_handle a; rd_Flags := 0 |}) _ (NewSurface (Some a)).

End HandleDefs.

(** ** Proofs *)

Section HandleProofs.
Context `{Foreign}.

Lemma handle_background objs c ok : forall E cl, background cl = true -> handle_use objs c ok E cl.
Proof. now left. Qed.

Lemma held_live l E : live l E -> held l E.
Proof. intros [Ho Hr]. split; [exact Ho|now left]. Qed.

Lemma held_rlocked l k E : held l E -> held l (rlocked k E).
Proof. intros [Ho [Hr|Hw]]; (split; [exact Ho|]); [left; now apply r_held_mono|right; exact Hw]. Qed.

Lemma held_wlocked l k E : held l E -> held l (wlocked k E).
Proof. intros [Ho [Hr|Hw]]; (split; [exact Ho|]); [left; exact Hr|right; unfold w_held; cbn; now apply elem_of_union_r]. Qed.

Lemma held_on l t E : held l E -> held l (on_thread t E).
Proof. intros [Ho Hr]. now split. Qed.

Lemma held_opened_r l E : open l E -> held l (rlocked (l, OpMu) E).
Proof. intros Ho. apply held_live. now apply live_opened. Qed.

Lemma held_opened_w l E : open l E -> held l (wlocked (l, OpMu) E).
Proof. intros Ho. split; [exact Ho|right]. unfold w_held. cbn. set_solver. Qed.

(** A closure or job of the context, run while the objects are held. *)
Lemma use_in_context objs c ok E (K : Env -> Prop) :
  Forall (fun l => held l E) objs ->
  (forall E', (forall cl, ok cl -> handle_use objs c ok E' cl) -> K E') ->
  in_context c E K.
Proof.
  intros Hh HK. destruct c as [x|]; [|exact I]. intros e Ho. apply HK. intros cl Hok. right. split_and!; [exact Hok|cbn; eauto| |].
  - eapply Forall_impl; [exact Hh|]. intros l Hl. apply held_on. now apply held_rlocked.
  - exists x. split; [done|]. now apply live_on, live_opened.
Qed.

Lemma tidy_opened_exclusive {A} P E l (e : A) k :
  (open l E -> tidy P (wlocked (l, OpMu) E) k) -> tidy P E (opened_exclusive l e k).
Proof.
  intros Hk. apply tidy_with_Lock, tidy_is_closed. destruct (bool_decide _) eqn:Ho; [apply tidy_ret|].
  apply Hk. now apply open_test in Ho.
Qed.

Lemma tidy_with_events {A} P E a b (m : M A) :
  (forall E', r_held (ev_id a, OpMu) E' -> r_held (ev_id b, OpMu) E' -> env_closed E' = env_closed E -> tidy P E' m) ->
  tidy P E (with_events a b m).
Proof.
  intros Hm. unfold with_events. case_bool_decide as Hab.
  - apply tidy_with_RLock, Hm; [apply r_held_rlocked|rewrite <- Hab; apply r_held_rlocked|done].
  - case_bool_decide; apply tidy_with_RLock, tidy_with_RLock, Hm; try done;
      first [apply r_held_rlocked|apply r_held_mono, r_held_rlocked].
Qed.

Lemma tidy_graphLaunch P E c ctx e st :
  (forall E cl, background cl = true -> P E cl) ->
  in_context c E (fun E => P E (CuGraphLaunch e st)) -> tidy P E (graphLaunch c ctx e st).
Proof.
  intros Hb HP. unfold graphLaunch. tidy_auto. apply tidy_doJob; [done|intros; apply tidy_ret|].
  destruct c as [c|]; [|done]. cbn in *. intros x Ho. apply tidy_closure. unfold graphLaunchOp_Run, cudaresult.GraphLaunch. specialize (HP x Ho). tidy_auto.
Qed.

Lemma tidy_doSyncOp P E c o : (forall E cl, background cl = true -> P E cl) -> tidy P E (doSyncOp c o).
Proof.
  intros Hb. unfold doSyncOp. apply tidy_bind; [now apply tidy_deref|]. intros x. apply tidy_bind; [|intros; apply tidy_ret].
  apply tidy_doJob; [done|intros; apply tidy_ret|]. destruct c as [y|]; [|exact I]. intros e Ho. unfold syncOp_job. cbn [job_Run].
  now apply tidy_closure, tidy_syncOp_Run.
Qed.

(** The tests of the two-object operations read flags below locks taken meanwhile. *)
Lemma open_below l E E' : env_closed E' = env_closed E -> bool_decide (l ∈ env_closed E') = false -> open l E.
Proof. intros Hc Ho. rewrite Hc in Ho. now apply open_test in Ho. Qed.

Lemma tidy_bind_deref {A B} P E (p : option A) (k : A -> M B) :
  (forall x, p = Some x -> tidy P E (k x)) -> tidy P E (bind (deref p) k).
Proof. intros Hk. destruct p as [x|]; [exact (Hk x eq_refl)|]. apply (tidy_panic P E). Qed.

Lemma tidy_bind_first {B} P E x (k : Z -> M B) : (0 < sl_len x -> tidy P E (k (sl_ptr x))) -> tidy P E (bind (first_elem x) k).
Proof. intros Hk. unfold first_elem. destruct (Z.ltb_spec 0 (sl_len x)); [now apply Hk|]. apply (tidy_panic P E). Qed.

Lemma tidy_opened_other {T} P E (b d : Buffer T) (k : M err) :
  held (bf_id b) E ->
  (forall E', held (bf_id b) E' -> held (bf_id d) E' -> tidy P E' k) -> tidy P E (opened_other b d k).
Proof.
  intros Hb Hk. unfold opened_other. destruct (same_buffer d b) eqn:Hs.
  - apply Hk; [exact Hb|]. unfold same_buffer in Hs. apply bool_decide_eq_true in Hs. now rewrite Hs.
  - apply tidy_opened. intros Ho. apply Hk; [now apply held_rlocked|now apply held_opened_r].
Qed.

(** The size test of the allocations. *)
Lemma alloc_size (T : elem) n : is_int n -> 0 < n -> uint64 n <= MaxUint64 / elemSize T ->
  0 < n /\ n * sizeof T < 2 ^ 64 /\ uint64 (uint64 n * elemSize T) = n * sizeof T.
Proof.
  intros Hi H0 H1. rewrite elemSize_sizeof in *. rewrite (uint64_of_int n) in * by (first [lia|exact Hi]).
  destruct (sizeof_cases T) as [E|[E|[E|E]]]; rewrite E in *; unfold MaxUint64 in *;
    change ((2 ^ 64 - 1) / 1) with (2 ^ 64 - 1) in *; change ((2 ^ 64 - 1) / 2) with (2 ^ 63 - 1) in *;
    change ((2 ^ 64 - 1) / 4) with (2 ^ 62 - 1) in *; change ((2 ^ 64 - 1) / 8) with (2 ^ 61 - 1) in *;
    (split_and!; [lia|lia|apply uint64_id; unfold is_uint64; lia]).
Qed.

(** The option lists of streams and events stay in range. *)
Lemma streamOptions_range opts : forall o o', (forall p, so_priority o = Some p -> MinInt32 <= p <= MaxInt32) ->
  streamOptions_loop opts o = inl o' -> forall p, so_priority o' = Some p -> MinInt32 <= p <= MaxInt32.
Proof.
  induction opts as [|[[p]|] opts IH]; intros o o' Ho; cbn [streamOptions_loop]; [now intros [= <-]| |now apply IH].
  destruct (so_err (StreamOption_apply _ o)) eqn:E; [done|]. apply IH. cbn. destruct (so_err o); [exact Ho|].
  destruct ((p <? MinInt32) || (MaxInt32 <? p)) eqn:Hp; [exact Ho|]. apply orb_false_iff in Hp as [H1 H2].
  apply Z.ltb_ge in H1, H2. cbn. intros q [= <-]. rewrite int32_id by lia. lia.
Qed.

Lemma eventOptions_range opts : forall o o', 0 <= eo_flags o < 8 -> eventOptions_loop opts o = inl o' -> 0 <= eo_flags o' < 8.
Proof.
  assert (Hor : forall f m, 0 <= f < 8 -> 0 <= m < 8 -> 0 <= Z.lor f m < 8).
  { intros f m Hf Hm. assert (Hc : f ∈ seqZ 0 8 /\ m ∈ seqZ 0 8) by (rewrite !elem_of_seqZ; lia).
    destruct Hc as [Hf' Hm']. vm_compute in Hf', Hm'.
    repeat (apply elem_of_cons in Hf' as [->|Hf']; [repeat (apply elem_of_cons in Hm' as [->|Hm']; [vm_compute; split; [discriminate|reflexivity]|]); now apply not_elem_of_nil in Hm'|]).
    now apply not_elem_of_nil in Hf'. }
  induction opts as [|[opt|] opts IH]; intros o o' Ho; cbn [eventOptions_loop]; [now intros [= <-]| |now apply IH].
  assert (Ha : 0 <= eo_flags (EventOption_apply opt o) < 8).
  { destruct opt; cbn; try destruct (is_nil (eo_err o)); cbn; try exact Ho; apply Hor; try exact Ho; vm_compute; split; discriminate || reflexivity. }
  destruct (eo_err (EventOption_apply opt o)); [done|]. now apply IH.
Qed.

Lemma jit_options_length opts a b n o v : jit_options opts a b n = (o, v) -> length o = length v.
Proof. unfold jit_options. destruct (0 <? MaxRegisters opts); now intros [= <- <-]. Qed.

Lemma tidy_make_bytes `{!HostMemory} P E n : tidy P E (make_bytes n).
Proof. intros s Hs. unfold make_bytes. destruct (hm_make n _) as [p w]. split_and!; [now apply calls_refl|done|done]. Qed.

End HandleProofs.

#[export] Hint Resolve handle_background held_rlocked held_wlocked held_on held_opened_r held_opened_w : tidy.

(** Unfolds the function a tidiness goal is about. *)
Ltac unfold_call :=
  lazymatch goal with
  | |- tidy _ _ ?m => let rec go t := lazymatch t with ?f _ => go f | _ => unfold t end in go m
  end.

Ltac held_objects := repeat first [apply Forall_nil_2|apply Forall_cons_2]; eauto 6 with tidy.

Ltac in_use :=
  lazymatch goal with
  | |- context [handle_use ?objs ?c ?ok] => apply (use_in_context objs c ok); [held_objects|intros ? ?]
  end.

Ltac use_step :=
  lazymatch goal with
  | Hx : bool_decide (_ ∈ env_closed (rlocked _ ?E)) = false |- _ => apply (open_below _ E) in Hx; [|reflexivity]
  | Hx : bool_decide (_ ∈ env_closed (wlocked _ ?E)) = false |- _ => apply (open_below _ E) in Hx; [|reflexivity]
  | Hx : (_ || _)%bool = false |- _ => apply orb_false_iff in Hx as [? ?]
  | Hx : ?x = Some _ |- tidy _ _ (match ?x with _ => _ end) => rewrite Hx
  | |- tidy _ _ (bind (deref _) _) => apply tidy_bind_deref; intros ? ?
  | |- tidy _ _ (bind (first_elem _) _) => apply tidy_bind_first; intros ?
  | |- tidy _ _ (opened_other _ _ _) => apply tidy_opened_other; [solve [eauto 6 with tidy]|intros ? ? ?]
  | |- tidy _ _ (with_events _ _ _) => apply tidy_with_events; intros ? ? ? ?
  | |- tidy _ _ (make_bytes _) => apply tidy_make_bytes
  | |- tidy _ _ (opened _ _ _) => apply tidy_opened; intros ?
  | |- tidy _ _ (opened_exclusive _ _ _) => apply tidy_opened_exclusive; intros ?
  | |- tidy _ _ (do_ _ _ _ _) => apply tidy_do; [apply handle_background|in_use]
  | |- tidy _ _ (doWait _ _ _ _) => apply tidy_doWait; [apply handle_background|in_use]
  | |- tidy _ _ (doCopyWait _ _ _ _) => apply tidy_doCopyWait; [apply handle_background|in_use]
  | |- tidy _ _ (doSyncOp _ _) => apply tidy_doSyncOp, handle_background
  | |- tidy _ _ (doJob _ _ _ _) => apply tidy_doJob; [apply handle_background|intros; apply tidy_ret|in_use; cbn [job_Run]]
  | |- tidy _ _ (memcpyHtoD _ _ _ _ _) => apply tidy_memcpyHtoD; [apply handle_background|in_use]
  | |- tidy _ _ (memcpyDtoH _ _ _ _ _) => apply tidy_memcpyDtoH; [apply handle_background|in_use]
  | |- tidy _ _ (graphLaunch _ _ _ _) => apply tidy_graphLaunch; [apply handle_background|in_use]
  | |- tidy _ _ (closure _) => apply tidy_closure
  | |- tidy _ _ (deref _) => apply tidy_deref
  | |- tidy _ _ (doJobCtx _ _ _) => apply tidy_doJobCtx, handle_background
  | |- tidy _ _ (syncOp_Run _) => apply tidy_syncOp_Run, handle_background
  | HP : forall cl, _ -> handle_use _ _ _ _ cl |- handle_use _ _ _ _ _ => apply HP
  | |- _ => first [tidy_step|unfold_call]
  end.

Ltac use_auto := repeat use_step.

(** What is left of an operation is that its call is one of those listed. *)
Ltac use_leaf :=
  reflect_bools;
  first [done
  | solve [eauto 6 with tidy]
  | repeat first [eexists | split]; solve [done | eauto using jit_options_length | lia | congruence]
  | rewrite int32_id by (unfold MinInt32, MaxInt32 in *; lia); repeat split; solve [done | lia]
  | left; done | right; repeat first [eexists | split]; solve [done | lia | eauto using streamOptions_range]
  | idtac].

(** The calls whose arguments come from option lists or sizes. *)
Ltac use_rest :=
  first
  [ right; eexists; split; [|done]; eapply streamOptions_range; [|eassumption|eassumption]; done
  | eexists; split; [|done]; eapply eventOptions_range; [|eassumption]; cbn; unfold eventDefault; lia
  | do 2 eexists; split; [|reflexivity]; eapply jit_options_length; eassumption
  | split; [lia|]; match goal with |- context [int32 ?v] => now rewrite (int32_id v) by (unfold MinInt32, MaxInt32 in *; lia) end
  | match goal with T : elem, Hn : is_int ?n |- _ => let Ea := fresh "Ea" in destruct (alloc_size T n) as (? & ? & Ea); [assumption..|rewrite ?Ea; now split_and!] end ].

Section HandleTheorems.
Context `{Foreign, !HostMemory}.


End HandleTheorems.

(** ** Closing *)

Section Closers.
Context `{Foreign}.

(** Every [Close]: the identity of the resource, its context, its releasing call and the name of that call. *)
Inductive closer : loc -> option Context -> call -> string -> M err -> Type :=
| close_Buffer T (b : Buffer T) : closer (bf_id b) (bf_ctx b) (CuMemFree (bf_ptr b)) "cuMemFree_v2" (Buffer_Close (Some b))
| close_HostBuffer T (b : HostBuffer T) : closer (hb_id b) (hb_ctx b) (CuMemFreeHost (hb_ptr b)) "cuMemFreeHost" (HostBuffer_Close (Some b))
| close_RegisteredHost T (b : RegisteredHost T) : closer (rh_id b) (rh_ctx b) (CuMemHostUnregister (rh_ptr b)) "cuMemHostUnregister" (RegisteredHost_Close (Some b))
| close_Stream s : closer (sm_id s) (sm_ctx s) (CuStreamDestroy (sm_raw s)) "cuStreamDestroy_v2" (Stream_Close (Some s))
| close_Event e : closer (ev_id e) (ev_ctx e) (CuEventDestroy (ev_raw e)) "cuEventDestroy_v2" (Event_Close (Some e))
| close_Module m : closer (md_id m) (md_ctx m) (CuModuleUnload (md_raw m)) "cuModuleUnload" (Module_Close (Some m))
| close_Linker l : closer (lk_id l) (lk_ctx l) (CuLinkDestroy (lk_raw l)) "cuLinkDestroy" (Linker_Close (Some l))
| close_Pitched T (b : PitchedBuffer T) : closer (pb_id b) (pb_ctx b) (CuMemFree (pb_ptr b)) "cuMemFree_v2" (PitchedBuffer_Close (Some b))
| close_Volume T (v : Volume T) : closer (vo_id v) (vo_ctx v) (CuMemFree (vo_ptr v)) "cuMemFree_v2" (Volume_Close (Some v))
| close_Array T (a : Array2D T) : closer (ar_id a) (ar_ctx a) (CuArrayDestroy (ar_handle a)) "cuArrayDestroy" (Array2D_Close (Some a))
| close_Texture t : closer (tx_id t) (tx_ctx t) (CuTexObjectDestroy (tx_handle t)) "cuTexObjectDestroy" (Texture_Close (Some t))
| close_Surface s : closer (sf_id s) (sf_ctx s) (CuSurfObjectDestroy (sf_handle s)) "cuSurfObjectDestroy" (Surface_Close (Some s))
| close_Managed T (m : ManagedBuffer T) : closer (mb_id m) (mb_ctx m) (CuMemFree (mb_ptr m)) "cuMemFree_v2" (ManagedBuffer_Close (Some m))
| close_Graph g : closer (gr_id g) (gr_ctx g) (CuGraphDestroy (gr_raw g)) "cuGraphDestroy" (Graph_Close (Some g))
| close_GraphExec e : closer (ge_id e) (ge_ctx e) (CuGraphExecDestroy (ge_raw e)) "cuGraphExecDestroy" (GraphExec_Close (Some e))
| close_IPC T (b : IPCBuffer T) : closer (ib_id b) (ib_ctx b) (CuIpcCloseMemHandle (ib_ptr b)) "cuIpcCloseMemHandle" (IPCBuffer_Close (Some b)).

(** They are all the same function of their releasing wrapper, which makes the call when it is bound. *)
Lemma closer_shape l c cl name m : closer l c cl name m ->
  exists release : option Driver -> M err,
    m = close_resource l (let! r := doBarrier c Background tt (closure (release (ctx_driver c))) in ret r.2) /\
    (forall d s, drv_bound d (call_field cl) = true ->
       release (Some d) s = (Done (check name (call_code (st_env s) cl s)), after_call (st_env s) cl s)) /\
    (forall P E d, P E cl -> tidy P E (release d)).
Proof.
  destruct 1; lazymatch goal with |- exists _, ?m = _ /\ _ => let rec go t := lazymatch t with ?f _ => go f | _ => unfold t end in go m end;
    lazymatch goal with |- context [closure (?f (ctx_driver _) ?p)] => exists (fun d => f d p); (split; [reflexivity|split]);
      [intros d s0 Hb; first [now apply required_call|now apply optional_call]|intros P E d HP; unfold_call; tidy_auto] end.
Qed.

(** C18.  Every [Close] - of buffers, host memory, streams, events, modules, linkers, pitched, volume and array memory, textures, surfaces, managed memory, graphs,
    executables and interprocess memory - releases once and can be retried.  In any state it calls the driver, besides background calls, only to release its own handle,
    alone (holding the lock for writing) and open, and its resource is closed if and only if it returned nil, nothing else having changed that others see; a closed resource gives nil without
    any effect; one whose context was closed first gives [ErrContextClosed] without any effect; on a ready context the driver is asked exactly once: if it refuses, its error is
    returned and the resource stays open, otherwise the resource becomes closed. *)
Theorem Close_spec (l : loc) (c : option Context) (cl : call) (name : string) (m : M err) (s : state) :
  closer l c cl name m ->
  tidy_close (fun E cl' => background cl' = true \/ (cl' = cl /\ open l E /\ w_held (l, OpMu) E)) (st_env s) l m /\
  (~ open l (st_env s) -> unlocked (l, OpMu) s -> m s = (Done None, s)) /\
  (forall x, c = Some x -> open l (st_env s) -> unlocked (l, OpMu) s -> l <> cx_id x ->
     (~ open (cx_id x) (st_env s) -> not_writing (cx_id x, OpMu) s -> cs_exec (default zero_ctx (st_ctxs s !! cx_id x)) <> None ->
        m s = (Done (Some ErrContextClosed), s)) /\
     (forall d e, cx_driver x = Some d -> drv_bound d (call_field cl) = true -> ready x e s ->
        cs_syncActive (default zero_ctx (st_ctxs s !! cx_id x)) = 0 ->
        let E := job_env x e (wlocked (l, OpMu) (st_env s)) in
        m s = match check name (call_code E cl s) with
              | None => (Done None, set_env (with_closed l (st_env s)) (after_call E cl s))
              | Some er => (Done (Some er), set_env (st_env s) (after_call E cl s))
              end)).
Proof.
  intros Hm. destruct (closer_shape l c cl name m Hm) as (release & -> & Hcall & Htidy).
  assert (Hcl : forall k s, ~ open k (st_env s) -> k ∈ env_closed (st_env s)).
  { intros k s0 Hk. unfold open in Hk. now destruct (decide (k ∈ env_closed (st_env s0))). }
  split; [|split; [|intros x -> Ho Hu Hne; split]].
  - apply tidy_close_resource. intros Ho. apply tidy_bind; [|intros; apply tidy_ret].
    apply tidy_doBarrier; [now left|]. destruct c as [x|]; [|exact I]. intros e _.
    apply tidy_closure, Htidy. right. split_and!; [done|exact Ho|]. unfold w_held. cbn. set_solver.
  - intros Ho Hu. apply close_resource_closed; [now apply Hcl|exact Hu].
  - intros Hx Hw He. apply close_resource_orphan; try done. now apply Hcl.
  - intros d e Hd Hb Hrd Hsa E. apply (close_resource_ready x e l _ name cl s); try done.
    intros s'. cbn [ctx_driver]. rewrite Hd. now apply Hcall.
Qed.

End Closers.
