(* ===== verification/VmmProps.v ===== *)
(** * Properties of virtual memory: the acquisition transaction and the retryable teardown

    What the driver holds for a buffer is followed by a ledger: which physical allocation, which reserved range, and whether
    it is mapped.  [path] relates two states by a sequence of driver calls, each legal for the ledger it is made in. *)

From S2P Require Import Prelude CudaSys Errors Runtime CudaResult ExecutorApi Context Dispatch Resource Handles Buffer Vmm Ready.

(** ** Rounding *)

(** [roundUp] gives the least multiple not below [v], or fails when it does not fit 64 bits. *)
Lemma roundUp_spec v mult : is_uint64 v -> 0 < mult <= MaxUint64 ->
  match roundUp v mult with
  | (r, true) => v <= r < v + mult /\ r mod mult = 0 /\ is_uint64 r
  | (_, false) => forall r, v <= r -> r mod mult = 0 -> MaxUint64 < r
  end.
Proof.
  intros Hv Hm. unfold roundUp, is_uint64, MaxUint64 in *. pose proof (Z.mod_pos_bound v mult ltac:(lia)) as Hr.
  pose proof (Z.div_mod v mult ltac:(lia)) as Hdm.
  destruct (Z.eqb_spec (v mod mult) 0) as [H0|H0]; [lia|].
  rewrite (uint64_id (mult - v mod mult)) by (unfold is_uint64; lia).
  rewrite (uint64_id (2 ^ 64 - 1 - v)) by (unfold is_uint64; lia).
  assert (Hmul : (v + (mult - v mod mult)) mod mult = 0).
  { replace (v + (mult - v mod mult)) with ((v / mult + 1) * mult) by lia. apply Z.mod_mul. lia. }
  destruct (Z.ltb_spec (2 ^ 64 - 1 - v) (mult - v mod mult)) as [Hlt|Hge].
  - intros r Hvr Hrm. assert (Hq : r = r / mult * mult) by (pose proof (Z.div_mod r mult ltac:(lia)); lia).
    assert (v / mult < r / mult) by nia. nia.
  - rewrite uint64_id by (unfold is_uint64; lia). split; [lia|]. split; [exact Hmul|lia].
Qed.

(** ** The ledger *)

(** The physical allocation (handle and size), the reserved range (address and size), and whether they are mapped. *)
Record Ledger := mkLedger { lg_created : option (Z * Z); lg_reserved : option (Z * Z); lg_mapped : bool }.

Definition nothing : Ledger := mkLedger None None false.

(** What the driver documents of these calls: what may be done in which state.  A range is freed only when nothing is
    mapped in it; physical memory may be released while it is mapped. *)
Definition legal (c : call) (l : Ledger) : Prop :=
  match c with
  | CuMemCreate _ _ _ => lg_created l = None
  | CuMemAddressReserve _ _ _ _ => lg_reserved l = None
  | CuMemMap p size off h _ => lg_reserved l = Some (p, size) /\ lg_created l = Some (h, size) /\ lg_mapped l = false /\ off = 0
  | CuMemSetAccess p size _ _ | CuMemUnmap p size => lg_reserved l = Some (p, size) /\ lg_mapped l = true
  | CuMemAddressFree p size => lg_reserved l = Some (p, size) /\ lg_mapped l = false
  | CuMemRelease h => exists size, lg_created l = Some (h, size)
  | _ => True
  end.

(** What a call that succeeded changes. *)
Definition effect (c : call) (r : Z * out c) (l : Ledger) : Ledger :=
  if r.1 =? 0 then
    match c as c return out c -> Ledger with
    | CuMemCreate size _ _ => fun h => mkLedger (Some (h, size)) (lg_reserved l) (lg_mapped l)
    | CuMemAddressReserve size _ _ _ => fun p => mkLedger (lg_created l) (Some (p, size)) (lg_mapped l)
    | CuMemMap _ _ _ _ _ => fun _ => mkLedger (lg_created l) (lg_reserved l) true
    | CuMemUnmap _ _ => fun _ => mkLedger (lg_created l) (lg_reserved l) false
    | CuMemAddressFree _ _ => fun _ => mkLedger (lg_created l) None (lg_mapped l)
    | CuMemRelease _ => fun _ => mkLedger None (lg_reserved l) (lg_mapped l)
    | _ => fun _ => l
    end r.2
  else l.

Section VmmProofs.
Context `{Foreign}.

Inductive path : state -> Ledger -> state -> Ledger -> Prop :=
| path_nil s l : path s l s l
| path_call s l c s' l' : legal c l ->
    path (after_call (st_env s) c s) (effect c (Sys (env_thread (st_env s)) c (st_world s)).1 l) s' l' -> path s l s' l'.

(** The number of failures an error reports. *)
Definition failures (e : error) : nat := match e with ErrJoin es => length es | _ => 1 end.

Definition vmm_bound (d : Driver) : Prop := Forall (fun f => drv_bound d f = true) vmm_fields.

(** The ledger a buffer's flags stand for. *)
Definition abs {T} (b : VirtualBuffer T) : Ledger :=
  mkLedger (if vb_created b then Some (vb_handle b, vb_size b) else None)
    (if vb_reserved b then Some (vb_ptr b, vb_size b) else None) (vb_mapped b).

(** A mapped buffer has its range. *)
Definition flags_ok {T} (b : VirtualBuffer T) : Prop := vb_mapped b = true -> vb_reserved b = true.

(** A driver that refuses nothing. *)
Definition accepting : Prop := forall t c w, (Sys t c w).1.1 = 0.

(** A driver that refuses nothing and can round [bytes] up to its granularity. *)
Definition obliging (bytes : Z) : Prop :=
  accepting /\ forall t p o w, let g : Z := (Sys t (CuMemGetAllocationGranularity p o) w).1.2 in 0 < g <= MaxUint64 /\ bytes + g <= 2 ^ 64.

(** The driver can answer [cl] with [r]. *)
Definition answer (cl : call) (r : Z * out cl) : Prop := exists t w, r = (Sys t cl w).1.

Lemma answer_accepting cl r : answer cl r -> accepting -> r.1 = 0.
Proof. intros (t & w & ->) Ha. apply Ha. Qed.

(** [ends m l Q]: from any state, [m] returns, has made only legal calls since the ledger was [l], is in its environment again, and
    [Q] holds of its result and the ledger. *)
Definition ends {A} (m : M A) (l : Ledger) (Q : A -> Ledger -> Prop) : Prop :=
  forall s, exists a s' l', m s = (Done a, s') /\ path s l s' l' /\ st_env s' = st_env s /\ Q a l'.

(** [op] is the call [cl], its result read by [f]. *)
Definition makes {A} (op : M A) (cl : call) (f : Z * out cl -> A) : Prop :=
  forall s, op s = (Done (f (Sys (env_thread (st_env s)) cl (st_world s)).1), after_call (st_env s) cl s).

Lemma ends_ret {A} (a : A) l (Q : A -> Ledger -> Prop) : Q a l -> ends (ret a) l Q.
Proof. intros HQ s. exists a, s, l. split_and!; [reflexivity|apply path_nil|done|exact HQ]. Qed.

Lemma ends_weaken {A} (m : M A) l (Q R : A -> Ledger -> Prop) : (forall a l, Q a l -> R a l) -> ends m l Q -> ends m l R.
Proof. intros HQ Hm s. destruct (Hm s) as (a & s' & l' & H1 & H2 & H3 & H4). exists a, s', l'. eauto. Qed.

Lemma path_trans s1 l1 s2 l2 s3 l3 : path s1 l1 s2 l2 -> path s2 l2 s3 l3 -> path s1 l1 s3 l3.
Proof. intros Hp Hq. induction Hp as [|s l c s' l' Hl Hp IH]; [exact Hq|]. apply path_call with c; [exact Hl|exact (IH Hq)]. Qed.

Lemma path_next s l s' l' : path s l s' l' -> st_next s' = st_next s.
Proof. intros Hp. induction Hp as [|s l c s' l' _ _ IH]; [done|exact IH]. Qed.

Lemma ends_bind {A B} (m : M A) (k : A -> M B) l (Q : A -> Ledger -> Prop) (R : B -> Ledger -> Prop) :
  ends m l Q -> (forall a l', Q a l' -> ends (k a) l' R) -> ends (bind m k) l R.
Proof.
  intros Hm Hk s. destruct (Hm s) as (a & s1 & l1 & H1 & H2 & H3 & H4). destruct (Hk a l1 H4 s1) as (b & s2 & l2 & K1 & K2 & K3 & K4).
  exists b, s2, l2. split_and!; [unfold bind; now rewrite H1|now apply path_trans with s1 l1|congruence|exact K4].
Qed.

Lemma ends_call {A B} (op : M A) cl f (k : A -> M B) l (Q : B -> Ledger -> Prop) :
  makes op cl f -> legal cl l -> (forall r, answer cl r -> ends (k (f r)) (effect cl r l) Q) -> ends (bind op k) l Q.
Proof.
  intros Hop Hl Hk s. set (r := (Sys (env_thread (st_env s)) cl (st_world s)).1).
  destruct (Hk r ltac:(now eexists _, _) (after_call (st_env s) cl s)) as (a & s' & l' & H1 & H2 & H3 & H4).
  exists a, s', l'. split_and!; [unfold bind; now rewrite Hop|now apply path_call with cl|exact H3|exact H4].
Qed.

Lemma ends_device {B} c dv (k : Z -> M B) l (Q : B -> Ledger -> Prop) :
  cx_device c = Some dv -> ends (k (dv_handle dv)) l Q -> ends (bind (device_handle c) k) l Q.
Proof. intros Hd Hk. unfold device_handle. rewrite Hd. exact Hk. Qed.

(** *** The wrappers, bound *)

Lemma optional_makes d f name cl :
  f = call_field cl -> drv_bound d f = true ->
  makes (optional (Some d) f id (let! r := invoke (Some d) cl in ret (check name r.1))) cl (fun r => check name r.1).
Proof. intros Hf Hb s. now apply optional_call. Qed.

Lemma checked_makes {A} d f name (zero : A) cl (get_out : Z * out cl -> Z * A) :
  f = call_field cl -> drv_bound d f = true ->
  makes (optional (Some d) f (pair zero) (let! r := invoke (Some d) cl in ret (checked zero name (get_out r)))) cl
    (fun r => checked zero name (get_out r)).
Proof. intros -> Hb s. unfold optional, lacks. rewrite Hb. cbn [negb]. unfold bind. now rewrite invoke_call. Qed.

Lemma wrapper_bound d f : vmm_bound d -> f ∈ vmm_fields -> drv_bound d f = true.
Proof. intros Hb Hf. now apply (proj1 (Forall_forall _ _) Hb). Qed.

Ltac bound := apply wrapper_bound; [assumption|unfold vmm_fields; set_solver].

Lemma MemUnmap_makes d p size : vmm_bound d ->
  makes (cudaresult.MemUnmap (Some d) p size) (CuMemUnmap p size) (fun r => check "cuMemUnmap" r.1).
Proof. intros Hb. apply optional_makes; [reflexivity|bound]. Qed.

Lemma MemRelease_makes d h : vmm_bound d ->
  makes (cudaresult.MemRelease (Some d) h) (CuMemRelease h) (fun r => check "cuMemRelease" r.1).
Proof. intros Hb. apply optional_makes; [reflexivity|bound]. Qed.

Lemma MemAddressFree_makes d p size : vmm_bound d ->
  makes (cudaresult.MemAddressFree (Some d) p size) (CuMemAddressFree p size) (fun r => check "cuMemAddressFree" r.1).
Proof. intros Hb. apply optional_makes; [reflexivity|bound]. Qed.

Lemma MemMap_makes d p size h : vmm_bound d ->
  makes (cudaresult.MemMap (Some d) p size h) (CuMemMap p size 0 h 0) (fun r => check "cuMemMap" r.1).
Proof. intros Hb. apply optional_makes; [reflexivity|bound]. Qed.

Lemma MemSetAccess_makes d p size desc : vmm_bound d ->
  makes (cudaresult.MemSetAccess (Some d) p size desc) (CuMemSetAccess p size desc 1) (fun r => check "cuMemSetAccess" r.1).
Proof. intros Hb. apply optional_makes; [reflexivity|bound]. Qed.

Lemma MemCreate_makes d size prop : vmm_bound d ->
  makes (cudaresult.MemCreate (Some d) size prop) (CuMemCreate size prop 0) (checked 0 "cuMemCreate").
Proof. intros Hb. apply (checked_makes d _ "cuMemCreate" 0 (CuMemCreate size prop 0) id); [reflexivity|bound]. Qed.

Lemma MemAddressReserve_makes d size gran : vmm_bound d ->
  makes (cudaresult.MemAddressReserve (Some d) size gran) (CuMemAddressReserve size gran 0 0) (checked 0 "cuMemAddressReserve").
Proof. intros Hb. apply (checked_makes d _ "cuMemAddressReserve" 0 (CuMemAddressReserve size gran 0 0) id); [reflexivity|bound]. Qed.

Lemma Granularity_makes d prop o : vmm_bound d ->
  makes (cudaresult.MemGetAllocationGranularity (Some d) prop o) (CuMemGetAllocationGranularity prop o)
    (checked 0 "cuMemGetAllocationGranularity").
Proof. intros Hb. apply (checked_makes d _ "cuMemGetAllocationGranularity" 0 (CuMemGetAllocationGranularity prop o) id); [reflexivity|bound]. Qed.

(** *** Acquisition *)

(** After an acquisition: everything, or - when only one failure is reported - nothing. *)
Definition acquired (size : Z) (r : Z * Z * err) (l : Ledger) : Prop :=
  match r.2 with
  | None => l = mkLedger (Some (r.1.2, size)) (Some (r.1.1, size)) true
  | Some e => ~ accepting /\ (failures e = 1%nat <-> l = nothing)
  end.

(** Case analysis on the code of the last call. *)
Ltac code Hacc c v :=
  intros [c v] Hacc; pose proof (answer_accepting _ _ Hacc); unfold effect, checked, check, CUDA_SUCCESS; cbn [fst snd]; destruct (Z.eqb_spec c 0); cbn [fst snd].

Lemma acquire_ends c d dv size gran prop :
  cx_driver c = Some d -> cx_device c = Some dv -> vmm_bound d ->
  ends (acquireVirtual c size gran prop) nothing (acquired size).
Proof.
  intros Hd Hdv Hb. unfold acquireVirtual. rewrite Hd.
  eapply ends_call; [now apply MemCreate_makes|reflexivity|]. code A1 c1 h; [|apply ends_ret; split; [tauto|done]].
  eapply ends_call; [now apply MemAddressReserve_makes|reflexivity|]. code A2 c2 p.
  2: { eapply ends_call; [now apply MemRelease_makes|now eexists|]. code A3 c3 x; apply ends_ret; (split; [tauto|done]). }
  eapply ends_call; [now apply MemMap_makes|now split_and!|]. code A3 c3 x.
  2: { eapply ends_call; [now apply MemAddressFree_makes|now split|]. code A4 c4 y;
       (eapply ends_call; [now apply MemRelease_makes|now eexists|]); code A5 c5 z; apply ends_ret; (split; [tauto|done]). }
  apply (ends_device _ dv); [exact Hdv|].
  eapply ends_call; [now apply MemSetAccess_makes|now split|]. code A4 c4 y; [now apply ends_ret|].
  eapply ends_call; [now apply MemUnmap_makes|now split|]. code A5 c5 z.
  - apply (ends_bind _ _ _ (fun rb l => exists c6, rb = [Some (ErrCode c4 "cuMemSetAccess"); None; check "cuMemAddressFree" c6] /\
      l = mkLedger (Some (h, size)) (if c6 =? 0 then None else Some (p, size)) false)).
    + eapply ends_call; [now apply MemAddressFree_makes|now split|]. intros [c6 w] _. apply ends_ret. exists c6. split; [reflexivity|].
      unfold effect. cbn. now destruct (c6 =? 0).
    + intros rb l (c6 & -> & ->). eapply ends_call; [now apply MemRelease_makes|now eexists|]. unfold check, CUDA_SUCCESS.
      destruct (c6 =? 0); code A7 c7 w; apply ends_ret; (split; [tauto|done]).
  - unfold bind at 1, ret at 1. apply (ends_call _ _ _ _ _ _ (MemRelease_makes d h Hb)); [now eexists|]. code A7 c7 w; apply ends_ret; (split; [tauto|done]).
Qed.

Lemma alloc_closure_ends x d dv bytes :
  is_uint64 bytes ->
  cx_driver x = Some d -> cx_device x = Some dv -> vmm_bound d ->
  ends (alloc_virtual_closure x bytes) nothing (fun r l =>
    match r.2 with
    | None => l = mkLedger (Some (r.1.1.2, r.1.2)) (Some (r.1.1.1, r.1.2)) true
    | Some e => ~ obliging bytes /\ (failures e = 1%nat <-> l = nothing)
    end).
Proof.
  intros Hby Hd Hdv Hb. unfold alloc_virtual_closure, memProp. rewrite Hd.
  apply (ends_bind _ _ _ (fun _ l => l = nothing)); [apply (ends_device _ dv); [exact Hdv|]; now apply ends_ret|]. intros prop _ ->.
  eapply ends_call; [now apply Granularity_makes|exact I|]. code A1 c1 gran; [|apply ends_ret; split; [intros [? _]; tauto|done]].
  assert (Hg : obliging bytes -> 0 < gran <= MaxUint64 /\ bytes + gran <= 2 ^ 64).
  { intros [_ Hg]. destruct A1 as (t & w & Hr). specialize (Hg t prop granularityRecommend w). rewrite <- Hr in Hg. exact Hg. }
  destruct (Z.eqb_spec gran 0) as [->|Hg0]; [apply ends_ret; split; [intros Ho; destruct (Hg Ho); lia|done]|].
  destruct (roundUp bytes gran) as [size []] eqn:Hround; cbn [negb].
  - eapply ends_bind; [now apply (acquire_ends x d dv)|]. intros [[p h] [er|]] l Hq; cbn [fst snd] in *; apply ends_ret; [|apply Hq].
    split; [intros [? _]; now apply Hq|apply Hq].
  - apply ends_ret. split; [|done]. intros Ho. destruct (Hg Ho) as [Hgr Hsum]. pose proof (roundUp_spec bytes gran Hby Hgr) as Hru. rewrite Hround in Hru.
    specialize (Hru ((bytes / gran + 1) * gran)). pose proof (Z.div_mod bytes gran ltac:(lia)). pose proof (Z.mod_pos_bound bytes gran ltac:(lia)).
    rewrite Z.mod_mul in Hru by lia. assert (Hm : MaxUint64 < (bytes / gran + 1) * gran) by (apply Hru; lia).
    unfold MaxUint64 in *. destruct (Z.eq_dec (bytes mod gran) 0); [|lia]. unfold roundUp in Hround. rewrite e0 in Hround. discriminate.
Qed.

(** *** Teardown *)

(** [tryFree] of a live or dead piece: the flag follows the ledger, an error is recorded exactly when the call failed. *)
Lemma tryFree_ends live errs (op : M err) name cl l (Q : bool * list err -> Ledger -> Prop) :
  makes op cl (fun r => check name r.1) ->
  (live = true -> legal cl l) ->
  (live = false -> Q (false, errs) l) ->
  (forall r, live = true -> r.1 = 0 -> Q (false, errs) (effect cl r l)) ->
  (forall r, live = true -> r.1 <> 0 -> ~ accepting -> Q (true, errs ++ [Some (ErrCode r.1 name)]) (effect cl r l)) ->
  ends (tryFree live errs op) l Q.
Proof.
  intros Hop Hl H0 H1 H2. unfold tryFree. destruct live; cbn [negb]; [|now apply ends_ret, H0].
  eapply ends_call; [exact Hop|now apply Hl|]. intros r Ha. pose proof (answer_accepting _ _ Ha). unfold check, CUDA_SUCCESS.
  destruct (Z.eqb_spec r.1 0) as [E|E]; apply ends_ret; [now apply H1|]. apply H2; [done|exact E|tauto].
Qed.

(** What [free_virtual] leaves of a buffer. *)
Definition torn_down {T} (b : VirtualBuffer T) (r : VirtualBuffer T * list err * err) (l : Ledger) : Prop :=
  let b' := r.1.1 in let errs := r.1.2 in
  r.2 = None /\ b' = set_live (vb_mapped b') (vb_reserved b') (vb_created b') b /\ l = abs b' /\ flags_ok b' /\
  (errs = [] <-> l = nothing) /\ Forall (fun e => e <> None) errs /\ (accepting -> errs = []).

Lemma free_ends {T} (b : VirtualBuffer T) x d :
  vb_ctx b = Some x -> cx_driver x = Some d -> vmm_bound d -> flags_ok b ->
  ends (free_virtual b) (abs b) (torn_down b).
Proof.
  intros Hx Hd Hb Hok. unfold free_virtual. rewrite Hx. cbn [ctx_driver]. rewrite Hd. destruct b as [id c p h sz n by_ m rs cr]. unfold flags_ok, abs in *. cbn [vb_mapped vb_reserved vb_created vb_ptr vb_size vb_handle] in *.
  apply (ends_bind _ _ _ (fun (r : bool * list err) l => l = mkLedger (if cr then Some (h, sz) else None) (if rs then Some (p, sz) else None) r.1 /\
    (r.1 = true -> rs = true) /\ (r.2 = [] <-> r.1 = false) /\ Forall (fun e => e <> None) r.2 /\ (accepting -> r.2 = []))).
  { eapply tryFree_ends; [now apply MemUnmap_makes|..].
    - intros ->. now rewrite Hok.
    - intros ->. now split_and!.
    - intros r -> E. unfold effect. rewrite E. cbn. now split_and!.
    - intros r -> E Ha. unfold effect. rewrite (proj2 (Z.eqb_neq _ _) E). cbn. split_and!; try done. repeat constructor; done. }
  intros [m1 e1] l (-> & Hm & He & Hf & Ha). cbn [fst snd] in *.
  apply (ends_bind _ _ _ (fun (r : bool * list err) l => l = mkLedger (if r.1 then Some (h, sz) else None) (if rs then Some (p, sz) else None) m1 /\
    (r.2 = [] <-> m1 = false /\ r.1 = false) /\ Forall (fun e => e <> None) r.2 /\ (accepting -> r.2 = []))).
  { eapply tryFree_ends; [now apply MemRelease_makes|..].
    - intros ->. now eexists.
    - intros ->. split_and!; try done. cbn. rewrite He. tauto.
    - intros r -> E. unfold effect. rewrite E. cbn. split_and!; try done. rewrite He. tauto.
    - intros r -> E Hna. unfold effect. rewrite (proj2 (Z.eqb_neq _ _) E). cbn. split_and!; try done.
      + split; [intros Hn; now apply app_nil in Hn|intros [_ ?]; done].
      + apply Forall_app. split; [done|]. repeat constructor; done. }
  intros [c1 e2] l (-> & He2 & Hf2 & Ha2). cbn [fst snd] in *.
  apply (ends_bind _ _ _ (fun (r : bool * list err) l => l = mkLedger (if c1 then Some (h, sz) else None) (if r.1 then Some (p, sz) else None) m1 /\
    (m1 = true -> r.1 = true) /\ (r.2 = [] <-> m1 = false /\ c1 = false /\ r.1 = false) /\ Forall (fun e => e <> None) r.2 /\ (accepting -> r.2 = []))).
  { destruct m1; cbn [negb].
    - apply ends_ret. rewrite (Hm eq_refl) in *. split_and!; try done. cbn. rewrite He2. naive_solver.
    - eapply tryFree_ends; [now apply MemAddressFree_makes|..].
      + intros ->. now split.
      + intros ->. cbn. split_and!; try done. rewrite He2. tauto.
      + intros r -> E. unfold effect. rewrite E. cbn. split_and!; try done. rewrite He2. tauto.
      + intros r -> E Hna. unfold effect. rewrite (proj2 (Z.eqb_neq _ _) E). cbn. split_and!; try done.
        * split; [intros Hn; now apply app_nil in Hn|intros (_ & _ & ?); done].
        * apply Forall_app. split; [done|]. repeat constructor; done. }
  intros [r1 e3] l (-> & Hm3 & He3 & Hf3 & Ha3). cbn [fst snd] in *. apply ends_ret. unfold torn_down, abs, flags_ok, set_live, nothing. cbn.
  split_and!; try done. rewrite He3. destruct m1, c1, r1; naive_solver.
Qed.

(** *** The two operations *)

Lemma errors_join_some es : es <> [] -> Forall (fun e => e <> None) es -> errors_join es <> None.
Proof. intros Hne Hf Hj. apply errors_join_nil in Hj. destruct es as [|e es]; [done|]. apply Forall_cons in Hj as [-> _]. now apply Forall_cons in Hf as [? _]. Qed.

Lemma vmmAvailable_run x d s : cx_driver x = Some d -> vmm_bound d -> vmmAvailable x s = (Done true, s).
Proof.
  intros Hd Hb. unfold vmmAvailable. rewrite Hd. unfold bind, deref, ret. f_equal. f_equal. apply forallb_forall. intros f Hf.
  now apply (wrapper_bound d), list_elem_of_In.
Qed.

(** C20.  Allocating virtual memory is all or nothing.  On a ready context, with the entry points bound, [AllocVirtual] of a valid length makes a sequence of driver calls each of
    which is legal after the ones before it - map only what was created and reserved, never free a range that is mapped, never undo what was not done - and then
    either returns an open, mapped buffer of [n*sizeof(T)] bytes whose fields are exactly what the driver holds for it, or an error; an error that reports one failure only means that the
    rollback succeeded and the driver holds nothing; and there is a buffer whenever the driver refuses nothing and the size can be rounded up to its granularity. *)
Theorem AllocVirtual_transaction (T : elem) (x : Context) (d : Driver) (dv : Device) (e : loc) (n : Z) (s : state) :
  cx_driver x = Some d -> cx_device x = Some dv -> vmm_bound d -> ready x e s ->
  0 < n -> n * sizeof T < 2 ^ 64 -> is_int n ->
  (forall l, l ∈ env_closed (st_env s) -> (l < st_next s)%positive) ->
  exists ob er s1 s' l,
    AllocVirtual T (Some x) n s = (Done (ob, er), s') /\
    path (set_env (job_env x e (st_env s)) s) nothing s1 l /\ st_env s' = st_env s /\ st_world s' = st_world s1 /\ st_trace s' = st_trace s1 /\
    match ob with
    | Some b => er = None /\ l = abs b /\ lg_mapped l = true /\ vb_bytes b = n * sizeof T /\ vb_length b = n /\ vb_ctx b = Some x /\
                flags_ok b /\ open (vb_id b) (st_env s')
    | None => ~ obliging (n * sizeof T) /\ exists er', er = Some er' /\ (failures er' = 1%nat <-> l = nothing)
    end.
Proof.
  intros Hd Hdv Hb Hrd H0 H1 Hi Hfr. unfold AllocVirtual.
  replace (n <=? 0) with false by (symmetry; apply Z.leb_gt; lia). cbv zeta. rewrite elemSize_sizeof, (uint64_of_int n) by (first [lia|exact Hi]).
  assert (Hsz : 1 <= sizeof T <= 8) by (destruct T; cbn; lia).
  replace (MaxUint64 / sizeof T <? n) with false
    by (symmetry; apply Z.ltb_ge, Z.div_le_lower_bound; unfold MaxUint64; lia).
  rewrite (uint64_id (n * sizeof T)) by (unfold is_uint64; nia).
  rewrite (bind_done _ _ _ _ _ (vmmAvailable_run x d s Hd Hb)). cbn [negb].
  destruct (alloc_closure_ends x d dv (n * sizeof T) ltac:(unfold is_uint64; nia) Hd Hdv Hb (set_env (job_env x e (st_env s)) s)) as ([[[p h] sz] er] & s1 & l & Hrun & Hp & He & Hq).
  pose proof (doWith_ready x e Background (0, 0, 0) _ false false s _ _ Hrd I (fun _ => eq_refl) ltac:(done) Hrun He) as Hw.
  unfold do_, bind at 1. rewrite Hw. cbn [fst snd] in *. destruct er as [er|].
  - exists None, (Some er), s1, (set_env (st_env s) s1), l. split_and!; try done; [apply Hq|]. exists er. split; [done|apply Hq].
  - unfold bind, new_loc, ret. eexists (Some _), None, s1, _, l. split_and!; try reflexivity; try exact Hp.
    all: unfold abs, flags_ok; cbn; subst l; try done. unfold open. cbn. intros Hin. apply Hfr in Hin. apply path_next in Hp. cbn in Hp. lia.
Qed.

(** C19.  [Close] of a virtual buffer follows the driver's ledger and can be retried until it succeeds.  On a ready context with nothing to drain, whatever pieces are still live, it makes only legal
    calls (in particular it never frees a range that is still mapped, and never releases a piece twice), the flags it leaves are exactly what the driver
    still holds, it returns nil and closes the buffer precisely when nothing is left - which is so when the driver refuses nothing - and otherwise returns the errors and leaves the buffer open
    for another [Close]; a closed buffer gives nil without any call. *)
Theorem VirtualBuffer_Close_retry {T} (b : VirtualBuffer T) (x : Context) (d : Driver) (e : loc) (s : state) :
  vb_ctx b = Some x -> cx_driver x = Some d -> vmm_bound d -> flags_ok b -> unlocked (vb_id b, OpMu) s ->
  (~ open (vb_id b) (st_env s) -> VirtualBuffer_Close (Some b) s = (Done (None, Some b), s)) /\
  (open (vb_id b) (st_env s) -> vb_id b <> cx_id x -> ready x e s -> cs_syncActive (default zero_ctx (st_ctxs s !! cx_id x)) = 0 ->
   exists er b' s1 s',
     VirtualBuffer_Close (Some b) s = (Done (er, Some b'), s') /\
     path (set_env (job_env x e (wlocked (vb_id b, OpMu) (st_env s))) s) (abs b) s1 (abs b') /\
     b' = set_live (vb_mapped b') (vb_reserved b') (vb_created b') b /\ flags_ok b' /\
     (er = None <-> abs b' = nothing) /\ (accepting -> er = None) /\
     s' = set_env (if is_nil er then with_closed (vb_id b) (st_env s) else st_env s) s1).
Proof.
  intros Hx Hd Hb Hok Hu. unfold VirtualBuffer_Close. set (s0 := set_env (wlocked (vb_id b, OpMu) (st_env s)) s). split.
  - intros Ho. rewrite (with_Lock_run _ _ s (Done (None, Some b)) s0); [|exact Hu| |exact I|cbn; set_solver].
    + cbn. rewrite wunlocked_wlocked by apply Hu. now destruct s.
    + fold s0. rewrite (bind_done _ _ s0 true s0); [reflexivity|]. apply is_closed_closed. cbn. unfold open in Ho. now destruct (decide (vb_id b ∈ env_closed (st_env s))).
  - intros Ho Hne Hrd Hsa. assert (Hrd0 : ready x e s0) by now apply ready_wlocked.
    destruct (free_ends b x d Hx Hd Hb Hok (set_env (job_env x e (st_env s0)) s0)) as ([[b' errs] er0] & s1 & l & Hrun & Hp & He & Hq).
    destruct Hq as (Her & Hb' & -> & Hok' & Hn & Hf & Hacc). cbn [fst snd] in *. subst er0.
    pose proof (doWith_ready x e Background (b, []) _ true true s0 _ _ Hrd0 I ltac:(done) (fun _ => Hsa) Hrun He) as Hw.
    set (er := match errs with [] => None | _ => errors_join errs end).
    assert (Her : er = None <-> errs = []).
    { subst er. destruct errs; [done|]. split; [|done]. intros Hj. exfalso. now apply errors_join_some in Hj. }
    exists er, b', s1, (set_env (if is_nil er then with_closed (vb_id b) (st_env s) else st_env s) s1).
    split; [|split; [exact Hp|split; [exact Hb'|split; [exact Hok'|split; [now rewrite Her|split; [now rewrite Her|reflexivity]]]]]].
    set (s2 := set_env (if is_nil er then with_closed (vb_id b) (st_env s0) else st_env s0) s1).
    rewrite (with_Lock_run _ _ s (Done (er, Some b')) s2); [|exact Hu| |exact I|subst s2; destruct er; cbn; set_solver].
    + f_equal. subst s2. destruct Hu as [Hu _]. clear -Hu. destruct s as [w [lr lw t cl] ? ? ? ? ? ? ? ?]. cbn in *.
      destruct er; cbn; unfold set_env, wunlocked, with_closed; cbn; repeat f_equal; set_solver.
    + fold s0. rewrite (bind_done _ _ s0 false s0) by (now apply is_closed_open). unfold doBarrier, bind at 1. rewrite Hx, Hw. cbn [fst snd].
      subst er s2. destruct errs as [|er errs]; [reflexivity|].
      destruct (errors_join (er :: errs)) as [j|] eqn:Hj; [reflexivity|]. exfalso. now apply errors_join_some in Hj.
Qed.

End VmmProofs.
