(* ===== verification/StreamProps.v ===== *)
(** * Properties of streams, events and host functions: results, errors, and what is left behind *)

From S2P Require Import Prelude CudaSys Errors Runtime CudaResult ExecutorApi Context Dispatch Resource Handles Buffer HostCb Streams Modules Regions Vmm Graphs Ready HandleProps.

Section Results.
Context `{Foreign}.

(** ** What a submitted closure gives back

    The zero value with some error, or what the closure returned. *)

Lemma yields_runTask {A} e (zero : A) j (Q : A * err -> Prop) :
  (forall er, Q (zero, Some er)) -> yields (job_Run j) Q -> yields (executor.runTask e zero j) Q.
Proof.
  intros Hz Hj. unfold executor.runTask, executor.runOne. apply yields_on.
  apply (yields_bind _ _ Q); [apply yields_recovering; [auto|exact Hj]|]. intros r Hr. apply yields_then. intros _. now apply yields_ret.
Qed.

Lemma yields_DoJob {A} e g (zero : A) j (Q : A * err -> Prop) :
  (forall er, Q (zero, Some er)) -> yields (job_Run j) Q -> yields (executor.DoJob e g zero j) Q.
Proof.
  intros Hz Hj. unfold executor.DoJob. apply yields_then. intros [er|].
  - apply yields_then. intros _. now apply yields_ret.
  - apply yields_then. intros _. now apply yields_runTask.
Qed.

Lemma yields_DoCtx {A} e g (zero : A) fn (Q : A * err -> Prop) :
  (forall er, Q (zero, Some er)) -> yields fn Q -> yields (executor.DoCtx e g zero fn) Q.
Proof.
  intros Hz Hf. unfold executor.DoCtx. apply yields_then. intros [er|]; [now apply yields_ret|].
  apply yields_then. intros _. apply (yields_bind _ _ Q); [now apply yields_runTask|]. intros r Hr.
  apply yields_then. intros [er|]; now apply yields_ret.
Qed.

Lemma yields_doWith {A} c g (zero : A) fn w b (Q : A * err -> Prop) :
  (forall er, Q (zero, Some er)) -> yields fn Q -> yields (doWith c g zero fn w b) Q.
Proof.
  intros Hz Hf. unfold doWith. destruct c as [c|]; [|now apply yields_ret]. apply yields_with_RLock, yields_then. intros cs.
  destruct (cs_exec cs) as [e|]; [|now apply yields_ret]. apply yields_then. intros []; [now apply yields_ret|].
  destruct (cs_commandErr cs) as [ce|]; [apply yields_then; intros [x|]; now apply yields_ret|].
  destruct w; [|now apply yields_DoCtx]. apply yields_then. intros [x|]; [now apply yields_ret|].
  apply yields_then. intros [x|]; [now apply yields_ret|]. now apply yields_DoJob.
Qed.

Lemma yields_opened {A} l (e : A) k (Q : A -> Prop) : Q e -> yields k Q -> yields (opened l e k) Q.
Proof. intros He Hk. apply yields_with_RLock, yields_then. intros []; [now apply yields_ret|exact Hk]. Qed.

End Results.

(** ** Host functions *)

Section HostFunctions.
Context `{Foreign} {Fn : Type}.
Implicit Types cb : hostcb.st Fn.

(** Minting the trampoline does not touch the registry. *)
Lemma Callback_registry new cb : hostcb.registry Fn (hostcb.Callback Fn new cb).2 = hostcb.registry Fn cb.
Proof. unfold hostcb.Callback, hostcb.initCallback. now destruct (hostcb.trampOnce Fn cb). Qed.

Lemma wf_registry cb cb' : hostcb.registry Fn cb' = hostcb.registry Fn cb -> hostcb.wf Fn cb -> hostcb.wf Fn cb'.
Proof. intros E [H1 H2]. split; rewrite E; assumption. Qed.

Lemma abs_registry cb cb' : hostcb.registry Fn cb' = hostcb.registry Fn cb -> hostcb.abs Fn cb' = hostcb.abs Fn cb.
Proof. unfold hostcb.abs. now intros ->. Qed.

Lemma Register_spec fn cb : hostcb.wf Fn cb ->
  let '(k, cb') := hostcb.Register Fn fn cb in
  k = uint64 (hostcb.nextKey Fn cb + 1) /\ hostcb.wf Fn cb' /\ hostcb.abs Fn cb' = <[k := fn]> (hostcb.abs Fn cb).
Proof.
  intros Hwf. unfold hostcb.Register, hostcb.Register_key. split; [done|].
  set (cb1 := hostcb.mkSt _ _ _ _ _ _). apply (hostcb.Register_store_spec Fn _ fn cb1). now apply (wf_registry cb).
Qed.

(** Whether a callback was left in the registry. *)
Definition registered (fn : Fn) cb (r : err * hostcb.st Fn) : Prop :=
  let key := uint64 (hostcb.nextKey Fn cb + 1) in
  hostcb.wf Fn r.2 /\
  hostcb.abs Fn r.2 = match r.1 with None => <[key := fn]> (hostcb.abs Fn cb) | Some _ => hostcb.abs Fn cb end.

Lemma Unregister_registered fn cb cb' : hostcb.wf Fn cb -> hostcb.abs Fn cb !! uint64 (hostcb.nextKey Fn cb + 1) = None ->
  hostcb.wf Fn cb' -> hostcb.abs Fn cb' = <[uint64 (hostcb.nextKey Fn cb + 1) := fn]> (hostcb.abs Fn cb) ->
  forall e, registered fn cb (Some e, hostcb.Unregister Fn (uint64 (hostcb.nextKey Fn cb + 1)) cb').
Proof.
  intros Hwf Hk Hwf' Ha e. destruct (hostcb.Unregister_spec Fn (uint64 (hostcb.nextKey Fn cb + 1)) cb' Hwf') as [H1 H2].
  split; [exact H1|]. cbn [fst snd]. rewrite H2, Ha. now apply delete_insert_id.
Qed.

(** C21.  [LaunchHostFunc] leaves no callback behind when it fails.  For a stream and a closure, whatever the state, the driver and the executor do: when it returns nil the closure is
    registered under the next key and nothing else of the registry changed; when it returns an error the registry is as it was, so that the closure neither leaks nor can be
    run; its only driver call (besides background calls) hands the driver the trampoline and that key, while the stream is open and locked; and on a ready context it returns the driver's answer. *)
Theorem LaunchHostFunc_no_leak (new : Z) (s : Stream) (fn : Fn) (cb : hostcb.st Fn) :
  let key := uint64 (hostcb.nextKey Fn cb + 1) in
  hostcb.wf Fn cb -> hostcb.abs Fn cb !! key = None ->
  let ptr := if hostcb.trampOnce Fn cb then hostcb.tramp Fn cb else new in
  yields (LaunchHostFunc new (Some s) (Some fn) cb) (registered fn cb) /\
  (forall E, tidy (handle_use [sm_id s] (sm_ctx s) (eq (CuLaunchHostFunc (sm_raw s) ptr key))) E (LaunchHostFunc new (Some s) (Some fn) cb)) /\
  (forall x d e s0, sm_ctx s = Some x -> cx_driver x = Some d -> drv_bound d F_CuLaunchHostFunc = true -> ready x e s0 ->
     open (sm_id s) (st_env s0) -> not_writing (sm_id s, OpMu) s0 ->
     let E := job_env x e (rlocked (sm_id s, OpMu) (st_env s0)) in
     let cl := CuLaunchHostFunc (sm_raw s) ptr key in
     exists cb', LaunchHostFunc new (Some s) (Some fn) cb s0 =
       (Done (check "cuLaunchHostFunc" (call_code E cl s0), cb'), set_env (st_env s0) (after_call E cl s0))).
Proof.
  intros key Hwf Hk ptr. unfold LaunchHostFunc.
  pose proof (Register_spec fn cb Hwf) as Hreg. destruct (hostcb.Register Fn fn cb) as [k cb1] eqn:Hr. destruct Hreg as (-> & Hwf1 & Ha1). fold key in Ha1 |- *.
  assert (Hcb2 : hostcb.registry Fn (hostcb.Callback Fn new cb1).2 = hostcb.registry Fn cb1) by apply Callback_registry.
  assert (Hp : (hostcb.Callback Fn new cb1).1 = ptr).
  { subst ptr. apply (f_equal snd) in Hr. cbn in Hr. subst cb1. unfold hostcb.Callback. cbn. now destruct (hostcb.trampOnce Fn cb). }
  destruct (hostcb.Callback Fn new cb1) as [p cb2]. cbn [fst snd] in *. subst p.
  split; [|split].
  - apply yields_opened; [now split|].
    apply (yields_bind _ _ (fun r => hostcb.registry Fn r.1 = hostcb.registry Fn cb1)).
    + apply yields_doWith; [done|]. apply yields_then. intros e. now apply yields_ret.
    + intros [cb' [e|]] Hcb'; cbn [fst snd] in *; apply yields_ret.
      * apply Unregister_registered; [done|done|now apply (wf_registry cb1)|now rewrite (abs_registry cb1)].
      * split; cbn [fst snd]; [now apply (wf_registry cb1)|]. now rewrite (abs_registry cb1).
  - intros E. use_auto; reflexivity.
  - intros x d e s0 Hx Hd Hb Hrd Ho Hw. set (E := job_env x e _). set (cl := CuLaunchHostFunc (sm_raw s) ptr key). set (s1 := set_env (rlocked (sm_id s, OpMu) (st_env s0)) s0). rewrite Hx. cbn [ctx_driver]. rewrite Hd.
    assert (Hrd1 : ready x e s1) by now apply ready_opened.
    assert (Hrun : (let! e := cudaresult.LaunchHostFunc (Some d) (sm_raw s) ptr key in ret (cb2, e)) (set_env E s1) =
      (Done (cb2, check "cuLaunchHostFunc" (call_code E cl s0)), after_call E cl (set_env E s1))).
    { unfold bind at 1. unfold cudaresult.LaunchHostFunc. rewrite (optional_call d F_CuLaunchHostFunc "cuLaunchHostFunc" cl) by done. reflexivity. }
    pose proof (doWith_ready x e Background cb1 _ true false s1 _ _ Hrd1 I ltac:(done) ltac:(done) Hrun eq_refl) as Hdo.
    set (er := check _ _) in *. exists (match er with Some _ => hostcb.Unregister Fn key cb2 | None => cb2 end).
    rewrite (opened_open _ _ _ s0 (Done (er, match er with Some _ => hostcb.Unregister Fn key cb2 | None => cb2 end))
      (set_env (st_env s1) (after_call E cl (set_env E s1))) Ho Hw); [reflexivity| |exact I|reflexivity].
    fold s1. unfold doWait, bind at 1. rewrite Hdo. cbn [fst snd]. now destruct er.
Qed.

End HostFunctions.
