(* ===== verification/Constructors.v ===== *)
(** * What the constructors build

    A resource is well formed when its lengths, pitches and addresses are those of memory it owns, so that the arithmetic of its operations is exact.  The constructors of the package
    return a well-formed resource of the context they were asked for and nil, or nothing and an error. *)

From S2P Require Import Prelude CudaSys Errors Runtime CudaResult ExecutorApi Context Dispatch Resource Handles Buffer Loader HostCb Streams Modules Regions Vmm Graphs Ready HandleProps VmmProps StreamProps.

(** ** Well-formed resources *)

(** [n] elements of [T] at [p] lie in the 64-bit address space. *)
Definition spans (T : elem) (p n bytes : Z) : Prop :=
  0 < n /\ is_int n /\ bytes = n * sizeof T /\ 0 <= p /\ bytes <= MaxUint64 /\ p + bytes <= 2 ^ 64.

(** [n] elements, wherever they are. *)
Definition counts (T : elem) (n bytes : Z) : Prop := 0 < n /\ is_int n /\ bytes = n * sizeof T /\ bytes <= MaxUint64.

Definition pitched_ok {T} (b : PitchedBuffer T) : Prop :=
  0 < pb_width b /\ is_int (pb_width b) /\ 0 < pb_height b /\ is_int (pb_height b) /\
  pb_width b * sizeof T <= pb_pitch b < 2 ^ 64 /\ 0 <= pb_ptr b /\ pb_ptr b + pb_pitch b * pb_height b <= 2 ^ 64.

Definition volume_ok {T} (v : Volume T) : Prop :=
  0 < vo_width v /\ 0 < vo_height v /\ 0 < vo_depth v /\ is_int (vo_width v * vo_height v * vo_depth v) /\
  vo_width v * sizeof T <= vo_pitch v < 2 ^ 64 /\ 0 <= vo_ptr v /\ vo_ptr v + vo_pitch v * (vo_height v * vo_depth v) <= 2 ^ 64.

Definition array_ok {T} (a : Array2D T) : Prop :=
  0 < ar_width a /\ 0 < ar_height a /\ is_int (ar_width a * ar_height a) /\ ar_width a < 2 ^ 32 /\ is_Some (arrayFormat T).

Definition managed_ok {T} (m : ManagedBuffer T) : Prop := spans T (mb_ptr m) (mb_length m) (mb_bytes m) /\ mb_host m = mb_ptr m.

(** Mapped, with the elements inside the whole granules reserved. *)
Definition virtual_ok {T} (b : VirtualBuffer T) : Prop :=
  counts T (vb_length b) (vb_bytes b) /\ vb_bytes b <= vb_size b /\ 0 <= vb_ptr b /\ vb_ptr b + vb_size b <= 2 ^ 64 /\
  vb_mapped b = true /\ vb_reserved b = true /\ vb_created b = true.

(** A name the driver can be given: not empty, no byte 0 inside. *)
Definition name_ok (name : list Z) : Prop := name <> [] /\ has_null name = false.

(** ** What CUDA documents of a successful allocation: the range it grants is as large as asked for, and lies in the address space; the
    width of an array is within the limits of a device. *)
Definition granted (c : call) : out c -> Prop :=
  match c return out c -> Prop with
  | CuMemAlloc n | CuMemAllocAsync n _ | CuMemAllocFromPoolAsync n _ _ | CuMemAllocManaged n _ | CuMemAddressReserve n _ _ _ =>
      fun p => 0 <= p /\ p + n <= 2 ^ 64
  | CuMemAllocPitch w h _ => fun r => 0 <= r.1 /\ w <= r.2 < 2 ^ 64 /\ r.1 + r.2 * h <= 2 ^ 64
  | CuMemGetAllocationGranularity _ _ => is_uint64
  | CuArrayCreate d => fun _ => ad_Width d < 2 ^ 32
  | CuArray3DCreate d => fun _ => a3_Width d < 2 ^ 32
  | _ => fun _ => True
  end.

Section Constructors.
Context `{Foreign, !HostMemory, !Files}.

Definition driver_grants : Prop := forall t c w, (Sys t c w).1.1 = CUDA_SUCCESS -> granted c (Sys t c w).1.2.

(** A result without an error is as [P] says. *)
Definition fine {A} (P : A -> Prop) (r : A * err) : Prop := r.2 = None -> P r.1.

(** A resource that is [ok] and nil, or none and an error. *)
Definition made {R} (ok : R -> Prop) (r : option R * err) : Prop :=
  match r with
  | (Some x, None) => ok x
  | (None, Some _) => True
  | _ => False
  end.

(** ** The answers of the driver *)

Section Answers.
Hypothesis Hgrants : driver_grants.

Lemma yields_answer d c zero name :
  yields (let! r := invoke d c in ret (checked zero name r)) (fine (granted c)).
Proof.
  intros s a s' Hr. unfold bind, invoke in Hr. destruct d as [d|]; [|discriminate Hr]. destruct (drv_bound d (call_field c)); [|discriminate Hr].
  pose proof (Hgrants (env_thread (st_env s)) c (st_world s)) as Hg. destruct (Sys _ _ _) as [[code o] w]. injection Hr as <- _.
  unfold checked, check, fine. cbn in *. destruct (Z.eqb_spec code CUDA_SUCCESS); [intros _; now apply Hg|discriminate].
Qed.

Lemma yields_required d f c zero name :
  yields (required d f (pair zero) (let! r := invoke d c in ret (checked zero name r))) (fine (granted c)).
Proof. unfold required. destruct (lacks d f); [now apply yields_ret|apply yields_answer]. Qed.

Lemma yields_optional d f c zero name :
  yields (optional d f (pair zero) (let! r := invoke d c in ret (checked zero name r))) (fine (granted c)).
Proof. unfold optional. destruct d; [|now apply yields_ret]. destruct (lacks _ f); [now apply yields_ret|apply yields_answer]. Qed.

(** A driver call submitted to a context. *)
Lemma yields_submit {A} c g (zero : A) fn w b (P : A -> Prop) : yields fn (fine P) -> yields (doWith c g zero fn w b) (fine P).
Proof. intros Hf. apply yields_doWith; [discriminate|exact Hf]. Qed.

End Answers.

(** ** The constructors, and what they build *)

Inductive makes : forall R, M (option R * err) -> (R -> Prop) -> Prop :=
| makes_Alloc T ctx n : is_int n -> makes _ (Alloc (T := T) ctx n) (fun b => buffer_ok b /\ bf_ctx b = ctx /\ bf_length b = n)
| makes_AllocAsync T ctx stream n : is_int n -> makes _ (AllocAsync (T := T) ctx stream n) (fun b => buffer_ok b /\ bf_ctx b = ctx /\ bf_length b = n)
| makes_AllocFromPool T pool stream n : is_int n ->
    makes _ (AllocFromPool T (Some pool) stream n) (fun b => buffer_ok b /\ bf_ctx b = mp_ctx pool /\ bf_length b = n)
| makes_View T (b : Buffer T) off n : buffer_ok b -> is_int off -> is_int n ->
    makes _ (Buffer_View (Some b) off n) (fun v => view_ok v /\ v = mkView (Some b) off n)
| makes_View_View T (v : View T) off n : view_ok v -> is_int off -> is_int n ->
    makes _ (View_View (Some v) off n) (fun w => view_ok w /\ w = mkView (vw_owner v) (vw_offset v + off) n)
| makes_AllocHost T ctx n : is_int n -> makes _ (AllocHost T ctx n) (fun h => counts T (hb_length h) (hb_bytes h) /\ hb_ctx h = ctx /\ hb_length h = n)
| makes_RegisterHost T ctx mem : slice_ok mem -> sl_len mem * sizeof T <= MaxUint64 ->
    makes _ (RegisterHost T ctx mem) (fun h => counts T (sl_len mem) (rh_bytes h) /\ rh_ctx h = ctx /\ rh_mem h = mem /\ rh_ptr h = sl_ptr mem)
| makes_AllocManaged T ctx n : is_int n -> makes _ (AllocManaged T ctx n) (fun m => managed_ok m /\ mb_ctx m = ctx /\ mb_length m = n)
| makes_AllocVirtual T ctx n : is_int n -> makes _ (AllocVirtual T ctx n) (fun b => virtual_ok b /\ vb_ctx b = ctx /\ vb_length b = n)
| makes_OpenIPCBuffer T ctx h n : is_int n ->
    makes _ (OpenIPCBuffer T ctx h n) (fun b => counts T (ib_length b) (ib_bytes b) /\ ib_ctx b = ctx /\ ib_length b = n)
| makes_AllocPitched T ctx w h : is_int w -> is_int h ->
    makes _ (AllocPitched (T := T) ctx w h) (fun b => pitched_ok b /\ pb_ctx b = ctx /\ pb_width b = w /\ pb_height b = h)
| makes_AllocVolume T ctx w h d : is_int w -> is_int h -> is_int d ->
    makes _ (AllocVolume (T := T) ctx w h d) (fun v => volume_ok v /\ vo_ctx v = ctx /\ vo_width v = w /\ vo_height v = h /\ vo_depth v = d)
| makes_AllocArray2D T ctx w h opts : is_int w -> is_int h ->
    makes _ (AllocArray2D (T := T) ctx w h opts)
      (fun a => array_ok a /\ ar_ctx a = ctx /\ ar_width a = w /\ ar_height a = h /\ ar_surface a = apply_options opts)
| makes_NewTexture T (a : Array2D T) cfg : makes _ (NewTexture (Some a) cfg) (fun t => tx_ctx t = ar_ctx a /\ is_Some (arrayFormat T))
| makes_NewSurface T (a : Array2D T) : makes _ (NewSurface (Some a)) (fun t => sf_ctx t = ar_ctx a /\ ar_surface a = true)
| makes_NewStream c opts : makes _ (NewStream c opts) (fun st => sm_ctx st = c)
| makes_NewEvent c opts : makes _ (NewEvent c opts) (fun e => ev_ctx e = c)
| makes_OpenIPCEvent c h : makes _ (OpenIPCEvent c h) (fun e => ev_ctx e = c /\ ev_timingDisabled e = true /\ ev_interprocess e = true)
| makes_EndCapture st : makes _ (EndCapture (Some st)) (fun g => gr_ctx g = sm_ctx st)
| makes_Instantiate g : makes _ (Instantiate (Some g)) (fun e => ge_ctx e = gr_ctx g)
| makes_DefaultMemPool c : makes _ (DefaultMemPool c) (fun p => mp_ctx p = c)
| makes_LoadModule c image : makes _ (LoadModule c image) (fun m => md_ctx m = c)
| makes_LoadModuleFromFile c path : makes _ (LoadModuleFromFile c path) (fun m => md_ctx m = c)
| makes_Function m name : makes _ (Module_Function (Some m) name) (fun f => fn_module f = Some m /\ fn_name f = name /\ name_ok name)
| makes_Global m name : makes _ (Module_Global (Some m) name) (fun g => gl_module g = Some m /\ gl_name g = name /\ name_ok name)
| makes_NewLinker c opts : makes _ (NewLinker c opts) (fun l => lk_ctx l = c)
| makes_Primary d : makes _ (Device_Primary d) (fun c => cx_device c = d).

(** ** Proofs *)

Section Proofs.
Hypothesis Hgrants : driver_grants.

#[local] Arguments uint64 : simpl never.

(** What the answer of a wrapper is known to be. *)
Ltac answer :=
  lazymatch goal with
  | |- yields (cudaresult.MemAlloc ?d ?n) _ => exact (yields_required Hgrants d _ (CuMemAlloc n) 0 _)
  | |- yields (cudaresult.MemAllocAsync ?d ?n ?st) _ => exact (yields_optional Hgrants d _ (CuMemAllocAsync n st) 0 _)
  | |- yields (cudaresult.MemAllocFromPoolAsync ?d ?n ?p ?st) _ => exact (yields_optional Hgrants d _ (CuMemAllocFromPoolAsync n p st) 0 _)
  | |- yields (cudaresult.MemAllocManaged ?d ?n ?f) _ => exact (yields_optional Hgrants d _ (CuMemAllocManaged n f) 0 _)
  | |- yields (cudaresult.MemAllocPitch ?d ?w ?h ?e) _ => exact (yields_optional Hgrants d _ (CuMemAllocPitch w h e) (0, 0) _)
  | |- yields (cudaresult.MemGetAllocationGranularity ?d ?p ?o) _ => exact (yields_optional Hgrants d _ (CuMemGetAllocationGranularity p o) 0 _)
  | |- yields (cudaresult.MemAddressReserve ?d ?n ?a) _ => exact (yields_optional Hgrants d _ (CuMemAddressReserve n a 0 0) 0 _)
  | |- yields (cudaresult.ArrayCreate ?d ?a) _ => exact (yields_optional Hgrants d _ (CuArrayCreate a) 0 _)
  | |- yields (cudaresult.Array3DCreate ?d ?a) _ => exact (yields_optional Hgrants d _ (CuArray3DCreate a) 0 _)
  | |- yields _ (fine ?P) => exact (yields_weaken _ _ (fine (fun _ => True)) (fun _ _ _ => I) (yields_true _))
  end.

(** One step of a constructor: an early return, the lock of another resource, a call of the driver, the new resource. *)
Ltac build :=
  cbv beta iota zeta; cbn [fst snd];
  lazymatch goal with
  | |- yields (ret (None, Some _)) _ => apply yields_ret; exact I
  | |- yields (ret (Some _, None)) _ => apply yields_ret; cbn [made]
  | |- yields (opened _ _ _) _ => apply yields_opened; [exact I|]; build
  | |- yields (bind new_loc _) _ => apply yields_then; intros ?; build
  | |- yields (bind (doWith _ _ _ _ _ _) _) _ =>
      let o := fresh "o" in let e := fresh "e" in let Ho := fresh "Ho" in
      eapply yields_bind; [apply yields_submit; answer|intros [o e] Ho; cbn [fst snd]; destruct e; [build|specialize (Ho eq_refl); cbn in Ho; build]]
  | |- yields (bind (do_ ?c ?g ?z ?fn) ?k) _ => change (bind (do_ c g z fn) k) with (bind (doWith c g z fn false false) k); build
  | |- yields (bind (doWait ?c ?g ?z ?fn) ?k) _ => change (bind (doWait c g z fn) k) with (bind (doWith c g z fn true false) k); build
  | |- _ => idtac
  end.

(** The size tests of the allocations of [n] elements. *)
Ltac sized Hi :=
  lazymatch goal with |- yields (if ?n <=? 0 then _ else if MaxUint64 / ?z <? uint64 ?n then _ else _) _ =>
    lazymatch z with elemSize ?T => sized_at T n Hi | uint64 (sizeof ?T) => change (uint64 (sizeof T)) with (elemSize T); sized_at T n Hi end
  end
with sized_at T n Hi :=
  let Hle := fresh "Hle" in
  destruct (Z.leb_spec n 0); [build|]; destruct (Z.ltb_spec (MaxUint64 / elemSize T) (uint64 n)) as [?|Hle]; [build|];
  destruct (alloc_size T n Hi ltac:(assumption) Hle) as (? & ? & ->).

(** *** Linear memory *)

Ltac linear := build; unfold buffer_ok, managed_ok, spans, counts; cbn; unfold MaxUint64; split_and!; try done; lia.

Lemma Alloc_sound T ctx n : is_int n -> yields (Alloc (T := T) ctx n) (made (fun b => buffer_ok b /\ bf_ctx b = ctx /\ bf_length b = n)).
Proof. intros Hi. destruct ctx as [c|]; cbv beta iota zeta delta [Alloc]; [|build]. sized Hi. linear. Qed.

Lemma AllocAsync_sound T ctx stream n : is_int n ->
  yields (AllocAsync (T := T) ctx stream n) (made (fun b => buffer_ok b /\ bf_ctx b = ctx /\ bf_length b = n)).
Proof.
  intros Hi. destruct ctx as [c|], stream as [st|]; cbv beta iota zeta delta [AllocAsync]; try build. sized Hi. build. destruct (negb _); linear.
Qed.

Lemma AllocFromPool_sound T pool stream n : is_int n ->
  yields (AllocFromPool T (Some pool) stream n) (made (fun b => buffer_ok b /\ bf_ctx b = mp_ctx pool /\ bf_length b = n)).
Proof.
  intros Hi. destruct stream as [st|]; cbv beta iota zeta delta [AllocFromPool]; try build. sized Hi. build. destruct (negb _); linear.
Qed.

Lemma AllocManaged_sound T ctx n : is_int n -> yields (AllocManaged T ctx n) (made (fun m => managed_ok m /\ mb_ctx m = ctx /\ mb_length m = n)).
Proof. intros Hi. destruct ctx as [c|]; cbv beta iota zeta delta [AllocManaged]; [|build]. sized Hi. linear. Qed.

Lemma AllocHost_sound T ctx n : is_int n ->
  yields (AllocHost T ctx n) (made (fun h => counts T (hb_length h) (hb_bytes h) /\ hb_ctx h = ctx /\ hb_length h = n)).
Proof. intros Hi. destruct ctx as [c|]; cbv beta iota zeta delta [AllocHost]; [|build]. sized Hi. linear. Qed.

Lemma OpenIPCBuffer_sound T ctx h n : is_int n ->
  yields (OpenIPCBuffer T ctx h n) (made (fun b => counts T (ib_length b) (ib_bytes b) /\ ib_ctx b = ctx /\ ib_length b = n)).
Proof. intros Hi. destruct ctx as [c|]; cbv beta iota zeta delta [OpenIPCBuffer]; [|build]. sized Hi. linear. Qed.

Lemma RegisterHost_sound T ctx mem : slice_ok mem -> sl_len mem * sizeof T <= MaxUint64 ->
  yields (RegisterHost T ctx mem) (made (fun h => counts T (sl_len mem) (rh_bytes h) /\ rh_ctx h = ctx /\ rh_mem h = mem /\ rh_ptr h = sl_ptr mem)).
Proof.
  intros [Hz Hi] Hb. destruct ctx as [c|]; cbv beta iota zeta delta [RegisterHost]; [|build]. destruct (Z.eqb_spec (sl_len mem) 0); [build|].
  unfold first_elem. replace (0 <? sl_len mem) with true by (symmetry; apply Z.ltb_lt; lia).
  rewrite elemSize_sizeof, (uint64_of_int _ Hz Hi), (uint64_id (sl_len mem * sizeof T)) by (unfold is_uint64, MaxUint64 in *; destruct (sizeof_cases T); lia).
  apply (yields_bind _ _ (eq (sl_ptr mem))); [now apply yields_ret|]. intros p <-. build. unfold counts. cbn. split_and!; try done; lia.
Qed.

Lemma View_sound T (b : Buffer T) off n : buffer_ok b -> is_int off -> is_int n ->
  yields (Buffer_View (Some b) off n) (made (fun v => view_ok v /\ v = mkView (Some b) off n)).
Proof.
  intros Hok Ho Hn. unfold Buffer_View. build. pose proof Hok as (Hl & Hli & _).
  destruct (Z.ltb_spec off 0); cbn [orb]; [build|]. destruct (Z.leb_spec n 0); [build|].
  destruct (int64 (bf_length b - n) <? off) eqn:Hr; [build|]. apply (proj1 (range_test (bf_length b) n off ltac:(lia) Hli ltac:(lia) Hn)) in Hr. build. unfold view_ok. cbn. auto.
Qed.

Lemma View_View_sound T (v : View T) off n : view_ok v -> is_int off -> is_int n ->
  yields (View_View (Some v) off n) (made (fun w => view_ok w /\ w = mkView (vw_owner v) (vw_offset v + off) n)).
Proof.
  intros Hok Ho Hn. unfold View_View, view_owner. unfold view_ok in Hok. destruct (vw_owner v) as [b|] eqn:Howner; [|done]. build.
  destruct Hok as (Hb & Hoff & Hlen & Hfit). pose proof Hb as (_ & Hli & _).
  destruct (Z.ltb_spec off 0); cbn [orb]; [build|]. destruct (Z.leb_spec n 0); [build|].
  destruct (int64 (vw_length v - n) <? off) eqn:Hr; [build|]. apply (proj1 (range_test (vw_length v) n off ltac:(lia) ltac:(unfold is_int in *; lia) ltac:(lia) Hn)) in Hr. build.
  rewrite int64_id by (unfold is_int in *; lia). unfold view_ok. cbn. rewrite Howner. split_and!; auto; lia.
Qed.

(** *** Padded memory, arrays, textures and surfaces *)

Lemma AllocPitched_sound T ctx w h : is_int w -> is_int h ->
  yields (AllocPitched (T := T) ctx w h) (made (fun b => pitched_ok b /\ pb_ctx b = ctx /\ pb_width b = w /\ pb_height b = h)).
Proof.
  intros Hw Hh. destruct ctx as [c|]; cbv beta iota zeta delta [AllocPitched]; [|build].
  destruct (Z.leb_spec w 0); cbn [orb]; [build|]. destruct (Z.leb_spec h 0); [build|].
  destruct (Z.ltb_spec (MaxUint64 / elemSize T) (uint64 w)) as [|Hle]; [build|]. destruct (alloc_size T w Hw ltac:(assumption) Hle) as (_ & Hfit & ->).
  build. rewrite (uint64_of_int h) in Ho by (first [lia|exact Hh]). unfold pitched_ok. cbn. split_and!; try done; lia.
Qed.

Lemma AllocVolume_sound T ctx w h d : is_int w -> is_int h -> is_int d ->
  yields (AllocVolume (T := T) ctx w h d) (made (fun v => volume_ok v /\ vo_ctx v = ctx /\ vo_width v = w /\ vo_height v = h /\ vo_depth v = d)).
Proof.
  intros Hw Hh Hd. destruct ctx as [c|]; cbv beta iota zeta delta [AllocVolume]; [|build].
  destruct (Z.leb_spec w 0); cbn [orb]; [build|]. destruct (Z.leb_spec h 0); cbn [orb]; [build|]. destruct (Z.leb_spec d 0); [build|].
  destruct (Z.ltb_spec (MaxUint64 / elemSize T) (uint64 w)) as [|Hle]; [build|]. destruct (alloc_size T w Hw ltac:(assumption) Hle) as (_ & Hfit & ->).
  destruct (Z.ltb_spec (MaxInt / h) w) as [|Hwh]; cbn [orb]; [build|]. unfold MaxInt in *.
  pose proof (Z.mul_div_le (2 ^ 63 - 1) h ltac:(lia)). assert (Hp : 0 < w * h < 2 ^ 63) by nia. rewrite int64_id by (unfold is_int; lia).
  destruct (Z.ltb_spec ((2 ^ 63 - 1) / d) (w * h)) as [|Hwhd]; [build|]. pose proof (Z.mul_div_le (2 ^ 63 - 1) d ltac:(lia)).
  assert (Hv : 0 < w * h * d < 2 ^ 63) by nia. assert (Hhd : 0 < h * d < 2 ^ 63) by nia.
  rewrite (uint64_of_int h), (uint64_of_int d), (uint64_id (h * d)) by (first [lia|done|unfold is_uint64; lia]).
  destruct (_ <? _); [build|]. build. unfold volume_ok. cbn. split_and!; try done; try (unfold is_int); lia.
Qed.

Lemma AllocArray2D_sound T ctx w h opts : is_int w -> is_int h ->
  yields (AllocArray2D (T := T) ctx w h opts)
    (made (fun a => array_ok a /\ ar_ctx a = ctx /\ ar_width a = w /\ ar_height a = h /\ ar_surface a = apply_options opts)).
Proof.
  intros Hw Hh. destruct ctx as [c|]; cbv beta iota zeta delta [AllocArray2D]; [|build].
  destruct (Z.leb_spec w 0); cbn [orb]; [build|]. destruct (Z.leb_spec h 0); [build|].
  destruct (Z.ltb_spec (MaxInt / h) w) as [|Hwh]; [build|]. unfold MaxInt in *.
  pose proof (Z.mul_div_le (2 ^ 63 - 1) h ltac:(lia)). assert (Hp : 0 < w * h < 2 ^ 63) by nia.
  unfold array_ok. destruct (arrayFormat T) as [[f i]|]; [|build].
  apply (yields_bind _ _ (fine (fun _ => uint64 w < 2 ^ 32))).
  - apply yields_submit. destruct (apply_options opts); answer.
  - intros [o [e|]] Ho; cbn [snd]; [build|]. specialize (Ho eq_refl). cbn in Ho. rewrite uint64_of_int in Ho by (first [lia|done]).
    build. cbn. split_and!; try done. unfold is_int. lia.
Qed.

Lemma NewTexture_sound T (a : Array2D T) cfg : yields (NewTexture (Some a) cfg) (made (fun t => tx_ctx t = ar_ctx a /\ is_Some (arrayFormat T))).
Proof. unfold NewTexture. build. destruct (arrayFormat T) as [[f i]|]; [|build]. now build. Qed.

Lemma NewSurface_sound T (a : Array2D T) : yields (NewSurface (Some a)) (made (fun t => sf_ctx t = ar_ctx a /\ ar_surface a = true)).
Proof. unfold NewSurface. build. destruct (ar_surface a); cbn [negb]; now build. Qed.

(** *** Streams, events, graphs, modules *)

Lemma NewStream_sound c opts : yields (NewStream c opts) (made (fun st => sm_ctx st = c)).
Proof. unfold NewStream. destruct c as [x|]; [|build]. destruct (streamOptions_loop _ _); [|build]. now build. Qed.

Lemma NewEvent_sound c opts : yields (NewEvent c opts) (made (fun e => ev_ctx e = c)).
Proof. unfold NewEvent. destruct c as [x|]; [|build]. destruct (eventOptions_loop _ _); [|build]. now build. Qed.

Lemma OpenIPCEvent_sound c h : yields (OpenIPCEvent c h) (made (fun e => ev_ctx e = c /\ ev_timingDisabled e = true /\ ev_interprocess e = true)).
Proof. unfold OpenIPCEvent. destruct c as [x|]; now build. Qed.

Lemma LoadModule_sound c image : yields (LoadModule c image) (made (fun m => md_ctx m = c)).
Proof. unfold LoadModule. destruct c as [x|], image as [|b image]; now build. Qed.

Lemma LoadModuleFromFile_sound c path : yields (LoadModuleFromFile c path) (made (fun m => md_ctx m = c)).
Proof.
  unfold LoadModuleFromFile. destruct c as [x|], path as [|b path]; try build. apply yields_then. intros [data|e]; [apply LoadModule_sound|build].
Qed.

Lemma Function_sound m name :
  yields (Module_Function (Some m) name) (made (fun f => fn_module f = Some m /\ fn_name f = name /\ name_ok name)).
Proof. unfold Module_Function, name_ok. destruct name as [|b name]; [build|]. destruct (has_null _); [build|]. now build. Qed.

Lemma Global_sound m name :
  yields (Module_Global (Some m) name) (made (fun g => gl_module g = Some m /\ gl_name g = name /\ name_ok name)).
Proof. unfold Module_Global, name_ok. destruct name as [|b name]; [build|]. destruct (has_null _); [build|]. now build. Qed.

Lemma NewLinker_sound c opts : yields (NewLinker c opts) (made (fun l => lk_ctx l = c)).
Proof.
  unfold NewLinker. destruct c as [x|]; [|build]. destruct (link_lacking _); [build|]. destruct (jit_size _); [|build].
  apply yields_then. intros p. apply yields_then. intros q. destruct (jit_options _ _ _ _). now build.
Qed.

Lemma Primary_sound d : yields (Device_Primary d) (made (fun c => cx_device c = d)).
Proof.
  unfold Device_Primary. apply yields_then. intros [drv|]; [|build]. destruct d as [dv|]; [|build]. apply yields_then. intros exec.
  apply yields_then. intros [o [e|]]; [apply yields_then; intros _; build|]. build. apply yields_then. intros _. now build.
Qed.

(** *** Virtual memory *)

Lemma acquireVirtual_sound c size gran prop : yields (acquireVirtual c size gran prop) (fine (fun r => 0 <= r.1 /\ r.1 + size <= 2 ^ 64)).
Proof.
  unfold acquireVirtual. apply yields_then. intros [handle [e|]]; [now apply yields_ret|].
  eapply yields_bind; [answer|]. intros [ptr [e|]] Hp; cbn [fst snd].
  { apply yields_then. intros e1. apply yields_ret. discriminate. }
  specialize (Hp eq_refl). cbn in Hp. apply yields_then. intros [e|].
  { do 2 (apply yields_then; intros ?). apply yields_ret. discriminate. }
  apply yields_then. intros h. apply yields_then. intros [e|]; [|now apply yields_ret].
  apply yields_then. intros e1. apply (yields_bind _ _ (fun es => exists rest, es = Some e :: rest)).
  - destruct e1; [apply yields_ret; now eexists|]. apply yields_then. intros ?. apply yields_ret. now eexists.
  - intros es [rest ->]. apply yields_then. intros e3. apply yields_ret. discriminate.
Qed.

Lemma alloc_virtual_closure_sound c bytes : is_uint64 bytes ->
  yields (alloc_virtual_closure c bytes) (fine (fun r => bytes <= r.2 /\ 0 <= r.1.1 /\ r.1.1 + r.2 <= 2 ^ 64)).
Proof.
  intros Hb. unfold alloc_virtual_closure. apply yields_then. intros prop. eapply yields_bind; [answer|]. intros [gran [e|]] Hg; cbn [fst snd]; [now apply yields_ret|].
  specialize (Hg eq_refl). cbn in Hg. destruct (Z.eqb_spec gran 0); [now apply yields_ret|].
  pose proof (roundUp_spec bytes gran Hb ltac:(unfold is_uint64, MaxUint64 in *; lia)) as Hr.
  destruct (roundUp bytes gran) as [size []]; cbn [negb]; [|now apply yields_ret].
  eapply yields_bind; [apply acquireVirtual_sound|]. intros [r [e|]] Ha; cbn [fst snd]; [now apply yields_ret|].
  specialize (Ha eq_refl). cbn in Ha. apply yields_ret. intros _. cbn. lia.
Qed.

Lemma AllocVirtual_sound T ctx n : is_int n ->
  yields (AllocVirtual T ctx n) (made (fun b => virtual_ok b /\ vb_ctx b = ctx /\ vb_length b = n)).
Proof.
  intros Hi. destruct ctx as [c|]; cbv beta iota zeta delta [AllocVirtual]; [|build]. sized Hi. apply yields_then. intros []; cbn [negb]; [|build].
  eapply yields_bind; [apply yields_submit, alloc_virtual_closure_sound; unfold is_uint64; destruct (sizeof_cases T); lia|].
  intros [[[ptr handle] size] [e|]] Hr; cbn [fst snd]; [build|]. specialize (Hr eq_refl). cbn in Hr. build.
  unfold virtual_ok, counts. cbn. unfold MaxUint64. split_and!; try done; lia.
Qed.


End Proofs.
End Constructors.
