(* ===== verification/RegionProps.v ===== *)
(** * Which bytes a copy of a region moves, and where

    The copies of pitched buffers, volumes and arrays are described to the driver by a [CUDA_MEMCPY2D] or [CUDA_MEMCPY3D].  What such a descriptor means, byte by byte, is what CUDA
    documents of it; the property is that the descriptors of the package mean "byte [i] of the packed elements is at its row and column of the region". *)

From S2P Require Import Prelude CudaSys Errors Runtime CudaResult ExecutorApi Context Dispatch Resource Handles Buffer Loader HostCb Streams Modules Regions Vmm Graphs Ready HandleProps Constructors.

(** ** The meaning of a descriptor *)

(** A byte of memory: of the process, of the device, or at a byte column and a row of an array. *)
Inductive place := HostAt (a : Z) | DeviceAt (a : Z) | ArrayAt (handle x y : Z).

(** One side of a descriptor: [CUDA_MEMCPY3D]'s fields; a two-dimensional copy has one slice. *)
Record side := mkSide { sd_type : Z; sd_host : Z; sd_device : Z; sd_array : Z; sd_x : Z; sd_y : Z; sd_z : Z; sd_pitch : Z; sd_rows : Z }.

(** Byte [x] of row [y] of slice [z]: from the start, [((z0+z)*Height + y0+y) * Pitch + x0+x] bytes. *)
Definition byte_of (s : side) (z y x : Z) : place :=
  let offset := ((sd_z s + z) * sd_rows s + (sd_y s + y)) * sd_pitch s + (sd_x s + x) in
  if sd_type s =? MemoryTypeHost then HostAt (sd_host s + offset)
  else if sd_type s =? MemoryTypeDevice then DeviceAt (sd_device s + offset)
  else ArrayAt (sd_array s) (sd_x s + x) (sd_y s + y).

Definition src2D (m : CUDA_MEMCPY2D) : side :=
  mkSide (m2_SrcMemoryType m) (m2_SrcHost m) (m2_SrcDevice m) (m2_SrcArray m) (m2_SrcXInBytes m) (m2_SrcY m) 0 (m2_SrcPitch m) 0.
Definition dst2D (m : CUDA_MEMCPY2D) : side :=
  mkSide (m2_DstMemoryType m) (m2_DstHost m) (m2_DstDevice m) (m2_DstArray m) (m2_DstXInBytes m) (m2_DstY m) 0 (m2_DstPitch m) 0.
Definition src3D (m : CUDA_MEMCPY3D) : side :=
  mkSide (m3_SrcMemoryType m) (m3_SrcHost m) (m3_SrcDevice m) (m3_SrcArray m) (m3_SrcXInBytes m) (m3_SrcY m) (m3_SrcZ m) (m3_SrcPitch m) (m3_SrcHeight m).
Definition dst3D (m : CUDA_MEMCPY3D) : side :=
  mkSide (m3_DstMemoryType m) (m3_DstHost m) (m3_DstDevice m) (m3_DstArray m) (m3_DstXInBytes m) (m3_DstY m) (m3_DstZ m) (m3_DstPitch m) (m3_DstHeight m).

(** The sides and the extent (bytes, rows, slices) of a call. *)
Definition described (c : call) : option (side * side * (Z * Z * Z)) :=
  match c with
  | CuMemcpy2D m | CuMemcpy2DAsync m _ => Some (src2D m, dst2D m, (m2_WidthInBytes m, m2_Height m, 1))
  | CuMemcpy3D m | CuMemcpy3DAsync m _ => Some (src3D m, dst3D m, (m3_WidthInBytes m, m3_Height m, m3_Depth m))
  | _ => None
  end.

(** The call copies the byte at [from] to [to]. *)
Definition carries (c : call) (from to : place) : Prop :=
  match described c with
  | Some (s, d, (w, h, n)) => exists z y x, 0 <= z < n /\ 0 <= y < h /\ 0 <= x < w /\ from = byte_of s z y x /\ to = byte_of d z y x
  | None => False
  end.

(** ** Where byte [i] of the elements is *)

(** Host bytes, one after the other; rows of [wb] bytes, [pitch] apart; the rows of an array. *)
Inductive region := Packed (p n : Z) | Padded (p pitch wb rows : Z) | Grid (handle wb rows : Z).

Definition at_ (r : region) (i : Z) : place :=
  match r with
  | Packed p _ => HostAt (p + i)
  | Padded p pitch wb _ => DeviceAt (p + i / wb * pitch + i mod wb)
  | Grid handle wb _ => ArrayAt handle (i mod wb) (i / wb)
  end.

Definition bytes_of (r : region) : Z :=
  match r with Packed _ n => n | Padded _ _ wb rows | Grid _ wb rows => wb * rows end.

(** The memory a region owns. *)
Definition inside (r : region) (pl : place) : Prop :=
  match r, pl with
  | Packed p n, HostAt a => p <= a < p + n
  | Padded p pitch _ rows, DeviceAt a => p <= a < p + pitch * rows
  | Grid handle wb rows, ArrayAt handle' x y => handle' = handle /\ 0 <= x < wb /\ 0 <= y < rows
  | _, _ => False
  end.

Definition pitched_region {T} (b : PitchedBuffer T) : region := Padded (pb_ptr b) (pb_pitch b) (pb_width b * sizeof T) (pb_height b).
Definition volume_region {T} (v : Volume T) : region := Padded (vo_ptr v) (vo_pitch v) (vo_width v * sizeof T) (vo_height v * vo_depth v).
Definition array_region {T} (a : Array2D T) : region := Grid (ar_handle a) (ar_width a * sizeof T) (ar_height a).
Definition slice_region (T : elem) (x : slice) : region := Packed (sl_ptr x) (sl_len x * sizeof T).
Definition pinned_region {T} (h : pinnedHostRef T) : region := Packed (pr_ptr h) (pr_length h * sizeof T).

(** The call moves byte [i] of [from] to byte [i] of [to], for each of their bytes, and no other; all are in memory the regions own. *)
Record transfers (from to : region) (c : call) : Prop := mkTransfers {
  tr_sizes : bytes_of from = bytes_of to;
  tr_bytes : forall a b, carries c a b <-> exists i, 0 <= i < bytes_of to /\ a = at_ from i /\ b = at_ to i;
  tr_inside : forall a b, carries c a b -> inside from a /\ inside to b
}.

(** The stream of an asynchronous copy; [None] of a synchronous one. *)
Definition on_stream (c : call) : option Z :=
  match c with CuMemcpy2DAsync _ st | CuMemcpy3DAsync _ st => Some st | _ => None end.

(** ** Rows and columns of a byte *)

Lemma index_rows wb h d i : 0 < wb -> 0 < h -> 0 <= i < wb * (h * d) ->
  0 <= i / wb / h < d /\ 0 <= (i / wb) mod h < h /\ 0 <= i mod wb < wb /\ i / wb = i / wb / h * h + (i / wb) mod h /\ i = i / wb * wb + i mod wb.
Proof.
  intros Hw Hh Hi. pose proof (Z.div_mod i wb ltac:(lia)). pose proof (Z.div_mod (i / wb) h ltac:(lia)).
  pose proof (Z.mod_pos_bound i wb Hw). pose proof (Z.mod_pos_bound (i / wb) h Hh).
  assert (0 <= i / wb < h * d) by (split; [apply Z.div_pos; lia|apply Z.div_lt_upper_bound; lia]).
  split_and!; try lia; [apply Z.div_pos; lia|apply Z.div_lt_upper_bound; lia].
Qed.

Lemma rows_index wb h d z y x : 0 <= z < d -> 0 <= y < h -> 0 <= x < wb ->
  let i := (z * h + y) * wb + x in 0 <= i < wb * (h * d) /\ i / wb = z * h + y /\ i mod wb = x.
Proof.
  intros Hz Hy Hx i. assert (Hr : 0 <= z * h + y <= h * d - 1) by nia.
  split; [nia|]. subst i. rewrite Z.add_comm, Z.div_add, Z.mod_add, Z.div_small, Z.mod_small by lia. lia.
Qed.

Definition region_ok (r : region) : Prop :=
  match r with Packed _ _ => True | Padded _ pitch wb _ => 0 < wb <= pitch | Grid _ wb _ => 0 < wb end.

Lemma at_inside r i : region_ok r -> 0 <= i < bytes_of r -> inside r (at_ r i).
Proof.
  destruct r as [p n|p pitch wb rows|handle wb rows]; cbn; intros Hok Hi; [lia| |];
    pose proof (Z.mod_pos_bound i wb ltac:(lia)); assert (0 <= i / wb < rows) by (split; [apply Z.div_pos; lia|apply Z.div_lt_upper_bound; lia]).
  - nia.
  - now split_and!.
Qed.

(** A descriptor whose sides are at their regions' places at every byte of the extent. *)
Lemma transfers_sides c s t wb h d from to :
  0 < wb -> 0 < h -> described c = Some (s, t, (wb, h, d)) -> region_ok from -> region_ok to ->
  bytes_of from = wb * (h * d) -> bytes_of to = wb * (h * d) ->
  (forall z y x i, i / wb = z * h + y -> i mod wb = x -> i = (z * h + y) * wb + x -> (d = 1 -> z = 0) -> byte_of s z y x = at_ from i /\ byte_of t z y x = at_ to i) ->
  transfers from to c.
Proof.
  intros Hw Hh Hd Hof Hot Hsf Hst Hat.
  assert (Hiff : forall a b, carries c a b <-> exists i, 0 <= i < bytes_of to /\ a = at_ from i /\ b = at_ to i).
  { intros a b. unfold carries. rewrite Hd, Hst. split.
    - intros (z & y & x & Hz & Hy & Hx & -> & ->). destruct (rows_index wb h d z y x Hz Hy Hx) as (Hi & E1 & E2).
      exists ((z * h + y) * wb + x). destruct (Hat z y x _ E1 E2 eq_refl ltac:(lia)) as [-> ->]. now split.
    - intros (i & Hi & -> & ->). destruct (index_rows wb h d i Hw Hh Hi) as (Hz & Hy & Hx & Hr & Hc).
      exists (i / wb / h), ((i / wb) mod h), (i mod wb).
      destruct (Hat (i / wb / h) ((i / wb) mod h) (i mod wb) i Hr eq_refl ltac:(lia) ltac:(lia)) as [-> ->]. now split_and!. }
  split; [congruence|exact Hiff|]. intros a b Hc. apply Hiff in Hc as (i & Hi & -> & ->). split; apply at_inside; try done. congruence.
Qed.

(** ** The operations *)

Section RegionOps.
Context `{Foreign}.

(** One line per copy: what it uses, its context, its stream if it has one, where the bytes come from and where they go. *)
Inductive region_op : list loc -> option Context -> option Z -> region -> region -> M err -> Type :=
| op_PitchedFrom T (b : PitchedBuffer T) ctx src : pitched_ok b ->
    region_op [pb_id b] (pb_ctx b) None (slice_region T src) (pitched_region b) (PitchedBuffer_CopyFrom (Some b) ctx src)
| op_PitchedTo T (b : PitchedBuffer T) ctx dst : pitched_ok b ->
    region_op [pb_id b] (pb_ctx b) None (pitched_region b) (slice_region T dst) (PitchedBuffer_CopyTo (Some b) ctx dst)
| op_PitchedDevice T (b d : PitchedBuffer T) ctx : pitched_ok b -> pitched_ok d ->
    region_op [pb_id b; pb_id d] (pb_ctx b) None (pitched_region b) (pitched_region d) (PitchedBuffer_CopyToDevice (Some b) ctx (Some d))
| op_PitchedFromHost T (b : PitchedBuffer T) ctx st host h : pitched_ok b -> pinnedHostRefOf host = inl h ->
    region_op [sm_id st; pb_id b; pr_id h] (pb_ctx b) (Some (sm_raw st)) (pinned_region h) (pitched_region b)
      (PitchedBuffer_CopyFromHostAsync (Some b) ctx (Some st) host)
| op_PitchedToHost T (b : PitchedBuffer T) ctx st host h : pitched_ok b -> pinnedHostRefOf host = inl h ->
    region_op [sm_id st; pb_id b; pr_id h] (pb_ctx b) (Some (sm_raw st)) (pitched_region b) (pinned_region h)
      (PitchedBuffer_CopyToHostAsync (Some b) ctx (Some st) host)
| op_PitchedDeviceAsync T (b d : PitchedBuffer T) ctx st : pitched_ok b -> pitched_ok d ->
    region_op [sm_id st; pb_id b; pb_id d] (pb_ctx b) (Some (sm_raw st)) (pitched_region b) (pitched_region d)
      (PitchedBuffer_CopyToDeviceAsync (Some b) ctx (Some st) (Some d))
| op_VolumeFrom T (v : Volume T) ctx src : volume_ok v ->
    region_op [vo_id v] (vo_ctx v) None (slice_region T src) (volume_region v) (Volume_CopyFrom (Some v) ctx src)
| op_VolumeTo T (v : Volume T) ctx dst : volume_ok v ->
    region_op [vo_id v] (vo_ctx v) None (volume_region v) (slice_region T dst) (Volume_CopyTo (Some v) ctx dst)
| op_VolumeFromHost T (v : Volume T) ctx st host h : volume_ok v -> pinnedHostRefOf host = inl h ->
    region_op [sm_id st; vo_id v; pr_id h] (vo_ctx v) (Some (sm_raw st)) (pinned_region h) (volume_region v)
      (Volume_CopyFromHostAsync (Some v) ctx (Some st) host)
| op_VolumeToHost T (v : Volume T) ctx st host h : volume_ok v -> pinnedHostRefOf host = inl h ->
    region_op [sm_id st; vo_id v; pr_id h] (vo_ctx v) (Some (sm_raw st)) (volume_region v) (pinned_region h)
      (Volume_CopyToHostAsync (Some v) ctx (Some st) host)
| op_ArrayFrom T (a : Array2D T) ctx src : array_ok a ->
    region_op [ar_id a] (ar_ctx a) None (slice_region T src) (array_region a) (Array2D_CopyFrom (Some a) ctx src)
| op_ArrayTo T (a : Array2D T) ctx dst : array_ok a ->
    region_op [ar_id a] (ar_ctx a) None (array_region a) (slice_region T dst) (Array2D_CopyTo (Some a) ctx dst)
| op_ArrayFromHost T (a : Array2D T) ctx st host h : array_ok a -> pinnedHostRefOf host = inl h ->
    region_op [sm_id st; ar_id a; pr_id h] (ar_ctx a) (Some (sm_raw st)) (pinned_region h) (array_region a)
      (Array2D_CopyFromHostAsync (Some a) ctx (Some st) host)
| op_ArrayToHost T (a : Array2D T) ctx st host h : array_ok a -> pinnedHostRefOf host = inl h ->
    region_op [sm_id st; ar_id a; pr_id h] (ar_ctx a) (Some (sm_raw st)) (array_region a) (pinned_region h)
      (Array2D_CopyToHostAsync (Some a) ctx (Some st) host).

(** ** The descriptors of the package *)

Lemma width_bytes (T : elem) w pitch : 0 < w -> w * sizeof T <= pitch -> pitch < 2 ^ 64 -> uint64 (uint64 w * elemSize T) = w * sizeof T /\ 0 < w * sizeof T.
Proof.
  intros Hw Hp Hm. rewrite elemSize_sizeof. destruct (sizeof_cases T) as [E|[E|[E|E]]]; rewrite E in *;
    (rewrite (uint64_id w), uint64_id by (unfold is_uint64; lia); lia).
Qed.

(** The two sides of a descriptor, byte by byte. *)
Ltac sides :=
  let z := fresh "z" in let i := fresh "i" in let Ei := fresh "Ei" in let Ex := fresh "Ex" in let Ei' := fresh "Ei" in let Hz := fresh "Hz" in
  intros z ? ? i Ei Ex Ei' Hz; try (specialize (Hz eq_refl); subst z); cbn; rewrite ?Ei, ?Ex; try rewrite Ei'; split; f_equal; ring.

Section Descriptors.
Context {T : elem}.

Lemma pitched_fromHost_transfers (b : PitchedBuffer T) p n cl :
  pitched_ok b -> n = pb_width b * pb_height b -> described cl = described (CuMemcpy2D (pitched_fromHost b p)) ->
  transfers (Packed p (n * sizeof T)) (pitched_region b) cl.
Proof.
  intros (Hw & Hwi & Hh & Hhi & [Hp Hp'] & _) -> Hcl. destruct (width_bytes T _ _ Hw Hp Hp') as [Ew Hwb].
  cbn in Hcl. rewrite Ew, (uint64_of_int (pb_height b)) in Hcl by (first [lia|done]).
  eapply transfers_sides; [exact Hwb|exact Hh|exact Hcl|done..|cbn; nia|cbn; nia|]. unfold byte_of. cbn. rewrite Ew. sides.
Qed.

Lemma pitched_toHost_transfers (b : PitchedBuffer T) p n cl :
  pitched_ok b -> n = pb_width b * pb_height b -> described cl = described (CuMemcpy2D (pitched_toHost b p)) ->
  transfers (pitched_region b) (Packed p (n * sizeof T)) cl.
Proof.
  intros (Hw & Hwi & Hh & Hhi & [Hp Hp'] & _) -> Hcl. destruct (width_bytes T _ _ Hw Hp Hp') as [Ew Hwb].
  cbn in Hcl. rewrite Ew, (uint64_of_int (pb_height b)) in Hcl by (first [lia|done]).
  eapply transfers_sides; [exact Hwb|exact Hh|exact Hcl|done..|cbn; nia|cbn; nia|]. unfold byte_of. cbn. rewrite Ew. sides.
Qed.

Lemma pitched_toDevice_transfers (b d : PitchedBuffer T) cl :
  pitched_ok b -> pitched_ok d -> pb_width d = pb_width b -> pb_height d = pb_height b -> described cl = described (CuMemcpy2D (pitched_toDevice b d)) ->
  transfers (pitched_region b) (pitched_region d) cl.
Proof.
  intros (Hw & Hwi & Hh & Hhi & [Hp Hp'] & _) (_ & _ & _ & _ & [Hq _] & _) Hdw Hdh Hcl. destruct (width_bytes T _ _ Hw Hp Hp') as [Ew Hwb].
  cbn in Hcl. rewrite Ew, (uint64_of_int (pb_height b)) in Hcl by (first [lia|done]). unfold pitched_region. rewrite Hdw, Hdh in *.
  eapply transfers_sides; [exact Hwb|exact Hh|exact Hcl|done..|cbn; nia|cbn; nia|]. unfold byte_of. cbn. sides.
Qed.

Lemma volume_hostDesc_transfers (v : Volume T) p n cl :
  volume_ok v -> n = vo_width v * vo_height v * vo_depth v ->
  (described cl = described (CuMemcpy3D (Volume_hostDesc v true p)) -> transfers (Packed p (n * sizeof T)) (volume_region v) cl) /\
  (described cl = described (CuMemcpy3D (Volume_hostDesc v false p)) -> transfers (volume_region v) (Packed p (n * sizeof T)) cl).
Proof.
  intros (Hw & Hh & Hd & Hi & [Hp Hp'] & _) ->. destruct (width_bytes T _ _ Hw Hp Hp') as [Ew Hwb].
  unfold is_int in Hi. assert (Eh : uint64 (vo_height v) = vo_height v) by (apply uint64_id; unfold is_uint64; nia).
  assert (Ed : uint64 (vo_depth v) = vo_depth v) by (apply uint64_id; unfold is_uint64; nia).
  split; intros Hcl; cbn in Hcl; rewrite Ew, Eh, Ed in Hcl;
    (eapply transfers_sides; [exact Hwb|exact Hh|exact Hcl|done..|cbn; ring|cbn; ring|]; unfold byte_of; cbn; rewrite ?Ew, ?Eh; sides).
Qed.

Lemma array_hostDesc_transfers (a : Array2D T) p n cl :
  array_ok a -> n = ar_width a * ar_height a ->
  (described cl = described (CuMemcpy2D (Array2D_hostDesc a true p)) -> transfers (Packed p (n * sizeof T)) (array_region a) cl) /\
  (described cl = described (CuMemcpy2D (Array2D_hostDesc a false p)) -> transfers (array_region a) (Packed p (n * sizeof T)) cl).
Proof.
  intros (Hw & Hh & Hi & Hw' & _) ->. destruct (width_bytes T (ar_width a) (ar_width a * sizeof T) Hw ltac:(lia)) as [Ew Hwb]; [destruct (sizeof_cases T); lia|].
  unfold is_int in Hi. assert (Eh : uint64 (ar_height a) = ar_height a) by (apply uint64_id; unfold is_uint64; nia).
  split; intros Hcl; cbn in Hcl; rewrite Ew, Eh in Hcl;
    (eapply transfers_sides; [exact Hwb|exact Hh|exact Hcl|done..|cbn; ring|cbn; ring|]; unfold byte_of; cbn; rewrite ?Ew; sides).
Qed.

(** The number of elements of a pitched buffer is exact, or the copies refuse it. *)
Lemma pitched_elements (b : PitchedBuffer T) : pitched_ok b ->
  (PitchedBuffer_elements b = inl (pb_width b * pb_height b) /\ pb_width b * pb_height b < 2 ^ 63) \/ exists er, PitchedBuffer_elements b = inr er.
Proof.
  intros (Hw & Hwi & Hh & Hhi & _). unfold PitchedBuffer_elements, MaxInt.
  destruct (Z.ltb_spec ((2 ^ 63 - 1) / pb_height b) (pb_width b)) as [Hlt|Hle]; [right; now eexists|left].
  pose proof (Z.mul_div_le (2 ^ 63 - 1) (pb_height b) Hh). assert (Hm : pb_width b * pb_height b < 2 ^ 63) by nia.
  split; [|exact Hm]. f_equal. apply int64_id. unfold is_int. nia.
Qed.

Lemma volume_elements (v : Volume T) : volume_ok v -> Volume_elements v = inl (vo_width v * vo_height v * vo_depth v).
Proof.
  intros (Hw & Hh & Hd & Hi & _). unfold Volume_elements, MaxInt, is_int in *.
  assert (Hp : 0 < vo_width v * vo_height v < 2 ^ 63) by nia. rewrite (int64_id (vo_width v * vo_height v)) by (unfold is_int; lia).
  replace ((2 ^ 63 - 1) / vo_height v <? vo_width v) with false by (symmetry; apply Z.ltb_ge, Z.div_le_lower_bound; lia).
  replace ((2 ^ 63 - 1) / vo_depth v <? vo_width v * vo_height v) with false by (symmetry; apply Z.ltb_ge, Z.div_le_lower_bound; lia).
  f_equal. apply int64_id. unfold is_int. lia.
Qed.

End Descriptors.

(** ** What is locked *)

Section Submitted.
Context (P : Env -> call -> Prop) (P_background : forall E cl, background cl = true -> P E cl).

Lemma tidy_memcpy2D E c g m : in_context c E (fun E => P E (CuMemcpy2D m)) -> tidy P E (memcpy2D c g m).
Proof.
  intros HP. unfold memcpy2D. tidy_auto. apply tidy_doCopyJob; [done|intros; apply tidy_ret|]. destruct c as [c|]; [|done]. cbn in *. intros x Ho.
  apply tidy_closure. unfold memcpy2DOp_Run, cudaresult.Memcpy2D. specialize (HP x Ho). tidy_auto.
Qed.

Lemma tidy_memcpy3D E c g m : in_context c E (fun E => P E (CuMemcpy3D m)) -> tidy P E (memcpy3D c g m).
Proof.
  intros HP. unfold memcpy3D. tidy_auto. apply tidy_doCopyJob; [done|intros; apply tidy_ret|]. destruct c as [c|]; [|done]. cbn in *. intros x Ho.
  apply tidy_closure. unfold memcpy3DOp_Run, cudaresult.Memcpy3D. specialize (HP x Ho). tidy_auto.
Qed.

Lemma tidy_memcpy2DAsync E c g m st : in_context c E (fun E => P E (CuMemcpy2DAsync m st)) -> tidy P E (memcpy2DAsync c g m st).
Proof.
  intros HP. unfold memcpy2DAsync. tidy_auto. apply tidy_doJob; [done|intros; apply tidy_ret|]. destruct c as [c|]; [|done]. cbn in *. intros x Ho.
  apply tidy_closure. unfold memcpy2DAsyncOp_Run, cudaresult.Memcpy2DAsync. specialize (HP x Ho). tidy_auto.
Qed.

Lemma tidy_memcpy3DAsync E c g m st : in_context c E (fun E => P E (CuMemcpy3DAsync m st)) -> tidy P E (memcpy3DAsync c g m st).
Proof.
  intros HP. unfold memcpy3DAsync. tidy_auto. apply tidy_doJob; [done|intros; apply tidy_ret|]. destruct c as [c|]; [|done]. cbn in *. intros x Ho.
  apply tidy_closure. unfold memcpy3DAsyncOp_Run, cudaresult.Memcpy3DAsync. specialize (HP x Ho). tidy_auto.
Qed.

Lemma tidy_with_pitched_pair {A T} E (a b : PitchedBuffer T) (m : M A) :
  (forall E', r_held (pb_id a, OpMu) E' -> r_held (pb_id b, OpMu) E' -> (forall l, held l E -> held l E') -> env_closed E' = env_closed E -> tidy P E' m) ->
  tidy P E (with_pitched_pair a b m).
Proof.
  intros Hm. unfold with_pitched_pair. destruct (bool_decide (pb_id b < pb_id a)%positive); apply tidy_with_RLock; case_bool_decide as Heq;
    try apply tidy_with_RLock; apply Hm; rewrite ?Heq; eauto using r_held_rlocked, r_held_mono with tidy; rewrite <- Heq; apply r_held_rlocked.
Qed.

End Submitted.
(** A resource open and read-locked is held. *)
Lemma held_both l E : open l E -> r_held (l, OpMu) E -> held l E.
Proof. intros Ho Hr. split; [exact Ho|now left]. Qed.

Hint Resolve held_both : tidy.

Ltac region_step :=
  lazymatch goal with
  | |- tidy _ _ (with_pitched_pair _ _ _) => apply tidy_with_pitched_pair; intros ? ? ? ? ?
  | |- tidy _ _ (memcpy2D _ _ _) => apply tidy_memcpy2D; [apply handle_background|in_use]
  | |- tidy _ _ (memcpy3D _ _ _) => apply tidy_memcpy3D; [apply handle_background|in_use]
  | |- tidy _ _ (memcpy2DAsync _ _ _ _) => apply tidy_memcpy2DAsync; [apply handle_background|in_use]
  | |- tidy _ _ (memcpy3DAsync _ _ _ _) => apply tidy_memcpy3DAsync; [apply handle_background|in_use]
  | He : pinnedHostRefOf ?h = inl _ |- context [pinnedHostRefOf ?h] => rewrite He
  | Hv : volume_ok ?v |- context [Volume_elements ?v] => rewrite (volume_elements v Hv)
  | Hb : pitched_ok ?b |- context [PitchedBuffer_elements ?b] => destruct (pitched_elements b Hb) as [[-> ?]|[? ->]]
  | Ha : array_ok ?a |- context [int64 (ar_width ?a * ar_height ?a)] => rewrite (int64_id (ar_width a * ar_height a)) by apply Ha
  | _ => use_step
  end.


End RegionOps.
