(* ===== verification/PackProps.v ===== *)
(** * Packed arguments: packing, and launching what was packed *)

From S2P Require Import Prelude CudaSys Errors Runtime CudaResult ExecutorApi Context Dispatch Resource Handles Buffer ArgPack HostCb Streams Modules Regions Vmm Graphs Launch Ready LaunchProps HandleProps.

Section PackProps.
Context `{Foreign}.

(** The builder of [Pack] records values and keeps no lock. *)
Definition recording (b : kernelArgBuilder) : Prop := kb_ok b /\ kb_snapshot b = true /\ kb_locks b = [] /\ kb_ctx b = None.

Lemma recording_packed p b : recording b -> recording (set_packed p b).
Proof. intros ([H1 H2 H3 H4] & Hs & Hl & Hc). split_and!; try done; now split. Qed.

(** The object of an argument is open. *)
Definition arg_open (a : KernelArg) (E : Env) : Prop := match arg_object a with Some (l, _) => open l E | None => True end.

Lemma append_object_recording l octx ce typ h b s :
  recording b ->
  match append_object l octx ce typ h b s with
  | (Done (b', Some e), s') => b' = b /\ s' = s
  | (Done (b', None), s') => b' = set_packed (argpack.Add (kb_packed b) typ (handle_bytes h)) b /\ open l (st_env s) /\ s' = s
  | (Blocks, s') => s' = s
  | _ => False
  end.
Proof.
  intros (Hok & Hsn & Hl & Hc). unfold append_object. rewrite (holdsLock_spec l b Hok), Hl, Hsn, Hc.
  rewrite bool_decide_eq_false_2 by apply not_elem_of_nil. rewrite (bool_decide_eq_true_2 (None = None)) by done.
  unfold unless, bind at 1, RLock. case_decide; [done|]. set (s1 := set_env _ s).
  assert (Hun : RUnlock (l, OpMu) s1 = (Done tt, s)).
  { unfold RUnlock. subst s1. cbn [st_env set_env]. unfold rlocked at 1. cbn [env_locks_r]. rewrite lookup_insert_eq, runlocked_rlocked. now destruct s. }
  unfold bind, is_closed, get, ret. change (env_closed (st_env s1)) with (env_closed (st_env s)). cbn [negb andb].
  destruct (bool_decide (l ∈ env_closed (st_env s))) eqn:Hcl; rewrite Hun; [done|]. now apply open_test in Hcl.
Qed.

Lemma append_one_recording a b s :
  recording b ->
  match appendKernelArg a b s with
  | (Done (b', Some e), s') => b' = b /\ s' = s
  | (Done (b', None), s') =>
      b' = set_packed (argpack.add (kb_packed b) (arg_value a).1 (arg_value a).2) b /\ arg_open a (st_env s) /\ s' = s /\
      (forall mem size, a = ArgRaw mem size -> 0 < size <= maxRawArgBytes /\ mem <> None)
  | (Blocks, s') => s' = s
  | _ => False
  end.
Proof.
  intros Hb.
  assert (Hobj : forall l octx ce typ h, arg_object a = Some (l, octx) -> arg_value a = (handle_bytes h, Some typ) ->
    (forall mem size, a <> ArgRaw mem size) -> appendKernelArg a b = append_object l octx ce typ h b ->
    match appendKernelArg a b s with
    | (Done (b', Some e), s') => b' = b /\ s' = s
    | (Done (b', None), s') =>
        b' = set_packed (argpack.add (kb_packed b) (arg_value a).1 (arg_value a).2) b /\ arg_open a (st_env s) /\ s' = s /\
        (forall mem size, a = ArgRaw mem size -> 0 < size <= maxRawArgBytes /\ mem <> None)
    | (Blocks, s') => s' = s
    | _ => False
    end).
  { intros l octx ce typ h Ho Hv Hr ->. pose proof (append_object_recording l octx ce typ h b s Hb) as Ha.
    destruct (append_object l octx ce typ h b s) as [[[b' [e|]]| | |] s']; try exact Ha.
    destruct Ha as (K1 & K2 & K3). unfold arg_open. rewrite Ho, Hv. split_and!; try done. intros mem size E0. now apply Hr in E0. }
  destruct a as [T [x|]|T typ v|ptr|[mem|] size|[x|]|[x|]]; try (now unfold ret);
    try (eapply Hobj; [reflexivity|reflexivity|done|reflexivity]).
  cbn [appendKernelArg rawKernelArg_append]. destruct (Z.leb_spec size 0) as [Hz|Hz]; [now unfold ret|]. destruct (Z.ltb_spec maxRawArgBytes size) as [Hm|Hm]; [now unfold ret|].
  cbn. split_and!; try done. intros m sz [= <- <-]. split; [lia|done].
Qed.

Lemma append_args_recording args : forall b s,
  Forall (fun a => match a with Some a => arg_wf a | None => True end) args ->
  recording b -> argpack.wf (kb_packed b) -> argpack.spill_len (kb_packed b) + arg_space * Z.of_nat (length args) + 8 < 2 ^ 31 ->
  match append_args args b s with
  | (Done (b', Some e), s') => s' = s
  | (Done (b', None), s') =>
      s' = s /\ argpack.wf (kb_packed b') /\ argpack.args (kb_packed b') = argpack.args (kb_packed b) ++ values args /\
      Forall (fun a => match a with Some a => arg_open a (st_env s) | None => False end) args
  | (Blocks, s') => s' = s
  | _ => False
  end.
Proof.
  induction args as [|[a|] args IH]; intros b s Hwf Hb Hp Hsp; cbn [append_args].
  - unfold ret. split_and!; [done|done|now rewrite app_nil_r|constructor].
  - apply Forall_cons in Hwf as [Ha Hwf]. unfold bind at 1.
    pose proof (append_one_recording a b s Hb) as H1. destruct (appendKernelArg a b s) as [[[b1 [e|]]| | |] s1]; try done; [now destruct H1 as [_ ->]|].
    destruct H1 as (Hpk & Hop & -> & Hraw). cbn [fst snd].
    pose proof (arg_value_length a Ha Hraw) as Hlen. unfold arg_space, maxRawArgBytes in *. cbn [length] in Hsp.
    destruct (argpack.alignUp_spec (argpack.spill_len (kb_packed b))) as [Hu _]; [apply argpack.wf_spill, Hp|].
    destruct (argpack.add_step (kb_packed b) (arg_value a).1 (arg_value a).2 Hp) as [Hp1 Ha1]; [unfold argpack.fits; lia|].
    pose proof (argpack.add_spill_len (kb_packed b) (arg_value a).1 (arg_value a).2 Hp ltac:(lia)) as Hs1.
    specialize (IH b1 s Hwf). rewrite Hpk in IH. cbn [kb_packed set_packed] in IH.
    specialize (IH (recording_packed _ _ Hb) Hp1 ltac:(lia)). rewrite Hpk.
    destruct (append_args args _ s) as [[[b2 [e|]]| | |] s2]; try done.
    destruct IH as (-> & Hp2 & Hargs & Hopen). split_and!; [done|done| |now constructor].
    rewrite Hargs, Ha1, <- app_assoc. cbn. now rewrite <- surjective_pairing.
  - now unfold ret.
Qed.

(** What packed arguments stand for. *)
Definition packs (p : PackedArgs) (args : list (option KernelArg)) : Prop :=
  argpack.wf p /\ argpack.args p = values args /\ Forall (fun a => is_Some a) args.

(** The calls of a launch of packed arguments: the launch, while the module, its context and the objects [objs] are open and locked.  Nothing is said of the
    objects the arguments were taken from: they are the caller's. *)
Definition packed_use (objs : list loc) (m : Module_) (fn : Z) (cfg : LaunchConfig) (stream : Z) (params : kernel_params) (E : Env) (c : call) : Prop :=
  background c = true \/
  (c = launch_call false fn cfg stream params /\ is_Some (env_thread E) /\ Forall (fun l => live l E) objs /\ live (md_id m) E /\
   exists x, md_ctx m = Some x /\ live (cx_id x) E).

Lemma packs_Params p args : packs p args -> packs (argpack.Params p).1 args.
Proof. intros (Hw & Ha & Hs). destruct (argpack.Params_wf p Hw) as [Hw' Ha']. split_and!; [done|congruence|done]. Qed.

Lemma packs_view p args : packs p args -> driver_view (argpack.Params p) = params_of args.
Proof. intros (Hw & Ha & Hs). rewrite driver_view_args by done. rewrite Ha. now apply values_params. Qed.

Lemma tidy_launchPacked objs f m ctx raw sctx cfg p kp E :
  fn_module f = Some m -> driver_view (argpack.Params p) = kp -> Forall (fun l => live l E) objs ->
  tidy (packed_use objs m (fn_raw f) cfg raw kp) E (launchPacked (Some f) ctx raw sctx cfg (Some p)).
Proof.
  intros Hf <- Hobjs. unfold launchPacked. destruct (negb (valid cfg)); [apply tidy_ret|]. rewrite Hf.
  destruct (negb _ && _); [apply tidy_ret|]. apply tidy_opened. intros Ho.
  apply tidy_bind; [|intros; apply tidy_ret]. apply tidy_launchKernel; [now left|].
  destruct (md_ctx m) as [x|] eqn:Hx; [|exact I]. intros e Hox. right.
  split_and!; [done|cbn; eauto| |auto using live_on, live_rlocked, live_opened|exists x; split; [done|now apply live_on, live_opened]].
  eapply Forall_impl; [exact Hobjs|]. intros l Hl. auto using live_on, live_rlocked.
Qed.

Lemma tidy_LaunchPacked f m ctx cfg p kp E :
  fn_module f = Some m -> driver_view (argpack.Params p) = kp ->
  tidy (packed_use [] m (fn_raw f) cfg defaultStream kp) E (LaunchPacked (Some f) ctx cfg (Some p)).
Proof. intros Hf Hp. now apply tidy_launchPacked. Qed.

Lemma tidy_LaunchPackedOn f m ctx st cfg p kp E :
  fn_module f = Some m -> driver_view (argpack.Params p) = kp ->
  tidy (packed_use [sm_id st] m (fn_raw f) cfg (sm_raw st) kp) E (LaunchPackedOn (Some f) ctx (Some st) cfg (Some p)).
Proof. intros Hf Hp. apply tidy_opened. intros Ho. apply tidy_launchPacked; try done. constructor; [now apply live_opened|constructor]. Qed.

(** A launch gives the arguments back as they were, or with their pointer array built. *)
Lemma yields_launchPacked (Q : PackedArgs -> Prop) f ctx raw sctx cfg p :
  Q p -> Q (argpack.Params p).1 -> yields (launchPacked f ctx raw sctx cfg (Some p)) (fun r => exists p', r.2 = Some p' /\ Q p').
Proof.
  intros Hp Hp'. assert (Hsame : forall e : err, exists p', (e, Some p).2 = Some p' /\ Q p') by (intros e; now exists p).
  unfold launchPacked. destruct f as [f|]; [|now apply yields_ret]. destruct (negb (valid cfg)); [now apply yields_ret|].
  destruct (fn_module f) as [m|]; [|now apply yields_ret]. destruct (negb _ && _); [now apply yields_ret|].
  apply yields_with_RLock, yields_then. intros []; [now apply yields_ret|]. apply yields_then. intros e. apply yields_ret.
  now eexists.
Qed.

Lemma yields_LaunchPackedOn (Q : PackedArgs -> Prop) f ctx st cfg p :
  Q p -> Q (argpack.Params p).1 -> yields (LaunchPackedOn (Some f) ctx (Some st) cfg (Some p)) (fun r => exists p', r.2 = Some p' /\ Q p').
Proof. intros Hp Hp'. apply yields_with_RLock, yields_then. intros []; [apply yields_ret; now exists p|]. now apply yields_launchPacked. Qed.

(** [Pack]: nothing others see changes, and the builder stands for the arguments. *)
Lemma Pack_packs args s : args_ok args ->
  match Pack args s with
  | (Done (Some p, None), s') => s' = s /\ packs p args /\ Forall (fun a => match a with Some a => arg_open a (st_env s) | None => False end) args
  | (Done (None, Some e), s') => s' = s
  | (Blocks, s') => s' = s
  | _ => False
  end.
Proof.
  intros [Hwf Hlen]. unfold Pack, bind.
  pose proof (append_args_recording args (mkBuilder_ None argpack.zeroBuilder [] 0 [] true) s Hwf) as Ha.
  assert (Hrec : recording (mkBuilder_ None argpack.zeroBuilder [] 0 [] true)).
  { split_and!; try done. split; cbn; [done|unfold inlineLockCount; lia|done|constructor]. }
  specialize (Ha Hrec argpack.wf_zero ltac:(cbn; unfold arg_space; lia)).
  destruct (append_args args _ s) as [[[b [e|]]| | |] s']; try done. destruct Ha as (-> & Hw & Hargs & Hopen). cbn [fst snd]. unfold ret.
  split_and!; [done| |done]. apply packs_Params. split_and!; [done|exact Hargs|]. eapply Forall_impl; [exact Hopen|]. now intros [a|].
Qed.

(** C27.  What was packed is what is launched.  [Pack] of any arguments, from any state, changes nothing that others see, locks included: it gives a builder that stands for the values of the arguments in
    order (every object among them being open when it was read), or an error and nothing.  Launching that builder, on the default stream or on another, any number of times, makes besides background
    calls only the launch asked for with parameters that read back as exactly those values, while module, context and stream are open and locked; the builder still stands for the
    same values afterwards. *)
Theorem pack_then_launch (args : list (option KernelArg)) :
  args_ok args ->
  (forall s, match Pack args s with
             | (Done (Some p, None), s') => s' = s /\ packs p args /\ Forall (fun a => match a with Some a => arg_open a (st_env s) | None => False end) args
             | (Done (None, Some e), s') => s' = s
             | (Blocks, s') => s' = s
             | _ => False
             end) /\
  (forall p f m ctx st cfg E, packs p args -> fn_module f = Some m ->
     tidy (packed_use [] m (fn_raw f) cfg defaultStream (params_of args)) E (LaunchPacked (Some f) ctx cfg (Some p)) /\
     tidy (packed_use [sm_id st] m (fn_raw f) cfg (sm_raw st) (params_of args)) E (LaunchPackedOn (Some f) ctx (Some st) cfg (Some p)) /\
     yields (LaunchPacked (Some f) ctx cfg (Some p)) (fun r => exists p', r.2 = Some p' /\ packs p' args) /\
     yields (LaunchPackedOn (Some f) ctx (Some st) cfg (Some p)) (fun r => exists p', r.2 = Some p' /\ packs p' args)).
Proof.
  intros Hok. split; [intros s; now apply Pack_packs|].
  intros p f m ctx st cfg E Hp Hf. pose proof (packs_Params p args Hp) as Hp'. split_and!.
  - apply tidy_LaunchPacked; [done|now apply packs_view].
  - apply tidy_LaunchPackedOn; [done|now apply packs_view].
  - now apply (yields_launchPacked (fun p => packs p args)).
  - now apply (yields_LaunchPackedOn (fun p => packs p args)).
Qed.

End PackProps.
