(* ===== verification/PackUpdates.v ===== *)
(** * Updating packed arguments (cuda: SetPacked, SetPackedBuffer, SetDevicePtr, SetRaw, LaunchPacked)

    A [PackedArgs] is a list of typed values to its user; the builder keeps them in inline slots and an arena that moves, and overwrites them in place.  This file states the list
    and its updates, and shows that any sequence of updates followed by launches behaves as on the list. *)

From S2P Require Import Prelude CudaSys Errors Runtime CudaResult ExecutorApi Context Dispatch Resource Handles Buffer ArgPack HostCb Streams Modules Regions Vmm Graphs Launch Ready LaunchProps HandleProps PackProps.

(** ** What the user sees *)

(** The bytes of an argument and the type it was packed with; raw bytes have none. *)
Notation value := (list Z * option nat)%type (only parsing).

(** [SetPacked] and its like on the list: the exact type, or nothing. *)
Definition set_value (vs : list value) (i : Z) (typ : nat) (data : list Z) : list value * err :=
  if bool_decide (0 <= i < Z.of_nat (length vs)) then
    if bool_decide ((vs !! Z.to_nat i) ≫= snd = Some typ) then (<[Z.to_nat i := (data, Some typ)]> vs, None) else (vs, Some ErrTypeMismatch)
  else (vs, Some ErrIndexOutOfRange).

(** [SetRaw] on the list: the exact size, and the type stays. *)
Definition set_bytes (vs : list value) (i : Z) (data : list Z) : list value * err :=
  match vs !! Z.to_nat i with
  | Some v =>
      if i <? 0 then (vs, Some ErrIndexOutOfRange)
      else if bool_decide (length data = length v.1) then (<[Z.to_nat i := (data, v.2)]> vs, None) else (vs, Some ErrSizeMismatch)
  | None => (vs, Some ErrIndexOutOfRange)
  end.

(** What can be done to argument [i]. *)
Inductive update :=
| USet (typ : nat) (v : list Z)
| UBuffer (T : elem) (b : option (Buffer T))
| UDevicePtr (ptr : Z)
| URaw (mem : option (list Z)) (size : Z).

(** On the list; [closed] says which buffers are closed. *)
Definition update_value (closed : loc -> bool) (vs : list value) (i : Z) (u : update) : list value * err :=
  match u with
  | USet typ v => set_value vs i typ v
  | UBuffer T None => (vs, Some ErrNilBuffer)
  | UBuffer T (Some b) => if closed (bf_id b) then (vs, Some ErrBufferClosed) else set_value vs i type_CUdeviceptr (handle_bytes (bf_ptr b))
  | UDevicePtr ptr => set_value vs i type_CUdeviceptr (handle_bytes ptr)
  | URaw None _ => (vs, Some ErrNilKernelArg)
  | URaw (Some mem) size =>
      if (size <=? 0) || (maxRawArgBytes <? size) then (vs, Some ErrInvalidArgSize) else set_bytes vs i (take (Z.to_nat size) mem)
  end.

Fixpoint update_values (closed : loc -> bool) (vs : list value) (us : list (Z * update)) : list value * list err :=
  match us with
  | [] => (vs, [])
  | (i, u) :: us =>
      let r := update_value closed vs i u in
      let q := update_values closed r.1 us in (q.1, r.2 :: q.2)
  end.

(** What the driver is given for a list of values. *)
Definition params_of_values (vs : list value) : kernel_params := match vs with [] => None | _ => Some (map fst vs) end.

Section Updates.
Context `{Foreign}.

(** ** In the code *)

Definition apply_update (p : option PackedArgs) (i : Z) (u : update) : M (option PackedArgs * err) :=
  match u with
  | USet typ v => ret (SetPacked p i typ v)
  | UBuffer T b => SetPackedBuffer p i b
  | UDevicePtr ptr => ret (SetDevicePtr p i ptr)
  | URaw mem size => ret (SetRaw p i mem size)
  end.

Fixpoint apply_updates (p : option PackedArgs) (us : list (Z * update)) : M (option PackedArgs * list err) :=
  match us with
  | [] => ret (p, [])
  | (i, u) :: us =>
      let! r := apply_update p i u in
      let! q := apply_updates r.1 us in
      ret (q.1, r.2 :: q.2)
  end.

(** ** The builder stands for the list *)

(** The size of every Go type; what is packed has the size of its type. *)
Variable size_of : nat -> Z.
Hypothesis ptr_size : size_of type_CUdeviceptr = 8.

Definition value_ok (v : value) : Prop := forall t, v.2 = Some t -> Z.of_nat (length v.1) = size_of t.

Definition stands (p : PackedArgs) (vs : list value) : Prop := argpack.wf p /\ argpack.args p = vs /\ Forall value_ok vs.

Definition update_ok (u : update) : Prop :=
  match u with
  | USet typ v => Z.of_nat (length v) = size_of typ
  | URaw (Some mem) size => 0 < size <= maxRawArgBytes -> size <= Z.of_nat (length mem)
  | _ => True
  end.

Lemma length_handle h : length (handle_bytes h) = 8%nat.
Proof. unfold handle_bytes. now rewrite length_map, length_seq. Qed.

Lemma stands_in_range p vs i : stands p vs -> argpack.in_range p i = bool_decide (0 <= i < Z.of_nat (length vs)).
Proof.
  intros (_ & <- & _). unfold argpack.in_range. rewrite argpack.length_args.
  destruct (Z.ltb_spec i 0), (Z.leb_spec (Z.of_nat (argpack.count p)) i); cbn;
    symmetry; (apply bool_decide_eq_true_2; lia) || (apply bool_decide_eq_false_2; lia).
Qed.

(** An argument of the list, in the builder. *)
Lemma stands_at p vs n : stands p vs -> (n < length vs)%nat ->
  (n < argpack.count p)%nat /\ vs !! n = Some (argpack.stored p n, argpack.am_typ (argpack.meta p n)) /\
  Z.of_nat (length (argpack.stored p n)) = argpack.am_size (argpack.meta p n).
Proof.
  intros (Hw & <- & _) Hn. rewrite argpack.length_args in Hn. split_and!; [done| |now apply argpack.stored_length].
  now rewrite argpack.args_lookup, decide_True.
Qed.

(** Overwriting a whole argument. *)
Lemma stands_write p vs n data : stands p vs -> (n < argpack.count p)%nat -> Z.of_nat (length data) = argpack.am_size (argpack.meta p n) ->
  value_ok (data, argpack.am_typ (argpack.meta p n)) ->
  stands (argpack.write p (argpack.meta p n) n data) (<[n := (data, argpack.am_typ (argpack.meta p n))]> vs).
Proof.
  intros (Hw & <- & Hok) Hn Hs Hv. destruct (argpack.write_spec p n data Hw Hn Hs) as (Hw' & _). split_and!; [exact Hw'|now apply argpack.write_args|].
  now apply Forall_insert.
Qed.

(** [Set] is the update of the list. *)
Lemma Set_refines p vs i typ data : stands p vs -> Z.of_nat (length data) = size_of typ ->
  (argpack.Set_ p i typ data).2 = (set_value vs i typ data).2 /\ stands (argpack.Set_ p i typ data).1 (set_value vs i typ data).1.
Proof.
  intros Hp Hd. unfold argpack.Set_, set_value. rewrite (stands_in_range p vs i Hp).
  case_bool_decide as Hi; cbn [negb]; [|now split]. destruct (stands_at p vs (Z.to_nat i) Hp) as (Hn & Hv & Hs); [lia|].
  rewrite Hv. cbn. case_bool_decide as Ht; [|now split]. split; [done|]. cbn. rewrite <- Ht. apply stands_write; try done.
  - rewrite Hd, <- Hs. destruct Hp as (_ & _ & Hok). rewrite Forall_lookup in Hok. symmetry. exact (Hok _ _ Hv typ Ht).
  - intros t E. cbn in E. rewrite Ht in E. now injection E as <-.
Qed.

(** [SetBytes] is the update of the list. *)
Lemma SetBytes_refines p vs i data : stands p vs ->
  (argpack.SetBytes p i data).2 = (set_bytes vs i data).2 /\ stands (argpack.SetBytes p i data).1 (set_bytes vs i data).1.
Proof.
  intros Hp. unfold argpack.SetBytes, set_bytes. rewrite (stands_in_range p vs i Hp).
  case_bool_decide as Hi; cbn [negb].
  - destruct (stands_at p vs (Z.to_nat i) Hp) as (Hn & Hv & Hs); [lia|]. rewrite Hv. replace (i <? 0) with false by (symmetry; apply Z.ltb_ge; lia). cbn [fst snd].
    rewrite <- Hs. case_bool_decide as Hl.
    + rewrite Hl, Z.eqb_refl. cbn. split; [done|]. apply stands_write; [done|done|lia|]. intros t E. cbn in E |- *. rewrite Hl.
      destruct Hp as (_ & _ & Hok). rewrite Forall_lookup in Hok. exact (Hok _ _ Hv t E).
    + replace (_ =? _) with false by (symmetry; apply Z.eqb_neq; lia). now split.
  - destruct (vs !! Z.to_nat i) as [v|] eqn:Hv; [|now split]. apply lookup_lt_Some in Hv.
    replace (i <? 0) with true by (symmetry; apply Z.ltb_lt; lia). now split.
Qed.

Definition closed_in (s : state) (l : loc) : bool := bool_decide (l ∈ env_closed (st_env s)).

(** [SetPackedBuffer] reads the buffer under its lock, and gives the lock back. *)
Lemma SetPackedBuffer_refines {T} p vs i (b : option (Buffer T)) s : stands p vs ->
  match SetPackedBuffer (Some p) i b s with
  | (Done (Some p', e), s') => s' = s /\ e = (update_value (closed_in s) vs i (UBuffer T b)).2 /\ stands p' (update_value (closed_in s) vs i (UBuffer T b)).1
  | (Blocks, s') => s' = s
  | _ => False
  end.
Proof.
  intros Hp. destruct b as [b|]; cbn [SetPackedBuffer update_value]; [|now unfold ret].
  unfold bind at 1, RLock. case_decide; [done|]. set (s1 := set_env _ s).
  assert (Hun : RUnlock (bf_id b, OpMu) s1 = (Done tt, s)).
  { unfold RUnlock. subst s1. cbn [st_env set_env]. unfold rlocked at 1. cbn [env_locks_r]. rewrite lookup_insert_eq, runlocked_rlocked. now destruct s. }
  unfold bind, is_closed, get, ret. change (env_closed (st_env s1)) with (env_closed (st_env s)). unfold closed_in.
  destruct (bool_decide (bf_id b ∈ env_closed (st_env s))); rewrite Hun; [now split_and!|].
  destruct (Set_refines p vs i type_CUdeviceptr (handle_bytes (bf_ptr b)) Hp) as [He Hs]; [now rewrite length_handle, ptr_size|].
  destruct (argpack.Set_ _ _ _ _) as [p' e]. now split_and!.
Qed.

(** One update. *)
Lemma apply_update_refines p vs i u s : stands p vs -> update_ok u ->
  match apply_update (Some p) i u s with
  | (Done (Some p', e), s') => s' = s /\ e = (update_value (closed_in s) vs i u).2 /\ stands p' (update_value (closed_in s) vs i u).1
  | (Blocks, s') => s' = s
  | _ => False
  end.
Proof.
  intros Hp Hu. destruct u as [typ v|T b|ptr|[mem|] size]; cbn [apply_update update_value]; [|now apply SetPackedBuffer_refines|..]; unfold ret.
  - cbn [SetPacked]. destruct (Set_refines p vs i typ v Hp Hu) as [He Hs]. destruct (argpack.Set_ _ _ _ _) as [p' e]. now split_and!.
  - cbn [SetDevicePtr]. destruct (Set_refines p vs i type_CUdeviceptr (handle_bytes ptr) Hp) as [He Hs]; [now rewrite length_handle, ptr_size|].
    destruct (argpack.Set_ _ _ _ _) as [p' e]. now split_and!.
  - cbn [SetRaw]. destruct (_ || _); [now split_and!|]. destruct (SetBytes_refines p vs i (take (Z.to_nat size) mem) Hp) as [He Hs].
    destruct (argpack.SetBytes _ _ _) as [p' e]. now split_and!.
  - now split_and!.
Qed.

(** Any number of them, one after the other. *)
Lemma apply_updates_refines us : forall p vs s, stands p vs -> Forall (fun u => update_ok u.2) us ->
  match apply_updates (Some p) us s with
  | (Done (Some p', es), s') => s' = s /\ es = (update_values (closed_in s) vs us).2 /\ stands p' (update_values (closed_in s) vs us).1
  | (Blocks, s') => s' = s
  | _ => False
  end.
Proof.
  induction us as [|[i u] us IH]; intros p vs s Hp Hus; cbn [apply_updates update_values]; [now unfold ret|].
  apply Forall_cons in Hus as [Hu Hus]. unfold bind at 1. pose proof (apply_update_refines p vs i u s Hp Hu) as Hs.
  destruct (apply_update (Some p) i u s) as [[[[p1|] e]| | |] s1]; try done. destruct Hs as (-> & -> & Hp1). cbn [fst snd].
  unfold bind. specialize (IH p1 _ s Hp1 Hus). destruct (apply_updates (Some p1) us s) as [[[[p2|] es]| | |] s2]; try done.
  destruct IH as (-> & -> & Hp2). unfold ret. cbn [fst snd]. now split_and!.
Qed.

Lemma stands_view p vs : stands p vs -> driver_view (argpack.Params p) = params_of_values vs.
Proof. intros (Hw & Ha & _). rewrite driver_view_args by done. rewrite Ha. destruct vs; [done|]. now rewrite decide_False. Qed.

Lemma stands_Params p vs : stands p vs -> stands (argpack.Params p).1 vs.
Proof. intros (Hw & Ha & Hv). destruct (argpack.Params_wf p Hw) as [Hw' Ha']. split_and!; [done|congruence|done]. Qed.

Lemma packs_stands p args : packs p args -> Forall value_ok (values args) -> stands p (values args).
Proof. intros (Hw & Ha & _) Hv. now split_and!. Qed.

(** A successful update of argument [i] gives the list that packing the argument in its place gives. *)
Lemma update_repacks args i a typ data vs :
  Forall (fun a : option KernelArg => is_Some a) args -> arg_value a = (data, Some typ) ->
  set_value (values args) i typ data = (vs, None) -> vs = values (<[Z.to_nat i := Some a]> args).
Proof.
  intros Hs Ha. unfold set_value. case_bool_decide; [|done]. case_bool_decide; [|done]. intros E. injection E as <-. rewrite <- Ha.
  generalize (Z.to_nat i). clear -Hs. induction Hs as [|[b|] args Hb Hs IH]; intros n; [done| |now destruct Hb].
  destruct n as [|n]; [done|]. unfold values in *. cbn. now rewrite IH.
Qed.

(** C28.  Packed arguments are a list of typed values.  After any sequence of [SetPacked], [SetPackedBuffer], [SetDevicePtr] and [SetRaw] with any indices, values and buffers, from any state: each
    returned the error the list demands (index out of range, another type, another size, a nil or closed buffer) or nil, nothing else changed, locks included, and the builder stands for
    the updated list; a launch of it, on the default stream or another, makes besides background calls only the launch asked for, with parameters that read back as exactly the values of
    that list, and leaves it as it is. *)
Theorem packed_updates_refine (args : list (option KernelArg)) (us : list (Z * update)) (p : PackedArgs) (s : state) :
  packs p args -> Forall value_ok (values args) -> Forall (fun u => update_ok u.2) us ->
  match apply_updates (Some p) us s with
  | (Done (Some p', es), s') =>
      let vs := update_values (closed_in s) (values args) us in
      s' = s /\ es = vs.2 /\ stands p' vs.1 /\
      (forall f m ctx st cfg E, fn_module f = Some m ->
         tidy (packed_use [] m (fn_raw f) cfg defaultStream (params_of_values vs.1)) E (LaunchPacked (Some f) ctx cfg (Some p')) /\
         tidy (packed_use [sm_id st] m (fn_raw f) cfg (sm_raw st) (params_of_values vs.1)) E (LaunchPackedOn (Some f) ctx (Some st) cfg (Some p')) /\
         yields (LaunchPacked (Some f) ctx cfg (Some p')) (fun r => exists q, r.2 = Some q /\ stands q vs.1) /\
         yields (LaunchPackedOn (Some f) ctx (Some st) cfg (Some p')) (fun r => exists q, r.2 = Some q /\ stands q vs.1))
  | (Blocks, s') => s' = s
  | _ => False
  end.
Proof.
  intros Hp Hv Hus. pose proof (apply_updates_refines us p (values args) s (packs_stands p args Hp Hv) Hus) as Hr.
  destruct (apply_updates (Some p) us s) as [[[[p'|] es]| | |] s']; try done. destruct Hr as (-> & -> & Hst). cbv zeta. split_and!; [done..|].
  intros f m ctx st cfg E Hf. pose proof (stands_view p' _ Hst) as Hview. pose proof (stands_Params p' _ Hst) as Hst'. split_and!.
  - now apply tidy_LaunchPacked.
  - now apply tidy_LaunchPackedOn.
  - now apply (yields_launchPacked (fun q => stands q _)).
  - now apply (yields_LaunchPackedOn (fun q => stands q _)).
Qed.
End Updates.
