(* ===== verification/Steps.v ===== *)
(** * Functions as sequences of atomic steps

    The functions of this library run one goroutine at a time.  Here each of them is read as the sequence of its accesses to what goroutines share: a lock, a [closed] flag, one of the other
    fields, a driver call.  [text m] is such a reading of [m]; its constructors are the operations of the monad, so that a reading has the structure of the code.
    [compile] makes of it a program whose steps can be interleaved with those of others, and [exec_compile] shows that alone it does what [m] does. *)

From S2P Require Import Prelude CudaSys Errors Runtime.

(** What an operation promises of the driver calls it makes. *)
Abbreviation usage := (Env -> call -> Prop).

Section Steps.
Context `{Foreign}.

(** ** Atomic steps *)

(** One access to fields of the state other than locks, flags, thread and trace, or to the host's memory. *)
Definition local {A} (m : M A) : Prop :=
  forall s, returns (m s).1 /\ st_env (m s).2 = st_env s /\ st_trace (m s).2 = st_trace s /\
    forall E, m (set_env E s) = ((m s).1, set_env E (m s).2).

Inductive action : Type -> Type :=
| Access {A} (m : M A) : local m -> action A
| ARLock (l : lockid) : action unit
| ARUnlock (l : lockid) : action unit
| ALock (l : lockid) : action unit
| AUnlock (l : lockid) : action unit
| AClosed (l : loc) : action bool
| ASetClosed (l : loc) : action unit
| AInvoke (d : option Driver) (c : call) : action (Z * out c).

Definition denote {A} (a : action A) : M A :=
  match a in action B return M B with
  | Access m _ => m
  | ARLock l => RLock l
  | ARUnlock l => RUnlock l
  | ALock l => Lock l
  | AUnlock l => Unlock l
  | AClosed l => is_closed l
  | ASetClosed l => set_closed l
  | AInvoke d c => invoke d c
  end.

(** ** The text of a function *)

Inductive text : forall {A}, M A -> Type :=
| t_ret {A} (a : A) : text (ret a)
| t_panic {A} v : text (panic (A := A) v)
| t_act {A} (a : action A) : text (denote a)
| t_bind {A B} {m : M A} {k : A -> M B} : text m -> (forall a, text (k a)) -> text (bind m k)
| t_defer {A} {d : M unit} {m : M A} : text d -> text m -> text (defer d m)
| t_recovering {A} (h : string -> A) {m : M A} : text m -> text (recovering h m)
| t_on {A} (t : loc) {m : M A} : text m -> text (on t m).

(** ** Programs *)

(** What is left of a goroutine to run: its next step, the thread it is on, the operation the step belongs to. *)
Inductive code (R : Type) :=
| Halt (o : outcome R)
| Act (u : usage) (t : option loc) {A : Type} (a : action A) (k : outcome A -> code R).
#[global] Arguments Halt {R} _.
#[global] Arguments Act {R} _ _ {A} _ _.

Fixpoint compile {A} {m : M A} (x : text m) {R} (u : usage) (t : option loc) : (outcome A -> code R) -> code R :=
  match x in @text B m return (outcome B -> code R) -> code R with
  | t_ret a => fun k => k (Done a)
  | t_panic v => fun k => k (Panics v)
  | t_act a => fun k => Act u t a k
  | t_bind x y => fun k => compile x u t (fun o =>
      match o with
      | Done a => compile (y a) u t k
      | Panics v => k (Panics v)
      | Blocks => k Blocks
      | Fatal => k Fatal
      end)
  | t_defer d x => fun k => compile x u t (fun o =>
      match o with
      | Done _ | Panics _ => compile d u t (fun o2 =>
          match o2 with
          | Done _ => k o
          | Panics v => k (Panics v)
          | Blocks => k Blocks
          | Fatal => k Fatal
          end)
      | Blocks => k Blocks
      | Fatal => k Fatal
      end)
  | t_recovering h x => fun k => compile x u t (fun o => match o with Panics v => k (Done (h v)) | _ => k o end)
  | t_on e x => fun k => compile x u (Some e) k
  end.

(** ** Running alone *)

Definition set_thread (t : option loc) (s : state) : state := set_env (on_thread t (st_env s)) s.

Fixpoint exec {R} (t0 : option loc) (c : code R) (s : state) : outcome R * state :=
  match c with
  | Halt o => (o, set_thread t0 s)
  | Act _ t a k =>
      let r := denote a (set_thread t s) in
      match r.1 with Blocks => (Blocks, set_thread t0 r.2) | o => exec t0 (k o) r.2 end
  end.

Lemma set_thread_twice t t' s : set_thread t (set_thread t' s) = set_thread t s.
Proof. now destruct s. Qed.

Lemma set_thread_same s : set_thread (env_thread (st_env s)) s = s.
Proof. now destruct s as [? [? ? ? ?] ? ? ? ? ? ? ? ?]. Qed.

Lemma exec_thread {R} t0 t (c : code R) s : exec t0 c (set_thread t s) = exec t0 c s.
Proof. destruct c; cbn; now rewrite set_thread_twice. Qed.

(** A step stays on its thread. *)
Lemma denote_thread {A} (a : action A) s : env_thread (st_env (denote a s).2) = env_thread (st_env s).
Proof.
  destruct a as [A m Hm|l|l|l|l|l|l|d c]; cbn.
  - now destruct (Hm s) as (_ & -> & _).
  - unfold RLock. now case_decide.
  - unfold RUnlock. now destruct (_ !! l).
  - unfold Lock. case_decide; [done|]. now destruct (_ !! l).
  - unfold Unlock. now case_decide.
  - reflexivity.
  - reflexivity.
  - unfold invoke. destruct d as [d|]; [|done]. destruct (drv_bound _ _); [|done]. now destruct (Sys _ _ _).
Qed.

Lemma text_thread {A} (m : M A) (x : text m) : forall s, env_thread (st_env (m s).2) = env_thread (st_env s).
Proof.
  induction x as [A a|A v|A a|A B m k x IHx y IHy|A d m x IHx y IHy|A h m x IHx|A t m x IHx]; intros s; try reflexivity.
  - apply denote_thread.
  - unfold bind. specialize (IHx s). destruct (m s) as [o s1]. cbn in IHx. destruct o; cbn; try done. now rewrite IHy.
  - unfold defer. specialize (IHy s). destruct (m s) as [o s1]. cbn in IHy. destruct o; cbn; try done;
      specialize (IHx s1); destruct (d s1) as [[] s2]; cbn in *; congruence.
  - unfold recovering. specialize (IHx s). destruct (m s) as [o s1]. now destruct o.
  - unfold on. destruct (m _) as [o s1]. now destruct s1.
Qed.

(** What follows a result. *)
Definition resume {A R} (t0 : option loc) (r : outcome A * state) (k : outcome A -> code R) : outcome R * state :=
  match r.1 with Blocks => (Blocks, set_thread t0 r.2) | o => exec t0 (k o) r.2 end.

Lemma exec_resume {A} (m : M A) (x : text m) : forall R t0 u t (k : outcome A -> code R) s,
  exec t0 (compile x u t k) s = resume t0 (m (set_thread t s)) k.
Proof.
  unfold resume. induction x as [A a|A v|A a|A B m f x IHx y IHy|A d m x IHx y IHy|A h m x IHx|A e m x IHx]; intros R t0 u t k s; cbn [compile].
  - cbn. now rewrite exec_thread.
  - cbn. now rewrite exec_thread.
  - reflexivity.
  - rewrite IHx. unfold bind. pose proof (text_thread m x (set_thread t s)) as Ht. destruct (m (set_thread t s)) as [o s1]. cbn in *.
    destruct o as [a| | |]; cbn; try done. rewrite IHy. rewrite <- Ht. now rewrite set_thread_same.
  - rewrite IHy. unfold defer. pose proof (text_thread m y (set_thread t s)) as Ht. destruct (m (set_thread t s)) as [o s1]. cbn in *.
    destruct o as [a|v| |]; cbn; try done; rewrite IHx; rewrite <- Ht, set_thread_same; destruct (d s1) as [[] s2]; reflexivity.
  - rewrite IHx. unfold recovering. destruct (m (set_thread t s)) as [[] s1]; reflexivity.
  - rewrite IHx. unfold on. change (set_env (on_thread (Some e) (st_env (set_thread t s))) (set_thread t s)) with (set_thread (Some e) (set_thread t s)).
    rewrite set_thread_twice. destruct (m (set_thread (Some e) s)) as [o s1]. cbn.
    change (set_env (on_thread t (st_env s1)) s1) with (set_thread t s1).
    now destruct o; rewrite ?exec_thread.
Qed.

(** Alone, the steps of a function do what the function does. *)
Lemma exec_compile {A} (m : M A) (x : text m) u s :
  exec (env_thread (st_env s)) (compile x u (env_thread (st_env s)) Halt) s = m s.
Proof.
  rewrite exec_resume. unfold resume. rewrite set_thread_same. pose proof (text_thread m x s) as Ht. destruct (m s) as [o s1]. cbn in *.
  rewrite <- Ht. destruct o; cbn; now rewrite set_thread_same.
Qed.

End Steps.
