(* ===== verification/Goroutines.v ===== *)
(** * Goroutines: programs of atomic steps under any schedule

    Any number of goroutines run programs made of the texts of [Steps.v] on one shared state.  A [view] is what a goroutine knows whatever the others do: the locks it holds, and objects it found
    open under a lock it still holds.  [safe] is the weakest precondition of a program in a view, [wp] that of a text, and [safe_forever] says that what they promise holds
    in every interleaving. *)

From S2P Require Import Prelude CudaSys Errors Runtime Steps.

(** ** Locks held by one goroutine *)

Record locks := mkLocks { lk_r : gmap lockid positive; lk_w : gset lockid }.

Definition no_locks : locks := mkLocks ∅ ∅.

(** The environment as a goroutine with these locks sees it: its own locks, its thread, the flags. *)
Definition env_of (h : locks) (t : option loc) (C : gset loc) : Env := mkEnv (lk_r h) (lk_w h) t C.

Definition hold (f : Env -> Env) (h : locks) : locks :=
  let E := f (env_of h None ∅) in mkLocks (env_locks_r E) (env_locks_w E).

Definition holds (l : lockid) (h : locks) : Prop := is_Some (lk_r h !! l) \/ l ∈ lk_w h.

#[export] Instance holds_dec l h : Decision (holds l h).
Proof. unfold holds. apply _. Defined.

Lemma holds_rlock l k h : holds l h -> holds l (hold (rlocked k) h).
Proof. intros [Hr|Hw]; [left; exact (r_held_mono l k (env_of h None ∅) Hr)|now right]. Qed.

Lemma holds_rlock_here l h : holds l (hold (rlocked l) h).
Proof. left. exact (r_held_rlocked l (env_of h None ∅)). Qed.

Lemma holds_lock l k h : holds l h -> holds l (hold (wlocked k) h).
Proof. intros [Hr|Hw]; [now left|right]. cbn. set_solver. Qed.

Lemma holds_lock_here l h : holds l (hold (wlocked l) h).
Proof. right. cbn. set_solver. Qed.

Lemma unlock_rlock l h : hold (runlocked l) (hold (rlocked l) h) = h.
Proof.
  destruct h as [r w]. pose proof (runlocked_rlocked l (mkEnv r w None ∅)) as E. unfold hold. cbn. f_equal.
  exact (f_equal env_locks_r E).
Qed.

Lemma unlock_lock l h : l ∉ lk_w h -> hold (wunlocked l) (hold (wlocked l) h) = h.
Proof. intros Hl. destruct h as [r w]. unfold hold. cbn in *. f_equal. set_solver. Qed.

(** ** Views *)

Record view := knowing { v_locks : locks; v_open : gset loc }.

Definition nothing : view := knowing no_locks ∅.

(** What is still known with these locks. *)
Definition known (h : locks) (O : gset loc) : gset loc := filter (fun x => holds (x, OpMu) h) O.

Definition wf (V : view) : Prop := forall x, x ∈ v_open V -> holds (x, OpMu) (v_locks V).

Definition vrlock (l : lockid) (V : view) : view := knowing (hold (rlocked l) (v_locks V)) (v_open V).
Definition vrunlock (l : lockid) (V : view) : view :=
  let h := hold (runlocked l) (v_locks V) in knowing h (known h (v_open V)).
Definition vlock (l : lockid) (V : view) : view := knowing (hold (wlocked l) (v_locks V)) (v_open V).
Definition vunlock (l : lockid) (V : view) : view :=
  let h := hold (wunlocked l) (v_locks V) in knowing h (known h (v_open V)).
Definition vclose (l : loc) (V : view) : view := knowing (v_locks V) (v_open V ∖ {[l]}).

(** The flag of [l] was found unset: that stays so while its lock is held. *)
Definition vfound (l : loc) (V : view) : view :=
  knowing (v_locks V) (known (v_locks V) {[l]} ∪ v_open V).

Definition vle (V V' : view) : Prop := v_locks V' = v_locks V /\ v_open V ⊆ v_open V'.

Lemma vle_refl V : vle V V.
Proof. now split. Qed.

Lemma vle_trans V1 V2 V3 : vle V1 V2 -> vle V2 V3 -> vle V1 V3.
Proof. intros [H1 H2] [H3 H4]. split; [congruence|set_solver]. Qed.

Lemma known_spec h O x : x ∈ known h O <-> holds (x, OpMu) h /\ x ∈ O.
Proof. unfold known. now rewrite elem_of_filter. Qed.

Lemma known_mono h O O' : O ⊆ O' -> known h O ⊆ known h O'.
Proof. intros Ho x. rewrite !known_spec. set_solver. Qed.

Section Goroutines.
Context `{Foreign}.

(** ** Weakest preconditions *)

Definition act_wp {A} (u : usage) (t : option loc) (a : action A) (V : view) : (outcome A -> view -> Prop) -> Prop :=
  match a in action B return (outcome B -> view -> Prop) -> Prop with
  | Access m _ => fun Q => forall s, Q (m s).1 V
  | ARLock l => fun Q => Q (Done tt) (vrlock l V)
  | ARUnlock l => fun Q => is_Some (lk_r (v_locks V) !! l) /\ Q (Done tt) (vrunlock l V)
  | ALock l => fun Q => ~ holds l (v_locks V) -> Q (Done tt) (vlock l V)
  | AUnlock l => fun Q => l ∈ lk_w (v_locks V) /\ Q (Done tt) (vunlock l V)
  | AClosed l => fun Q => Q (Done true) V /\ Q (Done false) (vfound l V)
  | ASetClosed l => fun Q => (l, OpMu) ∈ lk_w (v_locks V) /\ Q (Done tt) (vclose l V)
  | AInvoke d c => fun Q =>
      (forall C, C ## v_open V -> u (env_of (v_locks V) t C) c) /\ (forall r, Q (Done r) V) /\ (forall v, Q (Panics v) V)
  end.

Fixpoint wp {A} {m : M A} (x : text m) (u : usage) (t : option loc) (V : view) : (outcome A -> view -> Prop) -> Prop :=
  match x in @text _ B m return (outcome B -> view -> Prop) -> Prop with
  | t_ret a => fun Q => Q (Done a) V
  | t_panic v => fun Q => Q (Panics v) V
  | t_act a => act_wp u t a V
  | t_bind x y => fun Q => wp x u t V (fun o V' =>
      match o with
      | Done a => wp (y a) u t V' Q
      | Panics v => Q (Panics v) V'
      | Blocks => Q Blocks V'
      | Fatal => Q Fatal V'
      end)
  | t_defer d x => fun Q => wp x u t V (fun o V' =>
      match o with
      | Done _ | Panics _ => wp d u t V' (fun o2 V2 =>
          match o2 with
          | Done _ => Q o V2
          | Panics v => Q (Panics v) V2
          | Blocks => Q Blocks V2
          | Fatal => Q Fatal V2
          end)
      | Blocks => Q Blocks V'
      | Fatal => Q Fatal V'
      end)
  | t_recovering h x => fun Q => wp x u t V (fun o V' => match o with Panics v => Q (Done (h v)) V' | _ => Q o V' end)
  | t_on e x => wp x u (Some e) V
  end.

Fixpoint safe {R} (F : outcome R -> view -> Prop) (c : code R) (V : view) : Prop :=
  match c with
  | Halt o => F o V
  | Act u t a k => act_wp u t a V (fun o V' => safe F (k o) V')
  end.

Lemma act_wp_mono {A} u t (a : action A) V (Q R : outcome A -> view -> Prop) :
  (forall o V', Q o V' -> R o V') -> act_wp u t a V Q -> act_wp u t a V R.
Proof. destruct a; cbn; intuition auto. Qed.

Lemma wp_mono {A} (m : M A) (x : text m) : forall u t V (Q R : outcome A -> view -> Prop),
  (forall o V', Q o V' -> R o V') -> wp x u t V Q -> wp x u t V R.
Proof.
  induction x as [A a|A v|A a|A B m f x IHx y IHy|A d m x IHx y IHy|A h m x IHx|A e m x IHx]; intros u t V Q R HQ; cbn [wp]; auto.
  - now apply act_wp_mono.
  - apply IHx. intros [a| | |] V'; auto. now apply IHy.
  - apply IHy. intros [a|v| |] V'; auto; apply IHx; intros [] V2; auto.
  - apply IHx. intros [a| | |] V'; auto.
  - now apply IHx.
Qed.

(** A stronger promise implies a weaker one. *)
Lemma wp_usage {A} (m : M A) (x : text m) : forall (u u' : usage) t V (Q : outcome A -> view -> Prop),
  (forall E c, u E c -> u' E c) -> wp x u t V Q -> wp x u' t V Q.
Proof.
  induction x as [A a|A v|A a|A B m f x IHx y IHy|A d m x IHx y IHy|A h m x IHx|A e m x IHx]; intros u u' t V Q Hu; cbn [wp]; auto.
  - destruct a; cbn; intuition auto.
  - intros Hx. eapply wp_mono; [|exact (IHx u u' _ _ _ Hu Hx)]. intros [a| | |] V'; auto. now apply IHy.
  - intros Hx. eapply wp_mono; [|exact (IHy u u' _ _ _ Hu Hx)]. intros [a|v| |] V'; auto; now apply IHx.
  - intros Hx. now apply (IHx u u').
  - now apply IHx.
Qed.

(** Knowing more does not hurt. *)
Definition up {A} (Q : outcome A -> view -> Prop) : Prop := forall o V V', vle V V' -> Q o V -> Q o V'.

Lemma act_wp_le {A} u t (a : action A) V V' (Q : outcome A -> view -> Prop) :
  up Q -> vle V V' -> act_wp u t a V Q -> act_wp u t a V' Q.
Proof.
  intros HQ [Hl Ho]. destruct a; cbn; rewrite ?Hl.
  - intros Hw s. eapply HQ; [|apply Hw]. now split.
  - apply HQ. split; [now cbn; rewrite Hl|exact Ho].
  - intros [H1 H2]. split; [exact H1|]. revert H2. apply HQ. split; [now cbn; rewrite Hl|]. cbn. rewrite Hl. now apply known_mono.
  - intros Hw Hn. specialize (Hw Hn). revert Hw. apply HQ. split; [now cbn; rewrite Hl|exact Ho].
  - intros [H1 H2]. split; [exact H1|]. revert H2. apply HQ. split; [now cbn; rewrite Hl|]. cbn. rewrite Hl. now apply known_mono.
  - intros [H1 H2]. split; [revert H1|revert H2]; apply HQ; (split; [done|]); [exact Ho|]. cbn. rewrite Hl. set_solver.
  - intros [H1 H2]. split; [exact H1|]. revert H2. apply HQ. split; [done|]. cbn. set_solver.
  - intros (H1 & H2 & H3). split_and!; [intros C HC; apply H1; set_solver|..]; intros r; eapply HQ; [|apply H2| |apply H3]; now split.
Qed.

Lemma wp_le {A} (m : M A) (x : text m) : forall u t V V' (Q : outcome A -> view -> Prop),
  up Q -> vle V V' -> wp x u t V Q -> wp x u t V' Q.
Proof.
  induction x as [A a|A v|A a|A B m f x IHx y IHy|A d m x IHx y IHy|A h m x IHx|A e m x IHx]; intros u t V V' Q HQ Hle; cbn [wp].
  - now apply HQ.
  - now apply HQ.
  - now apply act_wp_le.
  - apply IHx; [|exact Hle]. intros [a| | |] V1 V2 Hv; try now apply HQ. now apply IHy.
  - apply IHy; [|exact Hle]. intros [a|v| |] V1 V2 Hv; try (now apply HQ); (apply IHx; [|exact Hv]); intros [] V3 V4; apply HQ.
  - apply IHx; [|exact Hle]. intros [a| | |] V1 V2 Hv; now apply HQ.
  - now apply IHx.
Qed.

Lemma safe_le {R} (F : outcome R -> view -> Prop) (c : code R) : up F -> forall V V', vle V V' -> safe F c V -> safe F c V'.
Proof.
  intros HF. induction c as [o|u t A a k IH]; intros V V' Hle; cbn [safe]; [now apply HF|].
  apply act_wp_le; [|exact Hle]. intros o V1 V2. apply IH.
Qed.

(** A well-formed view stays well formed. *)
Lemma wf_vrlock l V : wf V -> wf (vrlock l V).
Proof. intros Hw x Hx. apply holds_rlock. now apply Hw. Qed.

Lemma wf_vlock l V : wf V -> wf (vlock l V).
Proof. intros Hw x Hx. apply holds_lock. now apply Hw. Qed.

Lemma wf_known h O : wf (knowing h (known h O)).
Proof. intros x Hx. now apply known_spec in Hx. Qed.

Lemma wf_vfound l V : wf V -> wf (vfound l V).
Proof. intros Hw x Hx. cbn in Hx. apply elem_of_union in Hx as [Hx|Hx]; [now apply known_spec in Hx|now apply Hw]. Qed.

Lemma wf_vclose l V : wf V -> wf (vclose l V).
Proof. intros Hw x Hx. apply Hw. cbn in Hx. set_solver. Qed.

Lemma act_wp_wf {A} u t (a : action A) V (Q : outcome A -> view -> Prop) :
  wf V -> act_wp u t a V Q -> act_wp u t a V (fun o V' => Q o V' /\ wf V').
Proof.
  intros Hw. destruct a; cbn; try (intuition auto using wf_vrlock, wf_vlock, wf_vfound, wf_vclose; fail);
    intros [H1 H2]; (split_and!; [exact H1|exact H2|apply wf_known]).
Qed.

Lemma wp_wf {A} (m : M A) (x : text m) : forall u t V (Q : outcome A -> view -> Prop),
  wf V -> wp x u t V Q -> wp x u t V (fun o V' => Q o V' /\ wf V').
Proof.
  induction x as [A a|A v|A a|A B m f x IHx y IHy|A d m x IHx y IHy|A h m x IHx|A e m x IHx]; intros u t V Q HV; cbn [wp]; auto.
  - now apply act_wp_wf.
  - intros Hm. eapply wp_mono; [|exact (IHx _ _ _ _ HV Hm)]. intros [a| | |] V' [Hq Hw]; cbn; auto.
  - intros Hm. eapply wp_mono; [|exact (IHy _ _ _ _ HV Hm)]. intros [a|v| |] V' [Hq Hw]; cbn; auto;
      (eapply wp_mono; [|exact (IHx _ _ _ _ Hw Hq)]); intros [] V2 [? ?]; auto.
  - intros Hm. eapply wp_mono; [|exact (IHx _ _ _ _ HV Hm)]. intros [a| | |] V' [Hq Hw]; cbn; auto.
Qed.

(** The precondition of a text is that of its program. *)
Lemma wp_safe {A} (m : M A) (x : text m) : forall R (F : outcome R -> view -> Prop) u t V (Q : outcome A -> view -> Prop) (k : outcome A -> code R),
  wp x u t V Q -> (forall o V', Q o V' -> safe F (k o) V') -> safe F (compile x u t k) V.
Proof.
  induction x as [A a|A v|A a|A B m f x IHx y IHy|A d m x IHx y IHy|A h m x IHx|A e m x IHx]; intros R F u t V Q k Hx Hk; cbn [compile wp safe] in *; auto.
  - now apply (act_wp_mono u t a V Q).
  - eapply IHx; [exact Hx|]. intros [a| | |] V' Hq; auto. eapply IHy; [exact Hq|exact Hk].
  - eapply IHy; [exact Hx|]. intros [a|v| |] V' Hq; auto; (eapply IHx; [exact Hq|]); intros [] V2; auto.
  - eapply IHx; [exact Hx|]. intros [a| | |] V' Hq; auto.
  - eapply IHx; [exact Hx|exact Hk].
Qed.

(** ** The machine *)

Record goroutine := mkGo { g_locks : locks; g_code : code unit }.

(** A driver call: who made it, for which operation, in which environment of its own, and what locks the goroutines held. *)
Record made := mkMade { by_goroutine : nat; by_usage : usage; by_env : Env; by_call : call; by_locks : list locks }.

Record config := mkConfig { shared : state; gos : list goroutine; calls_made : list made }.

Definition took {A} (a : action A) (h : locks) : locks :=
  match a with
  | ARLock l => hold (rlocked l) h
  | ARUnlock l => hold (runlocked l) h
  | ALock l => hold (wlocked l) h
  | AUnlock l => hold (wunlocked l) h
  | _ => h
  end.

(** A call through a nil driver or field panics before it is made. *)
Definition made_by {A} (i : nat) (u : usage) (h : locks) (t : option loc) (C : gset loc) (gs : list goroutine) (a : action A) (o : outcome A) : list made :=
  match a, o with
  | AInvoke d c, Done _ => [mkMade i u (env_of h t C) c (map g_locks gs)]
  | _, _ => []
  end.

(** One step of goroutine [i]; one that waits for a lock has no step. *)
Inductive step : config -> config -> Prop :=
| step_act s gs tr i h u t A (a : action A) k o s' :
    gs !! i = Some (mkGo h (Act u t a k)) -> denote a (set_thread t s) = (o, s') -> o <> Blocks ->
    step (mkConfig s gs tr)
         (mkConfig s' (<[i := mkGo (took a h) (k o)]> gs) (made_by i u h t (env_closed (st_env s)) gs a o ++ tr)).

(** ** What holds in every reachable configuration *)

Definition readers (l : lockid) (m : gmap lockid positive) : nat := match m !! l with Some n => Pos.to_nat n | None => 0 end.
Definition writers (l : lockid) (X : gset lockid) : nat := if decide (l ∈ X) then 1 else 0.

(** A call is what its operation promised, and locks its goroutine holds for writing no other goroutine holds. *)
Definition kept (e : made) : Prop :=
  by_usage e (by_env e) (by_call e) /\
  forall l j h, l ∈ env_locks_w (by_env e) -> j <> by_goroutine e -> by_locks e !! j = Some h -> ~ holds l h.

(** Every lock is held by the goroutines that hold it; a writer is alone. *)
Record accounted (E : Env) (gs : list goroutine) : Prop := mkAccounted {
  acc_r : forall l, readers l (env_locks_r E) = sum_list_with (fun g => readers l (lk_r (g_locks g))) gs;
  acc_w : forall l, writers l (env_locks_w E) = sum_list_with (fun g => writers l (lk_w (g_locks g))) gs;
  acc_x : forall l, l ∈ env_locks_w E -> env_locks_r E !! l = None
}.

(** A finished program has returned or panicked, and holds no lock. *)
Definition finished {R} (o : outcome R) (V : view) : Prop := returns o /\ v_locks V = no_locks.

Definition justified (C : gset loc) (g : goroutine) (V : view) : Prop :=
  v_locks V = g_locks g /\ wf V /\ v_open V ## C /\ safe finished (g_code g) V.

Record sound (c : config) : Prop := mkSound {
  snd_views : exists Vs, Forall2 (justified (env_closed (st_env (shared c)))) (gos c) Vs;
  snd_locks : accounted (st_env (shared c)) (gos c);
  snd_calls : Forall kept (calls_made c)
}.

Lemma sum_two {A} (f : A -> nat) l i j x y : i <> j -> l !! i = Some x -> l !! j = Some y -> (f x + f y <= sum_list_with f l)%nat.
Proof.
  revert i j. induction l as [|z l IH]; intros [|i] [|j] Hn Hx Hy; try done; cbn.
  - injection Hx as ->. pose proof (sum_lookup f l j y Hy). lia.
  - injection Hy as ->. pose proof (sum_lookup f l i x Hx). lia.
  - assert (i <> j) by congruence. specialize (IH i j ltac:(done) Hx Hy). lia.
Qed.

Lemma readers_rlocked l k E : readers l (env_locks_r (rlocked k E)) = (readers l (env_locks_r E) + if decide (l = k) then 1 else 0)%nat.
Proof.
  unfold readers, rlocked. cbn. destruct (decide (l = k)) as [Hk|Hk].
  - subst k. rewrite lookup_insert_eq. destruct (env_locks_r E !! l); lia.
  - rewrite lookup_insert_ne by congruence. lia.
Qed.

Lemma readers_runlocked l k E : is_Some (env_locks_r E !! k) ->
  readers l (env_locks_r E) = (readers l (env_locks_r (runlocked k E)) + if decide (l = k) then 1 else 0)%nat.
Proof.
  intros [n Hn]. unfold readers, runlocked. cbn. rewrite Hn. destruct (decide (l = k)) as [Hk|Hk].
  - subst k. rewrite Hn. destruct (decide (n = 1%positive)) as [->|Hne]; [rewrite lookup_delete_eq; lia|]. rewrite lookup_insert_eq. lia.
  - destruct (decide (n = 1%positive)); rewrite ?lookup_delete_ne, ?lookup_insert_ne by congruence; lia.
Qed.

Lemma readers_none l m : readers l m = 0%nat <-> m !! l = None.
Proof. unfold readers. destruct (m !! l); split; intros; try done; lia. Qed.

Lemma writers_in l X : l ∈ X <-> writers l X = 1%nat.
Proof. unfold writers. case_decide; split; intros; done. Qed.

Lemma writers_wlocked l k E : k ∉ env_locks_w E ->
  writers l (env_locks_w (wlocked k E)) = (writers l (env_locks_w E) + if decide (l = k) then 1 else 0)%nat.
Proof. intros Hk. unfold writers, wlocked. cbn. repeat case_decide; set_solver by lia. Qed.

Lemma writers_wunlocked l k E : k ∈ env_locks_w E ->
  writers l (env_locks_w E) = (writers l (env_locks_w (wunlocked k E)) + if decide (l = k) then 1 else 0)%nat.
Proof. intros Hk. unfold writers, wunlocked. cbn. repeat case_decide; set_solver by lia. Qed.

(** What one goroutine holds is held. *)
Lemma accounted_r E gs i g l : accounted E gs -> gs !! i = Some g -> is_Some (lk_r (g_locks g) !! l) -> is_Some (env_locks_r E !! l).
Proof.
  intros Ha Hg [n Hn]. pose proof (sum_lookup (fun g => readers l (lk_r (g_locks g))) gs i g Hg) as Hs. rewrite <- (acc_r _ _ Ha) in Hs.
  unfold readers in Hs. rewrite Hn in Hs. destruct (env_locks_r E !! l); [eauto|lia].
Qed.

Lemma accounted_w E gs i g l : accounted E gs -> gs !! i = Some g -> l ∈ lk_w (g_locks g) -> l ∈ env_locks_w E.
Proof.
  intros Ha Hg Hl. pose proof (sum_lookup (fun g => writers l (lk_w (g_locks g))) gs i g Hg) as Hs. rewrite <- (acc_w _ _ Ha) in Hs.
  apply writers_in in Hl. rewrite Hl in Hs. unfold writers in Hs. case_decide; [done|lia].
Qed.

(** A writer is alone. *)
Lemma accounted_alone E gs i j g g' l : accounted E gs -> i <> j -> gs !! i = Some g -> gs !! j = Some g' ->
  l ∈ lk_w (g_locks g) -> ~ holds l (g_locks g').
Proof.
  intros Ha Hn Hg Hg' Hl [Hr|Hw].
  - pose proof (accounted_w _ _ _ _ _ Ha Hg Hl) as Hlw. pose proof (accounted_r _ _ _ _ _ Ha Hg' Hr) as [n Hlr].
    pose proof (acc_x _ _ Ha l Hlw). congruence.
  - pose proof (sum_two (fun g => writers l (lk_w (g_locks g))) gs i j g g' Hn Hg Hg') as Hs. rewrite <- (acc_w _ _ Ha) in Hs.
    apply writers_in in Hl, Hw. rewrite Hl, Hw in Hs. unfold writers in Hs. case_decide; lia.
Qed.

(** One goroutine took or gave back what the environment gained or lost. *)
Lemma accounted_update E E' gs i g h' c : accounted E gs -> gs !! i = Some g ->
  (forall l, readers l (env_locks_r E') + readers l (lk_r (g_locks g)) = readers l (env_locks_r E) + readers l (lk_r h'))%nat ->
  (forall l, writers l (env_locks_w E') + writers l (lk_w (g_locks g)) = writers l (env_locks_w E) + writers l (lk_w h'))%nat ->
  (forall l, l ∈ env_locks_w E' -> env_locks_r E' !! l = None) ->
  accounted E' (<[i := mkGo h' c]> gs).
Proof.
  intros Ha Hg Hr Hw Hx. split; [| |exact Hx]; intros l.
  - specialize (Hr l). rewrite (acc_r _ _ Ha) in Hr. pose proof (sum_insert (fun g => readers l (lk_r (g_locks g))) gs i g (mkGo h' c) Hg) as Hs.
    cbn [g_locks] in Hs. cbv beta in *. lia.
  - specialize (Hw l). rewrite (acc_w _ _ Ha) in Hw. pose proof (sum_insert (fun g => writers l (lk_w (g_locks g))) gs i g (mkGo h' c) Hg) as Hs.
    cbn [g_locks] in Hs. cbv beta in *. lia.
Qed.

(** A step in its goroutine's view: what the goroutine may rely on afterwards, and what the others have to bear. *)
Record stepped {A} (Q : outcome A -> view -> Prop) (a : action A) (h : locks) (gs : list goroutine) (i : nat) (s s' : state) (o : outcome A) (V' : view) : Prop := mkStepped {
  sp_post : Q o V';
  sp_locks : v_locks V' = took a h;
  sp_wf : wf V';
  sp_open : v_open V' ## env_closed (st_env s');
  sp_acc : forall c, accounted (st_env s') (<[i := mkGo (took a h) c]> gs);
  sp_flags : forall x, x ∈ env_closed (st_env s') -> x ∈ env_closed (st_env s) \/ (x, OpMu) ∈ lk_w h
}.

(** Steps that touch no lock. *)
Lemma stepped_unlocked {A} (Q : outcome A -> view -> Prop) (a : action A) h c0 gs i s s' o V' :
  accounted (st_env s) gs -> gs !! i = Some (mkGo h c0) -> took a h = h ->
  env_locks_r (st_env s') = env_locks_r (st_env s) -> env_locks_w (st_env s') = env_locks_w (st_env s) ->
  (forall x, x ∈ env_closed (st_env s') -> x ∈ env_closed (st_env s) \/ (x, OpMu) ∈ lk_w h) ->
  Q o V' -> v_locks V' = h -> wf V' -> v_open V' ## env_closed (st_env s') ->
  stepped Q a h gs i s s' o V'.
Proof.
  intros Ha Hg Ht Er Ew Hf HQ Hl Hw Ho. split; rewrite ?Ht; try done. intros c.
  apply (accounted_update (st_env s) _ _ _ (mkGo h c0)); try done; intros l; rewrite ?Er, ?Ew; try (cbn; lia). apply (acc_x _ _ Ha).
Qed.

Lemma act_stepped {A} u t (a : action A) V (Q : outcome A -> view -> Prop) c0 gs i s s' o :
  accounted (st_env s) gs -> gs !! i = Some (mkGo (v_locks V) c0) -> wf V -> v_open V ## env_closed (st_env s) ->
  act_wp u t a V Q -> denote a (set_thread t s) = (o, s') -> o <> Blocks ->
  exists V', stepped Q a (v_locks V) gs i s s' o V'.
Proof.
  intros Ha Hg Hwf Ho Hwp Hs Hb. destruct V as [h O]. cbn [v_locks v_open] in *.
  destruct a as [A m Hm|l|l|l|l|l|l|d c]; cbn [denote act_wp v_locks v_open] in *.
  - exists (knowing h O). destruct (Hm (set_thread t s)) as (_ & He & _). specialize (Hwp (set_thread t s)). rewrite Hs in He, Hwp. cbn in He, Hwp.
    eapply stepped_unlocked; rewrite ?He; try done. intros x Hx. now left.
  - exists (vrlock l (knowing h O)). unfold RLock in Hs. cbn in Hs. case_decide as Hw; [congruence|]. injection Hs as <- <-.
    split; cbn [v_locks vrlock v_open took]; try done; [now apply wf_vrlock| |now left]. intros c. apply (accounted_update (st_env s) _ _ _ (mkGo h c0)); try done; intros k.
    + change (env_locks_r (st_env (set_env _ _))) with (env_locks_r (rlocked l (st_env s))).
      cbn [g_locks hold lk_r]. rewrite !readers_rlocked. cbn. lia.
    + intros Hk. change (k ∈ env_locks_w (st_env s)) in Hk. cbn. rewrite lookup_insert_ne by congruence. now apply (acc_x _ _ Ha).
  - destruct Hwp as [Hl HQ]. exists (vrunlock l (knowing h O)). pose proof (accounted_r _ _ _ _ l Ha Hg Hl) as Hr.
    unfold RUnlock in Hs. cbn in Hs. destruct Hr as [n Hn]. rewrite Hn in Hs. injection Hs as <- <-.
    split; cbn [v_locks vrunlock v_open took]; try done; [apply wf_known|cbn; intros x Hx; apply known_spec in Hx as [_ Hx]; now apply Ho|  |now left].
    intros c. apply (accounted_update (st_env s) _ _ _ (mkGo h c0)); try done; intros k.
    + change (env_locks_r (st_env (set_env _ _))) with (env_locks_r (runlocked l (st_env s))).
      pose proof (readers_runlocked k l (st_env s) ltac:(eauto)) as E1. pose proof (readers_runlocked k l (env_of h None ∅) Hl) as E2. cbn in E1, E2 |- *. lia.
    + intros Hk. change (k ∈ env_locks_w (st_env s)) in Hk. pose proof (acc_x _ _ Ha k Hk) as E. cbn. rewrite Hn.
      destruct (decide (k = l)) as [->|Hne]; [congruence|]. destruct (decide (n = 1%positive)); rewrite ?lookup_delete_ne, ?lookup_insert_ne by congruence; exact E.
  - exists (vlock l (knowing h O)). unfold Lock in Hs. cbn in Hs. case_decide as Hw; [congruence|].
    destruct (env_locks_r (st_env s) !! l) eqn:Hr; [congruence|]. injection Hs as <- <-.
    assert (Hn : ~ holds l h).
    { intros [Hl|Hl]; [pose proof (accounted_r _ _ _ _ l Ha Hg Hl) as [? ?]; congruence|now apply (accounted_w _ _ _ _ l Ha Hg) in Hl]. }
    assert (Hn' : l ∉ lk_w h) by (intros Hl; apply Hn; now right).
    split; cbn [v_locks vlock v_open took]; auto; [now apply wf_vlock|].
    intros c. apply (accounted_update (st_env s) _ _ _ (mkGo h c0)); try done; intros k.
    + change (env_locks_w (st_env (set_env _ _))) with (env_locks_w (wlocked l (st_env s))).
      cbn [g_locks hold lk_w]. rewrite !writers_wlocked by done. cbn. lia.
    + intros Hk. cbn in Hk |- *. apply elem_of_union in Hk as [Hk|Hk]; [apply elem_of_singleton in Hk as ->; exact Hr|now apply (acc_x _ _ Ha)].
  - destruct Hwp as [Hl HQ]. exists (vunlock l (knowing h O)). pose proof (accounted_w _ _ _ _ l Ha Hg Hl) as Hw.
    unfold Unlock in Hs. cbn in Hs. rewrite decide_True in Hs by exact Hw. injection Hs as <- <-.
    split; cbn [v_locks vunlock v_open took]; try done; [apply wf_known|cbn; intros x Hx; apply known_spec in Hx as [_ Hx]; now apply Ho| |now left].
    intros c. apply (accounted_update (st_env s) _ _ _ (mkGo h c0)); try done; intros k.
    + change (env_locks_w (st_env (set_env _ _))) with (env_locks_w (wunlocked l (st_env s))).
      pose proof (writers_wunlocked k l (st_env s) Hw) as E1. pose proof (writers_wunlocked k l (env_of h None ∅) Hl) as E2. cbn in E1, E2 |- *. lia.
    + intros Hk. cbn in Hk |- *. apply (acc_x _ _ Ha). set_solver.
  - destruct Hwp as [H1 H2]. unfold is_closed, get in Hs. injection Hs as <- <-. case_bool_decide as Hc.
    + exists (knowing h O). eapply stepped_unlocked; try done. intros x Hx. now left.
    + exists (vfound l (knowing h O)). eapply stepped_unlocked; try done; [now left|now apply wf_vfound|].
      cbn. intros x Hx. apply elem_of_union in Hx as [Hx|Hx]; [|now apply Ho]. apply known_spec in Hx as [_ Hx]. apply elem_of_singleton in Hx as ->. exact Hc.
  - destruct Hwp as [Hl HQ]. exists (vclose l (knowing h O)). unfold set_closed, modify in Hs. injection Hs as <- <-.
    eapply stepped_unlocked; try done; [|now apply wf_vclose|]; cbn; set_solver.
  - destruct Hwp as (Hu & HQ & HP). exists (knowing h O). unfold invoke in Hs.
    destruct d as [d|]; [|injection Hs as <- <-; eapply stepped_unlocked; try done; try (now left); apply HP].
    destruct (drv_bound _ _); [|injection Hs as <- <-; eapply stepped_unlocked; try done; try (now left); apply HP].
    destruct (Sys _ _ _) as [r w]. injection Hs as <- <-. eapply stepped_unlocked; try done; try (now left); apply HQ.
Qed.

(** The driver calls of a step are those its operation promised. *)
Lemma act_made {A} u t (a : action A) V (Q : outcome A -> view -> Prop) i c0 E gs C o :
  accounted E gs -> gs !! i = Some (mkGo (v_locks V) c0) -> act_wp u t a V Q -> v_open V ## C ->
  Forall kept (made_by i u (v_locks V) t C gs a o).
Proof.
  intros Ha Hg Hwp HC. destruct a; try (now destruct o); cbn in *. destruct o; repeat constructor; cbn.
  - apply Hwp. set_solver.
  - intros l j h Hl Hne Hh. rewrite list_lookup_fmap in Hh. apply fmap_Some in Hh as (g & Hj & ->).
    exact (accounted_alone E gs i j _ g l Ha (not_eq_sym Hne) Hg Hj Hl).
Qed.

Lemma step_sound c c' : sound c -> step c c' -> sound c'.
Proof.
  intros [(Vs & Hvs) Ha Hc] Hs. destruct Hs as [s gs tr i h u t A a k o s' Hg Hd Hb]. cbn [shared gos calls_made] in *.
  destruct (Forall2_lookup_l _ _ _ _ _ Hvs Hg) as (V & HV & Hl & Hw & Ho & Hsafe). cbn [g_locks g_code safe] in *.
  subst h. destruct (act_stepped u t a V _ _ gs i s s' o Ha Hg Hw Ho Hsafe Hd Hb) as (V' & [Hp Hl' Hw' Ho' Hacc Hf]).
  split; cbn [shared gos calls_made].
  - exists (<[i := V']> Vs). apply Forall2_lookup. intros j. destruct (decide (j = i)) as [->|Hne].
    + rewrite !list_lookup_insert_eq by (eapply lookup_lt_Some; eassumption). constructor. now split_and!.
    + rewrite !list_lookup_insert_ne by congruence. pose proof (proj1 (Forall2_lookup _ _ _) Hvs j) as Hj.
      inversion Hj as [g W Hgw Eg EW|]; subst; [|constructor]. constructor. destruct Hgw as (Kl & Kw & Ko & Ks). split_and!; try done.
      intros x Hx Hcl. destruct (Hf x Hcl) as [Hold|Hnew]; [now apply (Ko x)|].
      apply (accounted_alone _ _ i j _ g (x, OpMu) Ha ltac:(congruence) Hg (eq_sym Eg) Hnew). rewrite <- Kl. now apply Kw.
  - apply Hacc.
  - apply Forall_app. split; [|exact Hc]. now apply (act_made u t a V _ i _ (st_env s) gs _ o Ha Hg Hsafe).
Qed.

Lemma steps_sound c c' : sound c -> rtc step c c' -> sound c'.
Proof. intros Hs Hr. induction Hr as [|c1 c2 c3 H1 _ IH]; [exact Hs|]. apply IH. now apply (step_sound c1). Qed.

(** ** Beginning and end *)

(** Goroutines that have not begun. *)
Definition start (s : state) (cs : list (code unit)) : config := mkConfig s (map (mkGo no_locks) cs) [].

Lemma start_sound s cs : env_locks_r (st_env s) = ∅ -> env_locks_w (st_env s) = ∅ -> Forall (fun c => safe finished c nothing) cs ->
  sound (start s cs).
Proof.
  intros Hr Hw Hc. split; cbn.
  - exists (map (fun _ => nothing) cs). apply Forall2_fmap, Forall_Forall2_diag. eapply Forall_impl; [exact Hc|]. intros c Hs. split_and!; done.
  - split; intros l; rewrite ?Hr, ?Hw.
    + unfold readers. rewrite lookup_empty. symmetry. induction cs as [|c cs IH]; [done|]. cbn. apply Forall_cons in Hc as [_ Hc]. now rewrite IH.
    + unfold writers. rewrite decide_False by set_solver. symmetry. induction cs as [|c cs IH]; [done|]. apply Forall_cons in Hc as [_ Hc].
      cbn. rewrite decide_False by set_solver. now apply IH.
    + set_solver.
  - constructor.
Qed.

(** A goroutine that has ended has returned or panicked, and holds nothing. *)
Lemma sound_end c i g o : sound c -> gos c !! i = Some g -> g_code g = Halt o -> returns o /\ g_locks g = no_locks.
Proof.
  intros [(Vs & Hvs) _ _] Hg Hc. destruct (Forall2_lookup_l _ _ _ _ _ Hvs Hg) as (V & _ & Hl & _ & _ & Hs). rewrite Hc in Hs. destruct Hs as [Ho HV].
  split; [exact Ho|congruence].
Qed.

(** When all have ended, nothing is locked. *)
Lemma sound_all_ended c : sound c -> (forall i g, gos c !! i = Some g -> exists o, g_code g = Halt o) ->
  env_locks_r (st_env (shared c)) = ∅ /\ env_locks_w (st_env (shared c)) = ∅.
Proof.
  intros Hs Hend.
  assert (Hn : Forall (fun g => g_locks g = no_locks) (gos c)).
  { apply Forall_lookup. intros i g Hg. destruct (Hend i g Hg) as [o Ho]. now apply (sound_end c i g o). }
  destruct (snd_locks c Hs) as [Hr Hw _]. split.
  - apply map_empty. intros l. apply readers_none. rewrite Hr. clear Hs Hend Hr Hw. induction Hn as [|g gs Hg _ IH]; [done|]. cbn. now rewrite Hg, IH.
  - apply set_eq. intros l. rewrite writers_in, Hw. split; [|set_solver]. intros H1. exfalso. clear Hs Hend Hr Hw. induction Hn as [|g gs Hg _ IH]; [done|].
    cbn in H1. rewrite Hg in H1. apply IH. exact H1.
Qed.

(** ** A schedule *)

(** Goroutine [i] takes its next step, if it has one. *)
Definition go (i : nat) (c : config) : config :=
  match gos c !! i with
  | Some (mkGo h (Act u t a k)) =>
      let r := denote a (set_thread t (shared c)) in
      match r.1 with
      | Blocks => c
      | o => mkConfig r.2 (<[i := mkGo (took a h) (k o)]> (gos c)) (made_by i u h t (env_closed (st_env (shared c))) (gos c) a o ++ calls_made c)
      end
  | _ => c
  end.

Definition run_schedule (l : list nat) (c : config) : config := foldl (fun c i => go i c) c l.

Lemma go_steps i c : rtc step c (go i c).
Proof.
  destruct c as [s gs tr]. unfold go. cbn [gos shared calls_made]. destruct (gs !! i) as [[h [o|u t A a k]]|] eqn:Hg; [apply rtc_refl| |apply rtc_refl].
  destruct (denote a (set_thread t s)) as [o s'] eqn:Hd. cbn [fst snd].
  destruct o; [apply rtc_once; now apply (step_act s gs tr i h u t A a k)..|apply rtc_refl|apply rtc_once; now apply (step_act s gs tr i h u t A a k)].
Qed.

Lemma schedule_steps l : forall c, rtc step c (run_schedule l c).
Proof. induction l as [|i l IH]; intros c; [apply rtc_refl|]. transitivity (go i c); [apply go_steps|apply (IH (go i c))]. Qed.

(** ** The calls are the trace *)

(** The driver has been asked what [calls_made] says, and nothing else, since [s0]. *)
Definition traced (s0 : state) (c : config) : Prop :=
  map snd (st_trace (shared c)) = map by_call (calls_made c) ++ map snd (st_trace s0).

Lemma act_traced {A} (a : action A) i u h t gs s o s' : denote a (set_thread t s) = (o, s') -> o <> Blocks ->
  map snd (st_trace s') = map by_call (made_by i u h t (env_closed (st_env s)) gs a o) ++ map snd (st_trace s).
Proof.
  intros Hs Hb. destruct a as [A m Hm|l|l|l|l|l|l|d c]; cbn in *.
  - destruct (Hm (set_thread t s)) as (_ & _ & Ht & _). rewrite Hs in Ht. cbn in Ht. now rewrite Ht; destruct o.
  - unfold RLock in Hs. case_decide; now injection Hs as <- <-.
  - unfold RUnlock in Hs. destruct (_ !! l); now injection Hs as <- <-.
  - unfold Lock in Hs. case_decide; [now injection Hs as <- <-|]. destruct (_ !! l); now injection Hs as <- <-.
  - unfold Unlock in Hs. case_decide; now injection Hs as <- <-.
  - now injection Hs as <- <-.
  - now injection Hs as <- <-.
  - unfold invoke in Hs. destruct d as [d|]; [|now injection Hs as <- <-]. destruct (drv_bound _ _); [|now injection Hs as <- <-].
    destruct (Sys _ _ _) as [r w]. now injection Hs as <- <-.
Qed.

Lemma steps_traced s cs c : rtc step (start s cs) c -> traced s c.
Proof.
  intros Hr. apply (invariant_rtc step (traced s)) with (2 := Hr); [|reflexivity].
  intros c1 c2 H1 H2. destruct H2 as [s1 gs tr i h u t A a k o s2 Hg Hd Hb]. unfold traced in *. cbn [shared calls_made] in *.
  rewrite (act_traced a i u h t gs s1 o s2 Hd Hb), H1. rewrite map_app. now rewrite app_assoc.
Qed.

(** ** Alone *)

(** A goroutine that runs without interruption takes the steps of [exec]. *)
Lemma exec_steps t0 (c : code unit) : forall s gs tr i h o s', gs !! i = Some (mkGo h c) -> exec t0 c s = (o, s') -> o <> Blocks ->
  exists s1 h' tr', rtc step (mkConfig s gs tr) (mkConfig s1 (<[i := mkGo h' (Halt o)]> gs) tr') /\ set_thread t0 s1 = s'.
Proof.
  induction c as [o0|u t A a k IH]; intros s gs tr i h o s' Hi He Ho; cbn in He.
  - injection He as <- <-. exists s, h, tr. rewrite list_insert_id by exact Hi. split; [apply rtc_refl|reflexivity].
  - destruct (denote a (set_thread t s)) as [o1 s1] eqn:Hd. cbn [fst snd] in He.
    assert (Hgo : o1 <> Blocks /\ exec t0 (k o1) s1 = (o, s')) by (destruct o1; [now split..|congruence|now split]).
    destruct Hgo as [Hb He1]. pose proof (step_act s gs tr i h u t A a k o1 s1 Hi Hd Hb) as H1.
    destruct (IH o1 s1 (<[i := mkGo (took a h) (k o1)]> gs) (made_by i u h t (env_closed (st_env s)) gs a o1 ++ tr) i (took a h) o s') as (s2 & h' & tr' & Hr & Hs);
      [apply list_lookup_insert_eq; eapply lookup_lt_Some; exact Hi|exact He1|exact Ho|].
    rewrite list_insert_insert_eq in Hr. exists s2, h', tr'. split; [|exact Hs]. eapply rtc_l; [exact H1|exact Hr].
Qed.

End Goroutines.
