(* ===== verification/Steady.v ===== *)
(** * Rules for functions under any schedule

    [steady u t V m]: [m] has a text that, on thread [t] from view [V], keeps to [u] whatever other goroutines do, returns or panics, and then holds the locks it held before.  The rules follow
    the operations of the monad, as those of [tidy] do; the lemmas below go up to the dispatch functions of contexts. *)

From S2P Require Import Prelude CudaSys Errors Runtime CudaResult ExecutorApi Context Dispatch Resource Steps Goroutines.

(** An object found open under its lock, taken for reading or for writing. *)
Definition vopened (l : loc) (V : view) : view := vfound l (vrlock (l, OpMu) V).
Definition vclosing (l : loc) (V : view) : view := vfound l (vlock (l, OpMu) V).

Section Rules.
Context `{Foreign}.

Definition settled {A} (V : view) (o : outcome A) (V' : view) : Prop := returns o /\ vle V V'.

Definition steady {A} (u : usage) (t : option loc) (V : view) (m : M A) : Type :=
  { x : text m & wf V -> wp x u t V (settled V) }.

Lemma up_settled {A} V : up (A := A) (settled V).
Proof. intros o V1 V2 Hv [Hr Hl]. split; [exact Hr|]. eapply vle_trans; eassumption. Qed.

Variables (u : usage) (t : option loc).
Implicit Types V : view.

(** The call is allowed wherever the flags are that this view leaves open. *)
Definition allows V (c : call) : Prop := forall C, C ## v_open V -> u (env_of (v_locks V) t C) c.

Lemma steady_ret {A} V (a : A) : steady u t V (ret a).
Proof. exists (t_ret a). intros _. split; [exact I|apply vle_refl]. Defined.

Lemma steady_panic {A} V v : steady u t V (panic (A := A) v).
Proof. exists (t_panic v). intros _. split; [exact I|apply vle_refl]. Defined.

Lemma steady_access {A} V (m : M A) : local m -> steady u t V m.
Proof. intros Hm. exists (t_act (Access m Hm)). intros _ s. split; [apply Hm|apply vle_refl]. Defined.

Lemma bind_settled {A B} (m : M A) (k : A -> M B) (x : text m) (y : forall a, text (k a)) V : wf V ->
  wp x u t V (settled V) -> (forall a, wf V -> wp (y a) u t V (settled V)) -> wp (t_bind x y) u t V (settled V).
Proof.
  intros Hw Hx Hy. cbn [wp]. eapply wp_mono; [|exact (wp_wf m x u t V _ Hw Hx)]. intros o V' [[Hr Hl] Hw'].
  destruct o as [a|v| |]; try done. eapply wp_le; [apply up_settled|exact Hl|]. now apply Hy.
Qed.

Lemma steady_bind {A B} V (m : M A) (k : A -> M B) : steady u t V m -> (forall a, steady u t V (k a)) -> steady u t V (bind m k).
Proof.
  intros [x Hx] Hk. exists (t_bind x (fun a => projT1 (Hk a))). intros Hw. apply bind_settled; [exact Hw|now apply Hx|].
  intros a. exact (projT2 (Hk a)).
Defined.

Lemma steady_recovering {A} V (h : string -> A) (m : M A) : steady u t V m -> steady u t V (recovering h m).
Proof.
  intros [x Hx]. exists (t_recovering h x). intros Hw. cbn [wp]. eapply wp_mono; [|exact (Hx Hw)]. now intros [a|v| |] V' [Hr Hl].
Defined.

Lemma steady_on {A} V e (m : M A) : steady u (Some e) V m -> steady u t V (on e m).
Proof. intros [x Hx]. exists (t_on e x). exact Hx. Defined.

Lemma steady_invoke V d c : allows V c -> steady u t V (invoke d c).
Proof. intros Hc. exists (t_act (AInvoke d c)). intros _. cbn. split_and!; [exact Hc|..]; intros r; (split; [exact I|apply vle_refl]). Defined.

Lemma steady_is_closed {B} V l (k : bool -> M B) : steady u t V (k true) -> steady u t (vfound l V) (k false) -> steady u t V (bind (is_closed l) k).
Proof.
  intros [x Hx] [y Hy].
  exists (t_bind (t_act (AClosed l)) (fun b => match b as b return text (k b) with true => x | false => y end)).
  intros Hw. cbn [wp act_wp]. split; [now apply Hx|]. eapply wp_mono; [|exact (Hy (wf_vfound l V Hw))]. intros o V' [Hr [Hl Ho]].
  split; [exact Hr|]. split; [exact Hl|]. cbn in Ho. set_solver.
Defined.

(** What was known is known again once a lock taken meanwhile is given back. *)
Lemma runlock_settled V V' l : wf V -> vle (vrlock l V) V' -> vle V (vrunlock l V').
Proof.
  intros Hw [Hl Ho]. unfold vrunlock, vle. cbn. rewrite Hl. cbn [vrlock v_locks]. rewrite unlock_rlock. split; [done|].
  intros x Hx. apply known_spec. split; [now apply Hw|]. now apply Ho.
Qed.

Lemma unlock_settled V V' l : wf V -> ~ holds l (v_locks V) -> v_locks V' = hold (wlocked l) (v_locks V) -> v_open V ∖ {[l.1]} ⊆ v_open V' ->
  (l.2 <> OpMu -> v_open V ⊆ v_open V') -> vle V (vunlock l V').
Proof.
  intros Hw Hn Hl Ho Ho'. unfold vunlock, vle. cbn. rewrite Hl. rewrite unlock_lock by (intros Hx; apply Hn; now right). split; [done|].
  intros x Hx. apply known_spec. split; [now apply Hw|]. destruct l as [y f]. cbn in *. destruct (decide (f = OpMu)) as [->|Hf]; [|now apply Ho'].
  apply Ho. apply elem_of_difference. split; [exact Hx|]. intros Hy. apply elem_of_singleton in Hy as ->. now apply Hn, Hw.
Qed.

Lemma steady_with_RLock {A} V l (m : M A) : steady u t (vrlock l V) m -> steady u t V (with_RLock l m).
Proof.
  intros [x Hx]. exists (t_bind (t_act (ARLock l)) (fun _ => t_defer (t_act (ARUnlock l)) x)).
  intros Hw. cbn [wp act_wp]. eapply wp_mono; [|exact (Hx (wf_vrlock l V Hw))]. intros o V' [Hr Hl].
  assert (Hd : is_Some (lk_r (v_locks V') !! l)).
  { destruct Hl as [-> _]. exact (r_held_rlocked l (env_of (v_locks V) None ∅)). }
  destruct o; try done; (split; [exact Hd|]); (split; [exact I|now apply runlock_settled]).
Defined.

Lemma steady_with_Lock {A} V l (m : M A) : steady u t (vlock l V) m -> steady u t V (with_Lock l m).
Proof.
  intros [x Hx]. exists (t_bind (t_act (ALock l)) (fun _ => t_defer (t_act (AUnlock l)) x)).
  intros Hw. cbn [wp act_wp]. intros Hn. eapply wp_mono; [|exact (Hx (wf_vlock l V Hw))]. intros o V' [Hr Hl].
  assert (Hd : l ∈ lk_w (v_locks V')) by (destruct Hl as [-> _]; cbn; set_solver).
  assert (Hv : vle V (vunlock l V')) by (destruct Hl as [Hl Ho]; apply unlock_settled; try done; cbn in Ho; set_solver).
  destruct o; try done; (split; [exact Hd|]); now split.
Defined.

Lemma steady_opened {A} V l (e : A) k : steady u t (vopened l V) k -> steady u t V (opened l e k).
Proof. intros Hk. apply steady_with_RLock, steady_is_closed; [apply steady_ret|exact Hk]. Defined.

(** *** Closing

    A function that may set the flag of [l], whose lock the goroutine holds for writing: afterwards [l] is no longer known to be open. *)

Definition closing {A} V (l : loc) (m : M A) : Type := { x : text m & wf V -> wp x u t V (settled (vclose l V)) }.

Lemma vclose_le V l : vle (vclose l V) V.
Proof. split; [done|]. cbn. set_solver. Qed.

(** Without the knowledge it is safe to set the flag. *)
Lemma steady_set_closed V l : (l, OpMu) ∈ lk_w (v_locks V) -> l ∉ v_open V -> steady u t V (set_closed l).
Proof.
  intros Hl Ho. exists (t_act (ASetClosed l)). intros _. split; [exact Hl|]. split; [exact I|]. split; [done|]. cbn. set_solver.
Defined.

Lemma closing_forget {A} V l (m : M A) : steady u t (vclose l V) m -> closing V l m.
Proof.
  intros [x Hx]. exists x. intros Hw. eapply wp_le; [apply up_settled|apply vclose_le|]. exact (Hx (wf_vclose l V Hw)).
Defined.

Lemma closing_bind {A B} V l (m : M A) (k : A -> M B) : steady u t V m -> (forall a, closing V l (k a)) -> closing V l (bind m k).
Proof.
  intros [x Hx] Hk. exists (t_bind x (fun a => projT1 (Hk a))). intros Hw. cbn [wp].
  eapply wp_mono; [|exact (wp_wf m x u t V _ Hw (Hx Hw))]. intros o V' [[Hr Hl] Hw'].
  destruct o as [a|v| |]; try done.
  - eapply wp_le; [apply up_settled|exact Hl|]. now apply (projT2 (Hk a)).
  - split; [exact I|]. eapply vle_trans; [apply vclose_le|exact Hl].
Defined.

Lemma closing_is_closed {B} V l (k : bool -> M B) : closing V l (k true) -> closing (vfound l V) l (k false) -> closing V l (bind (is_closed l) k).
Proof.
  intros [x Hx] [y Hy].
  exists (t_bind (t_act (AClosed l)) (fun b => match b as b return text (k b) with true => x | false => y end)).
  intros Hw. cbn [wp act_wp]. split; [now apply Hx|]. eapply wp_mono; [|exact (Hy (wf_vfound l V Hw))]. intros o V' [Hr [Hl Ho]].
  split; [exact Hr|]. split; [exact Hl|]. cbn in Ho |- *. set_solver.
Defined.

Lemma steady_closing {A} V l (m : M A) : closing (vlock (l, OpMu) V) l m -> steady u t V (with_Lock (l, OpMu) m).
Proof.
  intros [x Hx]. exists (t_bind (t_act (ALock (l, OpMu))) (fun _ => t_defer (t_act (AUnlock (l, OpMu))) x)).
  intros Hw. cbn [wp act_wp]. intros Hn. eapply wp_mono; [|exact (Hx (wf_vlock _ V Hw))]. intros o V' [Hr [Hl Ho]].
  assert (Hd : (l, OpMu) ∈ lk_w (v_locks V')) by (rewrite Hl; cbn; set_solver).
  assert (Hv : vle V (vunlock (l, OpMu) V')) by (now apply unlock_settled).
  destruct o; try done; (split; [exact Hd|]); now split.
Defined.

Lemma steady_close_resource V l (release : M err) : steady u t (vclosing l V) release -> steady u t V (close_resource l release).
Proof.
  intros Hr. apply steady_closing, closing_is_closed; [apply closing_forget, steady_ret|].
  apply closing_bind; [exact Hr|]. intros [e|]; apply closing_forget; [apply steady_ret|].
  apply steady_bind; [|intros; apply steady_ret]. apply steady_set_closed; cbn; set_solver.
Defined.

End Rules.

(** ** Accesses to single fields *)

Section Accesses.
Context `{Foreign}.

Lemma local_get {A} (f : state -> A) : (forall s E, f (set_env E s) = f s) -> local (get f).
Proof. intros Hf s. split_and!; try done. intros E. unfold get. now rewrite Hf. Qed.

Lemma local_modify f : (forall s, st_env (f s) = st_env s /\ st_trace (f s) = st_trace s /\ forall E, f (set_env E s) = set_env E (f s)) -> local (modify f).
Proof. intros Hf s. destruct (Hf s) as (H1 & H2 & H3). split_and!; try done. intros E. unfold modify. now rewrite H3. Qed.

Lemma local_new_loc : local new_loc.
Proof. now intros s. Qed.

Lemma local_ctx_Err g : local (ctx_Err g).
Proof. destruct g; intros s; try done. cbn. now destruct (st_polls s !! l) as [[]|]. Qed.

Lemma local_memOpPool_Get : local memOpPool_Get.
Proof. intros s. unfold memOpPool_Get. cbn. now destruct (st_memOps s). Qed.

End Accesses.

Ltac local_access :=
  lazymatch goal with
  | |- local (get _) => apply local_get; reflexivity
  | |- local (modify _) => apply local_modify; intros [? ? ? ? ? ? ? ? ? ?]; split_and!; reflexivity
  | |- local new_loc => apply local_new_loc
  | |- local (ctx_Err _) => apply local_ctx_Err
  | |- local memOpPool_Get => apply local_memOpPool_Get
  end.

Create HintDb steady discriminated.

Ltac steady_step :=
  lazymatch goal with
  | |- steady _ _ _ (ret _) => apply steady_ret
  | |- steady _ _ _ (panic _) => apply steady_panic
  | |- steady _ _ _ (get _) => apply steady_access; local_access
  | |- steady _ _ _ (modify _) => apply steady_access; local_access
  | |- steady _ _ _ new_loc => apply steady_access; local_access
  | |- steady _ _ _ memOpPool_Get => apply steady_access; local_access
  | |- steady _ _ _ (ctx_Err _) => apply steady_access; local_access
  | |- steady _ _ _ (bind (is_closed _) _) => apply steady_is_closed; cbn [orb andb negb]; cbv beta iota
  | |- steady _ _ _ (bind _ _) => apply steady_bind; [|intros ?]
  | |- steady _ _ _ (invoke _ _) => apply steady_invoke
  | |- steady _ _ _ (required _ _ _ _) => unfold required
  | |- steady _ _ _ (optional _ _ _ _) => unfold optional
  | |- steady _ _ _ (with_RLock _ _) => apply steady_with_RLock
  | |- steady _ _ _ (with_Lock _ _) => apply steady_with_Lock
  | |- steady _ _ _ (on _ _) => apply steady_on
  | |- steady _ _ _ (recovering _ _) => apply steady_recovering
  | |- steady _ _ _ (first_elem _) => unfold first_elem
  | |- steady _ _ _ (deref _) => unfold deref
  | |- steady _ _ _ (ctx_state _) => unfold ctx_state
  | |- steady _ _ _ (set_ctx_state _ _) => unfold set_ctx_state
  | |- steady _ _ _ (exec_state _) => unfold exec_state
  | |- steady _ _ _ (set_exec_state _ _) => unfold set_exec_state
  | |- steady _ _ _ (set_lane_state _ _) => unfold set_lane_state
  | |- steady _ _ _ (if ?b then _ else _) => destruct b eqn:?
  | |- steady _ _ _ (match ?x with _ => _ end) => destruct x eqn:?
  | |- steady _ _ _ (let '(_, _) := ?x in _) => destruct x eqn:?
  end.

Ltac steady_auto := repeat (first [steady_step | solve [eauto 3 with steady]]).
