(* ===== verification/SteadyDispatch.v ===== *)
(** * The dispatch layer under any schedule

    The lemmas of ExecutorApi.v, Context.v and Dispatch.v, for [steady] instead of [tidy].  A job runs on the executor's thread while its submitter waits, holding its locks.  Jobs
    whose submitter gave up are run by whoever drains the queue: they are background calls. *)

From S2P Require Import Prelude CudaSys Errors Runtime CudaResult ExecutorApi Context Dispatch Resource Steps Goroutines Steady.

Section SteadyExecutor.
Context `{Foreign} {AJ : AsyncJobs}.
Variable u : usage.
Implicit Types (t : option loc) (V : view).

Definition steady_job {A} (e : loc) t V (j : Job A) : Type :=
  steady u (Some e) V (job_Run j) * steady u (Some e) V (job_Recycle j) * steady u t V (job_Recycle j).

Definition steady_async (e : loc) t V : Type := forall p, steady_job e t V (async_job p).

Lemma steady_executor_New t V : steady u t V executor.New.
Proof. unfold executor.New. steady_auto. Defined.

Lemma steady_funcJob {A} t V e (fn : M (A * err)) : steady u (Some e) V fn -> steady_job e t V (funcJob fn).
Proof. intros Hf. split; [split; [exact Hf|]|]; cbn; steady_auto. Defined.

Lemma steady_runTask {A} t V e (zero : A) j : steady_job e t V j -> steady u t V (executor.runTask e zero j).
Proof. intros [[Hr Hc] _]. unfold executor.runTask, executor.runOne, executor.RecycleJob. steady_auto; assumption. Defined.

Lemma steady_drain t V e : steady_async e t V -> steady u t V (executor.drain e).
Proof.
  intros Ha. unfold executor.drain. steady_auto. generalize (ex_queue a). intros ps.
  induction ps as [|p ps IH]; cbn; unfold executor.dequeue; steady_auto. now apply steady_runTask.
Defined.

Lemma steady_submit t V e ctx : steady u t V (executor.submit e ctx).
Proof. unfold executor.submit. steady_auto. Defined.

Hint Resolve steady_submit steady_drain : steady.

Lemma steady_DoJob {A} t V e ctx (zero : A) j : steady_async e t V -> steady_job e t V j -> steady u t V (executor.DoJob e ctx zero j).
Proof. intros Ha Hj. unfold executor.DoJob, executor.RecycleJob. steady_auto; [apply Hj|now apply steady_runTask]. Defined.

Lemma steady_DoCtxWait {A} t V e ctx (zero : A) fn :
  steady_async e t V -> steady u (Some e) V fn -> steady u t V (executor.DoCtxWait e ctx zero fn).
Proof. intros. apply steady_DoJob; [assumption|]. now apply steady_funcJob. Defined.

Lemma steady_DoJobCtx t V e ctx p : steady_async e t V -> steady u t V (executor.DoJobCtx e ctx p).
Proof. intros Ha. unfold executor.DoJobCtx, executor.RecycleJob, executor.enqueue. steady_auto. apply Ha. Defined.

Lemma steady_DoCtx {A} t V e ctx (zero : A) fn :
  steady_async e t V -> steady u (Some e) V fn -> steady u t V (executor.DoCtx e ctx zero fn).
Proof. intros Ha Hf. unfold executor.DoCtx. steady_auto. now apply steady_runTask, steady_funcJob. Defined.

Lemma steady_Retire t V e : steady u t V (executor.Retire e).
Proof. unfold executor.Retire. steady_auto. Defined.

Lemma steady_executor_Close t V e : steady_async e t V -> steady u t V (executor.Close e).
Proof. intros Ha. unfold executor.Close. steady_auto. Defined.

End SteadyExecutor.

#[export] Hint Resolve steady_executor_New steady_submit steady_drain steady_DoCtxWait steady_DoJobCtx steady_DoCtx steady_Retire steady_executor_Close : steady.

(** ** Contexts *)

Section SteadyContext.
Context `{Foreign}.
Variable u : usage.
Hypothesis u_background : forall E c, background c = true -> u E c.
Implicit Types (t : option loc) (V : view).

Lemma steady_closure t V m : steady u t V m -> steady u t V (closure m).
Proof. intros Hm. unfold closure. steady_auto. Defined.

Lemma allows_background t V c : background c = true -> allows u t V c.
Proof. intros Hc C _. now apply u_background. Defined.

Hint Resolve allows_background : steady.

Lemma steady_syncOp_Run t V o : steady u t V (syncOp_Run o).
Proof.
  unfold syncOp_Run. destruct (so_kind o);
    [unfold cudaresult.StreamSynchronize|unfold cudaresult.StreamQuery|unfold cudaresult.StreamWaitEvent
    |unfold cudaresult.CtxSynchronize|unfold cudaresult.EventRecord|unfold cudaresult.EventQuery
    |unfold cudaresult.EventSynchronize]; steady_auto.
Defined.

Lemma steady_CtxSetCurrent t V d x : steady u t V (cudaresult.CtxSetCurrent d x).
Proof. unfold cudaresult.CtxSetCurrent. steady_auto. Defined.

Hint Resolve steady_closure steady_syncOp_Run steady_CtxSetCurrent : steady.

Lemma steady_async_cuda e t V : steady_async u e t V.
Proof.
  intros [c op l|]; (split; [split|]); cbn;
    unfold trackedSyncJob_Run, trackedSyncJob_Recycle, releaseWaitLane, add_syncActive, executor.RecycleJob, syncBarrierNoop;
    cbn; steady_auto.
Defined.

Hint Resolve steady_async_cuda : steady.

Lemma steady_newExecutor t V c : steady u t V (newExecutor c).
Proof. unfold newExecutor, executor.Do. steady_auto. Defined.

Hint Resolve steady_newExecutor : steady.

Lemma steady_copyExecutor t V c : steady u t V (copyExecutor c).
Proof. unfold copyExecutor, set_copyExec. steady_auto. Defined.

Lemma steady_reuseWaitLane t V c : steady u t V (reuseWaitLane c).
Proof. unfold reuseWaitLane, leastLoadedWaitLane. steady_auto. Defined.

Hint Resolve steady_copyExecutor steady_reuseWaitLane : steady.

Lemma steady_acquireWaitLane t V c : steady u t V (acquireWaitLane c).
Proof. unfold acquireWaitLane, append_lane. steady_auto. Defined.

Lemma steady_barrier_loop t V ctx es : steady u t V (barrier_loop ctx es).
Proof. induction es as [|e es IH]; cbn; steady_auto. Defined.

Hint Resolve steady_acquireWaitLane steady_barrier_loop : steady.

Lemma steady_syncBarrier t V c ctx : steady u t V (syncBarrier c ctx).
Proof. unfold syncBarrier. steady_auto. Defined.

Hint Resolve steady_syncBarrier : steady.

Lemma steady_doJobCtx t V c ctx o : steady u t V (doJobCtx c ctx o).
Proof. unfold doJobCtx, add_syncActive. steady_auto. Defined.

(** Where a closure or job of context [c] runs: on one of its executors, with [opMu] read-locked and [c] open. *)
Definition in_job (c : option Context) V (K : option loc -> view -> Type) : Type :=
  match c with
  | Some c => forall e, K (Some e) (vopened (cx_id c) V)
  | None => unit
  end.

Lemma steady_doJob {A} t V c ctx (zero : A) j :
  (forall t V', steady u t V' (job_Recycle j)) ->
  in_job c V (fun t V => steady u t V (job_Run j)) ->
  steady u t V (doJob c ctx zero j).
Proof.
  intros Hrec Hrun. unfold doJob, executor.RecycleJob. destruct c as [c|]; [|steady_auto; apply Hrec].
  cbn in Hrun. steady_auto; try apply Hrec.
  apply steady_DoJob; [apply steady_async_cuda|]. split; [split; [apply Hrun|apply Hrec]|apply Hrec].
Defined.

Lemma steady_doCopy {A} t V (run : loc -> gctx -> M (A * err)) c ctx (zero : A) :
  (match c with Some c => forall lane ctx, steady u t (vopened (cx_id c) V) (run lane ctx) | None => unit end) ->
  steady u t V (doCopy run c ctx zero).
Proof. intros Hrun. unfold doCopy. destruct c as [c|]; [|steady_auto]. steady_auto; apply Hrun. Defined.

Lemma steady_doCopyJob {A} t V c ctx (zero : A) j :
  (forall t V', steady u t V' (job_Recycle j)) ->
  in_job c V (fun t V => steady u t V (job_Run j)) ->
  steady u t V (doCopyJob c ctx zero j).
Proof.
  intros Hrec Hrun. apply steady_doCopy. destruct c as [c|]; [|exact tt]. intros lane ctx'.
  apply steady_DoJob; [apply steady_async_cuda|]. split; [split; [apply Hrun|apply Hrec]|apply Hrec].
Defined.

Lemma steady_doCopyWait {A} t V c ctx (zero : A) fn :
  in_job c V (fun t V => steady u t V fn) -> steady u t V (doCopyWait c ctx zero fn).
Proof.
  intros Hrun. apply steady_doCopy. destruct c as [c|]; [|exact tt]. intros lane ctx'.
  apply steady_DoCtxWait; [apply steady_async_cuda|apply Hrun].
Defined.

Lemma steady_doWith {A} t V c ctx (zero : A) fn w b :
  in_job c V (fun t V => steady u t V fn) -> steady u t V (doWith c ctx zero fn w b).
Proof.
  intros Hrun. unfold doWith. destruct c as [c|]; [|steady_auto]. cbn in Hrun. steady_auto;
    first [apply steady_DoCtxWait|apply steady_DoCtx]; first [apply steady_async_cuda|apply Hrun].
Defined.

Lemma steady_do {A} t V c ctx (zero : A) fn : in_job c V (fun t V => steady u t V fn) -> steady u t V (do_ c ctx zero fn).
Proof. apply steady_doWith. Defined.

Lemma steady_doWait {A} t V c ctx (zero : A) fn : in_job c V (fun t V => steady u t V fn) -> steady u t V (doWait c ctx zero fn).
Proof. apply steady_doWith. Defined.

Lemma steady_doBarrier {A} t V c ctx (zero : A) fn : in_job c V (fun t V => steady u t V fn) -> steady u t V (doBarrier c ctx zero fn).
Proof. apply steady_doWith. Defined.

Lemma steady_closeExecutor t V c e : steady u t V (closeExecutor c e).
Proof. unfold closeExecutor, executor.Do. steady_auto. Defined.

Lemma steady_closeWaitLanes t V c : steady u t V (closeWaitLanes c).
Proof.
  unfold closeWaitLanes. steady_auto. generalize (@None error). induction a as [|l ids IH]; intros er; cbn; steady_auto.
  apply steady_closeExecutor.
Defined.

Lemma steady_closeCopyExecutor t V c : steady u t V (closeCopyExecutor c).
Proof. unfold closeCopyExecutor, set_copyExec. steady_auto. apply steady_closeExecutor. Defined.

Lemma steady_recoverCommandExecutor t V c : steady u t V (recoverCommandExecutor c).
Proof. unfold recoverCommandExecutor, set_commandErr, executor.Do. steady_auto. Defined.

Hint Resolve steady_closeWaitLanes steady_closeCopyExecutor steady_recoverCommandExecutor : steady.
(** [Context.Close]: the context is unbound, released and perhaps bound again by one job, while [opMu] is held for writing. *)
Lemma steady_close_commands t V c dv :
  allows u t V (CuDevicePrimaryCtxRelease (dv_handle dv)) -> steady u t V (close_commands c dv).
Proof.
  intros Hu. unfold close_commands. steady_auto; unfold cudaresult.PrimaryCtxRelease; steady_auto.
Defined.

(** What [Context.Close] may do: release its own primary context, while nobody else is in an operation of the context. *)
Lemma steady_Context_Close V c :
  (forall x dv E, c = Some x -> cx_device x = Some dv -> open (cx_id x) E -> w_held (cx_id x, OpMu) E -> u E (CuDevicePrimaryCtxRelease (dv_handle dv))) ->
  steady u None V (Context_Close c).
Proof.
  intros Hu. unfold Context_Close. destruct c as [c|]; [|steady_auto]. destruct (cx_device c) as [dv|] eqn:Hd; [|steady_auto].
  apply steady_closing. apply closing_bind; [steady_auto|]. intros cs. destruct (cs_exec cs); [|apply closing_forget; steady_auto].
  apply closing_is_closed; [apply closing_forget; steady_auto|]. unfold close_body.
  apply closing_bind; [steady_auto|]. intros [e|]; [apply closing_forget; steady_auto|].
  do 3 (apply closing_bind; [steady_auto|]; intros ?). apply closing_bind; [steady_auto|]. intros exec.
  apply closing_bind.
  - apply steady_DoCtx; [apply steady_async_cuda|]. apply steady_close_commands. intros C HC. apply (Hu c dv); [done|exact Hd|..].
    + unfold open. cbn in HC |- *. intros Hin. apply (HC (cx_id c)); [exact Hin|]. apply elem_of_union_l, known_spec. split; [apply holds_lock_here|set_solver].
    + unfold w_held. cbn. set_solver.
  - intros [[[clearErr releaseErr] restoreErr] doErr]. apply closing_forget. unfold set_commandErr. steady_auto.
    apply steady_set_closed; cbn; set_solver.
Defined.

(** [Device.Primary] retains the primary context of the device on the thread of a new executor; if it cannot be bound there, it is released. *)
Lemma steady_Device_Primary V d :
  (forall dv t C, d = Some dv -> is_Some t -> u (env_of (v_locks V) t C) (CuDevicePrimaryCtxRetain (dv_handle dv)) /\ u (env_of (v_locks V) t C) (CuDevicePrimaryCtxRelease (dv_handle dv))) ->
  steady u None V (Device_Primary d).
Proof.
  intros Hu. unfold Device_Primary, currentDriver. apply steady_bind; [steady_auto|]. intros [dr|]; [|apply steady_ret]. destruct d as [dv|]; [|apply steady_ret].
  apply steady_bind; [apply steady_executor_New|]. intros ex. apply steady_bind; [|intros [r [e|]]; cbn [snd]; steady_auto].
  apply steady_DoCtx; [apply steady_async_cuda|]. unfold primary_closure, cudaresult.PrimaryCtxRetain, cudaresult.PrimaryCtxRelease.
  steady_auto; intros C _; now apply (Hu dv).
Defined.

End SteadyContext.

#[export] Hint Resolve steady_closure steady_syncOp_Run steady_CtxSetCurrent steady_async_cuda steady_newExecutor steady_copyExecutor steady_syncBarrier steady_doJobCtx : steady.

(** ** Memory operations and launches *)

Section SteadyMemory.
Context `{Foreign}.
Variable u : usage.
Hypothesis u_background : forall E c, background c = true -> u E c.
Implicit Types (t : option loc) (V : view).

Lemma steady_memOp_Run t V o : allows u t V (memOp_call o) -> steady u t V (memOp_Run o).
Proof.
  unfold memOp_Run, memOp_call. intros Hc. destruct (mo_kind o);
    [unfold cudaresult.MemcpyHtoD|unfold cudaresult.MemcpyDtoH|unfold cudaresult.MemcpyDtoD
    |unfold cudaresult.MemcpyHtoDAsync|unfold cudaresult.MemcpyDtoHAsync|unfold cudaresult.MemcpyDtoDAsync
    |unfold cudaresult.MemsetD8|unfold cudaresult.MemsetD16|unfold cudaresult.MemsetD32
    |unfold cudaresult.MemsetD8Async|unfold cudaresult.MemsetD16Async|unfold cudaresult.MemsetD32Async];
    steady_auto; exact Hc.
Defined.

Lemma steady_memOp_job t V o : allows u t V (memOp_call o) -> steady u t V (job_Run (memOp_job o)).
Proof. intros Hc. apply steady_closure. now apply steady_memOp_Run. Defined.

(** A memory operation whose call is allowed on the context's executors. *)
Lemma steady_run t V c ctx o :
  (forall d, in_job c V (fun t V => allows u t V (memOp_call (mkMemOp d (mo_dst o) (mo_src o) (mo_host o) (mo_n o) (mo_val o) (mo_stream o) (mo_kind o))))) ->
  steady u t V (run c ctx o).
Proof.
  intros Hc. unfold run. apply steady_bind; [steady_auto|]. intros x. cbv zeta.
  apply steady_bind; [|intros r; unfold memOp_recycle; steady_auto]. cbn [mo_kind].
  set (o' := mkMemOp (cx_driver x) _ _ _ _ _ _ _).
  assert (Hrec : forall t V', steady u t V' (job_Recycle (memOp_job o'))) by (intros; apply steady_ret).
  assert (Hrun : in_job c V (fun t V => steady u t V (job_Run (memOp_job o')))).
  { destruct c as [c|]; [|exact tt]. intros e. apply steady_memOp_job. apply (Hc (cx_driver x)). }
  destruct (mo_kind o); first [now apply steady_doCopyJob|now apply steady_doJob].
Defined.

Ltac pooled := intros Hc; apply steady_bind; [steady_auto|]; intros o; apply steady_run; intros d; exact Hc.

Lemma steady_memcpyHtoD t V c ctx dst host n :
  in_job c V (fun t V => allows u t V (CuMemcpyHtoD dst host n)) -> steady u t V (memcpyHtoD c ctx dst host n).
Proof. pooled. Defined.

Lemma steady_memcpyDtoH t V c ctx host src n :
  in_job c V (fun t V => allows u t V (CuMemcpyDtoH host src n)) -> steady u t V (memcpyDtoH c ctx host src n).
Proof. pooled. Defined.

Lemma steady_memcpyDtoD t V c ctx dst src n :
  in_job c V (fun t V => allows u t V (CuMemcpyDtoD dst src n)) -> steady u t V (memcpyDtoD c ctx dst src n).
Proof. pooled. Defined.

Lemma steady_memcpyHtoDAsync t V c ctx dst host n st :
  in_job c V (fun t V => allows u t V (CuMemcpyHtoDAsync dst host n st)) -> steady u t V (memcpyHtoDAsync c ctx dst host n st).
Proof. pooled. Defined.

Lemma steady_memcpyDtoHAsync t V c ctx host src n st :
  in_job c V (fun t V => allows u t V (CuMemcpyDtoHAsync host src n st)) -> steady u t V (memcpyDtoHAsync c ctx host src n st).
Proof. pooled. Defined.

Lemma steady_memcpyDtoDAsync t V c ctx dst src n st :
  in_job c V (fun t V => allows u t V (CuMemcpyDtoDAsync dst src n st)) -> steady u t V (memcpyDtoDAsync c ctx dst src n st).
Proof. pooled. Defined.

Lemma steady_memset t V c ctx dst val n size :
  (forall d h src st, in_job c V (fun t V => allows u t V (memOp_call (mkMemOp d dst src h n val st (memsetKind opMemset8 size))))) ->
  steady u t V (memset c ctx dst val n size).
Proof. intros Hc. apply steady_bind; [steady_auto|]. intros o. apply steady_run. intros d. apply Hc. Defined.

Lemma steady_memsetAsync t V c ctx dst val n size st :
  (forall d h src, in_job c V (fun t V => allows u t V (memOp_call (mkMemOp d dst src h n val st (memsetKind opMemset8Async size))))) ->
  steady u t V (memsetAsync c ctx dst val n size st).
Proof. intros Hc. apply steady_bind; [steady_auto|]. intros o. apply steady_run. intros d. apply Hc. Defined.

(** A job made of one wrapper. *)
Lemma steady_call_job t V c ctx (m : M err) :
  in_job c V (fun t V => steady u t V m) -> steady u t V (doJob c ctx tt (mkJob (closure m) (ret tt))).
Proof.
  intros Hm. apply steady_doJob; [assumption|intros; apply steady_ret|]. destruct c as [c|]; [|exact tt]. intros e. apply steady_closure, Hm.
Defined.

Lemma steady_launchKernel t V c ctx fn cfg st params (coop : bool) :
  in_job c V (fun t V => allows u t V (if coop
    then CuLaunchCooperativeKernel fn (GridX cfg, GridY cfg, GridZ cfg) (BlockX cfg, BlockY cfg, BlockZ cfg) (SharedMemBytes cfg) st params
    else CuLaunchKernel fn (GridX cfg, GridY cfg, GridZ cfg) (BlockX cfg, BlockY cfg, BlockZ cfg) (SharedMemBytes cfg) st params)) ->
  steady u t V (launchKernel c ctx fn cfg st params coop).
Proof.
  intros Hc. apply steady_bind; [steady_auto|]. intros x. apply steady_bind; [|intros; apply steady_ret]. apply steady_call_job.
  destruct c as [c|]; [|exact tt]. intros e. specialize (Hc e). unfold launchOp_Run. destruct coop;
    [unfold cudaresult.LaunchCooperativeKernel|unfold cudaresult.LaunchKernel]; steady_auto; exact Hc.
Defined.

Lemma steady_graphLaunch t V c ctx e st :
  in_job c V (fun t V => allows u t V (CuGraphLaunch e st)) -> steady u t V (graphLaunch c ctx e st).
Proof.
  intros Hc. apply steady_bind; [steady_auto|]. intros x. apply steady_bind; [|intros; apply steady_ret]. apply steady_call_job.
  destruct c as [c|]; [|exact tt]. intros y. specialize (Hc y). unfold graphLaunchOp_Run, cudaresult.GraphLaunch. steady_auto; exact Hc.
Defined.

End SteadyMemory.
