(* ===== verification/SteadyOps.v ===== *)
(** * The operations of the package under any schedule

    Buffers, handles, regions and every [Close], in the views of SteadyDispatch.v: what an operation promises of its driver calls it keeps whatever other goroutines do
    meanwhile. *)

From S2P Require Import Prelude CudaSys Errors Runtime CudaResult ExecutorApi Context Dispatch Resource Handles Buffer HostCb Streams Modules Regions Vmm Graphs Ready HandleProps Constructors RegionProps Steps Goroutines Steady SteadyDispatch.

(** ** Knowledge *)

(** The goroutine holds the lock of [l]; it holds it for reading; it holds it and found [l] open. *)
Definition vholds (l : loc) (V : view) : Prop := holds (l, OpMu) (v_locks V).
Definition vreads (l : loc) (V : view) : Prop := is_Some (lk_r (v_locks V) !! (l, OpMu)).
Definition knows (l : loc) (V : view) : Prop := vholds l V /\ l ∈ v_open V.

Lemma vreads_holds l V : vreads l V -> vholds l V.
Proof. now left. Qed.

Lemma vholds_rlock l k V : vholds l V -> vholds l (vrlock k V).
Proof. apply holds_rlock. Qed.

Lemma vholds_lock l k V : vholds l V -> vholds l (vlock k V).
Proof. apply holds_lock. Qed.

Lemma vholds_found l k V : vholds l V -> vholds l (vfound k V).
Proof. done. Qed.

Lemma vreads_rlock l k V : vreads l V -> vreads l (vrlock k V).
Proof. exact (r_held_mono (l, OpMu) k (env_of (v_locks V) None ∅)). Qed.

Lemma vreads_rlock_here l V : vreads l (vrlock (l, OpMu) V).
Proof. exact (r_held_rlocked (l, OpMu) (env_of (v_locks V) None ∅)). Qed.

Lemma vreads_found l k V : vreads l V -> vreads l (vfound k V).
Proof. done. Qed.

Lemma knows_rlock l k V : knows l V -> knows l (vrlock k V).
Proof. intros [Hh Ho]. split; [now apply vholds_rlock|exact Ho]. Qed.

Lemma knows_lock l k V : knows l V -> knows l (vlock k V).
Proof. intros [Hh Ho]. split; [now apply vholds_lock|exact Ho]. Qed.

Lemma knows_found l k V : knows l V -> knows l (vfound k V).
Proof. intros [Hh Ho]. split; [exact Hh|]. cbn. set_solver. Qed.

Lemma knows_found_here l V : vholds l V -> knows l (vfound l V).
Proof. intros Hh. split; [exact Hh|]. cbn. apply elem_of_union_l, known_spec. split; [exact Hh|set_solver]. Qed.

Lemma knows_opened_here l V : knows l (vopened l V).
Proof. apply knows_found_here, vreads_holds, vreads_rlock_here. Qed.

Lemma knows_closing_here l V : knows l (vclosing l V).
Proof. apply knows_found_here, holds_lock_here. Qed.

(** What is known is so in the environment of the call. *)
Lemma knows_held l V t C : knows l V -> C ## v_open V -> held l (env_of (v_locks V) t C).
Proof. intros [Hh Ho] HC. split; [intros Hc; exact (HC l Hc Ho)|exact Hh]. Qed.

Lemma knows_live l V t C : knows l V -> vreads l V -> C ## v_open V -> live l (env_of (v_locks V) t C).
Proof. intros [_ Ho] Hr HC. split; [intros Hc; exact (HC l Hc Ho)|exact Hr]. Qed.

#[export] Hint Resolve vreads_holds vholds_rlock vholds_lock vholds_found vreads_rlock vreads_rlock_here vreads_found knows_rlock knows_lock knows_found knows_found_here
  knows_opened_here knows_closing_here : steady.

Lemma knows_opened l k V : knows l V -> knows l (vopened k V).
Proof. unfold vopened. auto with steady. Qed.

Lemma knows_closing l k V : knows l V -> knows l (vclosing k V).
Proof. unfold vclosing. auto with steady. Qed.

Lemma vholds_opened l k V : vholds l V -> vholds l (vopened k V).
Proof. unfold vopened. auto with steady. Qed.

Lemma vreads_opened l k V : vreads l V -> vreads l (vopened k V).
Proof. unfold vopened. auto with steady. Qed.

Lemma vreads_opened_here l V : vreads l (vopened l V).
Proof. unfold vopened. auto with steady. Qed.

#[export] Hint Resolve knows_opened knows_closing vholds_opened vreads_opened vreads_opened_here : steady.

(** ** Rules for the shapes the operations have *)

Section Shapes.
Context `{Foreign}.
Variable u : usage.
Implicit Types (t : option loc) (V : view).

(** A nil pointer panics, and a computation that starts with a panic is that panic. *)
Lemma steady_bind_deref {A B} t V (p : option A) (k : A -> M B) : (forall x, p = Some x -> steady u t V (k x)) -> steady u t V (bind (deref p) k).
Proof. intros Hk. destruct p as [x|]; [exact (Hk x eq_refl)|]. exact (steady_panic u t V _). Defined.

Lemma steady_bind_first {B} t V x (k : Z -> M B) : (0 < sl_len x -> steady u t V (k (sl_ptr x))) -> steady u t V (bind (first_elem x) k).
Proof. intros Hk. unfold first_elem. destruct (0 <? sl_len x) eqn:E; [apply Hk; now apply Z.ltb_lt|]. exact (steady_panic u t V _). Defined.

Lemma steady_opened_exclusive {A} t V l (e : A) k : steady u t (vclosing l V) k -> steady u t V (opened_exclusive l e k).
Proof. intros Hk. apply steady_with_Lock, steady_is_closed; [apply steady_ret|exact Hk]. Defined.

(** What goes on being known under more locks. *)
Definition vmore V V' : Prop := (forall l, knows l V -> knows l V') /\ (forall l, vreads l V -> vreads l V').

Lemma vmore_rlock V l : vmore V (vrlock l V).
Proof. split; intros k Hk; auto with steady. Qed.

Lemma vmore_trans V1 V2 V3 : vmore V1 V2 -> vmore V2 V3 -> vmore V1 V3.
Proof. intros [H1 H2] [H3 H4]. split; auto. Qed.

Lemma steady_with_events {A} t V a b (m : M A) :
  (forall V', vreads (ev_id a) V' -> vreads (ev_id b) V' -> vmore V V' -> steady u t V' m) -> steady u t V (with_events a b m).
Proof.
  intros Hm. unfold with_events. destruct (bool_decide (ev_id a = ev_id b)) eqn:Hab.
  - apply bool_decide_eq_true in Hab. apply steady_with_RLock, Hm; [apply vreads_rlock_here|rewrite <- Hab; apply vreads_rlock_here|apply vmore_rlock].
  - destruct (bool_decide (ev_id b < ev_id a)%positive); apply steady_with_RLock, steady_with_RLock, Hm; eauto using vmore_trans, vmore_rlock with steady.
Defined.

Lemma steady_with_pitched_pair {A T} t V (a b : PitchedBuffer T) (m : M A) :
  (forall V', vreads (pb_id a) V' -> vreads (pb_id b) V' -> vmore V V' -> steady u t V' m) -> steady u t V (with_pitched_pair a b m).
Proof.
  intros Hm. unfold with_pitched_pair. destruct (bool_decide (pb_id b < pb_id a)%positive); apply steady_with_RLock;
    (destruct (bool_decide (_ = _)) eqn:Heq; [apply bool_decide_eq_true in Heq; apply Hm; rewrite ?Heq; auto using vmore_rlock with steady; rewrite <- Heq; auto with steady
      |apply steady_with_RLock, Hm; eauto using vmore_trans, vmore_rlock with steady]).
Defined.

Lemma steady_opened_other {T} t V (b d : Buffer T) (k : M err) :
  knows (bf_id b) V -> vreads (bf_id b) V ->
  (forall V', knows (bf_id b) V' -> vreads (bf_id b) V' -> knows (bf_id d) V' -> vreads (bf_id d) V' -> vmore V V' -> steady u t V' k) ->
  steady u t V (opened_other b d k).
Proof.
  intros Hb Hr Hk. unfold opened_other. destruct (same_buffer d b) eqn:Hs.
  - unfold same_buffer in Hs. apply bool_decide_eq_true in Hs. apply Hk; rewrite ?Hs; try assumption. now split.
  - apply steady_opened, Hk; auto with steady. split; auto with steady.
Defined.

Lemma local_make_bytes `{!HostMemory} n : local (make_bytes n).
Proof. intros s. unfold make_bytes. cbn. now destruct (hm_make n _). Qed.

Lemma steady_doSyncOp t V c o : (forall E cl, background cl = true -> u E cl) -> steady u t V (doSyncOp c o).
Proof.
  intros Hb. unfold doSyncOp. apply steady_bind; [steady_auto|]. intros x. apply steady_bind; [|intros; apply steady_ret].
  apply steady_doJob; [done|intros; apply steady_ret|]. destruct c as [y|]; [|exact tt]. intros e. unfold syncOp_job. cbn [job_Run].
  now apply steady_closure, steady_syncOp_Run.
Defined.

(** The four descriptor copies. *)
Lemma steady_memcpy2D t V c g m : (forall E cl, background cl = true -> u E cl) -> in_job c V (fun t V => allows u t V (CuMemcpy2D m)) -> steady u t V (memcpy2D c g m).
Proof.
  intros Hb Hc. unfold memcpy2D. apply steady_bind; [steady_auto|]. intros x. apply steady_bind; [|intros; apply steady_ret].
  apply steady_doCopyJob; [done|intros; apply steady_ret|]. destruct c as [y|]; [|exact tt]. intros e. apply steady_closure. specialize (Hc e).
  unfold memcpy2DOp_Run, cudaresult.Memcpy2D. steady_auto; exact Hc.
Defined.

Lemma steady_memcpy3D t V c g m : (forall E cl, background cl = true -> u E cl) -> in_job c V (fun t V => allows u t V (CuMemcpy3D m)) -> steady u t V (memcpy3D c g m).
Proof.
  intros Hb Hc. unfold memcpy3D. apply steady_bind; [steady_auto|]. intros x. apply steady_bind; [|intros; apply steady_ret].
  apply steady_doCopyJob; [done|intros; apply steady_ret|]. destruct c as [y|]; [|exact tt]. intros e. apply steady_closure. specialize (Hc e).
  unfold memcpy3DOp_Run, cudaresult.Memcpy3D. steady_auto; exact Hc.
Defined.

Lemma steady_memcpy2DAsync t V c g m st : (forall E cl, background cl = true -> u E cl) -> in_job c V (fun t V => allows u t V (CuMemcpy2DAsync m st)) ->
  steady u t V (memcpy2DAsync c g m st).
Proof.
  intros Hb Hc. unfold memcpy2DAsync. apply steady_bind; [steady_auto|]. intros x. apply steady_bind; [|intros; apply steady_ret]. apply steady_call_job; [done|].
  destruct c as [y|]; [|exact tt]. intros e. specialize (Hc e). unfold memcpy2DAsyncOp_Run, cudaresult.Memcpy2DAsync. steady_auto; exact Hc.
Defined.

Lemma steady_memcpy3DAsync t V c g m st : (forall E cl, background cl = true -> u E cl) -> in_job c V (fun t V => allows u t V (CuMemcpy3DAsync m st)) ->
  steady u t V (memcpy3DAsync c g m st).
Proof.
  intros Hb Hc. unfold memcpy3DAsync. apply steady_bind; [steady_auto|]. intros x. apply steady_bind; [|intros; apply steady_ret]. apply steady_call_job; [done|].
  destruct c as [y|]; [|exact tt]. intros e. specialize (Hc e). unfold memcpy3DAsyncOp_Run, cudaresult.Memcpy3DAsync. steady_auto; exact Hc.
Defined.

End Shapes.

(** ** Handles *)

Section SteadyHandles.
Context `{Foreign}.

(** A job of the context while the objects are known. *)
Lemma known_in_job objs c ok V (K : option loc -> view -> Type) :
  Forall (fun l => knows l V) objs ->
  (forall t V', (forall cl, ok cl -> allows (handle_use objs c ok) t V' cl) -> K t V') ->
  in_job c V K.
Proof.
  intros Hk HK. destruct c as [x|]; [|exact tt]. intros e. apply HK. intros cl Hok C HC. right. split_and!; [exact Hok|cbn; eauto| |].
  - eapply Forall_impl; [exact Hk|]. intros l Hl. apply knows_held; [|exact HC]. now apply knows_opened.
  - exists x. split; [done|]. apply knows_live; [apply knows_opened_here|apply vreads_opened_here|exact HC].
Defined.

End SteadyHandles.

Ltac unfold_steady :=
  lazymatch goal with
  | |- steady _ _ _ ?m => let rec go t := lazymatch t with ?f _ => go f | _ => unfold t end in go m
  end.

Ltac known_objects := repeat first [apply Forall_nil_2|apply Forall_cons_2];
  repeat match goal with Hm : vmore _ _ |- _ => destruct Hm as [? ?] end; eauto 6 with steady.

Ltac in_known_use :=
  lazymatch goal with
  | |- context [handle_use ?objs ?c ?ok] => apply (known_in_job objs c ok); [known_objects|intros ? ? ?]
  end.

Ltac handle_step :=
  lazymatch goal with
  | Hx : (true || _)%bool = false |- _ => discriminate Hx
  | Hx : (false || true)%bool = false |- _ => discriminate Hx
  | Hx : ?x = Some _ |- steady _ _ _ (match ?x with _ => _ end) => rewrite Hx
  | |- steady _ _ _ (bind (deref _) _) => apply steady_bind_deref; intros ? ?
  | |- steady _ _ _ (bind (first_elem _) _) => apply steady_bind_first; intros ?
  | |- steady _ _ _ (opened_other _ _ _) => apply steady_opened_other; [solve [eauto 6 with steady]|solve [eauto 6 with steady]|intros ? ? ? ? ? ?]
  | |- steady _ _ _ (with_events _ _ _) => apply steady_with_events; intros ? ? ? ?
  | |- steady _ _ _ (with_pitched_pair _ _ _) => apply steady_with_pitched_pair; intros ? ? ? ?
  | |- steady _ _ _ (make_bytes _) => apply steady_access, local_make_bytes
  | |- steady _ _ _ (opened _ _ _) => apply steady_opened
  | |- steady _ _ _ (opened_exclusive _ _ _) => apply steady_opened_exclusive
  | |- steady _ _ _ (do_ _ _ _ _) => apply steady_do; [apply handle_background|in_known_use]
  | |- steady _ _ _ (doWait _ _ _ _) => apply steady_doWait; [apply handle_background|in_known_use]
  | |- steady _ _ _ (doCopyWait _ _ _ _) => apply steady_doCopyWait; [apply handle_background|in_known_use]
  | |- steady _ _ _ (doSyncOp _ _) => apply steady_doSyncOp, handle_background
  | |- steady _ _ _ (doJob _ _ _ _) => apply steady_doJob; [apply handle_background|intros; apply steady_ret|in_known_use; cbn [job_Run]]
  | |- steady _ _ _ (memcpyHtoD _ _ _ _ _) => apply steady_memcpyHtoD; [apply handle_background|in_known_use]
  | |- steady _ _ _ (memcpyDtoH _ _ _ _ _) => apply steady_memcpyDtoH; [apply handle_background|in_known_use]
  | |- steady _ _ _ (graphLaunch _ _ _ _) => apply steady_graphLaunch; [apply handle_background|in_known_use]
  | |- steady _ _ _ (memcpy2D _ _ _) => apply steady_memcpy2D; [apply handle_background|in_known_use]
  | |- steady _ _ _ (memcpy3D _ _ _) => apply steady_memcpy3D; [apply handle_background|in_known_use]
  | |- steady _ _ _ (memcpy2DAsync _ _ _ _) => apply steady_memcpy2DAsync; [apply handle_background|in_known_use]
  | |- steady _ _ _ (memcpy3DAsync _ _ _ _) => apply steady_memcpy3DAsync; [apply handle_background|in_known_use]
  | |- steady _ _ _ (closure _) => apply steady_closure
  | |- steady _ _ _ (doJobCtx _ _ _) => apply steady_doJobCtx, handle_background
  | |- steady _ _ _ (syncOp_Run _) => apply steady_syncOp_Run, handle_background
  | HP : forall cl, _ -> allows _ _ _ cl |- allows _ _ _ _ => apply HP
  | |- _ => first [steady_step|unfold_steady]
  end.

Ltac handle_auto := repeat handle_step.

Section SteadyHandleOps.
Context `{Foreign, !HostMemory}.

Lemma steady_handle_op (objs : list loc) (c : option Context) (ok : call -> Prop) (A : Type) (m : M A) V :
  handle_op objs c ok A m -> steady (handle_use objs c ok) None V m.
Proof.
  destruct 1; handle_auto; use_leaf; use_rest.
Defined.

End SteadyHandleOps.

(** ** Regions *)

Ltac region_text_step :=
  lazymatch goal with
  | He : pinnedHostRefOf ?h = inl _ |- context [pinnedHostRefOf ?h] => rewrite He
  | Hv : volume_ok ?v |- context [Volume_elements ?v] => rewrite (volume_elements v Hv)
  | Ha : array_ok ?a |- context [int64 (ar_width ?a * ar_height ?a)] => rewrite (int64_id (ar_width a * ar_height a)) by apply Ha
  | _ => handle_step
  end.

Lemma pitched_elements_exact {T} (b : PitchedBuffer T) n : pitched_ok b -> PitchedBuffer_elements b = inl n -> n = pb_width b * pb_height b.
Proof. intros Hb Hn. destruct (pitched_elements b Hb) as [[Hx _]|[e Hx]]; congruence. Qed.

Section SteadyRegions.
Context `{Foreign}.

Lemma steady_region_op (objs : list loc) (c : option Context) (st : option Z) (from to : region) (m : M err) V :
  region_op objs c st from to m -> steady (handle_use objs c (fun cl => on_stream cl = st /\ transfers from to cl)) None V m.
Proof.
  destruct 1; repeat region_text_step; reflect_bools; (split; [reflexivity|]);
    repeat match goal with Hb : pitched_ok ?b, He : PitchedBuffer_elements ?b = inl _ |- _ => apply (pitched_elements_exact b _ Hb) in He end; subst;
    first [now apply pitched_fromHost_transfers|now apply pitched_toHost_transfers|now apply pitched_toDevice_transfers
          |now apply volume_hostDesc_transfers|now apply array_hostDesc_transfers].
Defined.

End SteadyRegions.

(** ** Closing *)

Section SteadyClosers.
Context `{Foreign}.

(** A [Close] releases its own handle, alone and open. *)
Definition close_use (l : loc) (cl : call) (E : Env) (cl' : call) : Prop :=
  background cl' = true \/ (cl' = cl /\ open l E /\ w_held (l, OpMu) E).

Lemma close_background l cl : forall E c, background c = true -> close_use l cl E c.
Proof. now left. Qed.

Lemma closing_allowed l cl t V x : allows (close_use l cl) t (vopened x (vclosing l V)) cl.
Proof.
  intros C HC. right. split_and!; [done| |unfold w_held; cbn; set_solver].
  exact (proj1 (knows_held l _ t C (knows_opened _ _ _ (knows_closing_here l V)) HC)).
Qed.

Lemma steady_closer (l : loc) (c : option Context) (cl : call) (name : string) (m : M err) V :
  closer l c cl name m -> steady (close_use l cl) None V m.
Proof.
  destruct 1; unfold_steady; apply steady_close_resource; (apply steady_bind; [|intros; apply steady_ret]);
    (apply steady_doBarrier; [apply close_background|]);
    match goal with |- in_job ?c _ _ => destruct c as [?|]; [|exact tt] end; intros ?; apply steady_closure; unfold_steady; steady_auto; apply closing_allowed.
Defined.

End SteadyClosers.

(** ** Buffers *)

Section SteadyBuffers.
Context `{Foreign}.
Context {T : elem}.
Implicit Types b d : Buffer T.

Lemma use_one b bs V x e c a n :
  b ∈ bs -> device_ranges c = [(a, n)] -> in_buffer b a n -> knows (bf_id b) V -> vreads (bf_id b) V -> bf_ctx b = Some x ->
  allows (safe_use bs) (Some e) (vopened (cx_id x) V) c.
Proof.
  intros Hb Hr Hin Hk Hv Hx C HC. right. rewrite Hr. split_and!; [done|cbn; eauto|].
  constructor; [|constructor]. exists b, x. cbn [fst snd]. split_and!; try assumption.
  - apply knows_live; eauto with steady.
  - apply knows_live; eauto with steady.
Qed.

Lemma use_two b d bs V x e c a n a' n' :
  b ∈ bs -> d ∈ bs -> device_ranges c = [(a', n'); (a, n)] -> in_buffer b a n -> in_buffer d a' n' ->
  knows (bf_id b) V -> vreads (bf_id b) V -> knows (bf_id d) V -> vreads (bf_id d) V ->
  bf_ctx b = Some x -> same_ctx (bf_ctx d) (bf_ctx b) = true ->
  allows (safe_use bs) (Some e) (vopened (cx_id x) V) c.
Proof.
  intros Hb Hd Hr Hin Hin' Hk Hv Hk' Hv' Hx Hs C HC. right. rewrite Hr. split_and!; [done|cbn; eauto|].
  rewrite Hx in Hs. destruct (bf_ctx d) as [y|] eqn:Hy; [|done]. cbn in Hs. apply bool_decide_eq_true in Hs.
  constructor; [|constructor; [|constructor]].
  - exists d, y. cbn [fst snd]. rewrite Hs. split_and!; try assumption; apply knows_live; eauto with steady.
  - exists b, x. cbn [fst snd]. split_and!; try assumption; apply knows_live; eauto with steady.
Qed.

(** Splits an operation down to its memory operation, on an executor of its context. *)
Ltac buffer_step :=
  lazymatch goal with
  | |- steady _ _ _ (memcpyHtoD _ _ _ _ _) => apply steady_memcpyHtoD; [apply safe_background|]
  | |- steady _ _ _ (memcpyDtoH _ _ _ _ _) => apply steady_memcpyDtoH; [apply safe_background|]
  | |- steady _ _ _ (memcpyDtoD _ _ _ _ _) => apply steady_memcpyDtoD; [apply safe_background|]
  | |- steady _ _ _ (memcpyHtoDAsync _ _ _ _ _ _) => apply steady_memcpyHtoDAsync; [apply safe_background|]
  | |- steady _ _ _ (memcpyDtoHAsync _ _ _ _ _ _) => apply steady_memcpyDtoHAsync; [apply safe_background|]
  | |- steady _ _ _ (memcpyDtoDAsync _ _ _ _ _ _) => apply steady_memcpyDtoDAsync; [apply safe_background|]
  | |- steady _ _ _ (memset _ _ _ _ _ _) => apply steady_memset; [apply safe_background|intros ? ? ? ?]
  | |- steady _ _ _ (memsetAsync _ _ _ _ _ _ _) => apply steady_memsetAsync; [apply safe_background|intros ? ? ?]
  | |- _ => handle_step
  end.

(** The operation's context is there. *)
Ltac on_context b :=
  let x := fresh "x" in let Hx := fresh "Hx" in destruct (bf_ctx b) as [x|] eqn:Hx; [|exact tt]; intros ?.

Ltac buffer_ops b := repeat buffer_step; reflect_bools; on_context b.

Ltac one_range b := eapply (use_one b); [apply list_elem_of_here|reflexivity| |eauto with steady|eauto with steady|eassumption].

Lemma steady_copies b V op :
  buffer_ok b ->
  match op with
  | OpCopyFrom _ _ | OpCopyTo _ _ | OpCopyFromHost _ _ | OpCopyToHost _ _
  | OpCopyFromHostAsync _ _ _ | OpCopyToHostAsync _ _ _ => True
  | _ => False
  end ->
  steady (safe_use (op_buffers b op)) None V (run_op (Some b) op).
Proof.
  intros Hok Hop. destruct op; try (exfalso; exact Hop); cbn;
    [unfold Buffer_CopyFrom|unfold Buffer_CopyTo|unfold Buffer_CopyFromHost|unfold Buffer_CopyToHost
    |unfold Buffer_CopyFromHostAsync|unfold Buffer_CopyToHostAsync]; buffer_ops b; one_range b; now apply in_whole.
Defined.

(** What a memset of the whole buffer writes. *)
Lemma fill_ranges b (dr : option Driver) h src st v base :
  buffer_ok b -> sizeof T <> 8 -> base = opMemset8 \/ base = opMemset8Async ->
  let c := memOp_call (mkMemOp dr (bf_ptr b) src h (uint64 (bf_length b)) v st (memsetKind base (sizeof T))) in
  exists n, device_ranges c = [(bf_ptr b, n)] /\ in_buffer b (bf_ptr b) n.
Proof.
  intros Hok Hs Hbase c. pose proof Hok as (H0 & Hi & Hb & _). exists (sizeof T * uint64 (bf_length b)). split.
  - subst c. destruct Hbase as [-> | ->]; destruct T; cbn in Hs |- *; try lia; now rewrite ?Z.mul_1_l.
  - rewrite uint64_of_int by (first [lia|exact Hi]). rewrite Z.mul_comm, <- Hb. now apply in_whole.
Qed.

Lemma zero_ranges b (dr : option Driver) h src st v base :
  buffer_ok b -> base = opMemset8 \/ base = opMemset8Async ->
  let c := memOp_call (mkMemOp dr (bf_ptr b) src h (bf_bytes b) v st (memsetKind base 1)) in
  exists n, device_ranges c = [(bf_ptr b, n)] /\ in_buffer b (bf_ptr b) n.
Proof. intros Hok Hbase c. exists (bf_bytes b). split; [now destruct Hbase as [-> | ->]|now apply in_whole]. Qed.

Lemma steady_sets b V op :
  buffer_ok b ->
  match op with OpZero _ | OpZeroAsync _ _ | OpFill _ _ | OpFillAsync _ _ _ => True | _ => False end ->
  steady (safe_use (op_buffers b op)) None V (run_op (Some b) op).
Proof.
  intros Hok Hop. destruct op; try (exfalso; exact Hop); cbn;
    [unfold Buffer_Zero|unfold Buffer_ZeroAsync|unfold Buffer_Fill|unfold Buffer_FillAsync];
    repeat buffer_step; reflect_bools; on_context b;
    match goal with
    | |- allows _ _ _ (memOp_call (mkMemOp ?dr _ ?src ?h _ ?v ?st (memsetKind ?base 1))) => destruct (zero_ranges b dr h src st v base Hok ltac:(auto)) as (n & Hr & Hin)
    | |- allows _ _ _ (memOp_call (mkMemOp ?dr _ ?src ?h _ ?v ?st (memsetKind ?base _))) =>
        destruct (fill_ranges b dr h src st v base Hok ltac:(assumption) ltac:(auto)) as (n & Hr & Hin)
    end;
    (eapply (use_one b); [apply list_elem_of_here|exact Hr|exact Hin|eauto with steady|eauto with steady|eassumption]).
Defined.

Ltac two_ranges b d := eapply (use_two b d);
  [apply list_elem_of_here|apply list_elem_of_further, list_elem_of_here|reflexivity| | |eauto with steady|eauto with steady|eauto with steady|eauto with steady|eassumption|congruence].

Lemma steady_device_copies b V op :
  buffer_ok b -> op_ok op ->
  match op with OpCopyToDevice _ _ | OpCopyToDeviceAsync _ _ _ => True | _ => False end ->
  steady (safe_use (op_buffers b op)) None V (run_op (Some b) op).
Proof.
  intros Hok [Hd _] Hop. destruct op as [| | | | | | | | | |g [d|]|g st [d|]| | | | | |]; try (exfalso; exact Hop); cbn in Hd |- *;
    [unfold Buffer_CopyToDevice|apply steady_ret|unfold Buffer_CopyToDeviceAsync|apply steady_ret]; buffer_ops b;
    (assert (Hbytes : bf_bytes b = bf_bytes d) by (destruct Hok as (_ & _ & -> & _), Hd as (_ & _ & -> & _); congruence));
    two_ranges b d; [now apply in_whole|rewrite Hbytes; now apply in_whole|now apply in_whole|rewrite Hbytes; now apply in_whole].
Defined.

Lemma steady_CopyFromAt b V g off src :
  buffer_ok b -> slice_ok src -> is_int off -> steady (safe_use [b]) None V (Buffer_CopyFromAt (Some b) g off src).
Proof.
  intros Hok [Hl Hi] Ho. unfold Buffer_CopyFromAt. repeat buffer_step. on_context b.
  repeat match goal with Hb : (_ || _)%bool = false |- _ => apply orb_false_iff in Hb as [? ?] end. one_range b. now apply copy_range.
Defined.

Lemma steady_CopyToAt b V g off dst :
  buffer_ok b -> slice_ok dst -> is_int off -> steady (safe_use [b]) None V (Buffer_CopyToAt (Some b) g dst off).
Proof.
  intros Hok [Hl Hi] Ho. unfold Buffer_CopyToAt. repeat buffer_step. on_context b.
  repeat match goal with Hb : (_ || _)%bool = false |- _ => apply orb_false_iff in Hb as [? ?] end. one_range b. now apply copy_range.
Defined.

Lemma steady_offset_device_copies b V op :
  buffer_ok b -> op_ok op ->
  match op with OpCopyToDeviceAt _ _ _ _ _ | OpCopyToDeviceAtAsync _ _ _ _ _ _ => True | _ => False end ->
  steady (safe_use (op_buffers b op)) None V (run_op (Some b) op).
Proof.
  intros Hok [Hd Hi] Hop.
  destruct op as [| | | | | | | | | | | | | |g o [d|] o' n|g st o [d|] o' n| |]; try (exfalso; exact Hop); cbn in Hd, Hi |- *;
    [unfold Buffer_CopyToDeviceAt|apply steady_ret|unfold Buffer_CopyToDeviceAtAsync|apply steady_ret];
    destruct Hi as (Ho & Ho' & Hn); repeat buffer_step; on_context b;
    repeat match goal with Hb : (_ || _)%bool = false |- _ => apply orb_false_iff in Hb as [? ?] end;
    (assert (Hn0 : 0 <= n) by (reflect_bools; lia)); (assert (Hn1 : (n =? 0) = false) by (reflect_bools; lia));
    repeat match goal with Hs : negb _ = false |- _ => apply negb_false_iff in Hs end;
    two_ranges b d; now apply copy_range.
Defined.

(** A window of a buffer, as [View] makes it. *)
Lemma steady_View_CopyFrom b o n V g src :
  view_ok (mkView (Some b) o n) -> slice_ok src -> is_int o -> steady (safe_use [b]) None V (View_CopyFrom (Some (mkView (Some b) o n)) g src).
Proof.
  intros (Hok & _) Hs Ho. unfold View_CopyFrom. cbn [view_owner vw_owner vw_offset vw_length].
  destruct (negb _); [apply steady_ret|now apply steady_CopyFromAt].
Defined.

Lemma steady_View_CopyTo b o n V g dst :
  view_ok (mkView (Some b) o n) -> slice_ok dst -> is_int o -> steady (safe_use [b]) None V (View_CopyTo (Some (mkView (Some b) o n)) g dst).
Proof.
  intros (Hok & _) Hs Ho. unfold View_CopyTo. cbn [view_owner vw_owner vw_offset vw_length].
  destruct (negb _); [apply steady_ret|now apply steady_CopyToAt].
Defined.

(** The operations of [BufferOp]; the last two make their view first and are clients of the two functions above. *)
Definition direct (op : BufferOp T) : Prop := match op with OpViewCopyFrom _ _ _ _ | OpViewCopyTo _ _ _ _ => False | _ => True end.

Lemma steady_buffer_op b op V : buffer_ok b -> op_ok op -> direct op -> steady (safe_use (op_buffers b op)) None V (run_op (Some b) op).
Proof.
  intros Hok Hop Hd. destruct op; try (exfalso; exact Hd);
    lazymatch goal with
    | |- steady _ _ _ (run_op _ (OpCopyFromAt _ _ _)) => apply steady_CopyFromAt; [assumption|apply Hop|apply Hop]
    | |- steady _ _ _ (run_op _ (OpCopyToAt _ _ _)) => apply steady_CopyToAt; [assumption|apply Hop|apply Hop]
    | |- steady _ _ _ (run_op _ (OpZero _)) => apply steady_sets; [assumption|exact I]
    | |- steady _ _ _ (run_op _ (OpZeroAsync _ _)) => apply steady_sets; [assumption|exact I]
    | |- steady _ _ _ (run_op _ (OpFill _ _)) => apply steady_sets; [assumption|exact I]
    | |- steady _ _ _ (run_op _ (OpFillAsync _ _ _)) => apply steady_sets; [assumption|exact I]
    | |- steady _ _ _ (run_op _ (OpCopyToDevice _ _)) => apply steady_device_copies; [assumption|assumption|exact I]
    | |- steady _ _ _ (run_op _ (OpCopyToDeviceAsync _ _ _)) => apply steady_device_copies; [assumption|assumption|exact I]
    | |- steady _ _ _ (run_op _ (OpCopyToDeviceAt _ _ _ _ _)) => apply steady_offset_device_copies; [assumption|assumption|exact I]
    | |- steady _ _ _ (run_op _ (OpCopyToDeviceAtAsync _ _ _ _ _ _)) => apply steady_offset_device_copies; [assumption|assumption|exact I]
    | _ => apply steady_copies; [assumption|exact I]
    end.
Defined.

End SteadyBuffers.
