(* ===== verification/SteadyLaunch.v ===== *)
(** * Launches under any schedule

    A launch takes a lock for every object among its arguments and gives them back at its end: the locks it holds are those of its builder.  Its text follows the loops of
    Launch.v, and their properties in LaunchProps.v are what its view is known by. *)

From S2P Require Import Prelude CudaSys Errors Runtime CudaResult ExecutorApi Context Dispatch Resource Handles Buffer Modules Regions ArgPack Launch LaunchProps PackProps Steps Goroutines Steady SteadyDispatch SteadyOps.

(** ** The locks of a builder *)

(** These objects locked for reading, on top of [h]. *)
Definition vlocks (ls : list loc) (h : locks) : locks := foldl (fun h l => hold (rlocked (l, OpMu)) h) h ls.

Lemma vlocks_snoc ls l h : vlocks (ls ++ [l]) h = hold (rlocked (l, OpMu)) (vlocks ls h).
Proof. unfold vlocks. now rewrite foldl_app. Qed.

Lemma env_of_vlocks ls t C : forall h, env_of (vlocks ls h) t C = locked_env ls (env_of h t C).
Proof. induction ls as [|l ls IH]; intros h; [reflexivity|]. exact (IH (hold (rlocked (l, OpMu)) h)). Qed.

Lemma holds_vlocks ls k : forall h, holds k h -> holds k (vlocks ls h).
Proof. induction ls as [|l ls IH]; intros h Hk; [exact Hk|]. apply IH, holds_rlock, Hk. Qed.

Lemma holds_vlocks_in ls l : forall h, l ∈ ls -> holds (l, OpMu) (vlocks ls h).
Proof.
  induction ls as [|k ls IH]; intros h Hl; [now apply not_elem_of_nil in Hl|]. apply elem_of_cons in Hl as [->|Hl]; [|now apply IH].
  change (holds (k, OpMu) (vlocks ls (hold (rlocked (k, OpMu)) h))). apply holds_vlocks, holds_rlock_here.
Qed.

(** From [V0], with the locks of [b] and the knowledge that their objects are open. *)
Definition with_locks (V0 : view) (b : kernelArgBuilder) : view :=
  knowing (vlocks (kb_locks b) (v_locks V0)) (v_open V0 ∪ list_to_set (kb_locks b)).

Definition holding (V0 : view) (b : kernelArgBuilder) (V : view) : Prop := vle (with_locks V0 b) V.

Lemma wf_with_locks V0 b : wf V0 -> wf (with_locks V0 b).
Proof.
  intros Hw x Hx. cbn in Hx |- *. apply elem_of_union in Hx as [Hx|Hx]; [now apply holds_vlocks, Hw|]. apply holds_vlocks_in. now apply elem_of_list_to_set in Hx.
Qed.

Lemma holding_le V0 b V V' : holding V0 b V -> vle V V' -> holding V0 b V'.
Proof. apply vle_trans. Qed.

(** Packing changes no lock. *)
Lemma holding_packed V0 b p V : holding V0 b V -> holding V0 (set_packed p b) V.
Proof. exact id. Qed.

(** One more object, found open under its lock. *)
Lemma holding_more V0 b l V : kb_ok b -> l ∉ kb_locks b -> holding V0 b V -> holding V0 (addLock l b) (vfound l (vrlock (l, OpMu) V)).
Proof.
  intros Hok Hl [Hlk Ho]. destruct (addLock_spec l b Hok Hl) as [_ Hadd]. unfold holding, with_locks. rewrite Hadd, vlocks_snoc. split; cbn in *; [now rewrite Hlk|].
  rewrite list_to_set_app_L. cbn. intros x Hx. rewrite !elem_of_union in Hx. destruct Hx as [Hx|[Hx|Hx]]; [apply elem_of_union_r; set_solver..|].
  apply elem_of_union_l, known_spec. assert (x = l) as -> by set_solver. split; [apply holds_rlock_here|set_solver].
Qed.

(** A lock taken by [RLock] can be given back, and then what was known before is known again. *)
Lemma unlock_back l V V' : wf V -> vle (vrlock (l, OpMu) V) V' -> is_Some (lk_r (v_locks V') !! (l, OpMu)) /\ vle V (vrunlock (l, OpMu) V').
Proof. intros Hw Hl. split; [destruct Hl as [-> _]; exact (vreads_rlock_here l V)|now apply runlock_settled]. Qed.

Lemma found_le l V : vle V (vfound l V).
Proof. split; [done|cbn; set_solver]. Qed.

Section SteadyLaunch.
Context `{Foreign}.
Implicit Types (u : usage) (t : option loc) (V : view).

(** ** Texts *)

Definition text_unless (held : bool) {m : M unit} (x : text m) : text (unless held m) :=
  match held as h return text (unless h m) with true => t_ret tt | false => x end.

Definition text_append_object l octx ce typ h b : text (append_object l octx ce typ h b).
Proof.
  refine (t_bind (text_unless _ (t_act (ARLock (l, OpMu)))) (fun _ => t_bind (t_act (AClosed l)) (fun closed => _))).
  refine (if closed as c return text (if c then _ else _) then t_bind (text_unless _ (t_act (ARUnlock (l, OpMu)))) (fun _ => t_ret _) else _).
  refine (if _ && _ as c return text (if c then _ else _) then t_bind (text_unless _ (t_act (ARUnlock (l, OpMu)))) (fun _ => t_ret _) else t_bind _ (fun b' => t_ret _)).
  exact (if kb_snapshot b as c return text (if c then _ else _) then t_bind (text_unless _ (t_act (ARUnlock (l, OpMu)))) (fun _ => t_ret _) else t_ret _).
Defined.

Definition text_appendKernelArg (a : KernelArg) (b : kernelArgBuilder) : text (appendKernelArg a b).
Proof.
  destruct a as [T [x|]|T typ v|ptr|[mem|] size|[x|]|[x|]];
    [apply text_append_object|apply t_ret|apply t_ret|apply t_ret| |apply t_ret|apply text_append_object|apply t_ret|apply text_append_object|apply t_ret].
  exact (if _ || _ as c return text (if c then _ else _) then t_ret _ else t_ret _).
Defined.

Fixpoint text_append_args (args : list (option KernelArg)) (b : kernelArgBuilder) : text (append_args args b) :=
  match args with
  | [] => t_ret _
  | None :: _ => t_ret _
  | Some a :: args =>
      t_bind (text_appendKernelArg a b) (fun r =>
        match r.2 as e return text (match e with Some e => ret (r.1, Some e) | None => append_args args r.1 end) with
        | Some _ => t_ret _
        | None => text_append_args args r.1
        end)
  end.

Definition text_deref {A} (p : option A) : text (deref p) :=
  match p with Some _ => t_ret _ | None => t_panic _ end.

Fixpoint text_release_from (b : kernelArgBuilder) (i : nat) : text (release_from b i) :=
  match i with
  | O => t_ret tt
  | S i => t_bind (text_deref _) (fun l => t_bind (t_act (ARUnlock (l, OpMu))) (fun _ => text_release_from b i))
  end.

(** ** Giving the locks back *)

Lemma wp_release_from u t V0 b i : wf V0 -> kb_ok b -> forall V,
  (i <= lockCount b)%nat -> v_locks V = vlocks (take i (kb_locks b)) (v_locks V0) -> v_open V0 ⊆ v_open V ->
  wp (text_release_from b i) u t V (fun o V' => o = Done tt /\ vle V0 V').
Proof.
  intros Hw Hok. induction i as [|i IH]; intros V Hi Hl Ho; cbn [text_release_from].
  - rewrite take_0 in Hl. cbn. now split.
  - destruct (release_slot b i Hok Hi) as (l & Hat & Hslot). cbn [wp]. rewrite Hslot. cbn [text_deref wp act_wp].
    rewrite (take_S_r _ _ _ Hat), vlocks_snoc in Hl. rewrite Hl. split; [exact (r_held_rlocked (l, OpMu) (env_of (vlocks (take i (kb_locks b)) (v_locks V0)) None ∅))|].
    apply IH; [lia|cbn; rewrite Hl; apply unlock_rlock|]. cbn. rewrite Hl, unlock_rlock. intros x Hx. apply known_spec. split; [|now apply Ho].
    now apply holds_vlocks, Hw.
Qed.

(** ** Taking them *)

(** The object of an argument is among the locks, and of the builder's context. *)
Definition taken (a : KernelArg) (b b' : kernelArgBuilder) : Prop :=
  match arg_object a with
  | Some (l, octx) => l ∈ kb_locks b' /\ (kb_ctx b <> None -> same_ctx octx (kb_ctx b) = true)
  | None => True
  end.

Lemma taken_accepted a b b' E : (forall l, l ∈ kb_locks b' -> open l E) -> taken a b b' -> accepted a b b' E.
Proof. unfold taken, accepted. destruct (arg_object a) as [[l octx]|]; [|done]. intros Ho [H1 H2]. split_and!; auto. Qed.

(** What one argument does. *)
Definition one_more (V0 : view) (a : KernelArg) (b : kernelArgBuilder) (o : outcome (kernelArgBuilder * err)) (V : view) : Prop :=
  match o with
  | Done (b', Some _) => b' = b /\ holding V0 b V
  | Done (b', None) =>
      extends b b' /\ kb_packed b' = argpack.add (kb_packed b) (arg_value a).1 (arg_value a).2 /\ taken a b b' /\ holding V0 b' V /\
      (forall mem size, a = ArgRaw mem size -> 0 < size <= maxRawArgBytes /\ mem <> None)
  | _ => False
  end.

Lemma wp_append_object u t V0 V a l octx ce typ h b :
  arg_object a = Some (l, octx) -> arg_value a = (handle_bytes h, Some typ) -> (forall mem size, a <> ArgRaw mem size) ->
  kb_ok b -> kb_snapshot b = false -> wf V -> holding V0 b V ->
  wp (text_append_object l octx ce typ h b) u t V (one_more V0 a b).
Proof.
  intros Ho Hv Hraw Hok Hsn Hw Hh. unfold one_more, taken. rewrite Ho, Hv. pose proof (holdsLock_spec l b Hok) as Hheld. unfold text_append_object, append_object.
  cbv zeta. rewrite Hheld. cbn [wp act_wp fst snd].
  destruct (bool_decide (l ∈ kb_locks b)) eqn:Hin; cbn [text_unless wp act_wp].
  - apply bool_decide_eq_true in Hin. split; [now split|]. destruct (_ && _) eqn:Hc; cbn [wp]; [now split; [|eapply holding_le; [exact Hh|apply found_le]]|].
    rewrite Hsn. cbn [wp]. split_and!; [now apply extends_packed|reflexivity|exact Hin| | |now intros mem size Hx%Hraw].
    + intros Hn. rewrite bool_decide_eq_false_2 in Hc by exact Hn. now apply negb_false_iff.
    + apply holding_packed. eapply holding_le; [exact Hh|apply found_le].
  - apply bool_decide_eq_false in Hin.
    assert (Hback : forall V', vle (vrlock (l, OpMu) V) V' -> is_Some (lk_r (v_locks V') !! (l, OpMu)) /\ b = b /\ holding V0 b (vrunlock (l, OpMu) V')).
    { intros V' Hl. destruct (unlock_back l V V' Hw Hl) as [H1 H2]. split_and!; [exact H1|done|now apply (holding_le V0 b V)]. }
    split; [apply Hback, vle_refl|]. destruct (_ && _) eqn:Hc; cbn [wp act_wp]; [apply Hback, found_le|].
    rewrite Hsn. cbn [wp]. destruct (addLock_spec l b Hok Hin) as [Hok' Hl'].
    assert (Hf : kb_ctx (addLock l b) = kb_ctx b /\ kb_snapshot (addLock l b) = kb_snapshot b /\ kb_packed (addLock l b) = kb_packed b)
      by (unfold addLock; now destruct (_ <? _)%nat).
    destruct Hf as (Hf1 & Hf2 & Hf3). split_and!; [|now cbn; rewrite Hf3| | | |now intros mem size Hx%Hraw].
    + eapply extends_trans; [|now apply extends_packed]. split_and!; try done. now exists [l].
    + change (l ∈ kb_locks (addLock l b)). rewrite Hl'. set_solver.
    + intros Hn. rewrite bool_decide_eq_false_2 in Hc by exact Hn. now apply negb_false_iff.
    + now apply holding_packed, holding_more.
Qed.

Lemma wp_appendKernelArg u t V0 V a b : kb_ok b -> kb_snapshot b = false -> wf V -> holding V0 b V ->
  wp (text_appendKernelArg a b) u t V (one_more V0 a b).
Proof.
  intros Hok Hsn Hw Hh. destruct a as [T [x|]|T typ v|ptr|[mem|] size|[x|]|[x|]]; cbn [text_appendKernelArg];
    try (now apply wp_append_object); try (now split); try (cbn; split_and!; [now apply extends_packed|reflexivity|exact I|now apply holding_packed|done]).
  unfold appendKernelArg, rawKernelArg_append. destruct (_ || _) eqn:Hs; [now split|]. cbn. split_and!; [now apply extends_packed|reflexivity|exact I|now apply holding_packed|].
  intros m sz [= <- <-]. reflect_bools. split; [lia|done].
Qed.

(** What all of them do. *)
Definition all_taken (V0 : view) (args : list (option KernelArg)) (b : kernelArgBuilder) (o : outcome (kernelArgBuilder * err)) (V : view) : Prop :=
  match o with
  | Done (b', Some _) => extends b b' /\ holding V0 b' V
  | Done (b', None) =>
      extends b b' /\ holding V0 b' V /\ argpack.wf (kb_packed b') /\ argpack.args (kb_packed b') = argpack.args (kb_packed b) ++ values args /\
      Forall (fun a => match a with Some a => taken a b b' | None => False end) args
  | _ => False
  end.

Lemma taken_extends a b b1 b2 : taken a b b1 -> extends b1 b2 -> taken a b b2.
Proof.
  unfold taken. destruct (arg_object a) as [[l octx]|]; [|done]. intros [H1 H2] (_ & _ & _ & new & ->). split; [set_solver|exact H2].
Qed.

Lemma wp_append_args u t V0 args : forall b V,
  Forall (fun a => match a with Some a => arg_wf a | None => True end) args ->
  kb_ok b -> kb_snapshot b = false -> argpack.wf (kb_packed b) ->
  argpack.spill_len (kb_packed b) + arg_space * Z.of_nat (length args) + 8 < 2 ^ 31 -> wf V -> holding V0 b V ->
  wp (text_append_args args b) u t V (all_taken V0 args b).
Proof.
  induction args as [|[a|] args IH]; intros b V Hwf Hok Hsn Hp Hsp Hw Hh; cbn [text_append_args].
  - split_and!; [now apply extends_refl|exact Hh|exact Hp|now rewrite app_nil_r|constructor].
  - apply Forall_cons in Hwf as [Ha Hwf]. cbn [wp]. eapply wp_mono; [|exact (wp_wf _ _ u t V _ Hw (wp_appendKernelArg u t V0 V a b Hok Hsn Hw Hh))].
    intros [[b1 [e|]]| | |] V1 [H1 Hw1]; try done; cbn [fst snd wp].
    + destruct H1 as [-> H1]. split; [now apply extends_refl|exact H1].
    + destruct H1 as (Hext & Hpk & Hacc & Hh1 & Hraw). destruct (packed_step a b b1 (length args) Ha Hraw Hp Hpk Hsp) as (Hp1 & Ha1 & Hs1).
      pose proof Hext as (Hok1 & Hc1 & Hsn1 & _).
      eapply wp_mono; [|apply (IH b1 V1 Hwf Hok1 ltac:(congruence) Hp1 Hs1 Hw1 Hh1)].
      intros [[b2 [e|]]| | |] V2; try done; cbn.
      * intros [He Hh2]. split; [now apply extends_trans with b1|exact Hh2].
      * intros (He & Hh2 & Hp2 & Hargs & Hall). split_and!; [now apply extends_trans with b1|exact Hh2|exact Hp2|now rewrite Hargs, Ha1, <- app_assoc|].
        constructor; [now apply taken_extends with b1|]. eapply Forall_impl; [exact Hall|]. intros [x|]; [|done]. unfold taken. now rewrite Hc1.
  - split; [now apply extends_refl|exact Hh].
Qed.

(** ** Launching *)

(** What is known of the builder of a launch whose arguments were all accepted. *)
Definition loaded_with (args : list (option KernelArg)) (c : option Context) (b : kernelArgBuilder) : Prop :=
  kb_ctx b = c /\ argpack.wf (kb_packed b) /\ argpack.args (kb_packed b) = values args /\
  Forall (fun a => match a with Some a => taken a (newLaunchArgState argpack.zeroBuilder c) b | None => False end) args.

Lemma loaded_view args c b : loaded_with args c b -> driver_view (argpack.Params (kb_packed b)) = params_of args.
Proof.
  intros (_ & Hp & Hargs & Hall). rewrite (driver_view_args _ Hp), Hargs. apply values_params. eapply Forall_impl; [exact Hall|]. now intros [x|].
Qed.

(** A promise that only such a builder binds. *)
Definition once_loaded args c b (u : usage) : usage := fun E cl => loaded_with args c b -> u E cl.

(** The launch, with the locks of the builder. *)
Lemma steady_loaded objs m ctx fn raw cfg coop args b V :
  Forall (fun l => knows l V /\ vreads l V) objs -> knows (md_id m) V -> vreads (md_id m) V ->
  steady (once_loaded args (md_ctx m) b (launch_use objs m fn cfg raw coop args)) None (with_locks V b)
    (launchKernel (md_ctx m) ctx fn cfg raw (driver_view (argpack.Params (kb_packed b))) coop).
Proof.
  intros Hobjs Hk Hr. apply steady_launchKernel; [intros E cl Hb _; now left|].
  destruct (md_ctx m) as [x|] eqn:Hx; [|exact tt]. cbn [in_job]. intros e C HC Hl. rewrite (loaded_view _ _ _ Hl). cbn [vopened vfound vrlock with_locks v_locks v_open] in *.
  set (E := env_of (v_locks V) None C).
  assert (Hlive : forall l, knows l V -> vreads l V -> live l E) by (intros l H1 H2; apply knows_live; [exact H1|exact H2|set_solver]).
  destruct Hl as (Hc & _ & _ & Hall).
  pose proof (launch_call_safe objs m fn cfg raw coop args b E) as Hsafe. rewrite Hx in Hsafe. cbn [in_context] in Hsafe. unfold launch_call in Hsafe.
  assert (Hopen : open (cx_id x) (locked_env (kb_locks b) E)).
  { rewrite open_locked. intros Hcl. apply (HC (cx_id x) Hcl). apply elem_of_union_l, known_spec. split; [apply holds_rlock_here|set_solver]. }
  change (env_of (hold (rlocked (cx_id x, OpMu)) (vlocks (kb_locks b) (v_locks V))) (Some e) C)
    with (on_thread (Some e) (rlocked (cx_id x, OpMu) (env_of (vlocks (kb_locks b) (v_locks V)) None C))).
  rewrite env_of_vlocks. fold E.
  refine (Hsafe _ (Hlive _ Hk Hr) Hc _ e Hopen).
  - eapply Forall_impl; [exact Hobjs|]. intros l [H1 H2]. now apply Hlive.
  - eapply Forall_impl; [exact Hall|]. intros [a|]; [|done]. intros Ha. exists (newLaunchArgState argpack.zeroBuilder (Some x)). split; [now rewrite Hc|].
    apply taken_accepted; [|exact Ha]. intros l Hl Hcl. apply (HC l Hcl). set_solver.
Defined.

(** The rest of the launch: the driver call, or the error of an argument. *)
Definition launch_rest (m : Module_) (ctx : gctx) (fn raw : Z) (cfg : LaunchConfig) (coop : bool) (r : kernelArgBuilder * err) : M (err * argpack.Builder) :=
  match r.2 with
  | Some e => ret (Some e, argpack.Reset (kb_packed r.1))
  | None =>
      let p := argpack.Params (kb_packed r.1) in
      let! e := launchKernel (md_ctx m) ctx fn cfg raw (driver_view p) coop in
      ret (e, argpack.Reset p.1)
  end.

Lemma steady_launch_rest objs m ctx fn raw cfg coop args r V :
  Forall (fun l => knows l V /\ vreads l V) objs -> knows (md_id m) V -> vreads (md_id m) V ->
  steady (once_loaded args (md_ctx m) r.1 (launch_use objs m fn cfg raw coop args)) None (with_locks V r.1) (launch_rest m ctx fn raw cfg coop r).
Proof.
  intros Hobjs Hk Hr. unfold launch_rest. destruct r.2 as [e|]; [apply steady_ret|]. apply steady_bind; [now apply steady_loaded|]. intros e. apply steady_ret.
Defined.

Lemma wp_launch_rest u t V b (m : M (err * argpack.Builder)) (x : text m) V1 : kb_ok b -> wf V ->
  wp x u t V1 (settled (with_locks V b)) -> wp (t_defer (text_release_from b (lockCount b)) x) u t V1 (settled V).
Proof.
  intros Hok Hw Hx. cbn [wp]. eapply wp_mono; [|exact Hx]. intros o V2 [Ho [Hl Hop]].
  assert (Hrel : wp (text_release_from b (lockCount b)) u t V2 (fun o V' => o = Done tt /\ vle V V')).
  { apply wp_release_from; try done.
    - rewrite Hl. cbn. rewrite take_ge; [reflexivity|]. rewrite (kb_count b Hok). lia.
    - cbn in Hop. set_solver. }
  destruct o; try done; (eapply wp_mono; [|exact Hrel]); intros o2 V3 [-> Hv]; now split.
Qed.

Lemma steady_launch_body objs pooled m ctx fn raw cfg coop args V :
  pooled_ok pooled -> args_ok args -> Forall (fun l => knows l V /\ vreads l V) objs -> knows (md_id m) V -> vreads (md_id m) V ->
  steady (launch_use objs m fn cfg raw coop args) None V (launch_body pooled m ctx fn raw cfg coop args).
Proof.
  intros (Hp & Hn & Hsp) [Hwf Hlen] Hobjs Hk Hr.
  pose (rest := fun r => steady_launch_rest objs m ctx fn raw cfg coop args r V Hobjs Hk Hr).
  exists (t_bind (text_append_args args (newLaunchArgState pooled (md_ctx m))) (fun r => t_defer (text_release_from r.1 (lockCount r.1)) (projT1 (rest r)))).
  intros Hw. cbn [wp].
  assert (Hh : holding V (newLaunchArgState pooled (md_ctx m)) V) by (split; [done|cbn; set_solver]).
  eapply wp_mono; [|apply (wp_append_args _ None V args _ V Hwf (start_ok pooled (md_ctx m)) eq_refl Hp); [cbn; rewrite Hsp; unfold arg_space; lia|exact Hw|exact Hh]].
  intros o V1 Ho. destruct o as [[b oe]| | |]; try done.
  assert (Hb : kb_ok b /\ holding V b V1 /\ (oe = None -> loaded_with args (md_ctx m) b)).
  { destruct oe as [e|]; [destruct Ho as ((Hok & _) & Hh1); now split_and!|]. destruct Ho as ((Hok & Hc & _) & Hh1 & Hpk & Hargs & Hall).
    split_and!; [done|done|]. intros _. split_and!; [exact Hc|exact Hpk| |exact Hall].
    assert (H0 : argpack.args pooled = []) by (apply length_zero_iff_nil; now rewrite argpack.length_args). cbn in Hargs. now rewrite H0 in Hargs. }
  destruct Hb as (Hok & Hh1 & Hl). apply (wp_launch_rest _ None V b _ (projT1 (rest (b, oe))) V1 Hok Hw).
  eapply wp_le; [apply up_settled|exact Hh1|]. destruct oe as [e|]; [split; [exact I|apply vle_refl]|].
  eapply wp_usage; [|exact (projT2 (rest (b, None)) (wf_with_locks V b Hw))]. intros E c Hu. exact (Hu (Hl eq_refl)).
Defined.

(** *** Launch, LaunchOn and their cooperative forms *)

Lemma steady_launch objs pooled f m ctx raw sctx cfg coop args V :
  fn_module f = Some m -> pooled_ok pooled -> args_ok args -> Forall (fun l => knows l V /\ vreads l V) objs ->
  steady (launch_use objs m (fn_raw f) cfg raw coop args) None V (launch pooled (Some f) ctx raw sctx cfg coop args).
Proof.
  intros Hf Hp Ha Hobjs. unfold launch. destruct (negb (valid cfg)); [apply steady_ret|]. rewrite Hf.
  destruct (negb _ && _); [apply steady_ret|]. apply steady_opened.
  apply (steady_launch_body objs); try done; [|auto with steady..].
  eapply Forall_impl; [exact Hobjs|]. intros l [H1 H2]. auto with steady.
Defined.

Lemma steady_launchOn pooled f m ctx st cfg coop args V :
  fn_module f = Some m -> pooled_ok pooled -> args_ok args ->
  steady (launch_use [sm_id st] m (fn_raw f) cfg (sm_raw st) coop args) None V (launchOn pooled (Some f) ctx (Some st) cfg coop args).
Proof. intros Hf Hp Ha. apply steady_opened, steady_launch; try done. constructor; [split; auto with steady|constructor]. Defined.

(** *** Packed arguments *)

Lemma steady_launchPacked objs f m ctx raw sctx cfg p args V :
  fn_module f = Some m -> packs p args -> Forall (fun l => knows l V /\ vreads l V) objs ->
  steady (packed_use objs m (fn_raw f) cfg raw (params_of args)) None V (launchPacked (Some f) ctx raw sctx cfg (Some p)).
Proof.
  intros Hf Hp Hobjs. unfold launchPacked. destruct (negb (valid cfg)); [apply steady_ret|]. rewrite Hf.
  destruct (negb _ && _); [apply steady_ret|]. apply steady_opened. cbv zeta. apply steady_bind; [|intros; apply steady_ret].
  rewrite (packs_view p args Hp). apply steady_launchKernel; [now left|]. destruct (md_ctx m) as [x|] eqn:Hx; [|exact tt].
  intros e C HC. right. split; [reflexivity|]. split; [cbn; eauto|]. split.
  - eapply Forall_impl; [exact Hobjs|]. intros l [H1 H2]. apply knows_live; eauto 6 with steady.
  - split; [apply knows_live; eauto 6 with steady|]. exists x. split; [exact Hx|]. apply knows_live; eauto 6 with steady.
Defined.

Lemma steady_LaunchPackedOn f m ctx st cfg p args V :
  fn_module f = Some m -> packs p args ->
  steady (packed_use [sm_id st] m (fn_raw f) cfg (sm_raw st) (params_of args)) None V (LaunchPackedOn (Some f) ctx (Some st) cfg (Some p)).
Proof. intros Hf Hp. apply steady_opened, steady_launchPacked; try done. constructor; [split; auto with steady|constructor]. Defined.

(** ** Packing

    [Pack] gives each lock back before it takes the next. *)

Definition recorded (b : kernelArgBuilder) (V : view) (o : outcome (kernelArgBuilder * err)) (V' : view) : Prop :=
  vle V V' /\ match o with Done (b', None) => recording b' | Done (_, Some _) => True | _ => False end.

Lemma recorded_le b V V1 V2 o : vle V V1 -> recorded b V1 o V2 -> recorded b V o V2.
Proof. intros Hl [H1 H2]. split; [now apply vle_trans with V1|exact H2]. Qed.

Lemma wp_append_object_recorded u t V l octx ce typ h b :
  recording b -> wf V -> wp (text_append_object l octx ce typ h b) u t V (recorded b V).
Proof.
  intros Hb Hw. pose proof Hb as (Hok & Hsn & Hl & Hc). pose proof (holdsLock_spec l b Hok) as Hheld. rewrite Hl, bool_decide_eq_false_2 in Hheld by apply not_elem_of_nil.
  unfold text_append_object, append_object. cbv zeta. rewrite Hheld. cbn [text_unless wp act_wp fst snd].
  split; [destruct (unlock_back l V _ Hw (vle_refl _)); now split_and!|]. destruct (unlock_back l V _ Hw (found_le l _)) as [H1 H2].
  destruct (_ && _); cbn [wp act_wp]; [now split_and!|]. rewrite Hsn. cbn [wp act_wp]. split; [exact H1|]. split; [exact H2|]. now apply recording_packed.
Qed.

Lemma wp_append_args_recorded u t args : forall b V, recording b -> wf V -> wp (text_append_args args b) u t V (recorded b V).
Proof.
  induction args as [|[a|] args IH]; intros b V Hb Hw; cbn [text_append_args]; try (split; [apply vle_refl|now auto]).
  assert (Hone : wp (text_appendKernelArg a b) u t V (recorded b V)).
  { destruct a as [T [x|]|T typ v|ptr|[mem|] size|[x|]|[x|]]; cbn [text_appendKernelArg];
      try (now apply wp_append_object_recorded); try (split; [apply vle_refl|]; first [exact I|now apply recording_packed]).
    unfold appendKernelArg, rawKernelArg_append. destruct (_ || _); (split; [apply vle_refl|]); [exact I|now apply recording_packed]. }
  cbn [wp]. eapply wp_mono; [|exact (wp_wf _ _ u t V _ Hw Hone)].
  intros [[b1 [e|]]| | |] V1 [[Hv H1] Hw1]; try done; cbn [fst snd wp].
  eapply wp_mono; [|exact (IH b1 V1 H1 Hw1)]. intros o V2. now apply recorded_le.
Qed.

Lemma steady_Pack u args V : steady u None V (Pack args).
Proof.
  unfold Pack. apply steady_bind; [|intros [b [e|]]; apply steady_ret]. exists (text_append_args args (mkBuilder_ None argpack.zeroBuilder [] 0 [] true)).
  intros Hw. eapply wp_mono; [|apply wp_append_args_recorded; [|exact Hw]].
  - intros o V' [Hv Ho]. split; [now destruct o|exact Hv].
  - split_and!; try done. split; cbn; [done|unfold inlineLockCount; lia|done|constructor].
Defined.

(** [SetPackedBuffer] unlocks on each of its paths. *)
Lemma steady_SetPackedBuffer {T} u p i (b : option (Buffer T)) V : steady u None V (SetPackedBuffer p i b).
Proof.
  unfold SetPackedBuffer. destruct p as [p|]; [|apply steady_ret]. destruct b as [b|]; [|apply steady_ret].
  exists (t_bind (t_act (ARLock (bf_id b, OpMu))) (fun _ => t_bind (t_act (AClosed (bf_id b))) (fun c =>
    if c as c return text (if c then _ else _) then t_bind (t_act (ARUnlock (bf_id b, OpMu))) (fun _ => t_ret _)
    else t_bind (t_act (ARUnlock (bf_id b, OpMu))) (fun _ =>
      let '(p', e) as r := argpack.Set_ p i type_CUdeviceptr (handle_bytes (bf_ptr b)) return text (let '(p', e) := r in ret (Some p', e)) in t_ret (Some p', e))))).
  intros Hw. cbn [wp act_wp].
  split; [destruct (unlock_back (bf_id b) V _ Hw (vle_refl _)); now split_and!|]. destruct (unlock_back (bf_id b) V _ Hw (found_le (bf_id b) _)) as [H1 H2].
  split; [exact H1|]. now destruct (argpack.Set_ _ _ _ _).
Defined.

End SteadyLaunch.
