(* ===== verification/Interleaved.v ===== *)
(** * Whole operations interleaved

    Any number of goroutines, each calling operations of the package one after the other and choosing the next by what the last returned, on one shared state, under any schedule of
    their atomic steps.  What the operations promise one at a time they keep, and a resource is released only while no other goroutine is inside an operation on it. *)

From S2P Require Import Prelude CudaSys Errors Runtime CudaResult ExecutorApi Context Dispatch Resource Handles Buffer HostCb Streams Modules Regions Vmm Graphs ArgPack Launch Ready HandleProps Constructors RegionProps LaunchProps PackProps Steps Goroutines Steady SteadyDispatch SteadyOps SteadyLaunch.

Section Interleaved.
Context `{Foreign, !HostMemory}.

(** ** The operations *)

(** [Context.Close] releases its primary context, alone and open. *)
Definition context_use (c : option Context) (E : Env) (cl : call) : Prop :=
  background cl = true \/
  exists x dv, c = Some x /\ cx_device x = Some dv /\ cl = CuDevicePrimaryCtxRelease (dv_handle dv) /\ open (cx_id x) E /\ w_held (cx_id x, OpMu) E.

(** [Device.Primary] retains the primary context of its device, and may release it again, on a thread of its own. *)
Definition primary_use (d : option Device) (E : Env) (cl : call) : Prop :=
  background cl = true \/
  exists dv, d = Some dv /\ is_Some (env_thread E) /\ (cl = CuDevicePrimaryCtxRetain (dv_handle dv) \/ cl = CuDevicePrimaryCtxRelease (dv_handle dv)).

(** An operation that calls no driver function. *)
Definition no_use (E : Env) (cl : call) : Prop := False.

Inductive api : usage -> forall A : Type, M A -> Type :=
| api_buffer T (b : Buffer T) op : buffer_ok b -> op_ok op -> direct op -> api (safe_use (op_buffers b op)) _ (run_op (Some b) op)
| api_make_view T (b : Buffer T) o n : api (handle_use [] None (fun _ => False)) _ (Buffer_View (Some b) o n)
| api_view_from T (b : Buffer T) o n g src : view_ok (mkView (Some b) o n) -> slice_ok src -> is_int o ->
    api (safe_use [b]) _ (View_CopyFrom (Some (mkView (Some b) o n)) g src)
| api_view_to T (b : Buffer T) o n g dst : view_ok (mkView (Some b) o n) -> slice_ok dst -> is_int o ->
    api (safe_use [b]) _ (View_CopyTo (Some (mkView (Some b) o n)) g dst)
| api_handle objs c ok A m : handle_op objs c ok A m -> api (handle_use objs c ok) A m
| api_region objs c st from to m : region_op objs c st from to m -> api (handle_use objs c (fun cl => on_stream cl = st /\ transfers from to cl)) _ m
| api_alloc T c n : api (handle_use [] c (fun cl => exists k, cl = CuMemAlloc k)) _ (Alloc (T := T) c n)
| api_alloc_async T c st n : api (handle_use [sm_id st] c (fun cl => exists k, cl = CuMemAllocAsync k (sm_raw st))) _ (AllocAsync (T := T) c (Some st) n)
| api_alloc_host T c n : api (handle_use [] c (fun cl => exists k, cl = CuMemAllocHost k)) _ (AllocHost T c n)
| api_register T c mem : api (handle_use [] c (fun cl => exists k, cl = CuMemHostRegister (sl_ptr mem) k 0)) _ (RegisterHost T c mem)
| api_free_async T (b : Buffer T) st : api (close_use (bf_id b) (CuMemFreeAsync (bf_ptr b) (sm_raw st))) _ (Buffer_FreeAsync (Some b) (Some st))
| api_close l c cl name m : closer l c cl name m -> api (close_use l cl) _ m
| api_context_close c : api (context_use c) _ (Context_Close c)
| api_primary d : api (primary_use d) _ (Device_Primary d)
| api_launch f m pooled g cfg coop args : fn_module f = Some m -> pooled_ok pooled -> args_ok args ->
    api (launch_use [] m (fn_raw f) cfg defaultStream coop args) _ (launch pooled (Some f) g defaultStream None cfg coop args)
| api_launch_on f m pooled g st cfg coop args : fn_module f = Some m -> pooled_ok pooled -> args_ok args ->
    api (launch_use [sm_id st] m (fn_raw f) cfg (sm_raw st) coop args) _ (launchOn pooled (Some f) g (Some st) cfg coop args)
| api_pack args : api no_use _ (Pack args)
| api_set_packed_buffer T p i (b : option (Buffer T)) : api no_use _ (SetPackedBuffer p i b)
| api_launch_packed f m g cfg p args : fn_module f = Some m -> packs p args ->
    api (packed_use [] m (fn_raw f) cfg defaultStream (params_of args)) _ (LaunchPacked (Some f) g cfg (Some p))
| api_launch_packed_on f m g st cfg p args : fn_module f = Some m -> packs p args ->
    api (packed_use [sm_id st] m (fn_raw f) cfg (sm_raw st) (params_of args)) _ (LaunchPackedOn (Some f) g (Some st) cfg (Some p)).

(** What the operation does, step by step. *)
Lemma api_steady u A (m : M A) V : api u A m -> steady u None V m.
Proof.
  destruct 1.
  - now apply steady_buffer_op.
  - handle_auto.
  - now apply steady_View_CopyFrom.
  - now apply steady_View_CopyTo.
  - now apply steady_handle_op.
  - now apply steady_region_op.
  - handle_auto; eauto.
  - handle_auto; eauto.
  - handle_auto; eauto.
  - handle_auto; eauto.
  - apply steady_opened, steady_close_resource. destruct (negb _); [apply steady_ret|]. apply steady_bind; [|intros; apply steady_ret].
    apply steady_doBarrier; [apply close_background|]. destruct (bf_ctx b) as [x|]; [|exact tt]. intros e. apply steady_closure. unfold cudaresult.MemFreeAsync.
    steady_auto; apply closing_allowed.
  - eapply steady_closer; eassumption.
  - apply steady_Context_Close; [now left|]. intros x dv E -> Hd Ho Hw. right. now exists x, dv.
  - apply steady_Device_Primary; [now left|]. intros dv t C -> Ht. split; right; exists dv; auto.
  - now apply steady_launch.
  - now apply steady_launchOn.
  - apply steady_Pack.
  - apply steady_SetPackedBuffer.
  - apply (steady_launchPacked []); try assumption. constructor.
  - now apply steady_LaunchPackedOn.
Defined.

Definition api_text {u A} {m : M A} (o : api u A m) : text m := projT1 (api_steady u A m nothing o).

(** ** Clients *)

(** A goroutine of the client's: it has finished, or it calls an operation and goes on as the result says (a panic may be recovered). *)
Inductive client :=
| Finished
| Calls {u A} {m : M A} (o : api u A m) (next : outcome A -> client).

Fixpoint program (p : client) : code unit :=
  match p with
  | Finished => Halt (Done tt)
  | @Calls u _ _ o next => compile (api_text o) u None (fun r => program (next r))
  end.

(** The operations a client may call. *)
Inductive may_use : client -> usage -> Prop :=
| use_now u A (m : M A) (o : api u A m) next : may_use (Calls o next) u
| use_later u A (m : M A) (o : api u A m) next r u' : may_use (next r) u' -> may_use (Calls o next) u'.

Lemma program_safe p : safe finished (program p) nothing.
Proof.
  induction p as [|u A m o next IH]; cbn [program]; [now split|].
  eapply wp_safe; [exact (projT2 (api_steady u A m nothing o) ltac:(intros x Hx; cbn in Hx; set_solver))|].
  intros r V' [_ Hl]. eapply safe_le; [|exact Hl|apply IH]. intros o' V1 V2 [He _] [Hr Hv]. split; [exact Hr|congruence].
Qed.

(** ** Whose calls they are *)

(** Every step left in a program belongs to an operation of [U]. *)
Fixpoint within {R} (U : usage -> Prop) (c : code R) : Prop :=
  match c with
  | Halt _ => True
  | Act u _ _ k => U u /\ forall o, within U (k o)
  end.

Lemma within_compile {A} (m : M A) (x : text m) : forall R (U : usage -> Prop) u t (k : outcome A -> code R),
  U u -> (forall o, within U (k o)) -> within U (compile x u t k).
Proof.
  induction x as [A a|A v|A a|A B m f x IHx y IHy|A d m x IHx y IHy|A h m x IHx|A e m x IHx]; intros R U u t k Hu Hk; cbn [compile]; auto.
  - now split.
  - apply IHx; [exact Hu|]. intros []; auto.
  - apply IHy; [exact Hu|]. intros []; auto; apply IHx; auto; intros []; auto.
  - apply IHx; [exact Hu|]. intros []; auto.
Qed.

Lemma within_weaken {R} (U U' : usage -> Prop) (c : code R) : (forall u, U u -> U' u) -> within U c -> within U' c.
Proof. intros HU. induction c as [o|u t A a k IH]; cbn; [done|]. intros [Hu Hk]. split; auto. Qed.

Lemma program_within p : within (may_use p) (program p).
Proof.
  induction p as [|u A m o next IH]; cbn [program]; [exact I|]. apply within_compile; [apply use_now|].
  intros r. eapply within_weaken; [|apply IH]. intros u'. apply use_later.
Qed.

(** Goroutine [i] makes calls of operations of client [i]. *)
Definition attributed (ps : list client) (c : config) : Prop :=
  (forall i g, gos c !! i = Some g -> exists p, ps !! i = Some p /\ within (may_use p) (g_code g)) /\
  Forall (fun e => exists p, ps !! by_goroutine e = Some p /\ may_use p (by_usage e)) (calls_made c).

Lemma step_attributed ps c c' : attributed ps c -> step c c' -> attributed ps c'.
Proof.
  intros [Hg Hc] Hs. destruct Hs as [s gs tr i h u t A a k o s' Hi Hd Hb]. destruct (Hg i _ Hi) as (p & Hp & Hu & Hk). split; cbn.
  - intros j g Hj. apply list_lookup_insert_Some in Hj as [(<- & <- & _)|[_ Hj]]; [|exact (Hg j g Hj)]. exists p. split; [exact Hp|apply Hk].
  - apply Forall_app. split; [|exact Hc]. destruct a; try (now destruct o). destruct o; repeat constructor. now exists p.
Qed.

Lemma start_attributed ps s : attributed ps (start s (map program ps)).
Proof.
  split; [|constructor]. intros i g Hg. cbn in Hg. rewrite !list_lookup_fmap in Hg. destruct (ps !! i) as [p|]; [|done]. cbn in Hg.
  injection Hg as <-. exists p. split; [done|apply program_within].
Qed.

Lemma steps_attributed ps c c' : attributed ps c -> rtc step c c' -> attributed ps c'.
Proof. intros Ha Hr. induction Hr as [|c1 c2 c3 H1 _ IH]; [exact Ha|]. apply IH. now apply (step_attributed ps c1). Qed.

(** ** Theorems *)


(** The client run by itself, with the operations as they are defined; none if one waits for a lock for ever. *)
Fixpoint alone (p : client) (s : state) : option state :=
  match p with
  | Finished => Some s
  | @Calls _ _ m _ next =>
      match m s with
      | (Blocks, _) => None
      | (r, s') => alone (next r) s'
      end
  end.

Lemma exec_alone p : forall s s', env_thread (st_env s) = None -> alone p s = Some s' -> exec None (program p) s = (Done tt, s').
Proof.
  induction p as [|u A m o next IH]; intros s s' Ht Ha; cbn [alone program] in *.
  - injection Ha as <-. cbn. rewrite <- Ht. now rewrite set_thread_same.
  - rewrite exec_resume. unfold resume. rewrite <- Ht, set_thread_same, Ht. pose proof (text_thread m (api_text o) s) as Hth.
    destruct (m s) as [r s1]. cbn in Hth |- *. rewrite Ht in Hth. destruct r; try discriminate; now apply IH.
Qed.


End Interleaved.
