(* ===== verification/Accessors.v ===== *)
(** * Accessors (package cuda: raw.go, and the lengths, sizes and handles of every resource)

    They take no lock and are zero for a nil receiver. *)

From S2P Require Import Prelude CudaSys Errors Runtime CudaResult ExecutorApi Context Dispatch Resource Handles Buffer HostCb Streams Modules Regions Vmm Graphs Loader Constructors.

Definition IPCBuffer_Len {T} (x : option (IPCBuffer T)) : Z := match x with None => 0 | Some x => ib_length x end.
Definition IPCBuffer_Bytes {T} (x : option (IPCBuffer T)) : Z := match x with None => 0 | Some x => ib_bytes x end.
Definition IPCBuffer_DevicePtr {T} (x : option (IPCBuffer T)) : Z := match x with None => 0 | Some x => ib_ptr x end.

Definition ManagedBuffer_Len {T} (x : option (ManagedBuffer T)) : Z := match x with None => 0 | Some x => mb_length x end.
Definition ManagedBuffer_Bytes {T} (x : option (ManagedBuffer T)) : Z := match x with None => 0 | Some x => mb_bytes x end.
Definition ManagedBuffer_DevicePtr {T} (x : option (ManagedBuffer T)) : Z := match x with None => 0 | Some x => mb_ptr x end.

Definition VirtualBuffer_Len {T} (x : option (VirtualBuffer T)) : Z := match x with None => 0 | Some x => vb_length x end.
Definition VirtualBuffer_Bytes {T} (x : option (VirtualBuffer T)) : Z := match x with None => 0 | Some x => vb_bytes x end.
Definition VirtualBuffer_DevicePtr {T} (x : option (VirtualBuffer T)) : Z := match x with None => 0 | Some x => vb_ptr x end.

Definition PitchedBuffer_Width {T} (x : option (PitchedBuffer T)) : Z := match x with None => 0 | Some x => pb_width x end.
Definition PitchedBuffer_Height {T} (x : option (PitchedBuffer T)) : Z := match x with None => 0 | Some x => pb_height x end.
Definition PitchedBuffer_Pitch {T} (x : option (PitchedBuffer T)) : Z := match x with None => 0 | Some x => pb_pitch x end.
Definition PitchedBuffer_DevicePtr {T} (x : option (PitchedBuffer T)) : Z := match x with None => 0 | Some x => pb_ptr x end.

Definition Volume_Width {T} (x : option (Volume T)) : Z := match x with None => 0 | Some x => vo_width x end.
Definition Volume_Height {T} (x : option (Volume T)) : Z := match x with None => 0 | Some x => vo_height x end.
Definition Volume_Depth {T} (x : option (Volume T)) : Z := match x with None => 0 | Some x => vo_depth x end.
Definition Volume_Pitch {T} (x : option (Volume T)) : Z := match x with None => 0 | Some x => vo_pitch x end.
Definition Volume_DevicePtr {T} (x : option (Volume T)) : Z := match x with None => 0 | Some x => vo_ptr x end.

Definition Array2D_Width {T} (x : option (Array2D T)) : Z := match x with None => 0 | Some x => ar_width x end.
Definition Array2D_Height {T} (x : option (Array2D T)) : Z := match x with None => 0 | Some x => ar_height x end.
Definition Array2D_Raw {T} (x : option (Array2D T)) : Z := match x with None => 0 | Some x => ar_handle x end.

Definition Texture_Raw (x : option (Texture)) : Z := match x with None => 0 | Some x => tx_handle x end.

Definition Surface_Raw (x : option (Surface)) : Z := match x with None => 0 | Some x => sf_handle x end.

Definition Context_Raw (x : option (Context)) : Z := match x with None => 0 | Some x => cx_raw x end.

Definition Stream_Raw (x : option (Stream)) : Z := match x with None => 0 | Some x => sm_raw x end.

Definition Event_Raw (x : option (Event)) : Z := match x with None => 0 | Some x => ev_raw x end.

Definition Buffer_DevicePtr {T} (x : option (Buffer T)) : Z := match x with None => 0 | Some x => bf_ptr x end.

Definition Context_Driver (x : option Context) : option Driver := match x with None => None | Some x => cx_driver x end.

(** ** What the accessors of a well-formed resource say *)

Section Sizes.
Context {T : elem}.

Lemma virtual_bytes (b : VirtualBuffer T) : virtual_ok b -> VirtualBuffer_Bytes (Some b) = VirtualBuffer_Len (Some b) * sizeof T.
Proof. now intros ((_ & _ & Hb & _) & _). Qed.

Lemma managed_bytes (m : ManagedBuffer T) : managed_ok m -> ManagedBuffer_Bytes (Some m) = ManagedBuffer_Len (Some m) * sizeof T.
Proof. now intros ((_ & _ & Hb & _) & _). Qed.

(** Rows do not overlap. *)
Lemma pitched_rows (b : PitchedBuffer T) : pitched_ok b -> PitchedBuffer_Width (Some b) * sizeof T <= PitchedBuffer_Pitch (Some b).
Proof. intros (_ & _ & _ & _ & [Hp _] & _). exact Hp. Qed.

Lemma volume_rows (v : Volume T) : volume_ok v -> Volume_Width (Some v) * sizeof T <= Volume_Pitch (Some v).
Proof. intros (_ & _ & _ & _ & [Hp _] & _). exact Hp. Qed.

End Sizes.
