(* ===== verification/RoundTrip.v ===== *)
(** * What is uploaded is what is downloaded

    The driver is foreign; what these properties rely on is what CUDA documents of its copies, stated by the class [MemoryModel]: a copy that returns
    success has copied the bytes it was asked to, and nothing else; allocating and freeing leave the process's memory as it was. *)

From S2P Require Import Prelude CudaSys Errors Runtime CudaResult ExecutorApi Context Dispatch Resource Handles Buffer Ready BufferProps HostCb Streams Modules Regions Vmm Graphs Loader HandleProps Constructors RegionProps.

(** [dev w a], [host w a]: the byte at address [a] of the device's and the process's memory. *)
Class MemoryModel `{Foreign} := {
  dev : World -> Z -> Z;
  host : World -> Z -> Z;
  alloc_law : forall t n w a, host (Sys t (CuMemAlloc n) w).2 a = host w a;
  free_law : forall t p w a, host (Sys t (CuMemFree p) w).2 a = host w a;
  HtoD_law : forall t dst src n w, let '((code, _), w') := Sys t (CuMemcpyHtoD dst src n) w in
    code = 0 ->
    (forall a, dev w' a = if (dst <=? a) && (a <? dst + n) then host w (src + (a - dst)) else dev w a) /\ (forall a, host w' a = host w a);
  DtoH_law : forall t dst src n w, let '((code, _), w') := Sys t (CuMemcpyDtoH dst src n) w in
    code = 0 ->
    (forall a, host w' a = if (dst <=? a) && (a <? dst + n) then dev w (src + (a - dst)) else host w a) /\ (forall a, dev w' a = dev w a);
  upload2D_law : forall t m w, let '((code, _), w') := Sys t (CuMemcpy2D m) w in
    code = 0 -> m2_SrcMemoryType m = MemoryTypeHost -> m2_DstMemoryType m = MemoryTypeDevice ->
    m2_WidthInBytes m <= m2_SrcPitch m -> m2_WidthInBytes m <= m2_DstPitch m ->
    (forall y x, 0 <= y < m2_Height m -> 0 <= x < m2_WidthInBytes m ->
       dev w' (m2_DstDevice m + (m2_DstY m + y) * m2_DstPitch m + m2_DstXInBytes m + x) =
       host w (m2_SrcHost m + (m2_SrcY m + y) * m2_SrcPitch m + m2_SrcXInBytes m + x)) /\
    (forall a, host w' a = host w a);
  download2D_law : forall t m w, let '((code, _), w') := Sys t (CuMemcpy2D m) w in
    code = 0 -> m2_SrcMemoryType m = MemoryTypeDevice -> m2_DstMemoryType m = MemoryTypeHost ->
    m2_WidthInBytes m <= m2_SrcPitch m -> m2_WidthInBytes m <= m2_DstPitch m ->
    (forall y x, 0 <= y < m2_Height m -> 0 <= x < m2_WidthInBytes m ->
       host w' (m2_DstHost m + (m2_DstY m + y) * m2_DstPitch m + m2_DstXInBytes m + x) =
       dev w (m2_SrcDevice m + (m2_SrcY m + y) * m2_SrcPitch m + m2_SrcXInBytes m + x)) /\
    (forall a, dev w' a = dev w a)
}.

Section RoundTrip.
Context `{Foreign, !MemoryModel}.

Lemma check_done op code : check op code = None -> code = 0.
Proof. unfold check, CUDA_SUCCESS. destruct (Z.eqb_spec code 0); [done|discriminate]. Qed.

(** The normal case lasts: after a call nobody else is in the way of the next operation. *)
Lemma called_ready l c e g s s' E cl :
  called E cl s s' -> copy_ready c e s -> not_writing (l, OpMu) s -> alive g s ->
  copy_ready c e s' /\ not_writing (l, OpMu) s' /\ alive g s' /\ st_env s' = st_env s /\ st_world s' = (Sys (env_thread E) cl (st_world s)).2.
Proof.
  intros [p ->] [[e0 [R1 R2 R3 R4 R5]] R6 R7 R8] Hl Ha. split_and!; try done.
  split; [exists e0; now split|done|done|done].
Qed.

(** ** Device buffers *)

Section Linear.
Context {T : elem}.

(** C10.  What a buffer was given is what it gives back.  If [CopyFromAt] and then [CopyToAt], of any two windows of an open buffer of a ready context, both return nil, then every byte of the
    destination is the byte of the source that was written to its place in the buffer, or, outside the window written, the byte the buffer had before; and no other byte of host memory has
    changed.  In particular reading the window just written returns the source. *)
Theorem write_read_back (b : Buffer T) (c : Context) (d : Driver) (e : loc) (g g' : gctx) (off off' : Z) (src dst : slice) (s s1 s2 : state) :
  buffer_ok b -> slice_ok src -> slice_ok dst -> is_int off -> is_int off' -> bf_ctx b = Some c -> cx_driver c = Some d ->
  drv_bound d F_CuMemcpyHtoD = true -> drv_bound d F_CuMemcpyDtoH = true ->
  copy_ready c e s -> alive g s -> alive g' s -> lock_free b s -> open (bf_id b) (st_env s) ->
  0 <= off -> 0 < sl_len src -> off + sl_len src <= bf_length b -> 0 <= off' -> 0 < sl_len dst -> off' + sl_len dst <= bf_length b ->
  Buffer_CopyFromAt (Some b) g off src s = (Done None, s1) ->
  Buffer_CopyToAt (Some b) g' dst off' s1 = (Done None, s2) ->
  (forall i, 0 <= i < sl_len dst * sizeof T ->
     let place := off' * sizeof T + i in
     host (st_world s2) (sl_ptr dst + i) =
       if (off * sizeof T <=? place) && (place <? (off + sl_len src) * sizeof T)
       then host (st_world s) (sl_ptr src + (place - off * sizeof T)) else dev (st_world s) (bf_ptr b + place)) /\
  (forall a, ~ sl_ptr dst <= a < sl_ptr dst + sl_len dst * sizeof T -> host (st_world s2) a = host (st_world s) a) /\
  (off = off' -> sl_len src = sl_len dst -> forall i, 0 <= i < sl_len src * sizeof T ->
     host (st_world s2) (sl_ptr dst + i) = host (st_world s) (sl_ptr src + i)).
Proof.
  intros Hok Hsrc Hdst Hi Hi' Hc Hd Hb Hb' Hrd Ha Ha' Hl Ho Ho0 Hn0 Hfit Ho1 Hn1 Hfit' R1 R2.
  destruct (CopyFromAt_run b c d e g off src s) as (s1' & Q1 & C1); try done. rewrite Q1 in R1. injection R1 as K1 <-.
  pose proof (called_ready (bf_id b) c e g' s s1' _ _ C1 Hrd Hl Ha') as (Hrd1 & Hl1 & Ha1 & He1 & Hw1).
  destruct (CopyToAt_run b c d e g' dst off' s1') as (s2' & Q2 & C2); try done; [now rewrite He1|]. rewrite Q2 in R2. injection R2 as K2 <-.
  pose proof (called_ready (bf_id b) c e g' s1' s2' _ _ C2 Hrd1 Hl1 Ha1) as (_ & _ & _ & _ & Hw2).
  apply check_done in K1, K2. unfold call_code in K1, K2. rewrite He1 in K2, Hw2.
  set (E := job_env c e _) in *.
  pose proof (HtoD_law (env_thread E) (bf_ptr b + off * sizeof T) (sl_ptr src) (sl_len src * sizeof T) (st_world s)) as L1.
  destruct (Sys _ (CuMemcpyHtoD _ _ _) (st_world s)) as [[c1 u1] w1]. cbn in K1, Hw1. subst c1. destruct (L1 eq_refl) as [D1 P1].
  rewrite Hw1 in K2, Hw2.
  pose proof (DtoH_law (env_thread E) (sl_ptr dst) (bf_ptr b + off' * sizeof T) (sl_len dst * sizeof T) w1) as L2.
  destruct (Sys _ (CuMemcpyDtoH _ _ _) w1) as [[c2 u2] w2]. cbn in K2, Hw2. subst c2. destruct (L2 eq_refl) as [P2 _].
  rewrite Hw2. assert (Hread : forall i, 0 <= i < sl_len dst * sizeof T -> let place := off' * sizeof T + i in
    host w2 (sl_ptr dst + i) = if (off * sizeof T <=? place) && (place <? (off + sl_len src) * sizeof T)
      then host (st_world s) (sl_ptr src + (place - off * sizeof T)) else dev (st_world s) (bf_ptr b + place)).
  { intros i Hx place. rewrite P2. replace (sl_ptr dst <=? sl_ptr dst + i) with true by (symmetry; apply Z.leb_le; lia).
    replace (sl_ptr dst + i <? sl_ptr dst + sl_len dst * sizeof T) with true by (symmetry; apply Z.ltb_lt; lia). cbn [andb]. rewrite D1.
    replace (bf_ptr b + off' * sizeof T + (sl_ptr dst + i - sl_ptr dst)) with (bf_ptr b + place) by lia.
    replace (bf_ptr b + off * sizeof T <=? bf_ptr b + place) with (off * sizeof T <=? place) by (apply Bool.eq_true_iff_eq; rewrite !Z.leb_le; lia).
    replace (bf_ptr b + place <? bf_ptr b + off * sizeof T + sl_len src * sizeof T) with (place <? (off + sl_len src) * sizeof T)
      by (apply Bool.eq_true_iff_eq; rewrite !Z.ltb_lt; lia).
    replace (bf_ptr b + place - (bf_ptr b + off * sizeof T)) with (place - off * sizeof T) by lia. reflexivity. }
  split; [exact Hread|]. split.
  - intros a Hout. rewrite P2. destruct (_ && _) eqn:Hin; [|apply P1]. apply andb_true_iff in Hin as [? ?]. reflect_bools. lia.
  - intros <- Hlen i Hx. rewrite Hread by (rewrite <- Hlen; exact Hx).
    replace (off * sizeof T <=? off * sizeof T + i) with true by (symmetry; apply Z.leb_le; lia).
    replace (off * sizeof T + i <? (off + sl_len src) * sizeof T) with true by (symmetry; apply Z.ltb_lt; lia).
    cbn [andb]. f_equal. lia.
Qed.

End Linear.

(** ** Pitched buffers *)

Section Rows.
Context {T : elem}.

(** A two-dimensional copy under the lock of an open resource of a ready context is one call of the driver, on the copy executor's thread. *)
Lemma opened_memcpy2D c d e g l er desc s :
  open l (st_env s) -> not_writing (l, OpMu) s -> cx_driver c = Some d -> drv_bound d F_CuMemcpy2D = true -> copy_ready c e s -> alive g s ->
  let E := job_env c e (rlocked (l, OpMu) (st_env s)) in
  opened l er (memcpy2D (Some c) g desc) s = (Done (check "cuMemcpy2D_v2" (call_code E (CuMemcpy2D desc) s)), after_call E (CuMemcpy2D desc) s).
Proof.
  intros Ho Hl Hd Hb Hrd Ha E. set (s0 := set_env (rlocked (l, OpMu) (st_env s)) s).
  assert (Hrun : closure (memcpy2DOp_Run (cx_driver c) desc) (set_env (job_env c e (st_env s0)) s0) =
    (Done (tt, check "cuMemcpy2D_v2" (call_code E (CuMemcpy2D desc) s)), after_call E (CuMemcpy2D desc) (set_env E s))).
  { unfold closure. erewrite bind_done; [|rewrite Hd; now apply optional_call]. reflexivity. }
  pose proof (doCopyJob_ready c e g tt (mkJob (closure (memcpy2DOp_Run (cx_driver c) desc)) (ret tt)) s0 _ _ _
    (copy_ready_opened _ _ _ _ Hrd) ltac:(now destruct g) Hrun eq_refl eq_refl) as Hjob.
  rewrite (opened_open l er _ s (Done (check "cuMemcpy2D_v2" (call_code E (CuMemcpy2D desc) s))) (set_env (st_env s0) (after_call E (CuMemcpy2D desc) (set_env E s)))); try done.
  fold s0. unfold memcpy2D. rewrite (bind_done _ _ s0 c s0) by done. now rewrite (bind_done _ _ _ _ _ Hjob).
Qed.

(** A copy of packed rows that returned nil: the length was right and the driver made the copy. *)
Lemma rows_run (b : PitchedBuffer T) c d e g (desc : Z -> CUDA_MEMCPY2D) x s s' :
  pitched_ok b -> pb_ctx b = Some c -> cx_driver c = Some d -> drv_bound d F_CuMemcpy2D = true ->
  copy_ready c e s -> alive g s -> not_writing (pb_id b, OpMu) s -> open (pb_id b) (st_env s) ->
  opened (pb_id b) (Some ErrBufferClosed)
    match PitchedBuffer_elements b with
    | inr er => ret (Some er)
    | inl n => if negb (sl_len x =? n) then ret (Some ErrLengthMismatch) else let! p := first_elem x in memcpy2D (pb_ctx b) g (desc p)
    end s = (Done None, s') ->
  let E := job_env c e (rlocked (pb_id b, OpMu) (st_env s)) in
  let cl := CuMemcpy2D (desc (sl_ptr x)) in
  sl_len x = pb_width b * pb_height b /\ call_code E cl s = 0 /\ called E cl s s'.
Proof.
  intros Hok Hc Hd Hb Hrd Ha Hl Ho R E cl.
  destruct (pitched_elements b Hok) as [[En Hn]|[er En]]; rewrite En in R; [|rewrite opened_ret in R by assumption; discriminate R].
  destruct (Z.eqb_spec (sl_len x) (pb_width b * pb_height b)) as [Hs|Hs]; cbn [negb] in R; [|rewrite opened_ret in R by assumption; discriminate R].
  replace (first_elem x) with (ret (sl_ptr x)) in R by (unfold first_elem; destruct Hok as (Hw & _ & Hh & _); rewrite (proj2 (Z.ltb_lt _ _)); [done|nia]).
  change (bind (ret (sl_ptr x)) ?k) with (k (sl_ptr x)) in R. cbv beta in R. rewrite Hc in R.
  rewrite (opened_memcpy2D c d e g) in R by assumption. injection R as R <-.
  split; [exact Hs|]. split; [exact (check_done _ _ R)|]. exists (st_memOps s). now destruct s.
Qed.

(** C16.  Rows come back packed.  When [CopyFrom] of a packed slice into an open pitched buffer of a ready context and then [CopyTo] into a slice both return nil, the destination holds the
    source byte for byte, whatever the pitch: the padding the driver puts after each row is skipped on the way out as it was on the way in. *)
Theorem pitched_read_back (b : PitchedBuffer T) (c : Context) (d : Driver) (e : loc) (g g' : gctx) (src dst : slice) (s s1 s2 : state) :
  pitched_ok b -> pb_ctx b = Some c -> cx_driver c = Some d -> drv_bound d F_CuMemcpy2D = true ->
  copy_ready c e s -> alive g s -> alive g' s -> not_writing (pb_id b, OpMu) s -> open (pb_id b) (st_env s) ->
  PitchedBuffer_CopyFrom (Some b) g src s = (Done None, s1) ->
  PitchedBuffer_CopyTo (Some b) g' dst s1 = (Done None, s2) ->
  sl_len src = pb_width b * pb_height b /\ sl_len dst = sl_len src /\ forall i, 0 <= i < sl_len src * sizeof T -> host (st_world s2) (sl_ptr dst + i) = host (st_world s) (sl_ptr src + i).
Proof.
  intros Hok Hc Hd Hb Hrd Ha Ha' Hl Ho R1 R2.
  pose proof Hok as (Hw & _ & Hh & Hhi & [Hp Hp'] & _). destruct (width_bytes T _ _ Hw Hp Hp') as [Ewb Hwb]. set (wb := pb_width b * sizeof T) in *.
  assert (Eh : uint64 (pb_height b) = pb_height b) by (apply uint64_of_int; [lia|exact Hhi]).
  destruct (rows_run b c d e g (pitched_fromHost b) src s s1) as (Hs & K1 & C1); try assumption.
  pose proof (called_ready (pb_id b) c e g' s s1 _ _ C1 Hrd Hl Ha') as (Hrd1 & Hl1 & Ha1 & He1 & Hw1).
  destruct (rows_run b c d e g' (pitched_toHost b) dst s1 s2) as (Hs' & K2 & C2); try assumption; [now rewrite He1|].
  pose proof (called_ready (pb_id b) c e g' s1 s2 _ _ C2 Hrd1 Hl1 Ha1) as (_ & _ & _ & _ & Hw2).
  unfold call_code in K1, K2. rewrite He1 in K2, Hw2. set (E := job_env c e _) in *.
  pose proof (upload2D_law (env_thread E) (pitched_fromHost b (sl_ptr src)) (st_world s)) as L1.
  destruct (Sys _ (CuMemcpy2D _) (st_world s)) as [[c1 u1] w1]. cbn in K1, Hw1. subst c1.
  rewrite Hw1 in K2, Hw2. pose proof (download2D_law (env_thread E) (pitched_toHost b (sl_ptr dst)) w1) as L2.
  destruct (Sys _ (CuMemcpy2D _) w1) as [[c2 u2] w2]. cbn in K2, Hw2. subst c2.
  cbn in L1, L2. rewrite Ewb, Eh in L1, L2.
  destruct (L1 eq_refl eq_refl eq_refl) as [D1 _]; [lia..|]. destruct (L2 eq_refl eq_refl eq_refl) as [P2 _]; [lia..|].
  split; [exact Hs|]. split; [congruence|]. intros i Hi.
  assert (Hy : 0 <= i / wb < pb_height b) by (split; [apply Z.div_pos|apply Z.div_lt_upper_bound]; nia).
  assert (Hx : 0 <= i mod wb < wb) by (apply Z.mod_pos_bound; nia).
  pose proof (Z.div_mod i wb ltac:(nia)) as Hdm.
  specialize (D1 _ _ Hy Hx). specialize (P2 _ _ Hy Hx). rewrite Hw2.
  replace (sl_ptr dst + i) with (sl_ptr dst + (0 + i / wb) * wb + 0 + i mod wb) by lia. rewrite P2, D1. f_equal. lia.
Qed.

End Rows.
End RoundTrip.
