(* ===== verification/Session.v ===== *)
(** * A session: allocate, upload, download, free

    The operations of a buffer composed the way a client composes them, on a driver with memory that accepts every call. *)

From S2P Require Import Prelude CudaSys Errors Runtime CudaResult ExecutorApi Context Dispatch Resource Handles Buffer Ready BufferProps HostCb Streams Modules Regions Vmm Graphs Loader HandleProps Constructors RegionProps RoundTrip.

Section Session.
Context `{Foreign, !MemoryModel}.
Context {T : elem}.

(** [cuda.Alloc], [CopyFrom], [CopyTo] and [Close], with the errors of the last three. *)
Definition session (c : Context) (g : gctx) (src dst : slice) : M (option (Buffer T) * list err) :=
  let! r := Alloc (Some c) (sl_len src) in
  match r with
  | (Some b, None) =>
      let! e1 := Buffer_CopyFrom (Some b) g src in
      let! e2 := Buffer_CopyTo (Some b) g dst in
      let! e3 := Buffer_Close (Some b) in
      ret (Some b, [e1; e2; e3])
  | (_, e) => ret (None, [e])
  end.

(** States that differ in nothing an operation's readiness is about. *)
Record similar (s s' : state) : Prop := mkSimilar {
  si_env : st_env s' = st_env s;
  si_execs : st_execs s' = st_execs s;
  si_ctxs : st_ctxs s' = st_ctxs s;
  si_polls : st_polls s' = st_polls s
}.

Lemma similar_ready c e s s' : similar s s' -> ready c e s -> ready c e s'.
Proof. intros [E1 E2 E3 E4] [R1 R2 R3 R4 R5]. split; unfold idle, not_writing in *; rewrite ?E1, ?E2, ?E3; assumption. Qed.

Lemma similar_copy_ready c e s s' : similar s s' -> copy_ready c e s -> copy_ready c e s'.
Proof.
  intros Hs [[e0 R1] R2 R3 R4]. split; [exists e0; now apply (similar_ready c e0 s)|..];
    destruct Hs as [E1 E2 E3 E4]; unfold unlocked, idle, not_writing in *; rewrite ?E1, ?E2, ?E3; assumption.
Qed.

Lemma similar_alive g s s' : similar s s' -> alive g s -> alive g s'.
Proof. intros [E1 E2 E3 E4]. destruct g; cbn; [done..|]. now rewrite E4. Qed.

Lemma similar_trans s s' s'' : similar s s' -> similar s' s'' -> similar s s''.
Proof. intros [] []. split; congruence. Qed.

Lemma called_similar E cl s s' : called E cl s s' -> similar s s'.
Proof. intros [p ->]. now split. Qed.

(** Whole copies of an open buffer of a ready context: one call of the driver. *)
Lemma CopyFrom_run (b : Buffer T) c d e g src s :
  0 < sl_len src -> sl_len src = bf_length b -> bf_ctx b = Some c -> cx_driver c = Some d -> drv_bound d F_CuMemcpyHtoD = true ->
  copy_ready c e s -> alive g s -> lock_free b s -> open (bf_id b) (st_env s) ->
  let E := job_env c e (rlocked (bf_id b, OpMu) (st_env s)) in
  let cl := CuMemcpyHtoD (bf_ptr b) (sl_ptr src) (bf_bytes b) in
  exists s', Buffer_CopyFrom (Some b) g src s = (Done (check "cuMemcpyHtoD_v2" (call_code E cl s)), s') /\ called E cl s s'.
Proof.
  intros Hpos Hlen Hc Hd Hb Hrd Ha Hl Ho E cl. unfold Buffer_CopyFrom. rewrite Hlen, Z.eqb_refl.
  replace (bf_length b =? 0) with false by (symmetry; apply Z.eqb_neq; lia). cbn [negb orb].
  replace (first_elem src) with (ret (sl_ptr src)) by (unfold first_elem; now rewrite (proj2 (Z.ltb_lt _ _) Hpos)). rewrite Hc.
  now apply (opened_call c d e g (bf_id b) (Some ErrBufferClosed)
    (fun o => mkMemOp (mo_driver o) (bf_ptr b) (mo_src o) (sl_ptr src) (bf_bytes b) (mo_val o) (mo_stream o) opHtoD) opHtoD cl s).
Qed.

Lemma CopyTo_run (b : Buffer T) c d e g dst s :
  0 < sl_len dst -> sl_len dst = bf_length b -> bf_ctx b = Some c -> cx_driver c = Some d -> drv_bound d F_CuMemcpyDtoH = true ->
  copy_ready c e s -> alive g s -> lock_free b s -> open (bf_id b) (st_env s) ->
  let E := job_env c e (rlocked (bf_id b, OpMu) (st_env s)) in
  let cl := CuMemcpyDtoH (sl_ptr dst) (bf_ptr b) (bf_bytes b) in
  exists s', Buffer_CopyTo (Some b) g dst s = (Done (check "cuMemcpyDtoH_v2" (call_code E cl s)), s') /\ called E cl s s'.
Proof.
  intros Hpos Hlen Hc Hd Hb Hrd Ha Hl Ho E cl. unfold Buffer_CopyTo. rewrite Hlen, Z.eqb_refl.
  replace (bf_length b =? 0) with false by (symmetry; apply Z.eqb_neq; lia). cbn [negb orb].
  replace (first_elem dst) with (ret (sl_ptr dst)) by (unfold first_elem; now rewrite (proj2 (Z.ltb_lt _ _) Hpos)). rewrite Hc.
  now apply (opened_call c d e g (bf_id b) (Some ErrBufferClosed)
    (fun o => mkMemOp (mo_driver o) (mo_dst o) (bf_ptr b) (sl_ptr dst) (bf_bytes b) (mo_val o) (mo_stream o) opDtoH) opDtoH cl s).
Qed.

(** The session's context, driver and process: the entry points are bound and accept every call; the context is ready, with a copy executor and nothing in flight;
    the next identity is of no object yet. *)
Record quiet (c : Context) (d : Driver) (e ec : loc) (s : state) : Prop := mkQuiet {
  qu_driver : cx_driver c = Some d;
  qu_bound : forallb (drv_bound d) [F_CuMemAlloc; F_CuMemcpyHtoD; F_CuMemcpyDtoH; F_CuMemFree] = true;
  qu_ready : ready c e s;
  qu_copy : copy_ready c ec s;
  qu_idle : cs_syncActive (default zero_ctx (st_ctxs s !! cx_id c)) = 0;
  qu_next : (cx_id c < st_next s)%positive;
  qu_fresh : st_next s ∉ env_closed (st_env s);
  qu_free : unlocked (st_next s, OpMu) s
}.

Definition accepting : Prop := forall t c w, (Sys t c w).1.1 = CUDA_SUCCESS.

Lemma accepted name E cl s : accepting -> check name (call_code E cl s) = None.
Proof. intros Ha. unfold call_code. now rewrite Ha. Qed.

Lemma called_world E cl s s' : called E cl s s' -> st_world s' = (Sys (env_thread E) cl (st_world s)).2 /\ st_trace s' = (E, cl) :: st_trace s.
Proof. intros [p ->]. now split. Qed.

(** Bytes that are put somewhere and fetched from there. *)
Lemma copied_through t1 t2 t3 t4 p a b n w0 : accepting ->
  let w1 := (Sys t1 (CuMemAlloc n) w0).2 in
  let w2 := (Sys t2 (CuMemcpyHtoD p a n) w1).2 in
  let w3 := (Sys t3 (CuMemcpyDtoH b p n) w2).2 in
  forall i, 0 <= i < n -> host (Sys t4 (CuMemFree p) w3).2 (b + i) = host w0 (a + i).
Proof.
  intros Hacc w1 w2 w3 i Hi. rewrite free_law. subst w3 w2.
  pose proof (HtoD_law t2 p a n w1) as L2. pose proof (Hacc t2 (CuMemcpyHtoD p a n) w1) as A2.
  destruct (Sys t2 _ w1) as [[c2 u2] w2]. cbn [fst snd] in *. destruct (L2 A2) as [D2 P2].
  pose proof (DtoH_law t3 b p n w2) as L3. pose proof (Hacc t3 (CuMemcpyDtoH b p n) w2) as A3.
  destruct (Sys t3 _ w2) as [[c3 u3] w3]. cbn [fst snd] in *. destruct (L3 A3) as [D3 _].
  assert (Hin : forall x, (x <=? x + i) && (x + i <? x + n) = true) by (intros x; apply andb_true_iff; rewrite Z.leb_le, Z.ltb_lt; lia).
  rewrite D3, Hin. replace (p + (b + i - b)) with (p + i) by lia. rewrite D2, Hin. replace (a + (p + i - p)) with (a + i) by lia. apply alloc_law.
Qed.

(** C12.  A whole session.  On a quiet context and a driver with memory that accepts every call: allocating a buffer as long as a host slice, copying the slice into it, copying it out into a slice of the
    same length and closing the buffer returns nil four times; the destination then holds the source, byte for byte; the driver was asked exactly for the allocation, the two
    copies and the release, in this order and of the same memory; and what others see is as before, with the buffer closed. *)
Theorem session_copies (c : Context) (d : Driver) (e ec : loc) (g : gctx) (src dst : slice) (s : state) :
  accepting -> quiet c d e ec s -> alive g s -> slice_ok src -> 0 < sl_len src -> sl_len src * sizeof T < 2 ^ 64 -> sl_len dst = sl_len src ->
  exists b s', session c g src dst s = (Done (Some b, [None; None; None]), s') /\
    (forall i, 0 <= i < sl_len src * sizeof T -> host (st_world s') (sl_ptr dst + i) = host (st_world s) (sl_ptr src + i)) /\
    map snd (st_trace s') = [CuMemFree (bf_ptr b); CuMemcpyDtoH (sl_ptr dst) (bf_ptr b) (sl_len src * sizeof T);
                             CuMemcpyHtoD (bf_ptr b) (sl_ptr src) (sl_len src * sizeof T); CuMemAlloc (sl_len src * sizeof T)] ++ map snd (st_trace s) /\
    st_env s' = with_closed (bf_id b) (st_env s).
Proof.
  intros Hacc [Hd Hb Hrd Hcr Hidle Hnext Hfresh Hfree] Hal [Hs0 Hsi] Hpos Hfit Hlen.
  cbn [forallb] in Hb. rewrite !andb_true_iff in Hb. destruct Hb as (B1 & B2 & B3 & B4 & _).
  unfold session. set (n := sl_len src) in *.
  pose proof (Alloc_run c d e n s Hsi Hd B1 Hrd Hpos Hfit) as R1. cbv zeta in R1. rewrite accepted in R1 by exact Hacc.
  set (E1 := job_env c e (st_env s)) in *. set (cl1 := CuMemAlloc (n * sizeof T)) in *.
  set (b := mkBuffer _ _ _ _ _) in R1. set (s1 := set_next _ _) in R1. rewrite (bind_done _ _ _ _ _ R1).
  assert (S1 : similar s s1) by now split.
  assert (Hl1 : lock_free b s1) by apply Hfree. assert (Ho1 : open (bf_id b) (st_env s1)) by exact Hfresh.
  destruct (CopyFrom_run b c d ec g src s1) as (s2 & R2 & C2);
    [done..|now apply (similar_copy_ready c ec s)|now apply (similar_alive g s)|done|done|].
  rewrite accepted in R2 by exact Hacc. rewrite (bind_done _ _ _ _ _ R2).
  pose proof (similar_trans _ _ _ S1 (called_similar _ _ _ _ C2)) as S2.
  destruct (CopyTo_run b c d ec g dst s2) as (s3 & R3 & C3);
    [lia|done..|now apply (similar_copy_ready c ec s)|now apply (similar_alive g s)|unfold lock_free, not_writing; rewrite (si_env _ _ S2); apply Hfree|unfold open; rewrite (si_env _ _ S2); exact Hfresh|].
  rewrite accepted in R3 by exact Hacc. rewrite (bind_done _ _ _ _ _ R3).
  pose proof (similar_trans _ _ _ S2 (called_similar _ _ _ _ C3)) as S3. pose proof (si_env _ _ S3) as E3.
  pose proof (close_resource_ready c e (bf_id b) (cudaresult.MemFree (Some d) (bf_ptr b)) "cuMemFree_v2" (CuMemFree (bf_ptr b)) s3
    (fun s' => required_call d F_CuMemFree _ (CuMemFree (bf_ptr b)) s' eq_refl B4) (similar_ready _ _ _ _ S3 Hrd)) as R4.
  rewrite (si_ctxs _ _ S3), E3 in R4. cbv zeta in R4. rewrite accepted in R4 by exact Hacc.
  unfold Buffer_Close. cbn [bf_ctx b ctx_driver]. rewrite Hd. fold b. erewrite bind_done by (apply R4; try done;
    [unfold unlocked, not_writing; rewrite E3; exact Hfree|cbn; intros Heq; rewrite Heq in Hnext; lia]).
  exists b. eexists. split; [reflexivity|].
  destruct (called_world _ _ _ _ C2) as [W2 T2], (called_world _ _ _ _ C3) as [W3 T3].
  split; [|split].
  - intros i Hi. cbn [st_world set_env after_call set_world]. rewrite W3, W2. now apply copied_through.
  - cbn [st_trace set_env after_call set_world set_trace map app snd]. rewrite T3. cbn [map snd]. rewrite T2. reflexivity.
  - reflexivity.
Qed.

End Session.
