(* ===== verification/Witnesses.v ===== *)
(** * Witnesses

    A concrete driver that accepts every call, and the theorems of the development applied on it and on
    concrete runs of the state machines, where their hypotheses hold. *)

From S2P Require Import Prelude CudaSys Errors Runtime CudaResult Wrappers ExecutorApi Context Dispatch Resource Handles Buffer Ready BufferProps ContextProps Completion Executor ArgPack HostCb Lanes LockOrder Loader.

(** ** A driver *)

(** Every call succeeds; allocations are at 4096, there are two devices, the world counts the calls. *)
Definition demo_out (c : call) : out c :=
  match c with
  | CuMemAlloc _ => 4096
  | CuDeviceGetCount => 2
  | CuDeviceGet n => n
  | CuDevicePrimaryCtxRetain _ => 77
  | CuMemGetAllocationGranularity _ _ => 4096
  | c => out_zero c
  end.

#[local] Instance demo : Foreign := {| World := Z; Sys _ c w := ((0, demo_out c), w + 1) |}.

(** The library opens at the second candidate; every symbol is found. *)
#[local] Instance demo_linker : Loader.Linker := {|
  Loader.sys_open path w := if String.eqb path "libcuda.so.1" then (inr (ErrNew "not found"), w) else (inl 5, w);
  Loader.sys_lookup _ _ w := ((4660, None), w);
  Loader.sys_close _ w := (None, w);
  Loader.sys_register _ _ w := (None, w)
|}.

Definition full_driver : Driver := mkDriver (Some 5) (fun _ => true).

(** A process in which [Init] has succeeded and nothing else has happened. *)
Definition state0 : state := mkState 0 (mkEnv ∅ ∅ None ∅) 2 ∅ ∅ ∅ ∅ [] (Some full_driver) [].

Definition device0 : Device := mkDevice 0 0.
Definition context0 : Context := mkContext 3 (Some device0) (Some full_driver) 77.
Definition state1 : state := (Device_Primary (Some device0) state0).2.
Definition buffer0 : Buffer Float32 := mkBuffer 4 (Some context0) 4096 16 64.
Definition state2 : state := (Alloc (T := Float32) (Some context0) 16 state1).2.
Definition state3 : state := (copyExecutor context0 state2).2.

Example primary_gives_context0 : (Device_Primary (Some device0) state0).1 = Done (Some context0, None).
Proof. vm_compute. reflexivity. Qed.

Example alloc_gives_buffer0 : (Alloc (T := Float32) (Some context0) 16 state1).1 = Done (Some buffer0, None).
Proof. vm_compute. reflexivity. Qed.

Example copy_executor_is_5 : (copyExecutor context0 state2).1 = Done (Some 5%positive, None).
Proof. vm_compute. reflexivity. Qed.

Ltac decided := apply (bool_decide_unpack _); vm_compute; exact I.

(** Comparisons of numerals. *)
Ltac closed_arith := vm_compute; repeat split; first [reflexivity | discriminate].

Ltac evaluated :=
  lazymatch goal with
  | |- _ /\ _ => split; evaluated
  | |- not_writing _ _ => unfold not_writing; decided
  | |- open _ _ => unfold open; decided
  | |- unlocked _ _ => unfold unlocked; split; [decided|vm_compute; reflexivity]
  | |- lock_free _ _ => unfold lock_free, not_writing; decided
  | |- buffer_ok _ => closed_arith
  | |- slice_ok _ => closed_arith
  | |- is_int _ => closed_arith
  | |- alive _ _ => exact I
  | |- idle _ _ => unfold idle, not_writing; split_and!; [vm_compute; reflexivity..|decided]
  | |- ready _ _ _ => split; evaluated
  | |- _ ∉ _ => decided
  | |- _ => vm_compute; reflexivity
  end.


Lemma CopyFromAt_spec_witness :
  Buffer_CopyFromAt (Some buffer0) Background 15 (mkSlice 9000 2) state3 = (Done (Some ErrOutOfRange), state3) /\
  exists s', Buffer_CopyFromAt (Some buffer0) Background 2 (mkSlice 9000 3) state3 = (Done None, s').
Proof.
  split.
  - apply (CopyFromAt_spec buffer0 context0 full_driver 5%positive Background 15 (mkSlice 9000 2) state3); cbn [sl_len];
      try lia; try evaluated.
    + split; [exists 2%positive; split; evaluated|vm_compute; reflexivity|evaluated|evaluated].
    + cbn. lia.
  - destruct (CopyFromAt_spec buffer0 context0 full_driver 5%positive Background 2 (mkSlice 9000 3) state3)
      as (_ & _ & _ & Hok); [evaluated..| |evaluated|evaluated|].
    + split; [exists 2%positive; split; evaluated|vm_compute; reflexivity|evaluated|evaluated].
    + destruct Hok as (s' & Hs' & _); [evaluated|cbn; lia|cbn; lia|cbn; lia|]. exists s'. exact Hs'.
Defined.

Lemma Alloc_spec_witness :
  exists s', Alloc (T := Float32) (Some context0) 16 state1 =
    (Done (Some (mkBuffer 4 (Some context0) 4096 16 64), None), s') /\ open 4%positive (st_env s').
Proof.
  destruct (Alloc_spec (T := Float32) context0 full_driver 2%positive 16 state1) as [_ Hok];
    [evaluated..|split; evaluated| |].
  - intros l Hl. exfalso. revert Hl. apply not_elem_of_empty.
  - destruct (Hok eq_refl eq_refl) as (s' & _ & Hs'). exists s'. split; [exact (proj1 Hs')|exact (proj1 (proj2 Hs'))].
Defined.

Lemma View_nested_witness :
  View_View (Some (mkView (Some buffer0) 4 8)) 2 3 state3 = (Done (Some (mkView (Some buffer0) 6 3), None), state3).
Proof.
  destruct (View_nested buffer0 4 8 2 3 state3) as (_ & _ & Hin & _); [evaluated..|cbn; lia|cbn; lia|cbn; lia|].
  exact (proj1 (Hin ltac:(lia) ltac:(lia) ltac:(lia))).
Defined.

Lemma Buffer_Close_final_witness :
  let s1 := (Buffer_Close (Some buffer0) state3).2 in Buffer_Close (Some buffer0) s1 = (Done None, s1).
Proof.
  intros s1. exact (proj1 (proj2 (Buffer_Close_final buffer0 state3 s1 ltac:(vm_compute; reflexivity)))).
Defined.

Lemma Buffer_Close_spec_witness :
  exists s', Buffer_Close (Some buffer0) state3 = (Done None, s') /\ ~ open 4%positive (st_env s').
Proof.
  eexists. split.
  - rewrite (Buffer_Close_spec buffer0 context0 full_driver 2%positive state3); [vm_compute; reflexivity|..]; try evaluated.
    discriminate.
  - intros Ho. apply Ho. decided.
Defined.

(** ** State machines *)

Lemma completion_safe_witness : (Completion.pooled _ (Completion.start nat 7%nat true) <= 1)%nat.
Proof.
  apply (Completion.completion_safe nat 7%nat (Completion.start nat 7%nat true)).
  eexists. split; [left; reflexivity|apply rtc_refl].
Defined.

Lemma completion_terminates_witness :
  let s := Completion.start nat 7%nat true in
  let s' := Completion.set_wk nat (Completion.WSwap nat) (Completion.set_result nat (Some 7%nat) s) in
  (Completion.measure nat s' < Completion.measure nat s)%nat.
Proof.
  intros s s'. apply (Completion.completion_terminates nat 7%nat s).
  - eexists. split; [left; reflexivity|apply rtc_refl].
  - left. reflexivity.
Defined.

(** An executor one goroutine has submitted job 7 to, and another is about to close. *)
Definition submitted : Protocol.st nat :=
  Protocol.mkSt nat [Protocol.mkSub nat 7%nat false (Protocol.SUnlock true)] Protocol.KStart (Protocol.WPoll nat 0) [7%nat]
    false false false false Protocol.TLocked [7%nat] [].

Lemma submitted_reachable : reachable (Protocol.executor nat [(7%nat, false)] true) submitted.
Proof.
  eexists. split; [reflexivity|].
  eapply rtc_l; [apply Protocol.step_sub, (Protocol.sub_rlock nat _ 0); reflexivity|].
  eapply rtc_l; [apply Protocol.step_sub, (Protocol.sub_open nat _ 0); reflexivity|].
  eapply rtc_l; [apply Protocol.step_sub, (Protocol.sub_send nat _ 0); reflexivity|].
  apply rtc_refl.
Qed.

Lemma executor_fifo_witness : Protocol.accepted nat submitted = [] ++ [] ++ [7%nat].
Proof.
  exact (proj1 (Protocol.executor_fifo nat [(7%nat, false)] true submitted submitted_reachable)).
Defined.

Lemma executor_terminates_witness :
  (Protocol.measure nat (Protocol.retired nat submitted) < Protocol.measure nat submitted)%nat.
Proof.
  apply (Protocol.executor_terminates nat [(7%nat, false)] true submitted submitted_reachable).
  now apply Protocol.step_retire.
Defined.

Lemma retired_thread_quarantined_witness :
  Protocol.os_thread nat (Protocol.retired nat submitted) <> Protocol.TUnlocked.
Proof.
  apply (Protocol.retired_thread_quarantined nat [(7%nat, false)] true (Protocol.retired nat submitted)).
  - eapply reachable_step; [exact submitted_reachable|]. now apply Protocol.step_retire.
  - reflexivity.
  - discriminate.
  - apply rtc_refl.
Defined.

(** ** Kernel arguments *)

Lemma add_appends_witness :
  argpack.args (argpack.add argpack.zeroBuilder [1; 2; 3; 4] (Some 1%nat)) = [([1; 2; 3; 4], Some 1%nat)].
Proof.
  destruct (argpack.add_appends argpack.zeroBuilder [1; 2; 3; 4] (Some 1%nat) argpack.wf_zero) as [_ Ha]; [|exact Ha].
  unfold argpack.fits. vm_compute. repeat split; reflexivity || discriminate.
Defined.

(** One inline argument, and one of nine bytes in the arena. *)
Definition packed : argpack.Builder :=
  argpack.add (argpack.add argpack.zeroBuilder [1; 2; 3; 4] (Some 1%nat)) [1; 2; 3; 4; 5; 6; 7; 8; 9] (Some 2%nat).

Lemma packed_wf : argpack.wf packed.
Proof.
  assert (Hf : forall b n, argpack.spill_len b = 0 -> 0 < n < 100 -> argpack.fits b n).
  { intros b n Hb Hn. unfold argpack.fits. rewrite Hb. change (argpack.alignUp 0) with 0. lia. }
  assert (H1 : argpack.wf (argpack.add argpack.zeroBuilder [1; 2; 3; 4] (Some 1%nat))).
  { apply argpack.add_step; [exact argpack.wf_zero|]. apply Hf; [reflexivity|cbn; lia]. }
  apply argpack.add_step; [exact H1|]. apply Hf; [reflexivity|cbn; lia].
Qed.

Lemma set_updates_witness :
  argpack.Set_ packed 2 1 [9; 9; 9; 9] = (packed, Some ErrIndexOutOfRange) /\
  exists b', argpack.Set_ packed 0 1 [9; 9; 9; 9] = (b', None).
Proof.
  assert (Ht : argpack.typed (fun t => if (t =? 1)%nat then 4 else 9) packed).
  { intros i t Hi. change (argpack.count packed) with 2%nat in Hi. destruct i as [|[|i]]; [..|lia]; intros [= <-]; reflexivity. }
  split.
  - apply (argpack.set_updates _ packed 2 1 [9; 9; 9; 9] packed_wf Ht). change (argpack.count packed) with 2%nat. lia.
  - destruct (argpack.set_updates _ packed 0 1 [9; 9; 9; 9] packed_wf Ht) as [_ Hok].
    destruct (Hok ltac:(change (argpack.count packed) with 2%nat; lia)) as (_ & H2 & _). destruct (H2 eq_refl eq_refl) as (b' & Hb' & _). now exists b'.
Defined.

Lemma params_current_witness : argpack.wf (argpack.Params packed).1.
Proof.
  pose proof (argpack.params_current packed packed_wf) as Hp. destruct (argpack.Params packed) as [b' r]. exact (proj1 Hp).
Defined.

Lemma reset_reuse_witness :
  argpack.args (argpack.pack (argpack.Reset packed) [([5], None); ([6; 7], Some 3%nat)]) = [([5], None); ([6; 7], Some 3%nat)].
Proof.
  apply (argpack.reset_reuse packed [([5], None); ([6; 7], Some 3%nat)] packed_wf).
  - repeat constructor; cbn; lia.
  - cbn. lia.
Defined.

(** ** Host callbacks *)

Lemma callback_at_most_once_witness :
  NoDup (hostcb.ran nat (hostcb.mkSys nat (hostcb.init nat) [] [] [] [])).*1.
Proof.
  apply (hostcb.callback_at_most_once nat (hostcb.mkSys nat (hostcb.init nat) [] [] [] [])).
  - eexists. split; [reflexivity|apply rtc_refl].
  - reflexivity.
Defined.

(** ** Locks *)


Lemma CopyToDevice_deadlocks_witness :
  exists s, length s = 4%nat /\ ~ exists s', LockOrder.step s s'.
Proof.
  destruct (LockOrder.CopyToDevice_deadlocks 1 2 9 8 ltac:(discriminate)) as (s & _ & Hl & _ & Hs). now exists s.
Defined.

(** ** Loading *)

(** A process before [Init]. *)
Definition state_start : state := mkState 0 (mkEnv ∅ ∅ None ∅) 2 ∅ ∅ ∅ ∅ [] None [].


Lemma GetDevice_spec_witness : 0 <= 1 < 2.
Proof.
  pose proof (Loader.GetDevice_spec 1 state0 (Some (mkDevice 1 1)) None (Loader.GetDevice 1 state0).2 ltac:(vm_compute; reflexivity)) as Hg.
  destruct Hg as (_ & _ & w & code & n & [= <- <- <-] & _ & Hr & _). exact Hr.
Defined.

(** ** Wrappers *)

Lemma required_wrappers_call_witness :
  exists a c w, cudaresult.CtxSynchronize (Some full_driver) state0 =
    (Done a, set_world w (set_trace ((st_env state0, c) :: st_trace state0) state0)).
Proof.
  pose proof (required_wrappers_call full_driver (fun _ _ => eq_refl)) as Hr.
  do 11 destruct Hr as [_ Hr]. exact (proj1 Hr state0).
Defined.

(** ** Contexts *)

Definition state_closed : state := (Context_Close (Some context0) state1).2.

Lemma closed_context_witness :
  Context_Synchronize (Some context0) Background state_closed = (Done (Some ErrContextClosed), state_closed) /\
  Context_Close (Some context0) state_closed = (Done None, state_closed).
Proof.
  destruct (closed_context context0 state_closed ltac:(decided) ltac:(vm_compute; discriminate) ltac:(evaluated))
    as (_ & _ & _ & Hs & _ & _ & _ & Hc).
  split; [apply Hs|apply Hc; [evaluated|discriminate]].
Defined.

Lemma context0_quiet : quiet context0 2 state1.
Proof. split; evaluated. Qed.

Lemma Context_Close_spec_witness :
  exists er s', Context_Close (Some context0) state1 = (Done er, s') /\ er = None /\
    st_env s' = with_closed 3 (st_env state1).
Proof.
  destruct (Context_Close_spec context0 device0 full_driver 2 state1 context0_quiet eq_refl eq_refl eq_refl eq_refl)
    as (er & s' & Hc & _ & Hok & _).
  destruct (Hok ltac:(vm_compute; reflexivity)) as (He & Her & _). exists er, s'.
  split; [exact Hc|]. split; [apply Her; vm_compute; reflexivity|exact He].
Defined.

Lemma state0_fresh : fresh_ids state0.
Proof. split; cbn; [set_solver|set_solver|]. intros l f [x Hx]. now rewrite lookup_empty in Hx. Qed.

Lemma Device_Primary_spec_witness :
  exists r er s', Device_Primary (Some device0) state0 = (Done (r, er), s') /\ er = None.
Proof.
  destruct (Device_Primary_spec device0 full_driver state0 eq_refl ltac:(evaluated) state0_fresh eq_refl eq_refl eq_refl)
    as (r & er & s' & Hp & Her & _).
  exists r, er, s'. split; [exact Hp|]. rewrite Her. vm_compute. reflexivity.
Defined.

(** ** Wait lanes *)

Definition two_waits : Lanes.st :=
  Lanes.set_wait 1 Lanes.WNeedLane (Lanes.set_wait 0 Lanes.WNeedLane (Lanes.start 2)).

Lemma lanes_consistent_witness : Lanes.syncActive two_waits = Z.of_nat (sum_list_with Lanes.counted (Lanes.waits two_waits)).
Proof.
  apply (Lanes.lanes_consistent 2 two_waits). eexists. split; [reflexivity|].
  eapply rtc_l; [exists 0%nat; apply Lanes.reuse_none; reflexivity|].
  eapply rtc_l; [exists 1%nat; apply Lanes.reuse_none; reflexivity|]. apply rtc_refl.
Defined.

Lemma reuseWaitLane_spec_witness : exists r s', reuseWaitLane 3 state1 = (Done r, s') /\ r = None.
Proof.
  destruct (Lanes.reuseWaitLane_spec 3 state1 ltac:(evaluated)) as (r & s' & Hr & Hs).
  exists r, s'. split; [exact Hr|]. destruct r as [l|]; [|reflexivity]. exfalso. exact (not_elem_of_nil l (proj1 Hs)).
Defined.
