(* ===== verification/HandleWitnesses.v ===== *)
(** * Witnesses of the properties of handles, launches and virtual memory

    The driver, the device, the context and the states are those of Witnesses.v. *)

From S2P Require Import Prelude CudaSys Errors Runtime CudaResult ExecutorApi Context Dispatch Resource Handles Buffer Ready ArgPack HostCb Streams Modules Regions Vmm Graphs Launch LaunchProps HandleProps PackProps PackUpdates VmmProps StreamProps Witnesses.

#[local] Existing Instance demo.

(** A stream, a module and a kernel of [context0]. *)
Definition stream0 : Stream := mkStream 20 (Some context0) 7.
Definition module0 : Module_ := mkModule 21 (Some context0) 11.
Definition kernel0 : Function_ := mkFunction (Some module0) 12 [107].
Definition exec0 : GraphExec := mkGraphExec 22 (Some context0) 13.

Lemma LaunchConfig1D_covers_witness : valid (LaunchConfig1D 1000 256) = true /\ 3 * 256 < 1000 <= 4 * 256.
Proof.
  destruct (LaunchConfig1D_covers 1000 256 ltac:(closed_arith) ltac:(closed_arith)) as (_ & _ & Hv).
  split; [vm_compute; reflexivity|]. exact (proj2 (proj2 (Hv ltac:(vm_compute; reflexivity)))).
Defined.

Definition args0 : list (option KernelArg) := [Some (Arg Float32 (Some buffer0)); Some (ArgValue Int32 3 [16; 0; 0; 0]); Some (Arg Float32 (Some buffer0))].


Definition packed0 : PackedArgs := match (Pack args0 state3).1 with Done (Some p, _) => p | _ => argpack.zeroBuilder end.

Lemma args0_ok : args_ok args0.
Proof. split; [repeat constructor; reflexivity|cbn; lia]. Qed.

Lemma packed0_packs : packs packed0 args0.
Proof.
  pose proof (Pack_packs args0 state3 args0_ok) as Hpack. assert (Hr : (Pack args0 state3).1 = Done (Some packed0, None)) by (vm_compute; reflexivity).
  destruct (Pack args0 state3) as [o s']. cbn in Hr. subst o. apply Hpack.
Qed.

Lemma pack_then_launch_witness :
  packs packed0 args0 /\
  tidy (packed_use [20%positive] module0 12 (LaunchConfig1D 16 8) 7 (params_of args0)) (st_env state3)
    (LaunchPackedOn (Some kernel0) Background (Some stream0) (LaunchConfig1D 16 8) (Some packed0)).
Proof.
  destruct (pack_then_launch args0 args0_ok) as [_ Hlaunch].
  pose proof packed0_packs as Hp.
  split; [exact Hp|]. apply (Hlaunch packed0 kernel0 module0 Background stream0 (LaunchConfig1D 16 8) (st_env state3) Hp eq_refl).
Defined.

(** The updates that succeed, and one of each that does not. *)
Definition size0 (t : nat) : Z := if decide (t = 3%nat) then 4 else 8.
Definition updates0 : list (Z * update) :=
  [(0, UDevicePtr 4096); (1, USet 3 [32; 0; 0; 0]); (1, USet 5 [1; 0; 0; 0; 0; 0; 0; 0]); (3, UDevicePtr 0); (2, UBuffer Float32 (Some buffer0));
   (2, URaw (Some [1; 2; 3; 4; 5; 6; 7; 8]) 8); (1, URaw (Some [1; 2]) 2)].
Definition updated0 : PackedArgs := match (apply_updates (Some packed0) updates0 state3).1 with Done (Some p, _) => p | _ => argpack.zeroBuilder end.

Lemma packed_updates_refine_witness :
  packs packed0 args0 /\
  stands size0 updated0 [(handle_bytes 4096, Some 0%nat); ([32; 0; 0; 0], Some 3%nat); ([1; 2; 3; 4; 5; 6; 7; 8], Some 0%nat)].
Proof.
  pose proof packed0_packs as Hp. split; [exact Hp|].
  pose proof (packed_updates_refine size0 eq_refl args0 updates0 packed0 state3 Hp) as Hu.
  specialize (Hu ltac:(repeat constructor; intros t [= <-]; reflexivity) ltac:(repeat constructor; cbn; unfold maxRawArgBytes; lia)).
  assert (Hr : (apply_updates (Some packed0) updates0 state3).1 =
    Done (Some updated0, [None; None; Some ErrTypeMismatch; Some ErrIndexOutOfRange; None; None; Some ErrSizeMismatch])) by (vm_compute; reflexivity).
  destruct (apply_updates (Some packed0) updates0 state3) as [o s']. cbn in Hr. subst o. destruct Hu as (_ & _ & Hst & _). exact Hst.
Defined.


Lemma Close_spec_witness :
  exists s', Stream_Close (Some stream0) state3 = (Done None, s') /\ ~ open 20%positive (st_env s').
Proof.
  destruct (Close_spec 20%positive (Some context0) (CuStreamDestroy 7) "cuStreamDestroy_v2" (Stream_Close (Some stream0)) state3 (close_Stream stream0))
    as (_ & _ & Hc).
  destruct (Hc context0 eq_refl) as [_ Hok]; [evaluated..|discriminate|].
  eexists. split; [rewrite (Hok full_driver 2%positive); [vm_compute; reflexivity|..]; evaluated|].
  intros Ho. apply Ho. decided.
Defined.

(** ** Virtual memory *)

Lemma full_vmm : vmm_bound full_driver.
Proof. unfold vmm_bound, vmm_fields. repeat constructor. Qed.

Lemma AllocVirtual_transaction_witness :
  exists b s', AllocVirtual Float32 (Some context0) 16 state1 = (Done (Some b, None), s') /\ vb_bytes b = 64 /\ vb_mapped b = true.
Proof.
  destruct (AllocVirtual_transaction Float32 context0 full_driver device0 2 16 state1) as (ob & er & s1 & s' & l & Ha & _ & _ & _ & _ & Hob);
    [evaluated..|exact full_vmm|split; evaluated|lia|cbn; lia|evaluated| |].
  { intros l Hl. exfalso. revert Hl. apply not_elem_of_empty. }
  assert (Hs : (AllocVirtual Float32 (Some context0) 16 state1).1 = Done (Some (mkVirtualBuffer 4 (Some context0) 0 0 4096 16 64 true true true), None))
    by (vm_compute; reflexivity).
  rewrite Ha in Hs. cbn in Hs. injection Hs as -> ->. destruct Hob as (_ & _ & Hm & Hb & _).
  eexists _, s'. split; [exact Ha|]. split; [exact Hb|reflexivity].
Defined.

Definition virtual0 : VirtualBuffer Float32 := mkVirtualBuffer 30 (Some context0) 8192 5 4096 16 64 true true true.

Lemma VirtualBuffer_Close_retry_witness :
  exists b' s', VirtualBuffer_Close (Some virtual0) state1 = (Done (None, Some b'), s') /\ ~ open 30%positive (st_env s').
Proof.
  destruct (VirtualBuffer_Close_retry virtual0 context0 full_driver 2 state1 eq_refl eq_refl full_vmm ltac:(done) ltac:(evaluated)) as [_ Hc].
  destruct (Hc ltac:(evaluated) ltac:(discriminate) ltac:(split; evaluated) ltac:(evaluated)) as (er & b' & s1 & s' & Hrun & _ & _ & _ & _ & Hacc & Hs').
  assert (Her : er = None) by (apply Hacc; intros t c w; reflexivity). subst er. exists b', s'. split; [exact Hrun|].
  rewrite Hs'. intros Ho. apply Ho. cbn. apply elem_of_union_l. now apply elem_of_singleton.
Defined.

(** ** Host functions *)

Lemma LaunchHostFunc_no_leak_witness :
  exists cb' s', LaunchHostFunc 4660 (Some stream0) (Some 5%nat) (hostcb.init nat) state1 = (Done (None, cb'), s') /\
    hostcb.abs nat cb' = <[1 := 5%nat]> ∅.
Proof.
  destruct (LaunchHostFunc_no_leak 4660 stream0 5%nat (hostcb.init nat) (hostcb.wf_init nat) ltac:(vm_compute; reflexivity)) as (Hy & _ & Hr).
  destruct (Hr context0 full_driver 2%positive state1) as (cb' & Hrun); [evaluated..|split; evaluated|evaluated|evaluated|].
  exists cb'. eexists. split; [rewrite Hrun; vm_compute; reflexivity|].
  destruct (Hy _ _ _ Hrun) as [_ Ha]. cbn [fst snd] in Ha. rewrite Ha. vm_compute. reflexivity.
Defined.
