(* ===== verification/MemoryWitnesses.v ===== *)
(** * Witnesses on other drivers: one with memory, one that grants what it can

    For the round trips the world is the bytes of the device and of the process; the copies the properties are about are carried out, every other call succeeds and changes nothing. *)

From S2P Require Import Prelude CudaSys Errors Runtime CudaResult ExecutorApi Context Dispatch Resource Handles Buffer Ready BufferProps Streams Modules Regions Vmm Graphs HandleProps Constructors RegionProps RoundTrip Session Witnesses.

(** A state of a process, before another driver. *)
Definition transplant (F G : Foreign) (w : @World G) (s : @state F) : @state G :=
  @mkState G w (@st_env F s) (@st_next F s) (@st_polls F s) (@st_execs F s) (@st_ctxs F s) (@st_lanes F s) (@st_memOps F s) (@st_driver F s) [].

Definition Bytes : Type := Z -> Z.

(** [n] bytes of [from] at [src] put at [dst]. *)
Definition moved (dst src n : Z) (to from : Bytes) : Bytes :=
  fun a => if (dst <=? a) && (a <? dst + n) then from (src + (a - dst)) else to a.

(** Rows of [n] bytes put at [dst + y*dpitch]. *)
Definition moved_rows (dst dpitch src spitch n rows : Z) (to from : Bytes) : Bytes :=
  fun a =>
    let y := (a - dst) / dpitch in
    let x := (a - dst) mod dpitch in
    if (0 <=? y) && (y <? rows) && (x <? n) then from (src + y * spitch + x) else to a.

Definition copy2D (m : CUDA_MEMCPY2D) (w : Bytes * Bytes) : Bytes * Bytes :=
  let '(dv, hs) := w in
  let dst base := base + m2_DstY m * m2_DstPitch m + m2_DstXInBytes m in
  let src base := base + m2_SrcY m * m2_SrcPitch m + m2_SrcXInBytes m in
  let rows d s to from := moved_rows (dst d) (m2_DstPitch m) (src s) (m2_SrcPitch m) (m2_WidthInBytes m) (m2_Height m) to from in
  if (m2_SrcMemoryType m =? MemoryTypeHost) && (m2_DstMemoryType m =? MemoryTypeDevice) then (rows (m2_DstDevice m) (m2_SrcHost m) dv hs, hs)
  else if (m2_SrcMemoryType m =? MemoryTypeDevice) && (m2_DstMemoryType m =? MemoryTypeHost) then (dv, rows (m2_DstHost m) (m2_SrcDevice m) hs dv)
  else w.

#[local] Instance ram : Foreign := {|
  World := Bytes * Bytes;
  Sys _ c w := ((0, demo_out c),
    let '(dv, hs) := w in
    match c with
    | CuMemcpyHtoD d s n => (moved d s n dv hs, hs)
    | CuMemcpyDtoH d s n => (dv, moved d s n hs dv)
    | CuMemcpy2D m => copy2D m w
    | _ => w
    end)
|}.

Lemma moved_rows_at dst dpitch src spitch n rows to from y x :
  n <= dpitch -> 0 <= y < rows -> 0 <= x < n -> moved_rows dst dpitch src spitch n rows to from (dst + y * dpitch + x) = from (src + y * spitch + x).
Proof.
  intros Hn Hy Hx. unfold moved_rows. replace (dst + y * dpitch + x - dst) with (x + y * dpitch) by lia.
  rewrite Z.div_add, Z.mod_add, Z.div_small, Z.mod_small by lia. rewrite Z.add_0_l.
  replace ((0 <=? y) && (y <? rows) && (x <? n)) with true by (symmetry; rewrite !andb_true_iff; lia). reflexivity.
Qed.

(** The documented effect of a two-dimensional copy, for both directions. *)
Lemma copy2D_rows m dst src to from y x :
  m2_WidthInBytes m <= m2_DstPitch m -> 0 <= y < m2_Height m -> 0 <= x < m2_WidthInBytes m ->
  moved_rows (dst + m2_DstY m * m2_DstPitch m + m2_DstXInBytes m) (m2_DstPitch m) (src + m2_SrcY m * m2_SrcPitch m + m2_SrcXInBytes m) (m2_SrcPitch m)
      (m2_WidthInBytes m) (m2_Height m) to from (dst + (m2_DstY m + y) * m2_DstPitch m + m2_DstXInBytes m + x) =
    from (src + (m2_SrcY m + y) * m2_SrcPitch m + m2_SrcXInBytes m + x).
Proof.
  intros Hd Hy Hx. replace (dst + (m2_DstY m + y) * m2_DstPitch m + m2_DstXInBytes m + x)
    with (dst + m2_DstY m * m2_DstPitch m + m2_DstXInBytes m + y * m2_DstPitch m + x) by lia.
  rewrite moved_rows_at by assumption. f_equal. lia.
Qed.

#[local] Program Instance ram_model : MemoryModel := {| dev := fst; host := snd |}.
Next Obligation. now intros t n [dv hs] a. Qed.
Next Obligation. now intros t p [dv hs] a. Qed.
Next Obligation. intros t dst src n [dv hs]. cbn. intros _. split; intros a; reflexivity. Qed.
Next Obligation. intros t dst src n [dv hs]. cbn. intros _. split; intros a; reflexivity. Qed.
Next Obligation.
  intros t m [dv hs]. cbn. intros _ Hs Hd Hsp Hdp. rewrite Hs, Hd. cbn. split; [|intros a; reflexivity].
  intros y x Hy Hx. now apply copy2D_rows.
Qed.
Next Obligation.
  intros t m [dv hs]. cbn. intros _ Hs Hd Hsp Hdp. rewrite Hs, Hd. cbn. split; [|intros a; reflexivity].
  intros y x Hy Hx. now apply copy2D_rows.
Qed.

(** The process of Witnesses.v, its context ready, with byte [a mod 256] at address [a] of the process and zeros on the device. *)
Definition state_ram : state := transplant demo ram (fun _ => 0, fun a => a mod 256) state3.

Definition pitched0 : PitchedBuffer Float32 := mkPitchedBuffer 30 (Some context0) 8192 512 3 2.

(** The runs of the witnesses: a write and a read of elements 2 to 4, a two-row copy in and out. *)
Definition written : state := (Buffer_CopyFromAt (Some buffer0) Background 2 (mkSlice 9000 3) state_ram).2.
Definition uploaded : state := (PitchedBuffer_CopyFrom (Some pitched0) Background (mkSlice 9000 6) state_ram).2.

Lemma ran {A} (m : M A) a s : (m s).1 = Done a -> m s = (Done a, (m s).2).
Proof. destruct (m s). cbn. now intros ->. Qed.

Definition read_back : state := (Buffer_CopyToAt (Some buffer0) Background (mkSlice 9500 3) 2 written).2.
Definition downloaded : state := (PitchedBuffer_CopyTo (Some pitched0) Background (mkSlice 9500 6) uploaded).2.

Lemma write_run : Buffer_CopyFromAt (Some buffer0) Background 2 (mkSlice 9000 3) state_ram = (Done None, written).
Proof. apply (ran _ None state_ram). vm_compute. reflexivity. Qed.

Lemma read_run : Buffer_CopyToAt (Some buffer0) Background (mkSlice 9500 3) 2 written = (Done None, read_back).
Proof. apply (ran _ None written). vm_compute. reflexivity. Qed.

Lemma upload_run : PitchedBuffer_CopyFrom (Some pitched0) Background (mkSlice 9000 6) state_ram = (Done None, uploaded).
Proof. apply (ran _ None state_ram). vm_compute. reflexivity. Qed.

Lemma download_run : PitchedBuffer_CopyTo (Some pitched0) Background (mkSlice 9500 6) uploaded = (Done None, downloaded).
Proof. apply (ran _ None uploaded). vm_compute. reflexivity. Qed.

Ltac obvious :=
  lazymatch goal with
  | |- _ = (_, written) => exact write_run
  | |- _ = (_, read_back) => exact read_run
  | |- _ = (_, uploaded) => exact upload_run
  | |- _ = (_, downloaded) => exact download_run
  | |- pitched_ok _ => closed_arith
  | |- copy_ready _ _ _ => split; [exists 2%positive; split; evaluated|evaluated..]
  | |- forall _, _ => idtac
  | |- (_ < _)%Z => cbn; lia
  | |- (_ <= _)%Z => cbn; lia
  | |- (_ <= _ < _)%Z => cbn; lia
  | |- _ => evaluated
  end.

Lemma write_read_back_witness :
  Buffer_CopyToAt (Some buffer0) Background (mkSlice 9500 3) 2 written = (Done None, read_back) /\
  forall i, 0 <= i < 12 -> host (st_world read_back) (9500 + i) = host (st_world state_ram) (9000 + i).
Proof.
  split; [exact read_run|].
  destruct (write_read_back buffer0 context0 full_driver 5%positive Background Background 2 2 (mkSlice 9000 3) (mkSlice 9500 3) state_ram written read_back)
    as (_ & _ & Hb); obvious.
  exact (Hb eq_refl eq_refl).
Defined.

Lemma pitched_read_back_witness :
  PitchedBuffer_CopyTo (Some pitched0) Background (mkSlice 9500 6) uploaded = (Done None, downloaded) /\
  forall i, 0 <= i < 24 -> host (st_world downloaded) (9500 + i) = host (st_world state_ram) (9000 + i).
Proof.
  split; [exact download_run|].
  destruct (pitched_read_back pitched0 context0 full_driver 5%positive Background Background (mkSlice 9000 6) (mkSlice 9500 6) state_ram uploaded downloaded)
    as (_ & _ & Hb); obvious.
  exact Hb.
Defined.

Lemma ram_accepts : accepting.
Proof. now intros t c [dv hs]. Qed.

Lemma session_copies_witness :
  exists b s', session (T := Float32) context0 Background (mkSlice 9000 6) (mkSlice 9500 6) state_ram = (Done (Some b, [None; None; None]), s') /\
    forall i, 0 <= i < 24 -> host (st_world s') (9500 + i) = host (st_world state_ram) (9000 + i).
Proof.
  destruct (session_copies (T := Float32) context0 full_driver 2%positive 5%positive Background (mkSlice 9000 6) (mkSlice 9500 6) state_ram ram_accepts)
    as (b & s' & Hrun & Hb & _); [|exact I|evaluated|cbn; lia|cbn; lia|reflexivity|].
  - split; try evaluated. split; [exists 2%positive; split; evaluated|evaluated..].
  - exists b, s'. split; [exact Hrun|exact Hb].
Defined.

(** ** A driver that refuses what it cannot grant *)

Definition careful_code (c : call) : Z :=
  match c with
  | CuMemAlloc n | CuMemAllocAsync n _ | CuMemAllocFromPoolAsync n _ _ | CuMemAllocManaged n _ | CuMemAddressReserve n _ _ _ => if n <=? 2 ^ 32 then 0 else 2
  | CuMemAllocPitch _ _ _ | CuArrayCreate _ | CuArray3DCreate _ => 2
  | _ => 0
  end.

Definition careful : Foreign := {| World := Z; Sys _ c w := ((careful_code c, demo_out c), w + 1) |}.

Lemma careful_grants : @driver_grants careful.
Proof.
  intros t c w. cbn. destruct c; cbn; intros Hc; try exact I; try discriminate Hc; [..|unfold is_uint64; lia|];
    match type of Hc with (if ?n <=? _ then _ else _) = _ => destruct (Z.leb_spec n (2 ^ 32)); [lia|discriminate Hc] end.
Qed.


