(* ===== verification/InterleavingWitnesses.v ===== *)
(** * Concrete interleavings: runs of the step relations at which the properties of the concurrent components apply. *)

From S2P Require Import Prelude CudaSys Errors Runtime CudaResult ExecutorApi Context Dispatch Resource Lanes Drain Teardown Pools Marshal.

#[local] Instance silent : Foreign := {| World := unit; Sys _ c w := ((0, out_zero c), w) |}.

(** ** A wait that is abandoned, and the close that drains it *)

Definition on_stream (_ : nat) : option loc := Some 1%positive.
Definition stream_of (_ : nat) : loc := 1%positive.
Definition can_cancel (_ : nat) : bool := true.

Notation drained := (Drain.system on_stream can_cancel stream_of 1 1).

Lemma outside_closers k s : Drain.closers s = [Drain.CStart] -> ~ Drain.locked stream_of k s.
Proof. intros E (j & p & Hj & Hin & _). rewrite E in Hj. destruct j; [injection Hj as <-; discriminate|discriminate]. Qed.

Lemma outside_callers r s : Drain.callers s = [Drain.QDone] -> ~ Drain.rlocked on_stream r s.
Proof. intros E (j & p & Hj & Hin & _). rewrite E in Hj. destruct j; [injection Hj as <-; discriminate|discriminate]. Qed.

(** The wait has its job accepted by a new lane and gives up while the driver call is outstanding. *)
Definition abandoned : Drain.st :=
  Drain.mkSt (Lanes.mkSt {[1%positive := mkLane 1%positive 1]} [1%positive] 2%positive false 1 [Lanes.WActive 1%positive])
    {[1%positive := [Drain.JWait 0]]} [Drain.QDone] [Drain.CStart] ∅ ∅.

Lemma abandoned_run : rtc (Drain.step on_stream can_cancel stream_of) (Drain.start 1 1) abandoned.
Proof.
  eapply rtc_l; [apply (Drain.enter _ _ _ _ 0); [reflexivity|intros r _; split; [now apply outside_closers|set_solver]]|].
  eapply rtc_l; [eapply (Drain.acquire _ _ _ _ 0); [reflexivity..|apply Lanes.reuse_none; reflexivity]|].
  eapply rtc_l; [eapply (Drain.acquire _ _ _ _ 0); [reflexivity..|apply Lanes.create_lock; reflexivity]|].
  eapply rtc_l; [eapply (Drain.acquire _ _ _ _ 0); [reflexivity..|apply Lanes.recheck_none; reflexivity]|].
  eapply rtc_l; [eapply (Drain.acquire _ _ _ _ 0); [reflexivity..|apply (Lanes.create_lane 0 _ 1%positive); reflexivity]|].
  eapply rtc_l; [eapply (Drain.acquire _ _ _ _ 0); [reflexivity..|apply (Lanes.count_wait 0 _ 1%positive); reflexivity]|].
  eapply rtc_l; [apply (Drain.submit _ _ _ _ 0 1%positive); [reflexivity..|vm_compute; lia]|].
  eapply rtc_l; [apply (Drain.abandon _ _ _ _ 0); reflexivity|].
  apply rtc_refl.
Qed.

(** The close finds the count at one, visits the lane, and its no-op runs after the abandoned call. *)
Lemma drained_run :
  exists s, rtc (Drain.step on_stream can_cancel stream_of) (Drain.start 1 1) s /\ Drain.closers s !! 0%nat = Some Drain.CDestroy.
Proof.
  eexists. split.
  - etransitivity; [exact abandoned_run|].
    eapply rtc_l; [apply (Drain.lock _ _ _ _ 0); [reflexivity|now apply outside_closers|now apply outside_callers|set_solver]|].
    eapply rtc_l; [apply (Drain.check_busy _ _ _ _ 0); [reflexivity|discriminate]|].
    eapply rtc_l; [apply (Drain.snapshot _ _ _ _ 0); reflexivity|].
    eapply rtc_l; [apply (Drain.submit_noop _ _ _ _ 0 1%positive []); [reflexivity|vm_compute; lia]|].
    eapply rtc_l; [eapply (Drain.run_wait _ _ _ _ 1%positive 0); [reflexivity|apply (Lanes.release_lane 0 _ 1%positive); reflexivity]|].
    eapply rtc_l; [eapply (Drain.recycled _ _ _ _ 1%positive 0); [reflexivity|apply Lanes.uncount_wait; reflexivity]|].
    eapply rtc_l; [eapply (Drain.run_noop _ _ _ _ 1%positive 0); reflexivity|].
    eapply rtc_l; [apply (Drain.barrier_done _ _ _ _ 0); reflexivity|]. apply rtc_refl.
  - reflexivity.
Qed.

Lemma drain_safe_witness :
  exists s, reachable drained s /\ Drain.closers s !! 0%nat = Some Drain.CDestroy /\ 1%positive ∉ Drain.destroyed s.
Proof.
  destruct drained_run as (s & Hs & Hk). exists s.
  assert (Hr : reachable drained s) by (exists (Drain.start 1 1); split; [reflexivity|exact Hs]).
  split; [exact Hr|]. split; [exact Hk|].
  exact (proj1 (proj1 (proj2 (Drain.drain_safe on_stream can_cancel stream_of 1 1 s Hr)) 0%nat Hk)).
Defined.

Lemma drain_terminates_witness :
  reachable drained (Drain.start 1 1) /\
  (forall k s', nsteps (Drain.step on_stream can_cancel stream_of) k (Drain.start 1 1) s' -> (k <= 32)%nat).
Proof.
  assert (Hr : reachable drained (Drain.start 1 1)) by (exists (Drain.start 1 1); split; [reflexivity|apply rtc_refl]).
  split; [exact Hr|]. exact (proj1 (Drain.drain_terminates on_stream can_cancel stream_of 1 1 (Drain.start 1 1) Hr)).
Defined.

(** ** The same wait and an abandoned command, and the [Close] of their context *)

Definition op_cancel (_ : nat) : bool := true.
Notation torn := (Teardown.system on_stream can_cancel stream_of op_cancel 1 1 1 1).
Notation tstep := (Teardown.step on_stream can_cancel stream_of op_cancel).

Lemma no_writer s : Teardown.xs s = [Teardown.XStart] -> ~ Teardown.writer s.
Proof. intros E (x & p & Hx & Hp). rewrite E in Hx. destruct x; [injection Hx as <-; discriminate|discriminate]. Qed.

(** While nobody closes the context, the waits and closes run as if alone. *)
Lemma inner_run d d' s :
  rtc (Drain.step on_stream can_cancel stream_of) d d' -> Teardown.xs s = [Teardown.XStart] -> Teardown.closed s = false -> Teardown.commandErr s = false ->
  rtc tstep (Teardown.set_drain d s) (Teardown.set_drain d' s).
Proof.
  intros Hs Hx Hc He. induction Hs as [d|d1 d2 d3 Hs _ IH]; [apply rtc_refl|]. eapply rtc_l; [|exact IH].
  apply (Teardown.inner _ _ _ _ (Teardown.set_drain d1 s) d2 Hs).
  - intros Hw. destruct (no_writer (Teardown.set_drain d1 s) Hx Hw).
  - cbn. now rewrite Hc, He.
Qed.

(** A lane goes on while [Close] waits for it. *)
Lemma inner_drained d s :
  Drain.step on_stream can_cancel stream_of (Teardown.drain s) d -> Drain.callers (Teardown.drain s) = [Drain.QDone] -> Drain.closers (Teardown.drain s) = [Drain.CStart] ->
  Teardown.closed s = false -> Teardown.commandErr s = false -> tstep s (Teardown.set_drain d s).
Proof.
  intros Hs Hca Hcl Hc He. apply Teardown.inner; [exact Hs| |now rewrite Hc, He]. intros _. split.
  - intros i [Hi _]. rewrite Hca in Hi. destruct i; discriminate.
  - intros k Hk. unfold Drain.gate_closer in Hk. rewrite Hcl in Hk. destruct k; discriminate.
Qed.

Lemma left_quiet s :
  Drain.callers (Teardown.drain s) = [Drain.QDone] -> Drain.closers (Teardown.drain s) = [Drain.CStart] -> Teardown.ops s = [Teardown.ODone] -> Teardown.quiet s.
Proof.
  intros Hca Hcl Ho. split; [split|].
  - intros i. unfold Teardown.reading_caller. rewrite Hca. now destruct i.
  - intros k. unfold Teardown.reading_closer. rewrite Hcl. now destruct k.
  - intros i p Hi. rewrite Ho in Hi. destruct i; [now injection Hi as <-|discriminate].
Qed.

(** The wait and the command are accepted and abandoned; [Close] gets the lock at once, and waits for the lane and for the command thread. *)
Lemma torn_run : exists s, rtc tstep (Teardown.start 1 1 1 1) s /\ Teardown.released s = 1%nat.
Proof.
  eexists. split.
  - etransitivity; [exact (inner_run _ _ (Teardown.start 1 1 1 1) abandoned_run eq_refl eq_refl eq_refl)|].
    eapply rtc_l; [apply (Teardown.op_lock _ _ _ _ _ 0); [reflexivity|now apply no_writer|reflexivity]|].
    eapply rtc_l; [apply (Teardown.op_submit _ _ _ _ _ 0); [reflexivity|vm_compute; lia]|].
    eapply rtc_l; [apply (Teardown.op_abandon _ _ _ _ _ 0); reflexivity|].
    eapply rtc_l; [apply (Teardown.x_pending _ _ _ _ _ 0); [reflexivity|now apply no_writer]|].
    eapply rtc_l; [apply (Teardown.x_lock _ _ _ _ _ 0); [reflexivity|now apply left_quiet]|].
    eapply rtc_l; [apply (Teardown.x_take _ _ _ _ _ 0); reflexivity|].
    eapply rtc_l; [eapply inner_drained; [eapply (Drain.run_wait _ _ _ _ 1%positive 0); [reflexivity|apply (Lanes.release_lane 0 _ 1%positive); reflexivity]|reflexivity..]|].
    eapply rtc_l; [eapply inner_drained; [eapply (Drain.recycled _ _ _ _ 1%positive 0); [reflexivity|apply Lanes.uncount_wait; reflexivity]|reflexivity..]|].
    eapply rtc_l; [apply (Teardown.x_lane _ _ _ _ _ 0 1%positive []); reflexivity|].
    eapply rtc_l; [apply (Teardown.x_lanes_done _ _ _ _ _ 0); reflexivity|].
    eapply rtc_l; [apply (Teardown.x_submit _ _ _ _ _ 0); [reflexivity|vm_compute; lia]|].
    eapply rtc_l; [apply (Teardown.op_run _ _ _ _ _ 0); reflexivity|].
    eapply rtc_l; [apply (Teardown.release _ _ _ _ _ 0); reflexivity|]. apply rtc_refl.
  - reflexivity.
Qed.

Lemma teardown_safe_witness :
  exists s, reachable torn s /\ Teardown.released s = 1%nat /\ Teardown.quiet s /\ forall l, Drain.lane_tasks l (Teardown.drain s) = [].
Proof.
  destruct torn_run as (s & Hs & Hrel). exists s.
  assert (Hr : reachable torn s) by (exists (Teardown.start 1 1 1 1); split; [reflexivity|exact Hs]).
  split; [exact Hr|]. split; [exact Hrel|].
  destruct (proj2 (proj2 (Teardown.teardown_safe on_stream can_cancel stream_of op_cancel 1 1 1 1 s Hr)) Hrel) as (Hq & _ & Hl & _). split; [exact Hq|exact Hl].
Defined.

Lemma teardown_terminates_witness :
  reachable torn (Teardown.start 1 1 1 1) /\ (forall k s', nsteps tstep k (Teardown.start 1 1 1 1) s' -> (k <= 52)%nat).
Proof.
  assert (Hr : reachable torn (Teardown.start 1 1 1 1)) by (exists (Teardown.start 1 1 1 1); split; [reflexivity|apply rtc_refl]).
  split; [exact Hr|]. exact (proj1 (Teardown.teardown_terminates on_stream can_cancel stream_of op_cancel 1 1 1 1 (Teardown.start 1 1 1 1) Hr)).
Defined.

(** ** Two waits, the first of which gives up, and a copy, on pooled structures *)

Definition two_waits_and_a_copy (g : nat) : Pools.request :=
  match g with
  | 0%nat => Pools.RSync None opStreamSync 7 0 0
  | 1%nat => Pools.RSync None opEventSync 0 9 0
  | _ => Pools.RHtoD None 64 32 16
  end.

(** The first wait gives up while its driver call runs; the worker puts the structure back and the second wait gets it. *)
Definition reused : Pools.st := {|
  Pools.pooled := [];
  Pools.contents := [Pools.fill (Pools.fill (Pools.new_op Pools.PSync) (two_waits_and_a_copy 0)) (two_waits_and_a_copy 1)];
  Pools.users := [Pools.UEnd; Pools.UWaiting 0; Pools.UStart];
  Pools.inflight := [(1%nat, 0%nat, false)]
|}.

Lemma reused_reachable : reachable (Pools.system two_waits_and_a_copy 3) reused.
Proof.
  eexists. split; [reflexivity|].
  eapply rtc_l; [apply (Pools.get_new _ _ 0%nat); reflexivity|].
  eapply rtc_l; [apply (Pools.submit _ _ 0%nat 0%nat); reflexivity|].
  eapply rtc_l; [apply (Pools.leave _ _ 0%nat 0%nat); reflexivity|].
  eapply rtc_l; [apply (Pools.run _ _ 0%nat 0%nat [] []); reflexivity|].
  eapply rtc_l; [apply (Pools.finish_recycle _ _ 0%nat 0%nat [] []); reflexivity|].
  eapply rtc_l; [apply (Pools.get_pooled _ _ 1%nat 0%nat (Pools.fill (Pools.new_op Pools.PSync) (two_waits_and_a_copy 0)) [] []); reflexivity|].
  eapply rtc_l; [apply (Pools.submit _ _ 1%nat 0%nat); reflexivity|]. apply rtc_refl.
Qed.

Lemma pooled_ops_exclusive_witness :
  NoDup (map (fun j : nat * nat * bool => j.1.2) (Pools.inflight reused)) /\ Pools.pooled reused = [].
Proof.
  split; [|reflexivity]. exact (proj1 (proj2 (@Pools.pooled_ops_exclusive two_waits_and_a_copy silent 3 reused reused_reachable))).
Defined.

(** ** A stream with a negative priority *)

Lemma adapters_deliver_witness :
  Marshal.registers (fun _ => 4096) (CuStreamCreateWithPriority 1 (-5)) = Some [4096; 1; 2 ^ 64 - 5] /\
  zip_with Marshal.c_read [Marshal.TPtr; Marshal.TUint32; Marshal.TInt32] [4096; 1; 2 ^ 64 - 5] = [4096; 1; -5].
Proof.
  destruct (Marshal.adapters_deliver (fun _ => 4096) (CuStreamCreateWithPriority 1 (-5))) as [(r & Hr & _ & Hread) _].
  split; [reflexivity|]. vm_compute in Hr. injection Hr as <-. apply Hread.
  repeat constructor; vm_compute; discriminate.
Defined.
