(* ===== verification/InterleavedWitnesses.v ===== *)
(** * Witnesses of the properties of interleaved operations

    Two goroutines on the buffer of Witnesses.v: one copies into it and closes it, the other launches a kernel on it. *)

From S2P Require Import Prelude CudaSys Errors Runtime CudaResult ExecutorApi Context Dispatch Resource Handles Buffer HostCb Streams Modules Regions Vmm Graphs ArgPack Launch Ready HandleProps Constructors RegionProps LaunchProps PackProps Steps Goroutines Steady SteadyDispatch SteadyOps SteadyLaunch Interleaved Witnesses HandleWitnesses.

#[local] Existing Instance demo.

(** The host's memory does not matter here. *)
#[local] Instance blank : HostMemory := {| hm_make _ w := (0, w); hm_read _ _ _ := [] |}.

Lemma window_ok : buffer_ok buffer0 /\ op_ok (OpCopyFromAt (T := Float32) Background 2 (mkSlice 9000 3)).
Proof. split; [evaluated|split; [exact I|split; evaluated]]. Qed.

Definition copying := api_buffer Float32 buffer0 (OpCopyFromAt Background 2 (mkSlice 9000 3)) (proj1 window_ok) (proj2 window_ok) I.
Definition closing_it := api_close _ _ _ _ _ (close_Buffer Float32 buffer0).

(** It closes the buffer if the copy returned nil. *)
Definition client0 : client := Calls copying (fun r => match r with Done None => Calls closing_it (fun _ => Finished) | _ => Finished end).
Lemma kernel_ok : fn_module kernel0 = Some module0 /\ pooled_ok argpack.zeroBuilder.
Proof. split; [reflexivity|]. split; [exact argpack.wf_zero|split; reflexivity]. Qed.

Definition launching := api_launch_on kernel0 module0 argpack.zeroBuilder Background stream0 (LaunchConfig1D 16 8) false args0 (proj1 kernel_ok) (proj2 kernel_ok) args0_ok.
Definition client1 : client := Calls launching (fun _ => Finished).
(** What the driver is asked for by the second. *)
Definition launched : call := launch_call false 12 (LaunchConfig1D 16 8) 7 (params_of args0).

Definition begun : config := start state3 (map program [client0; client1]).

Definition asked (s : state) : list call := map snd (st_trace s).

(** The second launches, then the first copies and closes; or the first, and then the second finds the buffer closed. *)
Definition second_first : option state := state ← alone client1 state3; alone client0 state.
Definition first_first : option state := state ← alone client0 state3; alone client1 state.

Example second_first_calls :
  option_map asked second_first = Some ([CuMemFree 4096; CuMemcpyHtoD 4104 9000 12; launched] ++ asked state3).
Proof. vm_compute. reflexivity. Qed.

Example first_first_calls :
  option_map asked first_first = Some ([CuMemFree 4096; CuMemcpyHtoD 4104 9000 12] ++ asked state3).
Proof. vm_compute. reflexivity. Qed.

(** The second goroutine from the first step to its end, then the first. *)
Lemma two_in_turn p q s s1 s2 : env_thread (st_env s) = None -> env_thread (st_env s1) = None -> alone p s = Some s1 -> alone q s1 = Some s2 ->
  exists c, rtc step (start s (map program [q; p])) c /\ set_thread None (shared c) = s2 /\
    forall i g, gos c !! i = Some g -> g_code g = Halt (Done tt).
Proof.
  intros Ht Ht1 Hp Hq.
  destruct (exec_steps None (program p) s [mkGo no_locks (program q); mkGo no_locks (program p)] [] 1 no_locks (Done tt) s1 eq_refl (exec_alone p s s1 Ht Hp) ltac:(discriminate))
    as (t1 & h1 & tr1 & R1 & E1). cbn in R1.
  assert (Eq : exec None (program q) t1 = (Done tt, s2)) by (rewrite <- (exec_thread None None), E1; now apply exec_alone).
  destruct (exec_steps None (program q) t1 [mkGo no_locks (program q); mkGo h1 (Halt (Done tt))] tr1 0 no_locks (Done tt) s2 eq_refl Eq ltac:(discriminate))
    as (t2 & h2 & tr2 & R2 & E2). cbn in R2.
  eexists. split; [etransitivity; [exact R1|exact R2]|]. split; [exact E2|]. intros [|[|i]] g [= <-]; reflexivity.
Qed.

Lemma chained {A B} (x : option A) (f : A -> option A) (g : A -> B) b : option_map g (x ≫= f) = Some b ->
  exists a a', x = Some a /\ f a = Some a' /\ g a' = b.
Proof. destruct x as [a|]; [|discriminate]. cbn. destruct (f a) as [a'|] eqn:Hf; [|discriminate]. intros [= <-]. eauto. Qed.

Lemma mapped {A B} (x : option A) (g : A -> B) b : option_map g x = Some b -> exists a, x = Some a /\ g a = b.
Proof. destruct x as [a|]; [|discriminate]. intros [= <-]. eauto. Qed.

Lemma client1_alone : option_map (fun s => (asked s, env_thread (st_env s))) (alone client1 state3) = Some ([launched] ++ asked state3, None).
Proof. vm_compute. reflexivity. Qed.

Lemma begun_ends : exists c, rtc step begun c /\ asked (shared c) = [CuMemFree 4096; CuMemcpyHtoD 4104 9000 12; launched] ++ asked state3 /\
  forall i g, gos c !! i = Some g -> g_code g = Halt (Done tt).
Proof.
  destruct (chained _ _ _ _ second_first_calls) as (s1 & s2 & H1 & H2 & Hc). destruct (mapped _ _ _ client1_alone) as (s1' & H1' & Ha).
  assert (Ht : env_thread (st_env s1) = None) by (rewrite H1 in H1'; injection H1' as ->; now injection Ha).
  destruct (two_in_turn client1 client0 state3 s1 s2 eq_refl Ht H1 H2) as (c & R & E & Hend).
  exists c. split; [exact R|]. split; [|exact Hend]. rewrite <- E in Hc. exact Hc.
Qed.


