(* ===== verification/Boundaries.v ===== *)
(** * Behaviour at the boundaries that the documentation does not have

    Runs of the model, on the driver of Witnesses.v, where the code does something else than its comments or its other functions say. *)

From S2P Require Import Prelude CudaSys Errors Runtime CudaResult ExecutorApi Context Dispatch Resource Handles Buffer Ready ArgPack HostCb Streams Modules Regions Vmm Graphs Launch StreamProps Loader Constructors Witnesses.

#[local] Existing Instance demo.

(** ** Occupancy *)

(** A configuration [SuggestedConfig1D] gives has the low 32 bits of the shared memory asked for, whatever its size. *)
Theorem SuggestedConfig1D_truncates `{Foreign} f n mem :
  yields (SuggestedConfig1D f n mem) (fine (fun cfg => valid cfg = true /\ SharedMemBytes cfg = uint32 mem)).
Proof.
  unfold SuggestedConfig1D. destruct (n <=? 0); [now apply yields_ret|]. apply yields_then. intros [[g b] [e|]]; cbn [fst snd]; [now apply yields_ret|].
  destruct (b <=? 0); [now apply yields_ret|]. destruct (valid (LaunchConfig1D n b)) eqn:Hv; cbn [negb]; [|now apply yields_ret].
  apply yields_ret. intros _. split; [exact Hv|reflexivity].
Qed.

Example shared_memory_lost : uint32 (2 ^ 32 + 8) = 8.
Proof. reflexivity. Qed.

(** ** Peers *)

(** A second context on the other device, a buffer in it, and then the context closed. *)
Definition device1 : Device := mkDevice 1 1.
Definition two_contexts : state := (Device_Primary (Some device1) state2).2.
Definition context1 : Context := mkContext 6 (Some device1) (Some full_driver) 77.
Definition buffer1 : Buffer Float32 := mkBuffer 7 (Some context1) 4096 16 64.
Definition peer_closed : state := (Context_Close (Some context1) (Alloc (T := Float32) (Some context1) 16 two_contexts).2).2.

Example second_context : (Device_Primary (Some device1) state2).1 = Done (Some context1, None).
Proof. vm_compute. reflexivity. Qed.

Example second_buffer : (Alloc (T := Float32) (Some context1) 16 two_contexts).1 = Done (Some buffer1, None).
Proof. vm_compute. reflexivity. Qed.

Definition last_call (s : state) : option call := option_map snd (hd_error (st_trace s)).

(**  [CopyToPeer] does not ask whether the destination's context is open: when it was closed while its buffer was not, the driver is given the released context, where
    [EnablePeerAccess] would have answered [ErrContextClosed]. *)
Theorem CopyToPeer_closed_destination :
  let r := Buffer_CopyToPeer (Some buffer0) Background (Some buffer1) peer_closed in
  ~ open (cx_id context1) (st_env peer_closed) /\ open (bf_id buffer1) (st_env peer_closed) /\
  r.1 = Done None /\ last_call r.2 = Some (CuMemcpyPeer 4096 77 4096 77 64) /\
  (EnablePeerAccess (Some context0) (Some context1) peer_closed).1 = Done (Some ErrContextClosed).
Proof.
  split; [intros Ho; apply Ho; decided|]. split; [unfold open; decided|]. split; [vm_compute; reflexivity|]. split; vm_compute; reflexivity.
Qed.

(** ** Padded allocations *)

(** The comment of [AllocPitched] has a byte size that overflows rejected; only the size of a row is tested. *)
Theorem AllocPitched_overflow_accepted :
  let r := AllocPitched (T := Uint8) (Some context0) (2 ^ 40) (2 ^ 40) state1 in
  last_call r.2 = Some (CuMemAllocPitch (2 ^ 40) (2 ^ 40) 4) /\ r.1 = Done (Some (mkPitchedBuffer 4 (Some context0) 0 0 (2 ^ 40) (2 ^ 40)), None) /\
  2 ^ 64 <= 2 ^ 40 * 2 ^ 40.
Proof. split; [vm_compute; reflexivity|]. split; [vm_compute; reflexivity|discriminate]. Qed.
