(* ===== verification/ExampleProps.v ===== *)
(** * What the example programs guarantee

    On any driver the examples leave nothing locked and do nothing fatal; [newBatch] of event-pipeline cannot report a failure, since its deferred function
    dereferences the batch that [return nil, err] has just cleared. *)

From Stdlib Require Import Floats.SpecFloat.
From S2P Require Import Prelude CudaSys Errors Runtime CudaResult ExecutorApi Context Dispatch Resource Handles Buffer ArgPack HostCb Loader Streams Modules Regions Launch LaunchProps HandleProps Accessors Examples.

(** ** float32 *)

Lemma digits_bounds m : 2 ^ (Zpos (digits2_pos m) - 1) <= Zpos m < 2 ^ Zpos (digits2_pos m).
Proof.
  assert (Hs : forall d, 2 ^ (Zpos (Pos.succ d) - 1) = 2 * 2 ^ (Zpos d - 1) /\ 2 ^ Zpos (Pos.succ d) = 2 * 2 ^ Zpos d).
  { intros d. rewrite Pos2Z.inj_succ. split; [replace (Z.succ (Zpos d) - 1) with (Z.succ (Zpos d - 1)) by lia|]; apply Z.pow_succ_r; lia. }
  induction m as [m IH|m IH|]; cbn [digits2_pos]; [destruct (Hs (digits2_pos m)) as [-> ->]; lia..|now vm_compute].
Qed.

(** A finite float32 has 24 digits, or fewer and the smallest exponent. *)
Lemma finite_cases s m e : valid_binary 24 128 (S754_finite s m e) = true ->
  -149 <= e <= 104 /\ (2 ^ 23 <= Zpos m < 2 ^ 24 \/ (Zpos m < 2 ^ 23 /\ e = -149)).
Proof.
  unfold valid_binary, bounded, canonical_mantissa, fexp, emin. rewrite andb_true_iff. intros [Hc He].
  apply Zeq_bool_eq in Hc. apply Z.leb_le in He. pose proof (digits_bounds m) as [Hl Hu]. set (d := Zpos (digits2_pos m)) in *.
  assert (Hd : d <= 24) by lia. assert (H1 : 2 ^ d <= 2 ^ 24) by (apply Z.pow_le_mono_r; lia). split; [lia|].
  destruct (Z.eq_dec d 24) as [->|]; [left; split; [exact Hl|exact Hu]|]. right. split; [|lia].
  assert (2 ^ d <= 2 ^ 23) by (apply Z.pow_le_mono_r; lia). lia.
Qed.

(** Encoding a float32 in its bits and decoding them gives it back. *)
Lemma bits_roundtrip f : valid_binary 24 128 f = true -> float32_of_bits (bits_of_float32 f) = f.
Proof.
  destruct f as [s|s| |s m e]; intros Hv; [destruct s; reflexivity..|reflexivity|]. apply finite_cases in Hv as [He Hm].
  unfold bits_of_float32. set (w := if Zpos m <? 2 ^ 23 then _ else _).
  assert (Hw : 0 <= w < 255 * 2 ^ 23 /\ w / 2 ^ 23 = (if Zpos m <? 2 ^ 23 then 0 else e + 150) /\ w mod 2 ^ 23 = (if Zpos m <? 2 ^ 23 then Zpos m else Zpos m - 2 ^ 23)).
  { subst w. destruct (Z.ltb_spec (Zpos m) (2 ^ 23)).
    - assert (Hz : 0 <= Zpos m < 2 ^ 23) by lia. rewrite Z.div_small, Z.mod_small by lia. split_and!; [lia|lia|reflexivity..].
    - split; [lia|]. rewrite Z.add_comm, Z.div_add, Z.mod_add, Z.div_small, Z.mod_small by lia. split; [lia|reflexivity]. }
  destruct Hw as (Hw & Hd & Hr). unfold float32_of_bits.
  assert (Hs : (1 <=? Z.land (Z.shiftr ((if s then 2 ^ 31 else 0) + w) 31) 1) = s).
  { rewrite Z.shiftr_div_pow2 by lia. destruct s; [|rewrite Z.div_small by lia; reflexivity].
    replace (2 ^ 31 + w) with (w + 1 * 2 ^ 31) by lia. rewrite Z.div_add, Z.div_small by lia. reflexivity. }
  assert (Hl : Z.land ((if s then 2 ^ 31 else 0) + w) (2 ^ 23 - 1) = w mod 2 ^ 23).
  { change (2 ^ 23 - 1) with (Z.ones 23). rewrite Z.land_ones by lia. destruct s; [|reflexivity].
    replace (2 ^ 31 + w) with (w + 256 * 2 ^ 23) by lia. now rewrite Z.mod_add by lia. }
  assert (He8 : Z.land (Z.shiftr ((if s then 2 ^ 31 else 0) + w) 23) 255 = w / 2 ^ 23).
  { change 255 with (Z.ones 8). rewrite Z.land_ones, Z.shiftr_div_pow2 by lia.
    assert (0 <= w / 2 ^ 23 < 255) by (split; [apply Z.div_pos; lia|apply Z.div_lt_upper_bound; lia]).
    destruct s; [|rewrite Z.add_0_l; now rewrite Z.mod_small by lia].
    replace (2 ^ 31 + w) with (w + 256 * 2 ^ 23) by lia. rewrite Z.div_add by lia. change 256 with (1 * 2 ^ 8). rewrite Z.mod_add by lia. now rewrite Z.mod_small by lia. }
  rewrite Hs, Hl, He8, Hd, Hr. destruct (Z.ltb_spec (Zpos m) (2 ^ 23)) as [Hlt|Hge].
  - destruct Hm as [Hm|[_ ->]]; [lia|reflexivity].
  - replace (e + 150 =? 255) with false by (symmetry; apply Z.eqb_neq; lia). replace (e + 150 =? 0) with false by (symmetry; apply Z.eqb_neq; lia).
    replace (Zpos m - 2 ^ 23 + 2 ^ 23) with (Zpos m) by lia. f_equal. lia.
Qed.

(** ** Programs on any driver *)

Section Settling.
Context `{Foreign}.

(** [E] with the objects [X] closed. *)
Definition closing (X : gset loc) (E : Env) : Env := mkEnv (env_locks_r E) (env_locks_w E) (env_thread E) (X ∪ env_closed E).

(** [settling Q m]: from any state [m] makes only driver calls that satisfy [Q], is never fatal, and when it returns or panics the locks and the thread are as they
    were and objects have at most been closed. *)
Definition settling {A} (Q : call -> Prop) (m : M A) : Prop :=
  forall s, let '(o, s') := m s in
    calls (fun _ => Q) s s' /\ o <> Fatal /\ (returns o -> exists X, st_env s' = closing X (st_env s)).

Variable Q : call -> Prop.

Lemma closing_empty E : closing ∅ E = E.
Proof. destruct E. unfold closing. cbn. now rewrite (left_id_L ∅ (∪)). Qed.

Lemma closing_union X Y E : closing X (closing Y E) = closing (X ∪ Y) E.
Proof. unfold closing. cbn. now rewrite (assoc_L (∪)). Qed.

Lemma settling_tidy {A} (m : M A) : (forall E, tidy (fun _ => Q) E m) -> settling Q m.
Proof.
  intros Hm s. specialize (Hm (st_env s) s eq_refl). destruct (m s) as [o s']. destruct Hm as (Hc & Hf & He). split_and!; [done|done|].
  intros Ho. exists ∅. rewrite closing_empty. now apply He.
Qed.

Lemma settling_close l m : (forall E, tidy_close (fun _ => Q) E l m) -> settling Q m.
Proof.
  intros Hm s. specialize (Hm (st_env s) s eq_refl). destruct (m s) as [o s']. destruct Hm as (Hc & Hf & He). split_and!; [done|done|].
  destruct o as [[e|]|v| |]; try done; intros _.
  - exists ∅. now rewrite closing_empty.
  - exists {[l]}. rewrite He. reflexivity.
  - exists ∅. now rewrite closing_empty.
Qed.

Lemma settling_ret {A} (a : A) : settling Q (ret a).
Proof. apply settling_tidy. intros E. apply tidy_ret. Qed.

Lemma settled_then {A} (s s1 : state) (X : gset loc) (o : outcome A) s2 :
  calls (fun _ => Q) s s1 -> st_env s1 = closing X (st_env s) ->
  calls (fun _ => Q) s1 s2 /\ o <> Fatal /\ (returns o -> exists X, st_env s2 = closing X (st_env s1)) ->
  calls (fun _ => Q) s s2 /\ o <> Fatal /\ (returns o -> exists X, st_env s2 = closing X (st_env s)).
Proof.
  intros Hc He (Hc2 & Hf & Hr). split_and!; [eauto using calls_trans|done|]. intros Ho. destruct (Hr Ho) as [Y ->]. rewrite He, closing_union. eauto.
Qed.

Lemma settling_bind {A B} (m : M A) (k : A -> M B) : settling Q m -> (forall a, settling Q (k a)) -> settling Q (bind m k).
Proof.
  intros Hm Hk s. specialize (Hm s). unfold bind. destruct (m s) as [o s1]. destruct Hm as (Hc & Hf & Hr).
  destruct o as [a|v| |]; [|split_and!; [done|done|]; intros Ho; now apply Hr..].
  destruct (Hr I) as [X HX]. specialize (Hk a s1). destruct (k a s1) as [o s2]. now apply (settled_then s s1 X).
Qed.

Lemma settling_defer_err (d : err -> M err) m : settling Q m -> (forall r, settling Q (d r)) -> settling Q (defer_err d m).
Proof.
  intros Hm Hd s. specialize (Hm s). unfold defer_err. destruct (m s) as [o s1]. destruct Hm as (Hc & Hf & Hr).
  destruct o as [a|v| |]; [| |split_and!; [done|done|]; intros Ho; now apply Hr..].
  - destruct (Hr I) as [X HX]. specialize (Hd a s1). destruct (d a s1) as [o s2]. now apply (settled_then s s1 X).
  - destruct (Hr I) as [X HX]. specialize (Hd None s1). destruct (d None s1) as [o s2].
    apply (settled_then (A := err) s s1 X) in Hd; [|done..]. destruct o; [|exact Hd..].
    destruct Hd as (? & _ & Hd). split_and!; [done|done|exact Hd].
Qed.

Lemma settling_defer_close close rest : settling Q close -> settling Q rest -> settling Q (defer_close close rest).
Proof.
  intros Hd Hm s. specialize (Hm s). unfold defer_close. destruct (rest s) as [o s1]. destruct Hm as (Hc & Hf & Hr).
  destruct o as [[f|]|v| |]; [split_and!; [done|done|]; intros Ho; now apply Hr| | |split_and!; [done|done|]; intros Ho; now apply Hr..].
  - destruct (Hr I) as [X HX]. pose proof (settling_bind close (fun _ => ret None) Hd (fun _ => settling_ret (@None (string * error))) s1) as Hb.
    destruct (bind close _ s1) as [o s2]. now apply (settled_then s s1 X).
  - destruct (Hr I) as [X HX]. specialize (Hd s1). destruct (close s1) as [o s2].
    apply (settled_then (A := err) s s1 X) in Hd; [|done..]. destruct Hd as (? & Hn & Hd).
    destruct o; [split_and!; [done|done|exact Hd]..|now destruct Hn].
Qed.

Lemma settling_with_cleanup op close rest : settling Q close -> settling Q rest -> settling Q (with_cleanup op close rest).
Proof. intros Hc Hr. apply settling_defer_err; [done|]. intros r. apply settling_bind; [done|]. intros e. apply settling_ret. Qed.

Lemma settling_try op m k : settling Q m -> settling Q k -> settling Q (try op m k).
Proof. intros Hm Hk. apply settling_bind; [done|]. intros [e|]; [apply settling_ret|done]. Qed.

Lemma settling_try_val {A} op (m : M (A * err)) k : settling Q m -> (forall a, settling Q (k a)) -> settling Q (try_val op m k).
Proof. intros Hm Hk. apply settling_bind; [done|]. intros [a [e|]]; cbn; [apply settling_ret|apply Hk]. Qed.

Lemma settling_or_fail {A} op (m : M (A * err)) k : settling Q m -> (forall a, settling Q (k a)) -> settling Q (or_fail op m k).
Proof. intros Hm Hk. apply settling_bind; [done|]. intros [a [e|]]; cbn; [apply settling_ret|apply Hk]. Qed.

Lemma settling_err_or_fail op (m : M err) k : settling Q m -> settling Q k -> settling Q (err_or_fail op m k).
Proof. intros Hm Hk. apply settling_bind; [done|]. intros [e|]; [apply settling_ret|done]. Qed.

Lemma settling_for_range k i body : (forall i, settling Q (body i)) -> settling Q (for_range k i body).
Proof.
  intros Hb. revert i. induction k as [|k IH]; intros i; cbn [for_range]; [apply settling_ret|].
  apply settling_bind; [apply Hb|]. intros [e|]; [apply settling_ret|apply IH].
Qed.

Lemma settling_set_closed l : settling Q (set_closed l).
Proof. intros s. cbn. split_and!; [now apply calls_refl|done|]. intros _. now exists {[l]}. Qed.

Lemma settling_with_Lock {A} l (m : M A) : settling Q m -> settling Q (with_Lock l m).
Proof.
  intros Hm s. unfold with_Lock, Lock, bind, defer. case_decide as Hw.
  { split_and!; [now apply calls_refl|done|intros []]. }
  destruct (env_locks_r (st_env s) !! l) eqn:Hl.
  { split_and!; [now apply calls_refl|done|intros []]. }
  specialize (Hm (set_env (wlocked l (st_env s)) s)). cbn in Hm. destruct (m _) as [o s1]. destruct Hm as (Hc & Hf & Hr).
  assert (Hc' : calls (fun _ => Q) s s1) by (destruct Hc as (tr & Htr & Hq); now exists tr).
  assert (Hx : forall X E, l ∉ env_locks_w E -> wunlocked l (closing X (wlocked l E)) = closing X E).
  { intros X [r w t c] Hn. unfold wunlocked, closing, wlocked. cbn in *. f_equal. set_solver. }
  unfold Unlock. destruct o as [a|v| |]; [..|now split_and!|done]; destruct (Hr I) as [X HX]; rewrite HX; cbn;
    (rewrite decide_True by set_solver); (split_and!; [exact Hc'|done|]); intros _; exists X; cbn; now apply Hx.
Qed.

End Settling.

(** ** The operations the examples use *)

(** The entry points a program uses, besides background calls. *)
Definition uses (fs : list field) (c : call) : Prop := background c = true \/ call_field c ∈ fs.

Section Uses.
Context `{Foreign, !HostMemory, !HostStores, !Loader.Linker}.
Variable fs : list field.

Lemma uses_background (E : Env) c : background c = true -> uses fs c.
Proof. now left. Qed.

Lemma uses_listed c : bool_decide (call_field c ∈ fs) = true -> uses fs c.
Proof. intros Hc. right. now apply bool_decide_eq_true in Hc. Qed.

Lemma any_context c (E : Env) (R : Env -> Prop) : (forall E, R E) -> in_context c E R.
Proof. intros HR. destruct c; cbn; auto. Qed.

(** The [Close] of a resource, and of a context. *)
Lemma settling_closer l c cl name m : closer l c cl name m -> uses fs cl -> settling (uses fs) m.
Proof.
  intros Hm Hcl. destruct (closer_shape l c cl name m Hm) as (release & -> & _ & Ht). apply (settling_close _ l). intros E.
  apply tidy_close_resource. intros _. apply tidy_bind; [|intros; apply tidy_ret].
  apply tidy_doBarrier; [exact uses_background|]. apply any_context. intros E'. now apply tidy_closure, Ht.
Qed.

Lemma settling_Context_Close c : (forall x, uses fs (CuDevicePrimaryCtxRelease x)) -> settling (uses fs) (Context_Close c).
Proof.
  intros Hrel. assert (Hb : forall (E : Env) cl, background cl = true -> uses fs cl) by exact uses_background.
  assert (Ht : forall A (m : M A), (forall E, tidy (fun _ => uses fs) E m) -> settling (uses fs) m) by (intros; now apply settling_tidy).
  unfold Context_Close. destruct c as [c|]; [|apply settling_ret]. destruct (cx_device c) as [dv|]; [|apply settling_ret].
  apply settling_with_Lock, settling_bind; [apply Ht; intros; apply tidy_ctx_state|]. intros cs. destruct (cs_exec cs); [|apply settling_ret].
  apply settling_bind; [apply Ht; intros; apply tidy_get|]. intros []; [apply settling_ret|]. unfold close_body.
  apply settling_bind; [apply Ht; intros; now apply tidy_recoverCommandExecutor|]. intros [e|]; [apply settling_ret|].
  apply settling_bind; [apply Ht; intros; now apply tidy_closeWaitLanes|]. intros e1.
  apply settling_bind; [apply Ht; intros; now apply tidy_closeCopyExecutor|]. intros e2.
  apply settling_bind; [apply Ht; intros; apply tidy_ctx_state|]. intros cs'.
  apply settling_bind; [apply Ht; intros; now apply tidy_deref|]. intros ex.
  apply settling_bind.
  { apply Ht. intros E. unfold executor.Do. apply tidy_DoCtx; [now apply tidy_async_cuda|]. unfold close_commands. 
    unfold cudaresult.CtxSetCurrent, cudaresult.PrimaryCtxRelease. tidy_auto; auto. }
  intros [[[e3 e4] e5] [e6|]]; [apply settling_ret|]. destruct (negb (is_nil e4)).
  - apply settling_bind; [|intros; apply settling_ret]. apply Ht. intros E. unfold set_commandErr. destruct (is_nil e5); [apply tidy_ret|].
    tidy_auto; first [apply tidy_Retire|apply tidy_executor_Close; now apply tidy_async_cuda|idtac].
  - apply settling_bind; [apply settling_set_closed|]. intros _. apply Ht. intros E.
    apply tidy_bind; [destruct (is_nil e3); [apply tidy_ret|apply tidy_Retire]|]. intros _.
    apply tidy_bind; [apply tidy_executor_Close; now apply tidy_async_cuda|]. intros; apply tidy_ret.
Qed.

End Uses.

(** Goes through an operation; what is left is that its call is of an entry point of the list. *)
Ltac background := exact (uses_background _).
Ltac listed_entry := first [left; reflexivity | apply uses_listed; vm_compute; reflexivity].
Ltac entry_step :=
  lazymatch goal with
  | |- uses _ _ => listed_entry
  | |- in_context _ _ _ => apply any_context; intros ?
  | |- tidy _ _ (opened _ _ _) => apply tidy_opened; intros ?
  | |- tidy _ _ (Loader.with_driver _ _) => apply Loader.tidy_with_driver; intros ?
  | |- tidy _ _ (Loader.device_or _ _ _) => apply Loader.tidy_device_or; intros ?
  | |- tidy _ _ (do_ _ _ _ _) => apply tidy_do; [background|]
  | |- tidy _ _ (doWait _ _ _ _) => apply tidy_doWait; [background|]
  | |- tidy _ _ (doBarrier _ _ _ _) => apply tidy_doBarrier; [background|]
  | |- tidy _ _ (doSyncOp _ _) => apply tidy_doSyncOp; background
  | |- tidy _ _ (doJobCtx _ _ _) => apply tidy_doJobCtx; background
  | |- tidy _ _ (doJob _ _ _ _) => apply tidy_doJob; [background|intros; apply tidy_ret|]
  | |- tidy _ _ (memcpyHtoD _ _ _ _ _) => apply tidy_memcpyHtoD; [background|]
  | |- tidy _ _ (memcpyDtoH _ _ _ _ _) => apply tidy_memcpyDtoH; [background|]
  | |- tidy _ _ (memcpyHtoDAsync _ _ _ _ _ _) => apply tidy_memcpyHtoDAsync; [background|]
  | |- tidy _ _ (memcpyDtoHAsync _ _ _ _ _ _) => apply tidy_memcpyDtoHAsync; [background|]
  | |- tidy _ _ (make_bytes _) => apply tidy_make_bytes
  | |- tidy _ _ (closure _) => apply tidy_closure
  | |- tidy _ _ (deref _) => apply tidy_deref
  | |- tidy _ _ (job_Run _) => cbn [job_Run]
  | |- tidy _ _ (with_events _ _ _) => apply tidy_with_events; intros ? ? ? ?
  | |- _ => first [tidy_step|unfold_call]
  end.
Ltac entry_auto := repeat entry_step.


Section Leaves.
Context `{Foreign, !HostMemory, !HostStores, !Loader.Linker}.
Variable fs : list field.

Lemma tidy_cuda_Init E loadFn : uses fs (CuInit 0) -> tidy (fun _ => uses fs) E (cuda_Init loadFn).
Proof.
  intros Hi. unfold cuda_Init, Loader.Init. apply tidy_bind; [|intros; apply tidy_ret]. apply tidy_with_Lock. unfold Loader.Init_body.
  apply tidy_bind; [apply tidy_get|]. intros [d|]; [apply tidy_ret|].
  assert (Hl : forall A (m : Loader.L A) lg E, tidy (fun _ => uses fs) E (Loader.lift m lg)).
  { intros A m lg E' s Hs. unfold Loader.lift. destruct (m _) as [a [w l]]. split_and!; [now apply calls_refl|done|done]. }
  apply tidy_bind; [apply Hl|]. intros r. destruct (r.1.2); [apply tidy_ret|].
  apply tidy_bind; [unfold cudaresult.Init; tidy_auto; auto|]. intros [e|].
  - apply tidy_bind; [apply Hl|]. intros; apply tidy_ret.
  - apply tidy_bind; [now apply tidy_modify|]. intros; apply tidy_ret.
Qed.

Lemma tidy_Device_Primary E d :
  (forall x, uses fs (CuDevicePrimaryCtxRetain x)) -> (forall x, uses fs (CuDevicePrimaryCtxRelease x)) -> tidy (fun _ => uses fs) E (Device_Primary d).
Proof.
  intros Hr Hx. assert (Hb : forall (E : Env) cl, background cl = true -> uses fs cl) by exact (uses_background fs).
  unfold Device_Primary, currentDriver. apply tidy_bind; [tidy_auto|]. intros [dr|]; [|apply tidy_ret]. destruct d as [d|]; [|apply tidy_ret].
  apply tidy_bind; [now apply tidy_executor_New|]. intros ex. apply tidy_bind.
  { unfold executor.Do. apply tidy_DoCtx; [now apply tidy_async_cuda|].
    unfold primary_closure, cudaresult.PrimaryCtxRetain, cudaresult.CtxSetCurrent, cudaresult.PrimaryCtxRelease. tidy_auto; auto. }
  intros r. destruct (r.2).
  - apply tidy_bind; [apply tidy_executor_Close; now apply tidy_async_cuda|]. intros; apply tidy_ret.
  - apply tidy_bind; [apply tidy_new_loc|]. intros id. apply tidy_bind; [apply tidy_set_ctx_state|]. intros; apply tidy_ret.
Qed.

(** A launch on any function, of arguments and with a builder as the pool keeps it. *)
Lemma tidy_launch_any E pooled f ctx raw sctx cfg args :
  (forall fn g b sh st ps, uses fs (CuLaunchKernel fn g b sh st ps)) -> pooled_ok pooled -> args_ok args ->
  tidy (fun _ => uses fs) E (launch pooled f ctx raw sctx cfg false args).
Proof.
  intros Hl Hp Ha. destruct f as [f|]; [|apply tidy_ret]. destruct (fn_module f) as [m|] eqn:Hm.
  - apply (tidy_weaken (launch_use [] m (fn_raw f) cfg raw false args)); [|now apply tidy_launch].
    intros E' c [Hb|[-> _]]; [now left|apply Hl].
  - unfold launch. destruct (negb (valid cfg)); [apply tidy_ret|]. rewrite Hm. apply tidy_ret.
Qed.

Lemma settling_make_floats n : settling (uses fs) (make_floats n).
Proof. apply settling_tidy. intros E. unfold make_floats. apply tidy_bind; [apply tidy_make_bytes|]. intros; apply tidy_ret. Qed.

Lemma settling_get_float x i : settling (uses fs) (get_float x i).
Proof. apply settling_tidy. intros E. unfold get_float, read_bytes. tidy_auto. Qed.

Lemma settling_set_float x i v : settling (uses fs) (set_float x i v).
Proof. apply settling_tidy. intros E. unfold set_float. tidy_auto. Qed.

End Leaves.

(** Goes through a program; operations of the library are left. *)
Ltac settle_step :=
  lazymatch goal with
  | |- settling _ (ret _) => apply settling_ret
  | |- settling _ (try _ _ _) => apply settling_try
  | |- settling _ (try_val _ _ _) => apply settling_try_val; [|intros ?]
  | |- settling _ (or_fail _ _ _) => apply settling_or_fail; [|intros ?]
  | |- settling _ (err_or_fail _ _ _) => apply settling_err_or_fail
  | |- settling _ (with_cleanup _ _ _) => apply settling_with_cleanup
  | |- settling _ (defer_close _ _) => apply settling_defer_close
  | |- settling _ (for_range _ _ _) => apply settling_for_range; intros ?
  | |- settling _ (bind _ _) => apply settling_bind; [|intros ?]
  | |- settling _ (make_floats _) => apply settling_make_floats
  | |- settling _ (get_float _ _) => apply settling_get_float
  | |- settling _ (set_float _ _ _) => apply settling_set_float
  | |- settling _ (cuda_Init _) => apply settling_tidy; intros ?; apply tidy_cuda_Init; listed_entry
  | |- settling _ (Device_Primary _) => apply settling_tidy; intros ?; apply tidy_Device_Primary; intros ?; listed_entry
  | |- settling _ (Context_Close _) => apply settling_Context_Close; intros ?; listed_entry
  | |- settling _ (Buffer_Close ?x) => destruct x; [eapply settling_closer; [constructor|listed_entry]|apply settling_ret]
  | |- settling _ (HostBuffer_Close ?x) => destruct x; [eapply settling_closer; [constructor|listed_entry]|apply settling_ret]
  | |- settling _ (Module_Close ?x) => destruct x; [eapply settling_closer; [constructor|listed_entry]|apply settling_ret]
  | |- settling _ (Stream_Close ?x) => destruct x; [eapply settling_closer; [constructor|listed_entry]|apply settling_ret]
  | |- settling _ (Event_Close ?x) => destruct x; [eapply settling_closer; [constructor|listed_entry]|apply settling_ret]
  | |- settling _ (if ?b then _ else _) => destruct b
  | |- settling _ (match ?x with _ => _ end) => destruct x
  end.
Ltac settle := repeat settle_step.

(** *** The statements of event-pipeline that carry [submitted] *)

Section LSettling.
Context `{Foreign}.
Variable Q : call -> Prop.

Definition lsettling {A} (m : EventPipeline.LM A) : Prop :=
  forall b s, let '(o, x) := m (b, s) in
    calls (fun _ => Q) s x.2 /\ o <> Fatal /\ (returns o -> exists X, st_env x.2 = closing X (st_env s)).

Lemma lsettling_lift {A} (m : M A) : settling Q m -> lsettling (EventPipeline.llift m).
Proof. intros Hm b s. specialize (Hm s). unfold EventPipeline.llift. cbn [snd fst]. destruct (m s) as [o s1]. exact Hm. Qed.

Lemma lsettling_ret {A} (a : A) : lsettling (EventPipeline.lret a).
Proof. intros b s. exact (settling_ret Q a s). Qed.

Lemma lsettling_set v : lsettling (EventPipeline.set_submitted v).
Proof. intros b s. exact (settling_ret Q tt s). Qed.

Lemma lsettling_bind {A B} (m : EventPipeline.LM A) (k : A -> EventPipeline.LM B) :
  lsettling m -> (forall a, lsettling (k a)) -> lsettling (EventPipeline.lbind m k).
Proof.
  intros Hm Hk b s. specialize (Hm b s). unfold EventPipeline.lbind. destruct (m (b, s)) as [o [b1 s1]]. destruct Hm as (Hc & Hf & Hr).
  destruct o as [a|v| |]; [|split_and!; [done|done|]; intros Ho; now apply Hr..].
  destruct (Hr I) as [X HX]. specialize (Hk a b1 s1). destruct (k a (b1, s1)) as [o [b2 s2]]. now apply (settled_then Q s s1 X).
Qed.

Lemma lsettling_try op m k : settling Q m -> lsettling k -> lsettling (EventPipeline.ltry op m k).
Proof. intros Hm Hk. apply lsettling_bind; [now apply lsettling_lift|]. intros [e|]; [apply lsettling_ret|done]. Qed.

Lemma settling_with_submitted d body : lsettling body -> (forall b r, settling Q (d b r)) -> settling Q (EventPipeline.with_submitted d body).
Proof.
  intros Hm Hd s. specialize (Hm false s). unfold EventPipeline.with_submitted. destruct (body (false, s)) as [o [b s1]]. destruct Hm as (Hc & Hf & Hr).
  destruct o as [a|v| |]; [| |split_and!; [done|done|]; intros Ho; now apply Hr..]; destruct (Hr I) as [X HX]; cbn [fst snd] in *.
  - specialize (Hd b a s1). destruct (d b a s1) as [o s2]. now apply (settled_then Q s s1 X).
  - specialize (Hd b None s1). destruct (d b None s1) as [o s2].
    apply (settled_then Q (A := err) s s1 X) in Hd; [|done..]. destruct o; [|exact Hd..].
    destruct Hd as (? & _ & Hd). split_and!; [done|done|exact Hd].
Qed.

End LSettling.

Ltac lsettle_step :=
  lazymatch goal with
  | |- lsettling _ (EventPipeline.lret _) => apply lsettling_ret
  | |- lsettling _ (EventPipeline.llift _) => apply lsettling_lift
  | |- lsettling _ (EventPipeline.set_submitted _) => apply lsettling_set
  | |- lsettling _ (EventPipeline.ltry _ _ _) => apply lsettling_try
  | |- lsettling _ (EventPipeline.lbind _ _) => apply lsettling_bind; [|intros ?]
  | |- lsettling _ (if ?b then _ else _) => destruct b
  | |- lsettling _ (match ?x with _ => _ end) => destruct x
  | |- settling _ (Buffer_CopyFromHostAsync _ _ _ _) => apply settling_tidy; intros ?; solve [entry_auto]
  | |- settling _ (EventPipeline.close_if ?x _ _ _) => destruct x; cbn [EventPipeline.close_if]; unfold cleanup
  | |- _ => settle_step
  end.

Section Programs.
Context `{Foreign, !HostMemory, !HostStores, !Loader.Linker}.

Definition vector_add_entries : list field :=
  [F_CuInit; F_CuDeviceGetCount; F_CuDeviceGet; F_CuDeviceGetName; F_CuDevicePrimaryCtxRetain; F_CuDevicePrimaryCtxRelease; F_CuMemAlloc; F_CuMemFree;
   F_CuMemcpyHtoD; F_CuMemcpyDtoH; F_CuModuleLoadData; F_CuModuleGetFunction; F_CuModuleUnload; F_CuLaunchKernel].

Lemma vector_args_ok a b c n : args_ok
  [Some (Arg Float32 a); Some (Arg Float32 b); Some (Arg Float32 c); Some (ArgValue Int32 VectorAdd.type_int32 (VectorAdd.int32_bytes n))].
Proof. split; [|cbn; lia]. repeat constructor. Qed.

Lemma vector_add_settles loadFn pooled show : pooled_ok pooled -> settling (uses vector_add_entries) (VectorAdd.run loadFn pooled show).
Proof.
  intros Hp. unfold VectorAdd.run, VectorAdd.compute, VectorAdd.fill, VectorAdd.check. settle.
  all: apply settling_tidy; intros E; lazymatch goal with |- tidy _ _ (Launch _ _ _ _ _) => idtac | _ => solve [entry_auto] end.
  apply tidy_launch_any; [intros; listed_entry|done|exact (vector_args_ok _ _ _ _)].
Qed.

Definition event_pipeline_entries : list field :=
  [F_CuInit; F_CuDeviceGetCount; F_CuDeviceGet; F_CuDeviceGetName; F_CuDevicePrimaryCtxRetain; F_CuDevicePrimaryCtxRelease; F_CuStreamCreate; F_CuStreamDestroy;
   F_CuStreamCreateWithPriority;
   F_CuEventCreate; F_CuEventDestroy; F_CuMemAlloc; F_CuMemFree; F_CuMemAllocHost; F_CuMemFreeHost; F_CuMemcpyHtoDAsync; F_CuMemcpyDtoHAsync; F_CuEventElapsedTime;
   F_CuModuleLoadData; F_CuModuleGetFunction; F_CuModuleUnload; F_CuLaunchKernel].

Lemma workBatch_close_settles x i e : settling (uses event_pipeline_entries) (EventPipeline.workBatch_close x i e).
Proof.
  unfold EventPipeline.workBatch_close. apply settling_bind; [apply settling_tidy; intros E; entry_auto|]. intros b. repeat lsettle_step.
Qed.

Lemma newBatch_settles c i : settling (uses event_pipeline_entries) (EventPipeline.newBatch c i).
Proof.
  unfold EventPipeline.newBatch, EventPipeline.newBatch_body, EventPipeline.acquire, EventPipeline.slice_of, EventPipeline.fill. settle;
  try apply workBatch_close_settles; apply settling_tidy; intros E; entry_auto.
Qed.

Lemma submit_settles pooled fn cp st i xs k : pooled_ok pooled ->
  lsettling (uses event_pipeline_entries) k -> lsettling (uses event_pipeline_entries) (EventPipeline.submit_from pooled fn cp st i xs k).
Proof.
  intros Hp Hk. revert i. induction xs as [|x xs IH]; intros i; cbn [EventPipeline.submit_from]; [done|].
  unfold EventPipeline.submit_batch, EventPipeline.launch_batch. repeat first [apply IH|lsettle_step].
  all: apply settling_tidy; intros E; lazymatch goal with |- tidy _ _ (LaunchOn _ _ _ _ _ _) => idtac | _ => solve [entry_auto] end.
  unfold LaunchOn, launchOn. destruct fn as [fn|], st as [st|]; try apply tidy_ret. apply tidy_opened. intros _.
  apply tidy_launch_any; [intros; listed_entry|done|exact (vector_args_ok _ _ _ _)].
Qed.

Lemma collect_settles cp i xs k :
  lsettling (uses event_pipeline_entries) k -> lsettling (uses event_pipeline_entries) (EventPipeline.collect_from cp i xs k).
Proof.
  intros Hk. revert i. induction xs as [|x xs IH]; intros i; cbn [EventPipeline.collect_from]; [done|].
  repeat first [apply IH|lsettle_step]; apply settling_tidy; intros E; entry_auto.
Qed.

Lemma verify_settles show i xs : settling (uses event_pipeline_entries) (EventPipeline.verify_from show i xs).
Proof.
  revert i. induction xs as [|x xs IH]; intros i; cbn [EventPipeline.verify_from]; [apply settling_ret|].
  unfold EventPipeline.verifyBatch, EventPipeline.verify_at, EventPipeline.slice_of. repeat first [apply IH|settle_step];
    apply settling_tidy; intros E; entry_auto.
Qed.

Lemma with_batches_settles c k i xs rest : (forall xs, settling (uses event_pipeline_entries) (rest xs)) ->
  settling (uses event_pipeline_entries) (EventPipeline.with_batches c k i xs rest).
Proof.
  intros Hrest. revert i xs. induction k as [|k IH]; intros i xs; cbn [EventPipeline.with_batches]; [apply Hrest|].
  apply settling_bind; [apply newBatch_settles|]. intros [b [e|]]; cbn [fst snd]; [apply settling_ret|].
  apply settling_defer_err; [|intros; apply workBatch_close_settles].
  apply settling_bind; [apply settling_tidy; intros; apply tidy_deref; exact (uses_background event_pipeline_entries)|]. intros x. apply IH.
Qed.

Lemma event_pipeline_settles loadFn pooled show :
  pooled_ok pooled -> settling (uses event_pipeline_entries) (EventPipeline.run loadFn pooled show).
Proof.
  intros Hp. unfold EventPipeline.run. settle.
  all: lazymatch goal with
       | |- settling _ (EventPipeline.with_batches _ _ _ _ _) => apply with_batches_settles; intros xs
       | _ => apply settling_tidy; intros E; solve [entry_auto]
       end.
  apply settling_with_submitted.
  - unfold EventPipeline.pipeline, EventPipeline.finish. apply lsettling_try; [apply settling_tidy; intros E; entry_auto|].
    apply submit_settles; [done|]. apply collect_settles. repeat first [apply verify_settles|lsettle_step];
      apply settling_tidy; intros E; entry_auto.
  - intros b r. unfold EventPipeline.synchronize, cleanup. settle. apply settling_tidy; intros E; entry_auto.
Qed.

Definition device_info_entries : list field :=
  [F_CuInit; F_CuDriverGetVersion; F_CuDeviceGetCount; F_CuDeviceGet; F_CuDeviceGetName; F_CuDeviceTotalMem; F_CuDeviceGetAttribute; F_CuDeviceGetPCIBusId; F_CuDeviceGetUuid].

Lemma device_info_settles E loadFn : tidy (fun _ => uses device_info_entries) E (DeviceInfo.main loadFn).
Proof.
  unfold DeviceInfo.main, err_or_fail, or_fail. apply tidy_bind; [apply tidy_cuda_Init; listed_entry|]. intros [e|]; [apply tidy_ret|].
  apply tidy_bind; [entry_auto|]. intros [n [e|]]; cbn [fst snd]; [apply tidy_ret|]. destruct (n =? 0); [apply tidy_ret|].
  apply tidy_bind; [entry_auto|]. intros _. generalize 0. induction (Z.to_nat n) as [|k IH]; intros i; cbn [DeviceInfo.describe_from]; [apply tidy_ret|].
  apply tidy_bind; [|intros [f|]; [apply tidy_ret|apply IH]]. unfold DeviceInfo.describe, or_fail. entry_auto.
Qed.

Definition sibling_entries : list field :=
  [F_CuInit; F_CuDeviceGetCount; F_CuDeviceGet; F_CuDevicePrimaryCtxRetain; F_CuDevicePrimaryCtxRelease; F_CuStreamCreate; F_CuStreamCreateWithPriority; F_CuStreamDestroy;
   F_CuMemAlloc; F_CuMemFree].

Lemma sibling_settles loadFn : settling (uses sibling_entries) (SiblingModule.main loadFn).
Proof. unfold SiblingModule.main. settle; apply settling_tidy; intros E; entry_auto. Qed.


(** ** newBatch *)

(** A batch or an error and no batch. *)
Definition batch_or_error (r : option EventPipeline.workBatch * err) : Prop := is_Some r.1 <-> r.2 = None.

Lemma acquire_yields {A} op (m : M (option A * err)) k : (forall x, yields (k x) batch_or_error) -> yields (EventPipeline.acquire op m k) batch_or_error.
Proof. intros Hk. unfold EventPipeline.acquire. apply yields_then. intros [x [e|]]; cbn; [|apply Hk]. apply yields_ret. split; [intros []|]; done. Qed.

Lemma newBatch_body_yields c i : yields (EventPipeline.newBatch_body c i) batch_or_error.
Proof.
  unfold EventPipeline.newBatch_body. repeat (apply acquire_yields; intros ?). repeat (apply yields_then; intros ?). now apply yields_ret.
Qed.

(** C40.  [newBatch] reports no failure: it returns a batch and nil, or it does not return - when an allocation or an event is refused it panics with a nil
    dereference in its deferred function, after every object it had created has become unreachable and open - so that [run] never returns its error. *)
Theorem newBatch_never_fails (c : option Context) (i : Z) (s : state) :
  match EventPipeline.newBatch_body c i s with
  | (Done (_, Some e), s') => EventPipeline.newBatch c i s = (Panics "runtime error: invalid memory address or nil pointer dereference", s')
  | (Done (x, None), s') => is_Some x /\ EventPipeline.newBatch c i s = (Done (x, None), s')
  | (o, s') => EventPipeline.newBatch c i s = (o, s')
  end.
Proof.
  pose proof (newBatch_body_yields c i s) as Hy. unfold EventPipeline.newBatch, bind. destruct (EventPipeline.newBatch_body c i s) as [[[x [e|]]| | |] s']; try done.
  - specialize (Hy _ _ eq_refl). destruct x as [x|]; [|done]. discriminate (proj1 Hy (ex_intro _ x eq_refl)).
  - split; [|done]. now apply (Hy _ _ eq_refl).
Qed.

End Programs.
