(* ===== verification/ExampleRuns.v ===== *)
(** * Vector addition from the first call to the last, on any driver that accepts every call

    The driver answers the calls of the run with any handles and leaves any bytes in host memory; the process is fresh.  The run is evaluated with the answers
    as variables. *)

From Stdlib Require Import Floats.SpecFloat FunctionalExtensionality.
From S2P Require Import Prelude CudaSys Errors Runtime CudaResult ExecutorApi Context Dispatch Resource Handles Buffer ArgPack HostCb Loader Streams Modules Regions Launch LaunchProps Accessors Examples ExampleProps.

(** ** One operation at a time: what it returns and the state after it have names *)

Definition value {A} (o : outcome (option A * err)) : option A := match o with Done r => r.1 | _ => None end.
Definition succeeded {A} (o : outcome (option A * err)) : bool := match o with Done (Some _, None) => true | _ => false end.

Section Runs.
Context `{Foreign}.

Lemma bind_run {A B} (m : M A) (k : A -> M B) x s s' : (m s).1 = Done x -> (m s).2 = s' -> bind m k s = k x s'.
Proof. unfold bind. destruct (m s) as [o s1]. cbn. now intros -> ->. Qed.

Lemma try_run op m k s s' : (m s).1 = Done None -> (m s).2 = s' -> try op m k s = k s'.
Proof. apply bind_run. Qed.

Lemma try_val_run {A} op (m : M (option A * err)) k s x s' : succeeded (m s).1 = true -> value (m s).1 = x -> (m s).2 = s' -> try_val op m k s = k x s'.
Proof. unfold try_val, bind. destruct (m s) as [[[[y|] [e|]]| | |] s1]; cbn; try discriminate. now intros _ -> ->. Qed.

Lemma with_cleanup_run op close rest s v s' s'' :
  rest s = (Done v, s') -> (close s').1 = Done None -> (close s').2 = s'' -> with_cleanup op close rest s = (Done v, s'').
Proof. intros Hr Hc E. unfold with_cleanup, defer_err, cleanup. rewrite Hr. now rewrite (bind_run (A := err) _ _ None _ s''). Qed.

(** A loop whose turns only look: it ends without an error exactly when every turn does. *)
Lemma for_range_checks (body : Z -> M err) (P : Z -> Prop) s k : forall i,
  (forall j, i <= j < i + Z.of_nat k -> exists v, body j s = (Done v, s) /\ (v = None <-> P j)) ->
  exists v, for_range k i body s = (Done v, s) /\ (v = None <-> forall j, i <= j < i + Z.of_nat k -> P j).
Proof.
  induction k as [|k IH]; intros i Hb; cbn [for_range].
  - exists None. split; [reflexivity|]. split; [intros _ j Hj; lia|done].
  - destruct (Hb i) as (v & Hv & Hok); [lia|]. unfold bind. rewrite Hv. destruct v as [e|].
    + exists (Some e). split; [reflexivity|]. split; [done|]. intros Hall. apply Hok, Hall. lia.
    + destruct (IH (i + 1)) as (v & Hr & Hall); [intros j Hj; apply Hb; lia|]. exists v. split; [exact Hr|]. rewrite Hall. split.
      * intros Hj j Hj'. destruct (decide (j = i)) as [->|]; [now apply Hok|]. apply Hj. lia.
      * intros Hj j Hj'. apply Hj. lia.
Qed.

End Runs.

Section Accepting.

(** What the driver answers to its [k]-th call, the address of the [k]-th slice made, the bytes of host memory after [k] calls. *)
Variable answer : nat -> forall c : call, out c.
Variable address : nat -> Z -> Z.
Variable bytes_at : nat -> Z -> Z -> list Z.
Variable show : spec_float -> string.

(** One device. *)
Definition one_device (c : call) : out c -> out c := match c with CuDeviceGetCount => fun _ => 1 | _ => id end.

(** The world counts the calls and the slices. *)
#[local] Instance accepting_driver : Foreign := {|
  World := nat * nat;
  Sys _ c w := ((0, one_device c (answer w.1 c)), (S w.1, w.2))
|}.
#[local] Instance any_memory : HostMemory := {|
  hm_make n w := (address w.2 n, (w.1, S w.2));
  hm_read w p n := bytes_at w.1 p n
|}.
#[local] Instance any_stores : HostStores := {| hm_write _ _ w := w |}.
#[local] Instance complete_library : Loader.Linker := {|
  Loader.sys_open _ w := (inl 5, w);
  Loader.sys_lookup _ _ w := ((4660, None), w);
  Loader.sys_close _ w := (None, w);
  Loader.sys_register _ _ w := (None, w)
|}.

Definition fresh_process : state := mkState (0%nat, 0%nat) (mkEnv ∅ ∅ None ∅) 2 ∅ ∅ ∅ ∅ [] None [].
Definition loadFn : Loader.L (option Driver * err) := Loader.defaultLoad Loader.Linux.

(** The process once the library is loaded: every field of the driver is bound. *)
Definition loaded : state :=
  mkState (1%nat, 0%nat) (mkEnv ∅ ∅ None ∅) 2 ∅ ∅ ∅ ∅ [] (Some (mkDriver (Some 5) (fun _ => true))) [(wlocked pkg_mu (mkEnv ∅ ∅ None ∅), CuInit 0)].

Lemma state_parts (s : state) w E nx po ex cx la me dr tr :
  st_world s = w -> st_env s = E -> st_next s = nx -> st_polls s = po -> st_execs s = ex -> st_ctxs s = cx -> st_lanes s = la -> st_memOps s = me ->
  st_driver s = dr -> st_trace s = tr -> s = mkState w E nx po ex cx la me dr tr.
Proof. destruct s. cbn. congruence. Qed.

Lemma bound_driver (o : option Driver) :
  match o with Some d => bool_decide (drv_lib d = Some 5) && forallb (drv_bound d) all_fields | None => false end = true ->
  o = Some (mkDriver (Some 5) (fun _ => true)).
Proof.
  destruct o as [[lib bound]|]; [|done]. cbn [drv_lib drv_bound]. rewrite andb_true_iff, bool_decide_eq_true. intros [-> Hall]. f_equal. f_equal.
  apply functional_extensionality. intros f. rewrite forallb_forall in Hall. apply Hall. apply list_elem_of_In.
  eapply list_elem_of_lookup_2, all_fields_lookup.
Qed.

Lemma cuda_Init_loads : (cuda_Init loadFn fresh_process).2 = loaded.
Proof. apply state_parts; [vm_compute; reflexivity..|apply bound_driver; vm_compute; reflexivity|vm_compute; reflexivity]. Qed.

(** ** The run, operation by operation *)

Definition slice_made (o : outcome slice) : slice := match o with Done x => x | _ => mkSlice 0 0 end.

Notation n := VectorAdd.n.
Definition s1 : state := loaded.
Definition dev : option Device := value (Loader.GetDevice 0 s1).1.
Definition s2 : state := (Loader.GetDevice 0 s1).2.
Definition s3 : state := (Loader.Device_Name dev s2).2.
Definition ctx : option Context := value (Device_Primary dev s3).1.
Definition s4 : state := (Device_Primary dev s3).2.
Definition aHost : slice := slice_made (make_floats n s4).1.
Definition s5 : state := (make_floats n s4).2.
Definition bHost : slice := slice_made (make_floats n s5).1.
Definition s6 : state := (make_floats n s5).2.
Definition s7 : state := (for_range (Z.to_nat n) 0 (VectorAdd.fill aHost bHost) s6).2.
Definition a : option (Buffer Float32) := value (Alloc ctx n s7).1.
Definition s8 : state := (Alloc (T := Float32) ctx n s7).2.
Definition b : option (Buffer Float32) := value (Alloc ctx n s8).1.
Definition s9 : state := (Alloc (T := Float32) ctx n s8).2.
Definition c : option (Buffer Float32) := value (Alloc ctx n s9).1.
Definition s10 : state := (Alloc (T := Float32) ctx n s9).2.
Definition s11 : state := (Buffer_CopyFrom a Background aHost s10).2.
Definition s12 : state := (Buffer_CopyFrom b Background bHost s11).2.
Definition mod_ : option Module_ := value (LoadModule ctx vectorAddPTX s12).1.
Definition s13 : state := (LoadModule ctx vectorAddPTX s12).2.
Definition fn : option Function_ := value (Module_Function mod_ (bytes_of "vector_add") s13).1.
Definition s14 : state := (Module_Function mod_ (bytes_of "vector_add") s13).2.
Definition launch_it : M err :=
  let! r := Launch argpack.zeroBuilder fn Background (LaunchConfig1D n 256)
              [Some (Arg Float32 a); Some (Arg Float32 b); Some (Arg Float32 c); Some (ArgValue Int32 VectorAdd.type_int32 (VectorAdd.int32_bytes n))] in ret r.1.
Definition s15 : state := (launch_it s14).2.
Definition s16 : state := (Context_Synchronize ctx Background s15).2.
Definition got : slice := slice_made (make_floats n s16).1.
Definition s17 : state := (make_floats n s16).2.
Definition s18 : state := (Buffer_CopyTo c Background got s17).2.
Definition s19 : state := (Module_Close mod_ s18).2.
Definition s20 : state := (Buffer_Close c s19).2.
Definition s21 : state := (Buffer_Close b s20).2.
Definition s22 : state := (Buffer_Close a s21).2.
Definition s23 : state := (Context_Close ctx s22).2.

Ltac evaluates := vm_compute; reflexivity.
Ltac named :=
  lazymatch goal with
  | |- _ = Done (slice_made _) => evaluates
  | |- _ = ?x => first [is_const x; unfold x; exact eq_refl | evaluates]
  end.

(** Everything but the comparison. *)
Lemma run_shape v : for_range (Z.to_nat n) 0 (VectorAdd.check show aHost bHost got) s18 = (Done v, s18) ->
  VectorAdd.run loadFn argpack.zeroBuilder show fresh_process = (Done v, s23).
Proof.
  intros Hv. unfold VectorAdd.run.
  rewrite (try_run _ _ _ _ s1) by first [exact cuda_Init_loads|named]. rewrite (try_val_run _ _ _ _ dev s2) by named.
  assert (Hname : exists l, (Loader.Device_Name dev s2).1 = Done (l, None)) by (eexists; evaluates).
  destruct Hname as [l Hname]. unfold try_val at 1. rewrite (bind_run _ _ _ _ s3 Hname) by named. cbn [snd fst].
  rewrite (try_val_run _ _ _ _ ctx s4) by named. apply with_cleanup_run with (s' := s22); [|named..].
  rewrite (bind_run _ _ aHost _ s5) by named. rewrite (bind_run _ _ bHost _ s6) by named.
  rewrite (bind_run (A := err) _ _ None _ s7) by named.
  rewrite (try_val_run _ _ _ _ a s8) by named. apply with_cleanup_run with (s' := s21); [|named..].
  rewrite (try_val_run _ _ _ _ b s9) by named. apply with_cleanup_run with (s' := s20); [|named..].
  rewrite (try_val_run _ _ _ _ c s10) by named. apply with_cleanup_run with (s' := s19); [|named..].
  unfold VectorAdd.compute. rewrite (try_run _ _ _ _ s11) by named. rewrite (try_run _ _ _ _ s12) by named.
  rewrite (try_val_run _ _ _ _ mod_ s13) by named. apply with_cleanup_run with (s' := s18); [|named..].
  rewrite (try_val_run _ _ _ _ fn s14) by named. rewrite (try_run "launch" launch_it _ _ s15) by named. rewrite (try_run _ _ _ _ s16) by named.
  rewrite (bind_run _ _ got _ s17) by named. rewrite (try_run _ _ _ _ s18) by named. exact Hv.
Qed.

(** ** The comparison *)

(** The float32 at index [i] of a slice, in the memory after [k] calls. *)
Definition float_at (k : nat) (x : slice) (i : Z) : spec_float := float32_of_bytes (bytes_at k (sl_ptr x + 4 * i) 4).

Definition sum_ok (k : nat) (x y z : slice) (i : Z) : Prop := SFeqb (float_at k z i) (float32_add (float_at k x i) (float_at k y i)) = true.

Lemma get_float_run x i s : 0 <= i < sl_len x -> get_float x i s = (Done (float_at (st_world s).1 x i), s).
Proof.
  intros Hi. unfold get_float. replace ((0 <=? i) && (i <? sl_len x)) with true; [reflexivity|].
  symmetry. apply andb_true_iff. rewrite Z.leb_le, Z.ltb_lt. lia.
Qed.

Lemma check_run x y z i s : 0 <= i < n -> sl_len x = n -> sl_len y = n -> sl_len z = n ->
  exists v, VectorAdd.check show x y z i s = (Done v, s) /\ (v = None <-> sum_ok (st_world s).1 x y z i).
Proof.
  intros Hi Hx Hy Hz. unfold VectorAdd.check, bind. rewrite !get_float_run by lia. unfold sum_ok. destruct (SFeqb _ _); cbn.
  - now exists None.
  - eexists. split; [reflexivity|]. now split.
Qed.

(** The bytes of a device pointer and of [int32(n)], as the kernel reads its parameters. *)
Definition parameters (pa pb pc : Z) : kernel_params :=
  Some [handle_bytes pa; handle_bytes pb; handle_bytes pc; VectorAdd.int32_bytes n].

(** C13.  The vector addition from a fresh process, on a driver that accepts every call, whatever handles it gives and whatever it leaves in memory: the driver is asked for
    exactly these calls in this order - the library's set-up and the binding of its three threads, three allocations of 4096 bytes, the two copies up, the module, the function,
    one launch of 4 blocks of 256 threads whose parameters read as the three buffers and 1024, the synchronization, the copy down -, then the module is unloaded, the buffers
    are freed last to first and the context is released, each with the handle the driver gave for it; at the end no lock is held and exactly the program's five objects are closed;
    and the result is nil precisely when each of the 1024 floats in memory after the copy down (the 18th call) equals the float32 sum of its operands. *)
Theorem vector_add_run :
  let dv := answer 2 (CuDeviceGet 0) in
  let cx := answer 4 (CuDevicePrimaryCtxRetain dv) in
  let pa := answer 6 (CuMemAlloc 4096) in
  let pb := answer 7 (CuMemAlloc 4096) in
  let pc := answer 8 (CuMemAlloc 4096) in
  let md := answer 12 (CuModuleLoadData (vectorAddPTX ++ [0])) in
  let fn := answer 13 (CuModuleGetFunction md (c_name (bytes_of "vector_add"))) in
  let x := mkSlice (address 0 4096) n in
  let y := mkSlice (address 1 4096) n in
  let z := mkSlice (address 2 4096) n in
  exists v s,
    VectorAdd.run loadFn argpack.zeroBuilder show fresh_process = (Done v, s) /\
    map snd (rev (st_trace s)) =
      [CuInit 0; CuDeviceGetCount; CuDeviceGet 0; CuDeviceGetName 256 dv; CuDevicePrimaryCtxRetain dv; CuCtxSetCurrent cx;
       CuMemAlloc 4096; CuMemAlloc 4096; CuMemAlloc 4096;
       CuCtxSetCurrent cx; CuMemcpyHtoD pa (sl_ptr x) 4096; CuMemcpyHtoD pb (sl_ptr y) 4096;
       CuModuleLoadData (vectorAddPTX ++ [0]); CuModuleGetFunction md (c_name (bytes_of "vector_add"));
       CuLaunchKernel fn (4, 1, 1) (256, 1, 1) 0 0 (parameters pa pb pc);
       CuCtxSetCurrent cx; CuCtxSynchronize; CuMemcpyDtoH (sl_ptr z) pc 4096;
       CuModuleUnload md; CuMemFree pc; CuMemFree pb; CuMemFree pa;
       CuCtxSetCurrent 0; CuCtxSetCurrent 0; CuCtxSetCurrent 0; CuDevicePrimaryCtxRelease dv] /\
    env_locks_r (st_env s) = ∅ /\ env_locks_w (st_env s) = ∅ /\ env_thread (st_env s) = None /\ size (env_closed (st_env s)) = 5%nat /\
    (v = None <-> forall i, 0 <= i < n -> sum_ok 18 x y z i).
Proof.
  intros dv cx pa pb pc md fn' x y z.
  destruct (for_range_checks (VectorAdd.check show aHost bHost got) (sum_ok 18 aHost bHost got) s18 (Z.to_nat n) 0) as (v & Hv & Hall).
  { intros j Hj. destruct (check_run aHost bHost got j s18) as (v & Hv & Hok); [unfold n in *; lia|evaluates..|]. exists v. split; [exact Hv|]. rewrite Hok.
    now replace (st_world s18).1 with 18%nat by evaluates. }
  assert (Ex : aHost = x /\ bHost = y /\ got = z) by (split_and!; evaluates). destruct Ex as (Ex & Ey & Ez). rewrite Ex, Ey, Ez in Hall.
  exists v, s23. split; [now apply run_shape|]. split; [evaluates|]. split_and!; [evaluates..|exact Hall].
Qed.

End Accepting.

(** ** A driver that runs out of host memory *)

(** The second allocation of page-locked memory is refused; every other call is accepted.  The world counts such allocations. *)
Section Poor.

#[local] Instance poor_driver : Foreign := {|
  World := nat;
  Sys _ cl k := match cl with
    | CuMemAllocHost _ => ((if (k =? 1)%nat then CUDA_ERROR_OUT_OF_MEMORY else 0, one_device cl (out_zero cl)), S k)
    | _ => ((0, one_device cl (out_zero cl)), k)
    end
|}.
#[local] Instance no_memory : HostMemory := {| hm_make n w := (0, w); hm_read w p n := [] |}.
#[local] Instance no_stores : HostStores := {| hm_write _ _ w := w |}.
#[local] Instance poor_library : Loader.Linker := {|
  Loader.sys_open _ w := (inl 5, w);
  Loader.sys_lookup _ _ w := ((4660, None), w);
  Loader.sys_close _ w := (None, w);
  Loader.sys_register _ _ w := (None, w)
|}.

Definition poor_process : state := mkState 0%nat (mkEnv ∅ ∅ None ∅) 2 ∅ ∅ ∅ ∅ [] None [].
Definition out_of_memory : outcome err * state := EventPipeline.run (Loader.defaultLoad Loader.Linux) argpack.zeroBuilder (fun _ => EmptyString) poor_process.

(** The refusal is not reported: the program panics, and the block that was allocated before is never freed. *)
Example pipeline_panics : out_of_memory.1 = Panics "runtime error: invalid memory address or nil pointer dereference".
Proof. vm_compute. reflexivity. Qed.

Example pipeline_leaks :
  existsb (fun ev => match ev.2 with CuMemAllocHost _ => true | _ => false end) (st_trace out_of_memory.2) = true /\
  existsb (fun ev => match ev.2 with CuMemFreeHost _ => true | _ => false end) (st_trace out_of_memory.2) = false.
Proof. vm_compute. split; reflexivity. Qed.


End Poor.
