(* ===== verification/PipelineRun.v ===== *)
(** * The event pipeline from the first call to the last, on any driver that accepts every call, and the order its device work is given

    As in ExampleRuns.v the driver answers with any handles and leaves any bytes in host memory.  The loop that fills the host blocks, 2^20 turns, is not evaluated: it leaves
    the state as it is. *)

From Stdlib Require Import Floats.SpecFloat.
From S2P Require Import Prelude CudaSys Errors Runtime CudaResult ExecutorApi Context Dispatch Resource Handles Buffer ArgPack HostCb Loader Streams Modules Regions Launch LaunchProps Accessors Examples ExampleProps ExampleRuns.

(** ** The order of device work *)

(** The stream a call puts work on. *)
Definition stream_of (c : call) : option Z :=
  match c with
  | CuMemcpyHtoDAsync _ _ _ s | CuMemcpyDtoHAsync _ _ _ s | CuLaunchKernel _ _ _ _ s _ | CuEventRecord _ s | CuStreamWaitEvent s _ _ => Some s
  | _ => None
  end.

(** Of two calls of a trace the work of the first is done before that of the second starts: they are on one stream, or the second waits for an event whose last
    record is the first. *)
Inductive ordered (l : list call) : nat -> nat -> Prop :=
| on_one_stream i j ci cj s : (i < j)%nat -> l !! i = Some ci -> l !! j = Some cj -> stream_of ci = Some s -> stream_of cj = Some s -> ordered l i j
| by_event i j e s t f : (i < j)%nat -> l !! i = Some (CuEventRecord e s) -> l !! j = Some (CuStreamWaitEvent t e f) ->
    (forall k u, (i < k < j)%nat -> l !! k <> Some (CuEventRecord e u)) -> ordered l i j
| ordered_trans i j k : ordered l i j -> ordered l j k -> ordered l i k.

Section Accepting.

Variable answer : nat -> forall c : call, out c.
Variable address : nat -> Z -> Z.
Variable bytes_at : nat -> Z -> Z -> list Z.
Variable show : spec_float -> string.

#[local] Instance driver : Foreign := accepting_driver answer.
#[local] Instance memory : HostMemory := any_memory answer address bytes_at.
#[local] Instance stores : HostStores := any_stores answer.
#[local] Instance library : Loader.Linker := complete_library answer.

Import EventPipeline.

#[local] Notation load := (loadFn answer).

(** ** The states of the run *)

Definition p1 : state := loaded answer.
Definition dev : option Device := value (Loader.GetDevice 0 p1).1.
Definition p2 : state := (Loader.GetDevice 0 p1).2.
Definition p3 : state := (Loader.Device_Name dev p2).2.
Definition ctx : option Context := value (Device_Primary dev p3).1.
Definition p4 : state := (Device_Primary dev p3).2.
Definition copy : option Stream := value (NewStream ctx [] p4).1.
Definition p5 : state := (NewStream ctx [] p4).2.
Definition compute : option Stream := value (NewStream ctx [] p5).1.
Definition p6 : state := (NewStream ctx [] p5).2.
Definition start : option Event := value (NewEvent ctx [] p6).1.
Definition p7 : state := (NewEvent ctx [] p6).2.
Definition stop : option Event := value (NewEvent ctx [] p7).1.
Definition p8 : state := (NewEvent ctx [] p7).2.
Definition mod_ : option Module_ := value (LoadModule ctx vectorAddPTX p8).1.
Definition p9 : state := (LoadModule ctx vectorAddPTX p8).2.
Definition fn : option Function_ := value (Module_Function mod_ (bytes_of "vector_add") p9).1.
Definition p10 : state := (Module_Function mod_ (bytes_of "vector_add") p9).2.

(** What [newBatch] acquires from a state, one after the other. *)
Definition host (s : state) : option (HostBuffer Float32) := value (AllocHost Float32 ctx n s).1.
Definition host_s (s : state) : state := (AllocHost Float32 ctx n s).2.
Definition device (s : state) : option (Buffer Float32) := value (Alloc ctx n s).1.
Definition device_s (s : state) : state := (Alloc (T := Float32) ctx n s).2.
Definition event (s : state) : option Event := value (NewEvent ctx [Some WithEventDisableTiming] s).1.
Definition event_s (s : state) : state := (NewEvent ctx [Some WithEventDisableTiming] s).2.

Definition batch (s : state) : workBatch :=
  let h1 := host_s s in let h2 := host_s h1 in let h3 := host_s h2 in
  let d1 := device_s h3 in let d2 := device_s d1 in let d3 := device_s d2 in
  let e1 := event_s d3 in
  mkBatch (host s) (host h1) (host h2) (device h3) (device d1) (device d2) (event d3) (event e1).
Definition batch_s (s : state) : state := event_s (event_s (device_s (device_s (device_s (host_s (host_s (host_s s))))))).

Definition batch0 : workBatch := batch p10.
Definition p11 : state := batch_s p10.
Definition batch1 : workBatch := batch p11.
Definition p12 : state := batch_s p11.

(** The work of one batch is submitted, and its result fetched. *)
#[local] Notation record e x s := ((Event_Record e x s).2) (only parsing).
#[local] Notation wait_for x e s := ((Stream_WaitEvent x e s).2) (only parsing).
#[local] Notation upload d h s := ((Buffer_CopyFromHostAsync d Background copy (HostBuf h) s).2) (only parsing).
#[local] Notation download d h s := ((Buffer_CopyToHostAsync d Background copy (HostBuf h) s).2) (only parsing).
#[local] Notation launched x s := ((launch_batch argpack.zeroBuilder fn compute x s).2) (only parsing).

Definition p13 : state := record start copy p12.
Definition a1 : state := upload (a batch0) (aHost batch0) p13.
Definition a2 : state := upload (b batch0) (bHost batch0) a1.
Definition a3 : state := record (ready batch0) copy a2.
Definition a4 : state := wait_for compute (ready batch0) a3.
Definition a5 : state := launched batch0 a4.
Definition a6 : state := record (done_ batch0) compute a5.
Definition b1 : state := upload (a batch1) (aHost batch1) a6.
Definition b2 : state := upload (b batch1) (bHost batch1) b1.
Definition b3 : state := record (ready batch1) copy b2.
Definition b4 : state := wait_for compute (ready batch1) b3.
Definition b5 : state := launched batch1 b4.
Definition b6 : state := record (done_ batch1) compute b5.
Definition c1 : state := wait_for copy (done_ batch0) b6.
Definition c2 : state := download (c batch0) (cHost batch0) c1.
Definition c3 : state := wait_for copy (done_ batch1) c2.
Definition c4 : state := download (c batch1) (cHost batch1) c3.
Definition q1 : state := record stop copy c4.
Definition q2 : state := (Event_Query stop q1).2.
Definition q3 : state := (Event_Synchronize stop Background q2).2.
Definition q4 : state := (Event_Elapsed start stop q3).2.

(** What is closed, from the last made to the first. *)
Definition closed_batch (x : workBatch) (s : state) : state :=
  let s := (Event_Close (done_ x) s).2 in
  let s := (Event_Close (ready x) s).2 in
  let s := (Buffer_Close (c x) s).2 in
  let s := (Buffer_Close (b x) s).2 in
  let s := (Buffer_Close (a x) s).2 in
  let s := (HostBuffer_Close (cHost x) s).2 in
  let s := (HostBuffer_Close (bHost x) s).2 in
  (HostBuffer_Close (aHost x) s).2.
Definition q5 : state := closed_batch batch1 q4.
Definition q6 : state := closed_batch batch0 q5.
Definition q7 : state := (Module_Close mod_ q6).2.
Definition q8 : state := (Event_Close stop q7).2.
Definition q9 : state := (Event_Close start q8).2.
Definition q10 : state := (Stream_Close compute q9).2.
Definition q11 : state := (Stream_Close copy q10).2.
Definition q12 : state := (Context_Close ctx q11).2.

(** ** The run, operation by operation *)

Lemma set_float_run x i v s : 0 <= i < sl_len x -> set_float x i v s = (Done tt, s).
Proof.
  intros Hi. unfold set_float. replace ((0 <=? i) && (i <? sl_len x)) with true; [now destruct s as [[] ? ? ? ? ? ? ? ?]|].
  symmetry. apply andb_true_iff. rewrite Z.leb_le, Z.ltb_lt. lia.
Qed.

Lemma fill_loop_run sa sb base s k : forall i, 0 <= i -> i + Z.of_nat k <= sl_len sa -> i + Z.of_nat k <= sl_len sb ->
  for_range k i (fill sa sb base) s = (Done None, s).
Proof.
  induction k as [|k IH]; intros i Hi Ha Hb; cbn [for_range]; [reflexivity|]. unfold bind at 1, fill at 1, bind. rewrite !set_float_run by lia.
  cbn [ret]. apply IH; lia.
Qed.

Lemma acquire_run {A} op (m : M (option A * err)) k s x s' :
  succeeded (m s).1 = true -> value (m s).1 = x -> (m s).2 = s' -> acquire op m k s = k x s'.
Proof. unfold acquire, bind. destruct (m s) as [[[[y|] [e|]]| | |] s1]; cbn; try discriminate. now intros _ -> ->. Qed.

Lemma acquire_twice {A} op (m : M (option A * err)) k s : succeeded (m s).1 = true -> acquire op m k s = k (value (m s).1) (m s).2.
Proof. intros Hs. now apply acquire_run. Qed.

(** From [s] on every block and event of a batch is given. *)
Definition batch_given (s : state) : bool :=
  let h1 := host_s s in let h2 := host_s h1 in let h3 := host_s h2 in
  let d1 := device_s h3 in let d2 := device_s d1 in let d3 := device_s d2 in
  let e1 := event_s d3 in
  forallb (fun x => succeeded (AllocHost Float32 ctx n x).1) [s; h1; h2] &&
  forallb (fun x => succeeded (Alloc (T := Float32) ctx n x).1) [h3; d1; d2] &&
  forallb (fun x => succeeded (NewEvent ctx [Some WithEventDisableTiming] x).1) [d3; e1].

(** An open host block of the right length, not being closed; its slice. *)
Definition block_ok (h : option (HostBuffer Float32)) (s : state) : bool :=
  match h with
  | Some x => negb (bool_decide (hb_id x ∈ env_closed (st_env s))) && negb (bool_decide ((hb_id x, OpMu) ∈ env_locks_w (st_env s))) && (hb_length x =? n)
  | None => false
  end.
Definition block (h : option (HostBuffer Float32)) : slice := match h with Some x => mkSlice (hb_ptr x) (hb_length x) | None => mkSlice 0 0 end.

Lemma slice_run h s : block_ok h s = true -> slice_of h s = (Done (block h), s).
Proof.
  destruct h as [x|]; [|done]. cbn [block_ok]. rewrite !andb_true_iff, !negb_true_iff, !bool_decide_eq_false. intros [[Ho Hw] _].
  unfold slice_of, bind, HostBuffer_Slice. erewrite (opened_open (hb_id x) None _ s); [|exact Ho|exact Hw|reflexivity|exact I|reflexivity]. now destruct s.
Qed.

Lemma block_length h s : block_ok h s = true -> sl_len (block h) = n.
Proof. destruct h as [x|]; [|done]. cbn. rewrite !andb_true_iff, Z.eqb_eq. tauto. Qed.

Lemma newBatch_run i s : batch_given s = true -> block_ok (aHost (batch s)) (batch_s s) = true -> block_ok (bHost (batch s)) (batch_s s) = true ->
  newBatch ctx i s = (Done (Some (batch s), None), batch_s s).
Proof.
  unfold batch_given. cbn [forallb]. rewrite !andb_true_iff. intros (((H1 & H2 & H3 & _) & H4 & H5 & H6 & _) & H7 & H8 & _) Ha Hb.
  pose proof (block_length _ _ Ha) as La. pose proof (block_length _ _ Hb) as Lb.
  assert (Hbody : newBatch_body ctx i s = (Done (Some (batch s), None), batch_s s)).
  2:{ unfold newBatch, bind at 1. rewrite Hbody. reflexivity. }
  unfold newBatch_body.
  do 3 (rewrite acquire_twice by assumption). do 3 (rewrite acquire_twice by assumption). do 2 (rewrite acquire_twice by assumption).
  change (bind (slice_of (aHost (batch s))) (fun sa => bind (slice_of (bHost (batch s))) (fun sb =>
    bind (for_range (Z.to_nat (sl_len sa)) 0 (fill sa sb (float32_of_int (i * n)))) (fun _ => ret (Some (batch s), None : err)))) (batch_s s) =
    (Done (Some (batch s), None), batch_s s)).
  unfold bind at 1. rewrite (slice_run _ _ Ha). unfold bind at 1. rewrite (slice_run _ _ Hb). unfold bind at 1. rewrite fill_loop_run; [reflexivity|lia|..]; rewrite ?La, ?Lb; unfold n; lia.
Qed.

Definition fine (o : outcome err) : bool := match o with Done None => true | _ => false end.

(** Every resource of the batch is there, and every [Close] returns nil. *)
Definition closes_well (x : workBatch) (s : state) : bool :=
  let s1 := (Event_Close (done_ x) s).2 in
  let s2 := (Event_Close (ready x) s1).2 in
  let s3 := (Buffer_Close (c x) s2).2 in
  let s4 := (Buffer_Close (b x) s3).2 in
  let s5 := (Buffer_Close (a x) s4).2 in
  let s6 := (HostBuffer_Close (cHost x) s5).2 in
  let s7 := (HostBuffer_Close (bHost x) s6).2 in
  bool_decide (is_Some (done_ x) /\ is_Some (ready x)) && bool_decide (is_Some (c x) /\ is_Some (b x) /\ is_Some (a x)) &&
  bool_decide (is_Some (cHost x) /\ is_Some (bHost x) /\ is_Some (aHost x)) &&
  fine (Event_Close (done_ x) s).1 && fine (Event_Close (ready x) s1).1 && fine (Buffer_Close (c x) s2).1 && fine (Buffer_Close (b x) s3).1 &&
  fine (Buffer_Close (a x) s4).1 && fine (HostBuffer_Close (cHost x) s5).1 && fine (HostBuffer_Close (bHost x) s6).1 && fine (HostBuffer_Close (aHost x) s7).1.

Lemma close_if_run {A} (x : option A) op close e s : is_Some x -> fine (close x s).1 = true -> close_if x op close e s = (Done e, (close x s).2).
Proof. intros [y ->] Hf. cbn [close_if]. unfold cleanup, bind. destruct (close (Some y) s) as [[[?|]| | |] s']; try discriminate. reflexivity. Qed.

Lemma workBatch_close_run i x e s : closes_well x s = true -> workBatch_close (Some x) i e s = (Done e, closed_batch x s).
Proof.
  unfold closes_well. rewrite !andb_true_iff, !bool_decide_eq_true.
  intros Hw. destruct_and? Hw.
  unfold workBatch_close. cbn [deref]. unfold bind at 1. cbn [ret].
  do 7 (unfold bind at 1; rewrite close_if_run by assumption). now rewrite close_if_run by assumption.
Qed.

Lemma ltry_run op m k f s s' : (m s).1 = Done None -> (m s).2 = s' -> ltry op m k (f, s) = k (f, s').
Proof. unfold ltry, lbind, llift. cbn [fst snd]. destruct (m s) as [o s1]. cbn. now intros -> ->. Qed.

Lemma lbind_run {A B} (m : M A) (k : A -> LM B) f s x s' : (m s).1 = Done x -> (m s).2 = s' -> lbind (llift m) k (f, s) = k x (f, s').
Proof. unfold lbind, llift. cbn [fst snd]. destruct (m s) as [o s1]. cbn. now intros -> ->. Qed.

(** ** The comparison *)

(** The float32 at index [j] of a batch's host block, in the memory after [k] calls. *)
Lemma verify_at_run i x y z j s : 0 <= j < n -> sl_len x = n -> sl_len y = n -> sl_len z = n ->
  exists v, verify_at show i x y z j s = (Done v, s) /\ (v = None <-> sum_ok bytes_at (st_world s).1 x y z j).
Proof.
  intros Hj Hx Hy Hz. unfold verify_at, bind. rewrite !(get_float_run answer address bytes_at) by lia. unfold sum_ok. destruct (SFeqb _ _); cbn [ret].
  - now exists None.
  - eexists. split; [reflexivity|]. now split.
Qed.

(** The sums of a batch, in the memory after [k] calls. *)
Definition sums (x : workBatch) (k : nat) (j : Z) : Prop := sum_ok bytes_at k (block (aHost x)) (block (bHost x)) (block (cHost x)) j.

Lemma verifyBatch_run i x s : block_ok (aHost x) s = true -> block_ok (bHost x) s = true -> block_ok (cHost x) s = true ->
  exists v, verifyBatch show i x s = (Done v, s) /\ (v = None <-> forall j, 0 <= j < n -> sums x (st_world s).1 j).
Proof.
  intros Ha Hb Hc. pose proof (block_length _ _ Ha) as La. pose proof (block_length _ _ Hb) as Lb. pose proof (block_length _ _ Hc) as Lc.
  unfold verifyBatch. unfold bind at 1. rewrite (slice_run _ _ Ha). unfold bind at 1. rewrite (slice_run _ _ Hb). unfold bind at 1. rewrite (slice_run _ _ Hc).
  destruct (for_range_checks (verify_at show i (block (aHost x)) (block (bHost x)) (block (cHost x))) (sums x (st_world s).1) s
              (Z.to_nat (sl_len (block (cHost x)))) 0) as (v & Hv & Hall).
  - intros j Hj. apply verify_at_run; [|done..]. rewrite Lc in Hj. unfold n in *. lia.
  - exists v. split; [exact Hv|]. rewrite Hall, Lc. split; intros H j Hj; apply H; unfold n in *; lia.
Qed.

(** ** The submitted work *)

(** Results are evaluated; a state is the one that was given this name. *)
Ltac named :=
  lazymatch goal with
  | |- _ = Done _ => vm_compute; reflexivity
  | |- _ = true => vm_compute; reflexivity
  | |- _ = ?x => unfold x; exact eq_refl
  end.


Definition no_error {A} (o : outcome (A * err)) : bool := match o with Done (_, None) => true | _ => false end.
Lemma no_error_done {A} (o : outcome (A * err)) : no_error o = true -> exists r, o = Done (r, None).
Proof. destruct o as [[r [e|]]| | |]; try discriminate. now exists r. Qed.

Lemma submitted_run {B} v (k : unit -> LM B) f s : lbind (set_submitted v) k (f, s) = k tt (v, s).
Proof. reflexivity. Qed.

Lemma submit_run fn co cm i x xs k f s0 s1 s2 s3 s4 s5 s6 :
  (Buffer_CopyFromHostAsync (a x) Background co (HostBuf (aHost x)) s0).1 = Done None -> (Buffer_CopyFromHostAsync (a x) Background co (HostBuf (aHost x)) s0).2 = s1 ->
  (Buffer_CopyFromHostAsync (b x) Background co (HostBuf (bHost x)) s1).1 = Done None -> (Buffer_CopyFromHostAsync (b x) Background co (HostBuf (bHost x)) s1).2 = s2 ->
  (Event_Record (ready x) co s2).1 = Done None -> (Event_Record (ready x) co s2).2 = s3 ->
  (Stream_WaitEvent cm (ready x) s3).1 = Done None -> (Stream_WaitEvent cm (ready x) s3).2 = s4 ->
  (launch_batch argpack.zeroBuilder fn cm x s4).1 = Done None -> (launch_batch argpack.zeroBuilder fn cm x s4).2 = s5 ->
  (Event_Record (done_ x) cm s5).1 = Done None -> (Event_Record (done_ x) cm s5).2 = s6 ->
  submit_from argpack.zeroBuilder fn co cm i (x :: xs) k (f, s0) = submit_from argpack.zeroBuilder fn co cm (i + 1) xs k (true, s6).
Proof.
  intros H1 E1 H2 E2 H3 E3 H4 E4 H5 E5 H6 E6. cbn [submit_from]. unfold submit_batch.
  rewrite (ltry_run _ _ _ _ _ s1 H1 E1), submitted_run, (ltry_run _ _ _ _ _ s2 H2 E2), (ltry_run _ _ _ _ _ s3 H3 E3), (ltry_run _ _ _ _ _ s4 H4 E4),
    (ltry_run _ _ _ _ _ s5 H5 E5), (ltry_run _ _ _ _ _ s6 H6 E6). reflexivity.
Qed.

Lemma collect_run co i x xs k f s0 s1 s2 :
  (Stream_WaitEvent co (done_ x) s0).1 = Done None -> (Stream_WaitEvent co (done_ x) s0).2 = s1 ->
  (Buffer_CopyToHostAsync (c x) Background co (HostBuf (cHost x)) s1).1 = Done None -> (Buffer_CopyToHostAsync (c x) Background co (HostBuf (cHost x)) s1).2 = s2 ->
  collect_from co i (x :: xs) k (f, s0) = collect_from co (i + 1) xs k (f, s2).
Proof. intros H1 E1 H2 E2. cbn [collect_from]. now rewrite (ltry_run _ _ _ _ _ s1 H1 E1), (ltry_run _ _ _ _ _ s2 H2 E2). Qed.

Lemma finish_steps e1 e2 xs f s0 s1 s2 s3 v :
  (Event_Query e2 s0).1 = Done None -> (Event_Query e2 s0).2 = s1 ->
  (Event_Synchronize e2 Background s1).1 = Done None -> (Event_Synchronize e2 Background s1).2 = s2 ->
  no_error (Event_Elapsed e1 e2 s2).1 = true -> (Event_Elapsed e1 e2 s2).2 = s3 -> verify_from show 0 xs s3 = (Done v, s3) ->
  finish show e1 e2 xs (f, s0) = (Done v, (false, s3)).
Proof.
  intros H1 E1 H2 E2 H3 E3 Hv. unfold finish. rewrite (lbind_run (A := err) _ _ _ _ None s1 H1 E1). cbn [is_nil negb andb].
  rewrite (ltry_run _ _ _ _ _ s2 H2 E2), submitted_run. destruct (no_error_done _ H3) as [ms He].
  rewrite (lbind_run _ _ _ _ _ s3 He E3). cbn [snd]. unfold llift. cbn [fst snd]. now rewrite Hv.
Qed.

Lemma pipeline_run v : verify_from show 0 [batch0; batch1] q4 = (Done v, q4) ->
  pipeline argpack.zeroBuilder show fn copy compute start stop [batch0; batch1] (false, p12) = (Done v, (false, q4)).
Proof.
  intros Hv. unfold pipeline. rewrite (ltry_run _ _ _ _ _ p13) by named.
  rewrite (submit_run _ _ _ _ _ _ _ _ _ a1 a2 a3 a4 a5 a6) by named. rewrite (submit_run _ _ _ _ _ _ _ _ _ b1 b2 b3 b4 b5 b6) by named.
  change (submit_from argpack.zeroBuilder fn copy compute (0 + 1 + 1) []) with (fun k : LM err => k). cbv beta.
  rewrite (collect_run _ _ _ _ _ _ _ c1 c2) by named. rewrite (collect_run _ _ _ _ _ _ _ c3 c4) by named.
  change (collect_from copy (0 + 1 + 1) []) with (fun k : LM err => k). cbv beta.
  rewrite (ltry_run _ _ _ _ _ q1) by named. apply (finish_steps _ _ _ _ _ q2 q3); named || exact Hv.
Qed.

Lemma with_batches_run k i xs rest s x s1 v s2 :
  newBatch ctx i s = (Done (Some x, None), s1) -> with_batches ctx k (i + 1) (xs ++ [x]) rest s1 = (Done v, s2) -> closes_well x s2 = true ->
  with_batches ctx (S k) i xs rest s = (Done v, closed_batch x s2).
Proof.
  intros Hn Hr Hc. cbn [with_batches]. unfold bind at 1. rewrite Hn. cbn [fst snd]. unfold defer_err. unfold bind at 1, deref at 1. unfold ret at 1.
  rewrite Hr. now apply workBatch_close_run.
Qed.

(** Everything but the comparison. *)
Lemma pipeline_shape v : verify_from show 0 [batch0; batch1] q4 = (Done v, q4) ->
  run load argpack.zeroBuilder show (fresh_process answer) = (Done v, q12).
Proof.
  intros Hv. unfold run.
  rewrite (try_run _ _ _ _ p1) by first [exact (cuda_Init_loads answer)|named]. rewrite (try_val_run _ _ _ _ dev p2) by named.
  destruct (no_error_done (Loader.Device_Name dev p2).1) as [l Hname]; [named|]. unfold try_val at 1. rewrite (bind_run _ _ _ _ p3 Hname) by named. cbn [snd fst].
  rewrite (try_val_run _ _ _ _ ctx p4) by named. apply with_cleanup_run with (s' := q11); [|named..].
  rewrite (try_val_run _ _ _ _ copy p5) by named. apply with_cleanup_run with (s' := q10); [|named..].
  rewrite (try_val_run _ _ _ _ compute p6) by named. apply with_cleanup_run with (s' := q9); [|named..].
  rewrite (try_val_run _ _ _ _ start p7) by named. apply with_cleanup_run with (s' := q8); [|named..].
  rewrite (try_val_run _ _ _ _ stop p8) by named. apply with_cleanup_run with (s' := q7); [|named..].
  rewrite (try_val_run _ _ _ _ mod_ p9) by named. apply with_cleanup_run with (s' := q6); [|named..].
  rewrite (try_val_run _ _ _ _ fn p10) by named.
  apply (with_batches_run 1 0 [] _ p10 batch0 p11 v q5); [apply newBatch_run; named| |named].
  apply (with_batches_run 0 (0 + 1) [batch0] _ p11 batch1 p12 v q4); [apply newBatch_run; named| |named].
  cbn [with_batches app]. unfold with_submitted. change (accepting_driver answer) with driver. rewrite (pipeline_run v Hv). reflexivity.
Qed.

Lemma verify_from_run x y s P Q :
  (exists v, verifyBatch show 0 x s = (Done v, s) /\ (v = None <-> P)) -> (exists v, verifyBatch show 1 y s = (Done v, s) /\ (v = None <-> Q)) ->
  exists v, verify_from show 0 [x; y] s = (Done v, s) /\ (v = None <-> P /\ Q).
Proof.
  intros (v & Hv & Hp) (w & Hw & Hq). cbn [verify_from]. unfold bind at 1. rewrite Hv. destruct v as [e|].
  - exists (Some e). split; [reflexivity|]. split; [done|]. intros [HP _]. now apply Hp.
  - change (0 + 1) with 1. unfold bind at 1. rewrite Hw. destruct w as [e|].
    + exists (Some e). split; [reflexivity|]. split; [done|]. intros [_ HQ]. now apply Hq.
    + exists None. split; [reflexivity|]. split; [|done]. intros _. split; [now apply Hp|now apply Hq].
Qed.

(** ** The calls *)

Definition size_bytes : Z := 4194304.
Definition dv : Z := answer 2 (CuDeviceGet 0).
Definition cx : Z := answer 4 (CuDevicePrimaryCtxRetain dv).
Definition copy_stream : Z := answer 6 (CuStreamCreate 1).
Definition compute_stream : Z := answer 7 (CuStreamCreate 1).
Definition start_event : Z := answer 8 (CuEventCreate 0).
Definition stop_event : Z := answer 9 (CuEventCreate 0).
Definition md : Z := answer 10 (CuModuleLoadData (vectorAddPTX ++ [0])).
Definition kernel : Z := answer 11 (CuModuleGetFunction md (c_name (bytes_of "vector_add"))).

(** What the [k]-th call gave, when it was such a call. *)
Definition host_block (k : nat) : Z := answer k (CuMemAllocHost size_bytes).
Definition device_block (k : nat) : Z := answer k (CuMemAlloc size_bytes).
Definition event_given (k : nat) : Z := answer k (CuEventCreate 2).

(** A batch whose first acquisition was the [k]-th call. *)
Definition acquisition : list call :=
  [CuMemAllocHost size_bytes; CuMemAllocHost size_bytes; CuMemAllocHost size_bytes; CuMemAlloc size_bytes; CuMemAlloc size_bytes; CuMemAlloc size_bytes;
   CuEventCreate 2; CuEventCreate 2].
Definition submission (k : nat) : list call :=
  [CuMemcpyHtoDAsync (device_block (k + 3)) (host_block k) size_bytes copy_stream;
   CuMemcpyHtoDAsync (device_block (k + 4)) (host_block (k + 1)) size_bytes copy_stream;
   CuEventRecord (event_given (k + 6)) copy_stream;
   CuStreamWaitEvent compute_stream (event_given (k + 6)) 0;
   CuLaunchKernel kernel (4096, 1, 1) (256, 1, 1) 0 compute_stream
     (Some [handle_bytes (device_block (k + 3)); handle_bytes (device_block (k + 4)); handle_bytes (device_block (k + 5)); VectorAdd.int32_bytes n]);
   CuEventRecord (event_given (k + 7)) compute_stream].
Definition collection (k : nat) : list call :=
  [CuStreamWaitEvent copy_stream (event_given (k + 7)) 0; CuMemcpyDtoHAsync (host_block (k + 2)) (device_block (k + 5)) size_bytes copy_stream].
Definition closing_calls (k : nat) : list call :=
  [CuEventDestroy (event_given (k + 7)); CuEventDestroy (event_given (k + 6));
   CuMemFree (device_block (k + 5)); CuMemFree (device_block (k + 4)); CuMemFree (device_block (k + 3));
   CuMemFreeHost (host_block (k + 2)); CuMemFreeHost (host_block (k + 1)); CuMemFreeHost (host_block k)].

Definition calls_made : list call :=
  [CuInit 0; CuDeviceGetCount; CuDeviceGet 0; CuDeviceGetName 256 dv; CuDevicePrimaryCtxRetain dv; CuCtxSetCurrent cx;
   CuStreamCreate 1; CuStreamCreate 1; CuEventCreate 0; CuEventCreate 0;
   CuModuleLoadData (vectorAddPTX ++ [0]); CuModuleGetFunction md (c_name (bytes_of "vector_add"))] ++
  acquisition ++ acquisition ++
  [CuEventRecord start_event copy_stream] ++ submission 12 ++ submission 20 ++ collection 12 ++ collection 20 ++ [CuEventRecord stop_event copy_stream] ++
  [CuEventQuery stop_event; CuCtxSetCurrent cx; CuEventSynchronize stop_event; CuEventElapsedTime start_event stop_event] ++
  closing_calls 20 ++ closing_calls 12 ++
  [CuModuleUnload md; CuEventDestroy stop_event; CuEventDestroy start_event; CuStreamDestroy compute_stream; CuStreamDestroy copy_stream;
   CuCtxSetCurrent 0; CuCtxSetCurrent 0; CuDevicePrimaryCtxRelease dv].

Definition host_slice (k : nat) : slice := mkSlice (host_block k) n.

(** Calls of a batch by their positions: batch [b] is submitted from position [29 + 6 * b] on; uploads, record, wait, launch, record.  The launch waits for the uploads. *)
Lemma uploads_launch b : (b < 2)%nat -> let k := (29 + 6 * b)%nat in
  ordered calls_made k (k + 4) /\ ordered calls_made (k + 1) (k + 4).
Proof.
  intros Hb k.
  assert (Hwait : ordered calls_made (k + 2) (k + 3)).
  { destruct b as [|[|b]]; [| |lia]; (eapply by_event; [lia|reflexivity|reflexivity|intros m u Hm; lia]). }
  assert (Hlaunch : ordered calls_made (k + 3) (k + 4)) by (destruct b as [|[|b]]; [| |lia]; (eapply on_one_stream; [lia|reflexivity..])).
  split; (eapply ordered_trans; [|eapply ordered_trans; [exact Hwait|exact Hlaunch]]); destruct b as [|[|b]]; [| |lia| | |lia]; (eapply on_one_stream; [lia|reflexivity..]).
Qed.

(** Between the record of the first batch's [done] and the wait for it other events are recorded: they have to be other events. *)
Lemma launch_download b : (b < 2)%nat -> event_given 19 <> event_given 26 -> event_given 19 <> event_given 27 -> let k := (29 + 6 * b)%nat in
  ordered calls_made (k + 4) (42 + 2 * b).
Proof.
  intros Hb Hn1 Hn2 k. apply (ordered_trans _ _ (k + 5)); [destruct b as [|[|b]]; [| |lia]; (eapply on_one_stream; [lia|reflexivity..])|].
  apply (ordered_trans _ _ (41 + 2 * b)); [|destruct b as [|[|b]]; [| |lia]; (eapply on_one_stream; [lia|reflexivity..])].
  destruct b as [|[|b]]; [| |lia]; (eapply by_event; [lia|reflexivity|reflexivity|]); intros m u Hm He.
  - assert (Hc : (m = 35 \/ m = 36 \/ m = 37 \/ m = 38 \/ m = 39 \/ m = 40)%nat) by lia.
    destruct Hc as [-> | [-> | [-> | [-> | [-> | ->]]]]]; injection He; congruence.
  - assert (Hc : (m = 41 \/ m = 42)%nat) by lia. destruct Hc as [-> | ->]; discriminate He.
Qed.

(** C14.  The event pipeline on a driver that accepts every call, whatever handles it gives and whatever bytes it leaves in host memory: the program makes the
    listed calls and no others, in that order, ends without a held lock and with all 22 objects closed, and returns nil if and only if in the memory after the fiftieth call, made
    after the stop event was synchronized, every sum of both batches is right.  If the driver gives the first batch's done event and the second batch's events
    different handles, the streams and events it was asked to use order the device work of each batch: both uploads before the launch, the launch before the
    download, and the download before the stop event the host waits for. *)
Theorem event_pipeline_run :
  (exists v s,
    run load argpack.zeroBuilder show (fresh_process answer) = (Done v, s) /\
    map snd (rev (st_trace s)) = calls_made /\
    env_locks_r (st_env s) = ∅ /\ env_locks_w (st_env s) = ∅ /\ env_thread (st_env s) = None /\ size (env_closed (st_env s)) = 22%nat /\
    (v = None <-> (forall j, 0 <= j < n -> sum_ok bytes_at 50 (host_slice 12) (host_slice 13) (host_slice 14) j) /\
                  (forall j, 0 <= j < n -> sum_ok bytes_at 50 (host_slice 20) (host_slice 21) (host_slice 22) j))) /\
  (event_given 19 <> event_given 26 -> event_given 19 <> event_given 27 -> forall b, (b < 2)%nat ->
    let upload := (29 + 6 * b)%nat in let launch := (upload + 4)%nat in let download := (42 + 2 * b)%nat in
    ordered calls_made upload launch /\ ordered calls_made (upload + 1) launch /\ ordered calls_made launch download /\ ordered calls_made download 45).
Proof.
  split.
  - destruct (verify_from_run batch0 batch1 q4 (forall j, 0 <= j < n -> sums batch0 50 j) (forall j, 0 <= j < n -> sums batch1 50 j)) as (v & Hv & Hall).
    + apply (verifyBatch_run 0 batch0 q4); named.
    + apply (verifyBatch_run 1 batch1 q4); named.
    + exists v, q12. split; [now apply pipeline_shape|]. split; [vm_compute; reflexivity|]. split_and!; [vm_compute; reflexivity..|exact Hall].
  - intros Hn1 Hn2 b Hb. split_and!; [now apply uploads_launch..|now apply launch_download|].
    destruct b as [|[|b]]; [| |lia]; (eapply on_one_stream; [lia|reflexivity..]).
Qed.

End Accepting.

(** A driver whose handles are the numbers of the calls. *)
Definition numbered (k : nat) (c : call) : out c :=
  (match c as c return out c -> out c with
   | CuEventCreate _ | CuStreamCreate _ | CuMemAlloc _ | CuMemAllocHost _ => fun _ => Z.of_nat k
   | _ => id
   end) (out_zero c).

Lemma event_pipeline_run_witness :
  event_given numbered 19 <> event_given numbered 26 /\ event_given numbered 19 <> event_given numbered 27 /\
  ordered (calls_made numbered) 29 33 /\ ordered (calls_made numbered) 33 42 /\ ordered (calls_made numbered) 39 44 /\
  ordered (calls_made numbered) 44 45.
Proof.
  assert (H1 : event_given numbered 19 <> event_given numbered 26) by done. assert (H2 : event_given numbered 19 <> event_given numbered 27) by done.
  pose proof (proj2 (event_pipeline_run numbered (fun _ _ => 4096) (fun _ _ _ => []) (fun _ => EmptyString)) H1 H2) as Hall.
  destruct (Hall 0%nat ltac:(lia)) as (Ha & _ & Hb & _), (Hall 1%nat ltac:(lia)) as (_ & _ & Hc & Hd). cbv zeta in *.
  split_and!; [exact H1|exact H2|exact Ha|exact Hb|exact Hc|exact Hd].
Defined.
